(* ===== verification/_CoqProject ===== *)
-Q . S2P
Prelude.v
JsString.v
Types.v
Regex.v
RegexFacts.v
Pattern.v
PatternFacts.v
Segments.v
Mapping.v
Store.v
Extract.v
Merge.v
Batch.v
Export.v
Forms.v
Catalog.v
Workflow.v
Async.v
Screen.v
App.v
Settling.v
