(* ===== verification/Prelude.v ===== *)
(** * DocMerge: a verification development for the template merge application

    The program is a browser application (TypeScript, React) that lets a user
    keep templates with named placeholders, bind the placeholders to the
    columns of a tabular dataset or to values typed into a form, and produce
    one rendered document per data row, exported singly or as an archive.
    Templates are kept in a remote table and a remote file store.

    ** The parts of the program and the files that model them

    - [src/src/types/template.ts]: the interfaces Template, DataRow,
      FieldMapping and MergedDocument.  [Types.v]: records with the field
      names of the source; a row is an association list from field names to
      values (a JavaScript object keeps its keys in insertion order, and
      [Object.keys] is observable), a value is a string or an integer.
    - [src/src/lib/templateUtils.ts], [extractPlaceholders], and the scan of
      [extractPlaceholdersFromWord] in [src/src/lib/wordDocumentUtils.ts]:
      [Extract.v].  The two [regex.exec] loops as the source writes them, and
      a direct scanner [holes] that they are proved equal to.
    - [templateUtils.ts], [mergeSingleDocument]: [Merge.v].  The [forEach]
      over the mappings; each step builds its pattern with [new RegExp] from
      the placeholder name and calls [replace].  [Segments.v] holds the
      abstract view of a template as text and holes and the specification
      [instantiate] the merge is proved to implement.  What a merge function
      promises its callers is the class [MergeContract]; [Batch.v] proves
      the batch against the class and [Merge.v] gives the instance for
      [mergeSingleDocument].
    - [templateUtils.ts], [mergeAllDocuments], and [wordDocumentUtils.ts],
      [mergeWordDocument], [mergeAllWordDocuments] and [fileToBase64]:
      [Batch.v].  The library that renders a .docx file is an argument,
      [engine].  [Settling.v] is [mergeAllWordDocuments] as [Promise.all]
      runs it: the record of the promise it returns, and the rows settling
      one after the other in an order that is an argument.
    - [src/src/components/FieldMapper.tsx]: [Mapping.v], module
      [FieldMapper]: the automatic mapping of the effect, the override of one
      binding, the completion test, the states the component reaches, and
      the rows and the button it renders.
    - [templateUtils.ts], [saveTemplate], [getTemplates], [getTemplate],
      [deleteTemplate], [getTemplateFile]: [Store.v], module [Store].  The
      remote table and bucket are a record [remote]; each function takes an
      [outcome] that says which of its remote calls succeed.
    - [src/src/components/DocumentPreview.tsx]: [Export.v], module
      [DocumentPreview]: paging, the download of one document and the
      archive of all, for both kinds of template, and the four buttons the
      component renders; with it [downloadWordDocument] of
      [wordDocumentUtils.ts].
    - [src/src/components/TemplateEditor.tsx], [WordTemplateUploader.tsx],
      [DatasetUploader.tsx], [ManualFormFiller.tsx]: [Forms.v], one module
      for each component.
    - [src/src/components/TemplateList.tsx] and, under [templates/],
      [TemplateHeader.tsx], [EmptyState.tsx], [TemplateCard.tsx],
      [RenameDialog.tsx] and [DeleteConfirmDialog.tsx];
      [StepIndicator.tsx] and [Navbar.tsx]: [Catalog.v], one module for each
      component, and in [TemplateList] the list put together with its
      children.
    - [src/src/pages/Index.tsx]: [Workflow.v], module [Index].  The ten
      state variables are a record, each handler a function on it, the
      render the function [view] from the state to the screens on display,
      and the page a transition system [reachable] over the events the
      screens raise, each handler run to its end.  [Async.v], module
      [Async], stops the four handlers that await at each [await]: a
      configuration holds the page, the remote side and the handlers under
      way, and a step is an event of the user, a call served or a handler
      resumed.  [App.v], module [App], puts the components in the places
      where the page renders them.

    ** How a component is modelled

    A React component is its state as a record and one function for each
    handler, from the state before to the state after together with what the
    handler hands to its callbacks and the notification it raises.  A
    handler that awaits is modelled by its outcome, with the result of the
    awaited call as an argument; only the handlers of the page are also
    modelled step by step ([Async.v]).

    What a component renders is modelled by its controls: the type [action]
    of the module lists what the user can do on the markup (a field typed
    into, a button clicked, a file dropped), [available] is the condition
    under which the render displays and enables the control, and [act] runs
    the handler the JSX wires to it and returns the calls the component
    makes on the properties it was given ([call]).  The texts the render
    computes from the state (labels, counts, the rows of a table) are
    functions of the module.  Class names, icons and constant markup are
    left out.

    The class [Screen] of [Screen.v] is what a component is for the page
    that mounts it: the state after the first render, the state after a
    render with new properties, the controls and the calls.  [reconcile] is
    the rule by which React keeps the state of a component while the page
    goes on rendering it and starts it afresh otherwise.  [ScreenLaws] is
    what the page relies on: an invariant of the component and a condition
    on every call it makes.  [App.v] declares the seven components of the
    page instances of [Screen], proves [ScreenLaws] for each from the lemmas
    of the component's file, and proves its theorems about the page against
    the class.  The dialogs of the list are modal: while one is open the
    controls behind it are not available.

    ** The layers below the components

    - [Prelude.v] (this file): strings as lists of code units, the type
      [result] of operations that can throw with its bind, [forEach] and
      [all_ok], the hint database [docmerge], and the lemmas on
      [take_while] and [drop_while] and on lists that the components share.
    - [JsString.v]: the string operations of ECMAScript the sources call
      ([trim], [toLowerCase], [toUpperCase], [includes], [endsWith],
      [split], [join], [pop], [String(n)]) and the insertion-ordered [Set].
    - [Regex.v] and [RegexFacts.v]: regular expressions as an inductive
      type, the backtracking matcher with captures and greedy and lazy
      repetition, [exec] with its [lastIndex], [replace] with a global
      pattern and the [$]-patterns of the replacement text; and the facts
      about them: the matcher only moves forward, a global scan ends, fuel
      beyond the bound changes nothing.
    - [Pattern.v] and [PatternFacts.v]: the pattern grammar [new RegExp]
      reads, as a parser from pattern texts to regular expressions or a
      SyntaxError, and the proof that the parser never runs out of fuel.

    ** Bounds and fuel

    - A string is a list of 8-bit code units ([ascii]): the development
      covers the strings whose code units lie in U+0000..U+00FF.  On that
      range white space is the code units 9 to 13, 32 and 160.
    - Numbers in a row are integers.  Floating point values are not
      modelled.
    - The loop [while ((match = regex.exec(content)) !== null)] takes fuel;
      [extractPlaceholders] gives it the length of the content plus one,
      and [extractPlaceholders_terminates] shows that this is enough and
      that more changes nothing.  [replace] collects its matches with fuel
      of the length of the text plus two.  The pattern parser takes three
      units of fuel for each character of the pattern and three more;
      [parse_fuel_enough] shows that it never runs out.
    - The pattern grammar covers what the sources can write into a pattern
      with the constructs of [Regex.v]: counted repetition, back-references,
      look-around and the escapes for code points are answered
      [Unsupported], and the theorems about merging say nothing of names
      that hold them.
    - The main theorems about merging hold for templates that are text
      without an opening brace and holes without braces, for placeholder
      names without pattern syntax ([plain_name]) and for values without
      [$] and [{] ([safe_value]).  Outside these bounds the behaviour of the
      source is stated on concrete inputs.
    - [toUpperCase] maps the letters a to z and the Latin-1 letters that
      have a capital in the range; the two letters whose capital lies
      outside it are left as they are.
    - In [Async.v] each function of [templateUtils.ts] is served in one
      step: the remote calls inside one function are not interleaved with
      those of another.  A handler under way has a weight, the number of
      steps it still takes at most; [drain] takes the sum of the weights as
      fuel, and [handlers_come_to_end] shows that this is enough.
    - In [Settling.v] a row settles in one step: [mergeWordDocument] has
      one [await], the read of the template, and what follows it runs to
      the end.  The orders in which [n] rows settle are the permutations of
      their indices ([schedule]).
    - In [App.v] a step is one action of the user with the handlers it
      starts run to their end and the render that follows; the answers of
      the remote side and the clock are arguments of the step.

    ** What the theorems show

    - Extraction ([Extract.v]): the loop equals the scanner, it ends, the
      result has no duplicates and only trimmed names, every name comes from
      a brace pair of the content, and a template printed from text and
      holes gives back its holes.
    - Merging ([Merge.v], [Batch.v]): [mergeSingleDocument] implements
      [instantiate]; mapped placeholders disappear and unmapped ones stay;
      the order of mappings with distinct placeholders is irrelevant;
      a batch gives one document for each row in order and fails with the
      error of its first failing row; the value table of the Word path
      agrees with the plain-text path; a Word batch has the outcome of
      the function in whatever order its rows settle, is rejected with the
      error of the row that fails first in that order, and renders the
      rows that settle after a failure all the same ([Settling.v]); and
      where the source departs from
      its specification (the number zero, [$] in a value, a value that holds
      a placeholder, names with pattern syntax) a theorem shows the input.
    - Mapping ([Mapping.v]): the automatic mapping binds equal names, an
      override is idempotent and keeps one binding for each placeholder in
      every reachable state, and the completion test then implies that
      every placeholder is bound.
    - Store ([Store.v]): the functions keep identifiers distinct, a saved
      template reads back with its name and placeholders and without its
      content, and a failed write leaves an uploaded file behind.
    - Export ([Export.v]): archive entries have distinct names, the Word
      archive is all or nothing, paging stays within the documents, and the
      component as rendered never leaves the first document.
    - Forms and catalog ([Forms.v], [Catalog.v]): the placeholders the
      editor saves are those of the content; the uploader can save a file
      with the placeholders of another; the manual form submits exactly the
      placeholders with values; the buttons that save and submit are
      enabled only where the handler behind them goes through; the dialogs
      confirm only trimmed names; a template is deleted only on
      confirmation, for the card whose button was clicked.
    - Workflow ([Workflow.v]): in every reachable state the step agrees
      with the rest of the state and exactly one screen is displayed; the
      selected template always has an empty content; no template is ever
      edited; the user can always return to the list and can always
      generate a document from a template listed; and the two paths from a
      template to its documents, by hand and by dataset, give documents
      without placeholders.
    - Handlers that await ([Async.v]): the invariants of the page hold
      however the calls are served and the handlers resumed; a handler
      that nothing interrupts does what [Index.handle] does; the handlers
      under way always come to an end; and three schedules show what an
      answer that arrives late, a selection during a deletion and a rename
      after a deletion do.
    - The application ([App.v]): the page with its components refines the
      page of [Workflow.v], so that every invariant of the page holds
      whatever the user does on the controls on display; a component is
      mounted exactly where the page renders it, in a state its invariant
      holds of; the events the page receives carry what the components
      checked; the stored templates change only on a confirmation; a user
      can go from a card to a document by the controls alone, with values
      typed into the form ([user_can_generate]) and with the rows of a file
      ([user_can_merge]).

    ** Not modelled

    Class names, icons and constant markup of the components; the size of
    a file as the uploader displays it; the CSV parser, the .docx and .zip
    libraries, the client of the remote service and the browser interfaces
    for files and downloads, whose results are arguments of the model;
    [blobToArrayBuffer] of [wordDocumentUtils.ts], which is one call of
    such an interface.  The search
    field of the list, [TemplateSearch], is imported by [TemplateList.tsx]
    from a file the repository does not hold; it is modelled as the text
    field its properties describe. *)

From Stdlib Require Import Ascii String.
From stdpp Require Import base list.

(** ** Strings as lists of code units *)

Declare Scope js_scope.
Delimit Scope js_scope with js.

(** [jstring] is the type of JavaScript strings of the development. *)
Abbreviation jstring := (list ascii).

(** [js "text"] is the string with the characters of the literal. *)
Definition js (s : string) : jstring := list_ascii_of_string s.

Notation "'§' s" := (js s%string) (at level 1, format "'§' s") : js_scope.

(** ** Results of fallible operations *)

Inductive result (E A : Type) : Type :=
| Ok (a : A)
| Err (e : E).
Arguments Ok {E A} a.
Arguments Err {E A} e.

#[export] Instance result_ret {E} : MRet (result E) := λ A, Ok.

#[export] Instance result_bind {E} : MBind (result E) := λ A B f r,
  match r with
  | Ok a => f a
  | Err e => Err e
  end.

#[export] Instance result_fmap {E} : FMap (result E) := λ A B f r,
  match r with
  | Ok a => Ok (f a)
  | Err e => Err e
  end.

(** [l.forEach(a => { b = f(b, a) })] where [f] may throw: the first error
    ends the loop. *)
Fixpoint forEach {E A B} (f : B → A → result E B) (l : list A) (b : B) : result E B :=
  match l with
  | [] => Ok b
  | a :: l' => b' ← f b a; forEach f l' b'
  end.

Definition is_ok {E A} (r : result E A) : bool :=
  match r with Ok _ => true | Err _ => false end.

(** [all_ok rs] succeeds with every value when every element of [rs]
    succeeds, and fails with the first failure otherwise. *)
Fixpoint all_ok {E A} (rs : list (result E A)) : result E (list A) :=
  match rs with
  | [] => Ok []
  | r :: rs' =>
      match r with
      | Err e => Err e
      | Ok a => cons a <$> all_ok rs'
      end
  end.

(** ** Prefixes and suffixes selected by a test *)

Section while_ops.
Context {A : Type}.
Implicit Types (p : A → bool) (l : list A).

Fixpoint take_while p l : list A :=
  match l with
  | [] => []
  | x :: l' => if p x then x :: take_while p l' else []
  end.

Fixpoint drop_while p l : list A :=
  match l with
  | [] => []
  | x :: l' => if p x then drop_while p l' else l
  end.

Lemma take_drop_while p l : take_while p l ++ drop_while p l = l.
Proof. induction l as [|x l IH]; simpl; [done|]. destruct (p x); simpl; by f_equal. Qed.

Lemma take_while_Forall p l : Forall (λ x, p x = true) (take_while p l).
Proof.
  induction l as [|x l IH]; simpl; [constructor|].
  destruct (p x) eqn:E; by constructor.
Qed.

Lemma drop_while_head p l x l' : drop_while p l = x :: l' → p x = false.
Proof.
  induction l as [|y l IH]; simpl; [done|].
  destruct (p y) eqn:E; [done|]. by intros [= <- _].
Qed.

Lemma drop_while_app_true p l1 l2 :
  Forall (λ x, p x = true) l1 → drop_while p (l1 ++ l2) = drop_while p l2.
Proof. induction 1 as [|x l1 Hx _ IH]; simpl; [done|]. by rewrite Hx. Qed.

Lemma take_while_app_true p l1 l2 :
  Forall (λ x, p x = true) l1 → take_while p (l1 ++ l2) = l1 ++ take_while p l2.
Proof. induction 1 as [|x l1 Hx _ IH]; simpl; [done|]. by rewrite Hx, IH. Qed.

Lemma drop_while_stop p x l : p x = false → drop_while p (x :: l) = x :: l.
Proof. simpl. by intros ->. Qed.

Lemma take_while_stop p x l : p x = false → take_while p (x :: l) = [].
Proof. simpl. by intros ->. Qed.

Lemma drop_while_idemp p l : drop_while p (drop_while p l) = drop_while p l.
Proof.
  destruct (drop_while p l) as [|x l'] eqn:E; [done|].
  by rewrite (drop_while_stop _ _ _ (drop_while_head _ _ _ _ E)).
Qed.

Lemma drop_while_length p l : length (drop_while p l) ≤ length l.
Proof. rewrite <-(take_drop_while p l) at 2. rewrite length_app. lia. Qed.

Lemma drop_while_all p l : Forall (λ x, p x = true) l → drop_while p l = [].
Proof. intros H. by rewrite <-(app_nil_r l), drop_while_app_true. Qed.

Lemma take_while_all p l : Forall (λ x, p x = true) l → take_while p l = l.
Proof. intros H. rewrite <-(app_nil_r l) at 1. by rewrite take_while_app_true, app_nil_r. Qed.

Lemma drop_while_suffix p l : drop_while p l `suffix_of` l.
Proof. exists (take_while p l). by rewrite take_drop_while. Qed.

Lemma take_length_take_while p l : take (length (take_while p l)) l = take_while p l.
Proof.
  rewrite <-(take_drop_while p l) at 2. by rewrite take_app_length.
Qed.

Lemma take_while_ext p (q : A → bool) l :
  (∀ x, p x = q x) → take_while p l = take_while q l.
Proof. intros H. induction l as [|x l IH]; simpl; [done|]. by rewrite H, IH. Qed.

Lemma drop_while_ext p (q : A → bool) l :
  (∀ x, p x = q x) → drop_while p l = drop_while q l.
Proof. intros H. induction l as [|x l IH]; simpl; [done|]. by rewrite H, IH. Qed.

End while_ops.

(** ** Tactics and hint databases *)

(** [docmerge] collects the rewriting rules that normalise the list
    expressions the scanners produce. *)
Create HintDb docmerge discriminated.
Create Rewrite HintDb docmerge.

#[export] Hint Rewrite @app_nil_r @app_nil_l @length_app @length_nil : docmerge.
#[export] Hint Rewrite <- @app_assoc : docmerge.
#[export] Hint Resolve take_while_Forall drop_while_length drop_while_suffix : docmerge.

(** [case_bool b] splits on the boolean [b], recording the equation. *)
Ltac case_bool b := let E := fresh "E" in destruct b eqn:E.

(** [destruct_result r] splits on a result, naming the value or the error. *)
Ltac destruct_result r := let x := fresh "x" in let e := fresh "e" in destruct r as [x|e].

(** ** Lists shared by the components *)

Lemma app_cons_first_eq {A} (c : A) u u' x x' :
  c ∉ u → c ∉ u' → u ++ c :: x = u' ++ c :: x' → u = u' ∧ x = x'.
Proof.
  revert u'. induction u as [|a u IH]; intros [|a' u'] Hu Hu' E; simplify_eq/=.
  - done.
  - by apply not_elem_of_cons in Hu' as [? _].
  - by apply not_elem_of_cons in Hu as [? _].
  - apply not_elem_of_cons in Hu as [_ Hu]. apply not_elem_of_cons in Hu' as [_ Hu'].
    destruct (IH u' Hu Hu' H0) as [-> ->]. done.
Qed.

Lemma result_bind_Ok {E A B} (m : result E A) (f : A → result E B) b :
  m ≫= f = Ok b → ∃ a, m = Ok a ∧ f a = Ok b.
Proof. destruct m as [a|e]; [eauto|done]. Qed.

Lemma result_bind_Err {E A B} (m : result E A) (f : A → result E B) e :
  m ≫= f = Err e → m = Err e ∨ ∃ a, m = Ok a ∧ f a = Err e.
Proof. destruct m as [a|e']; [eauto|]. intros [= ->]. by left. Qed.

Lemma all_ok_length {E A} (rs : list (result E A)) (xs : list A) :
  all_ok rs = Ok xs → length xs = length rs.
Proof.
  revert xs. induction rs as [|[a|e] rs IH]; intros xs; simpl; [by intros [= <-]| |done].
  destruct (all_ok rs) as [ys|e]; simpl; [|done].
  intros [= <-]. simpl. f_equal. by apply IH.
Qed.

Lemma all_ok_Ok {E A} (rs : list (result E A)) xs :
  all_ok rs = Ok xs ↔ rs = Ok <$> xs.
Proof.
  revert xs. induction rs as [|[a|e] rs IH]; intros xs; cbn [all_ok].
  - split; [by intros [= <-]|]. by destruct xs.
  - destruct (all_ok rs) as [ys|e'] eqn:Hrs; cbn.
    + split.
      * intros [= <-]. cbn. f_equal. by apply IH.
      * destruct xs as [|x xs]; [done|]. intros [= -> H]. f_equal. f_equal.
        apply IH in H. congruence.
    + split; [done|]. destruct xs as [|x xs]; [done|]. intros [= -> H].
      apply IH in H. congruence.
  - split; [done|]. by destruct xs.
Qed.

Lemma all_ok_Err {E A} (rs : list (result E A)) e :
  all_ok rs = Err e ↔
  ∃ i, rs !! i = Some (Err e) ∧ Forall (λ r, is_ok r = true) (take i rs).
Proof.
  induction rs as [|[a|e'] rs IH]; cbn [all_ok].
  - split; [done|]. by intros (i & ? & _).
  - assert ((∃ i, (Ok a :: rs) !! i = Some (Err e)
        ∧ Forall (λ r, is_ok r = true) (take i (Ok a :: rs))) ↔ all_ok rs = Err e) as ->.
    { rewrite IH. split.
      - intros ([|i] & Hi & Hf); [done|]. cbn in Hi, Hf.
        apply Forall_cons in Hf as [_ Hf]. eauto.
      - intros (i & Hi & Hf). exists (S i). split; [done|]. cbn. by constructor. }
    destruct (all_ok rs) as [xs|e'']; cbn; [done|]. split; congruence.
  - split.
    + intros [= ->]. exists 0. split; [done|]. constructor.
    + intros ([|i] & Hi & Hf); [by simplify_eq/=|]. cbn in Hf.
      by apply Forall_cons in Hf as [? _].
Qed.

Lemma all_ok_is_ok {E A} (rs : list (result E A)) :
  Forall (λ r, is_ok r = true) rs → is_ok (all_ok rs) = true.
Proof.
  induction 1 as [|[a|e] rs Hr _ IH]; cbn [all_ok]; [done| |done].
  by destruct (all_ok rs).
Qed.

Lemma forEach_Err_irrelevant {E A B} (f g : B → A → result E B) l b b' e :
  (∀ b b' a e, f b a = Err e → g b' a = Err e) →
  (∀ b b' a, is_ok (f b a) = is_ok (g b' a)) →
  forEach f l b = Err e → forEach g l b' = Err e.
Proof.
  intros Hfg Hok. revert b b'. induction l as [|a l IH]; intros b b'; cbn [forEach]; [done|].
  destruct (f b a) as [b1|e1] eqn:Ef.
  - specialize (Hok b b' a). rewrite Ef in Hok.
    destruct (g b' a) as [b1'|] eqn:Eg; [|done]. cbn. apply IH.
  - intros [= ->]. by rewrite (Hfg _ b' _ _ Ef).
Qed.

Lemma all_ok_map_Ok {E A B} (f : A → B) (l : list A) :
  all_ok (map (λ x, Ok (E:=E) (f x)) l) = Ok (map f l).
Proof. induction l as [|x l IH]; simpl; [done|]. by rewrite IH. Qed.

Lemma list_snoc_cases {A} (l : list A) : l = [] ∨ ∃ l' x, l = l' ++ [x].
Proof. destruct l as [|x l _] using rev_ind; [by left|right; eauto]. Qed.

(** Induction on the length of a list: the scanners recurse on a strict
    suffix of their input. *)
Lemma list_length_ind {A} (P : list A → Prop) :
  (∀ l, (∀ l', length l' < length l → P l') → P l) → ∀ l, P l.
Proof.
  intros H l. remember (length l) as n eqn:Hn. revert l Hn.
  induction (lt_wf n) as [n _ IH]. intros l ->. apply H.
  intros l' Hl'. by apply (IH (length l')).
Qed.

Lemma drop_cons_S {A} (l : list A) n c rest : drop n l = c :: rest → drop (S n) l = rest.
Proof.
  intros H. replace (S n) with (n + 1) by lia. by rewrite <-drop_drop, H.
Qed.

Lemma take_drop_join {A} (l : list A) a b c :
  a ≤ b → b ≤ c → take (b - a) (drop a l) ++ take (c - b) (drop b l) = take (c - a) (drop a l).
Proof.
  intros Hab Hbc. replace (drop b l) with (drop (b - a) (drop a l)).
  - rewrite take_take_drop. f_equal. lia.
  - rewrite drop_drop. f_equal. lia.
Qed.

Lemma take_drop_rest {A} (l : list A) a b :
  a ≤ b → take (b - a) (drop a l) ++ drop b l = drop a l.
Proof.
  intros Hab. replace (drop b l) with (drop (b - a) (drop a l)).
  - apply take_drop.
  - rewrite drop_drop. f_equal. lia.
Qed.

Lemma js_app (s1 s2 : string) : js (s1 ++ s2) = js s1 ++ js s2.
Proof. unfold js. induction s1 as [|c s1 IH]; simpl; [done|]. by rewrite IH. Qed.

Lemma js_inj (s1 s2 : string) : js s1 = js s2 → s1 = s2.
Proof.
  unfold js. intros H.
  by rewrite <-(string_of_list_ascii_of_string s1), H, string_of_list_ascii_of_string.
Qed.
