(* ===== verification/JsString.v ===== *)
(** * JsString: the ECMAScript built-ins the sources call

    The string methods [trim], [toLowerCase] and [includes], the conversion
    [String(n)] of an integer, and the insertion-ordered [Set] with
    [Array.from].  None of these is code of the repository: each definition
    follows the ECMAScript specification of the built-in, restricted to code
    units below 256 (see the header of [Prelude.v]). *)

From Stdlib Require Import Ascii String NArith ZArith.
From stdpp Require Import base numbers pretty list sets.
From S2P Require Import Prelude.
#[local] Set Warnings "-clear-no-such-hyp".

(** ** Code units *)

Definition code (c : ascii) : N := N_of_ascii c.

(** White space and line terminators below U+0100: TAB, LF, VT, FF, CR,
    SPACE and NO-BREAK SPACE.  This is the set [trim] strips and [\s]
    matches. *)
Definition is_space (c : ascii) : bool :=
  let n := code c in
  ((9 <=? n) && (n <=? 13) || (n =? 32) || (n =? 160))%N.

(** Line terminators below U+0100: LF and CR. *)
Definition is_line_terminator (c : ascii) : bool :=
  let n := code c in ((n =? 10) || (n =? 13))%N.

Definition is_digit (c : ascii) : bool :=
  let n := code c in ((48 <=? n) && (n <=? 57))%N.

(** The characters [\w] matches: letters, digits and the underscore. *)
Definition is_word (c : ascii) : bool :=
  let n := code c in
  ((48 <=? n) && (n <=? 57) || (65 <=? n) && (n <=? 90)
   || (97 <=? n) && (n <=? 122) || (n =? 95))%N.

(** The upper-case letters of Latin-1: A-Z and U+00C0..U+00DE without the
    multiplication sign U+00D7. *)
Definition is_upper (c : ascii) : bool :=
  let n := code c in
  ((65 <=? n) && (n <=? 90)
   || (192 <=? n) && (n <=? 222) && negb (n =? 215))%N.

Definition to_lower_char (c : ascii) : ascii :=
  if is_upper c then ascii_of_N (code c + 32) else c.

(** ** String methods *)

(** [String.prototype.toLowerCase]. *)
Definition toLowerCase (s : jstring) : jstring := map to_lower_char s.

(** [String.prototype.trimStart], [trimEnd] and [trim]. *)
Definition trimStart (s : jstring) : jstring := drop_while is_space s.

Definition trimEnd (s : jstring) : jstring :=
  reverse (drop_while is_space (reverse s)).

Definition trim (s : jstring) : jstring := trimEnd (trimStart s).

(** [starts_with p s]: [p] is a prefix of [s]. *)
Fixpoint starts_with (p s : jstring) : bool :=
  match p, s with
  | [], _ => true
  | _ :: _, [] => false
  | a :: p', b :: s' => if decide (a = b) then starts_with p' s' else false
  end.

(** [String.prototype.includes]: [sub] occurs somewhere in [s]. *)
Fixpoint includes (s sub : jstring) : bool :=
  starts_with sub s ||
  match s with
  | [] => false
  | _ :: s' => includes s' sub
  end.

(** [String(n)] for an integer [n]: its decimal digits, with a minus sign
    when negative. *)
Definition string_of_Z (n : Z) : jstring := js (pretty n).

(** [String(n)] for a natural number, as template literals render an
    index. *)
Definition string_of_nat (n : nat) : jstring := js (pretty n).

(** A string that neither starts nor ends with white space: the fixed
    points of [trim]. *)
Definition no_space_ends (s : jstring) : Prop :=
  (∀ c s', s = c :: s' → is_space c = false) ∧
  (∀ c s', s = s' ++ [c] → is_space c = false).

(** ** The insertion-ordered set *)

(** A [Set] of strings is the list of its elements in insertion order. *)
Definition Set_add (x : jstring) (s : list jstring) : list jstring :=
  if decide (x ∈ s) then s else s ++ [x].

Definition Set_of_list (l : list jstring) : list jstring :=
  foldl (λ s x, Set_add x s) [] l.

(** ** Further built-ins of strings and arrays *)

(** [s.endsWith(suffix)]. *)
Definition endsWith (s suffix : jstring) : bool :=
  starts_with (reverse suffix) (reverse s).

(** [l.join(sep)]. *)
Fixpoint join (sep : jstring) (l : list jstring) : jstring :=
  match l with
  | [] => []
  | x :: l' =>
      match l' with
      | [] => x
      | _ :: _ => x ++ sep ++ join sep l'
      end
  end.

(** [s || d] for strings: the empty string is falsy. *)
Definition str_or (s d : jstring) : jstring :=
  if bool_decide (s = []) then d else s.

(** [!s.trim()]. *)
Definition blank (s : jstring) : bool := bool_decide (trim s = []).

(** [s.split(sep)] for a separator of one code unit: the pieces between
    the occurrences of the separator, empty pieces included. *)
Fixpoint split (sep : ascii) (s : jstring) : list jstring :=
  match s with
  | [] => [[]]
  | c :: s' =>
      if decide (c = sep) then [] :: split sep s'
      else match split sep s' with
           | [] => [[c]]
           | piece :: pieces => (c :: piece) :: pieces
           end
  end.

(** [l.pop()] as a value: the last element, [undefined] on the empty
    array. *)
Definition pop {A} (l : list A) : option A := last l.

(** [n[0]] where the result is rendered by [join]: the first code unit as
    a string, and the empty string for [undefined]. *)
Definition first_unit (n : jstring) : jstring := take 1 n.

(** The lower-case letters of Latin-1 whose upper case is a code unit
    below 256: a-z and U+00E0..U+00FE without the division sign U+00F7. *)
Definition is_lower (c : ascii) : bool :=
  let n := code c in
  ((97 <=? n) && (n <=? 122)
   || (224 <=? n) && (n <=? 254) && negb (n =? 247))%N.

(** [String.prototype.toUpperCase] on one code unit: the sharp s becomes
    two letters.  The micro sign and the y with diaeresis, whose upper case
    lies above U+00FF, are left as they are; strings that hold them are
    outside the model. *)
Definition to_upper_unit (c : ascii) : jstring :=
  if is_lower c then [ascii_of_N (code c - 32)]
  else if (code c =? 223)%N then js "SS"
  else [c].

Definition toUpperCase (s : jstring) : jstring := flat_map to_upper_unit s.

(** ** Facts about code units *)

Lemma is_space_code c :
  is_space c = true ↔ code c ∈ [9; 10; 11; 12; 13; 32; 160]%N.
Proof.
  unfold is_space. generalize (code c). intros n.
  rewrite !elem_of_cons, elem_of_nil.
  destruct (N.leb_spec 9 n), (N.leb_spec n 13), (N.eqb_spec n 32),
    (N.eqb_spec n 160); simpl; split; try done; try lia; intros; exfalso; lia.
Qed.

Lemma to_lower_char_idemp c : to_lower_char (to_lower_char c) = to_lower_char c.
Proof.
  destruct c as [[] [] [] [] [] [] [] []]; reflexivity.
Qed.

Lemma is_space_not_upper c : is_space c = true → to_lower_char c = c.
Proof. destruct c as [[] [] [] [] [] [] [] []]; simpl; done. Qed.

Lemma spaces_not_elem c ws :
  is_space c = false → Forall (λ d, is_space d = true) ws → c ∉ ws.
Proof. intros Hc Hws Hin. rewrite Forall_forall in Hws. apply Hws in Hin. congruence. Qed.

(** ** Facts about [String(n)] *)

Lemma string_of_nat_inj : Inj (=) (=) string_of_nat.
Proof. intros m n H. unfold string_of_nat in H. by apply js_inj, (inj pretty) in H. Qed.

(** ** Facts about [toLowerCase] *)

Lemma toLowerCase_idemp s : toLowerCase (toLowerCase s) = toLowerCase s.
Proof.
  unfold toLowerCase. rewrite <-list_fmap_compose.
  apply list_fmap_ext. intros _ c _. apply to_lower_char_idemp.
Qed.

Lemma toLowerCase_length s : length (toLowerCase s) = length s.
Proof. apply length_map. Qed.

Lemma toLowerCase_app s1 s2 :
  toLowerCase (s1 ++ s2) = toLowerCase s1 ++ toLowerCase s2.
Proof. apply map_app. Qed.

(** ** Facts about [trim] *)

Lemma trimStart_head s c s' : trimStart s = c :: s' → is_space c = false.
Proof. apply drop_while_head. Qed.

Lemma trimEnd_last s c s' : trimEnd s = s' ++ [c] → is_space c = false.
Proof.
  unfold trimEnd. intros H. apply (f_equal reverse) in H.
  rewrite reverse_involutive, reverse_snoc in H.
  by apply drop_while_head in H.
Qed.

Lemma trimStart_decompose s :
  ∃ ws, s = ws ++ trimStart s ∧ Forall (λ c, is_space c = true) ws.
Proof.
  exists (take_while is_space s). split.
  - symmetry. apply take_drop_while.
  - apply take_while_Forall.
Qed.

Lemma trimEnd_decompose s :
  ∃ ws, s = trimEnd s ++ ws ∧ Forall (λ c, is_space c = true) ws.
Proof.
  exists (reverse (take_while is_space (reverse s))). split.
  - unfold trimEnd. rewrite <-reverse_app, take_drop_while.
    by rewrite reverse_involutive.
  - apply Forall_reverse, take_while_Forall.
Qed.

Lemma trimEnd_nil : trimEnd [] = [].
Proof. done. Qed.

Lemma trimEnd_snoc_nonspace s c : is_space c = false → trimEnd (s ++ [c]) = s ++ [c].
Proof.
  intros Hc. unfold trimEnd. rewrite reverse_snoc.
  by rewrite drop_while_stop, <-reverse_snoc, reverse_involutive.
Qed.

Lemma trimEnd_app_spaces s ws :
  Forall (λ c, is_space c = true) ws → trimEnd (s ++ ws) = trimEnd s.
Proof.
  intros H. unfold trimEnd. rewrite reverse_app.
  by rewrite drop_while_app_true by by apply Forall_reverse.
Qed.

Lemma trimStart_app_spaces ws s :
  Forall (λ c, is_space c = true) ws → trimStart (ws ++ s) = trimStart s.
Proof. apply drop_while_app_true. Qed.

Lemma trimStart_cons_nonspace c s : is_space c = false → trimStart (c :: s) = c :: s.
Proof. apply drop_while_stop. Qed.

Lemma trimEnd_cons_nonspace c s :
  is_space c = false → trimEnd (c :: s) = c :: trimEnd s.
Proof.
  intros Hc. destruct (trimEnd_decompose s) as (ws & Hs & Hws).
  rewrite Hs at 1. rewrite app_comm_cons, trimEnd_app_spaces by done.
  destruct (list_snoc_cases (trimEnd s)) as [E|(t & d & E)]; rewrite E.
  - by apply (trimEnd_snoc_nonspace []).
  - rewrite app_comm_cons. apply trimEnd_snoc_nonspace. by eapply trimEnd_last.
Qed.

Lemma trim_decompose s :
  ∃ ws1 ws2, s = ws1 ++ trim s ++ ws2 ∧
    Forall (λ c, is_space c = true) ws1 ∧ Forall (λ c, is_space c = true) ws2.
Proof.
  destruct (trimStart_decompose s) as (ws1 & H1 & Hw1).
  destruct (trimEnd_decompose (trimStart s)) as (ws2 & H2 & Hw2).
  exists ws1, ws2. split_and!; [|done..]. unfold trim. by rewrite <-H2.
Qed.

Lemma trim_no_space_ends s : no_space_ends (trim s).
Proof.
  split; intros c s' H.
  - unfold trim in H. destruct (trimStart s) as [|d t] eqn:E; [done|].
    pose proof (trimStart_head _ _ _ E) as Hd.
    rewrite trimEnd_cons_nonspace in H by done. by simplify_eq.
  - by eapply trimEnd_last.
Qed.

Lemma trim_fixed s : no_space_ends s → trim s = s.
Proof.
  intros [Hh Hl]. unfold trim.
  destruct s as [|c s]; [done|].
  rewrite trimStart_cons_nonspace by eauto.
  destruct (list_snoc_cases (c :: s)) as [E|(t & d & E)]; [done|].
  rewrite E. apply trimEnd_snoc_nonspace. eauto.
Qed.

Lemma trim_idemp s : trim (trim s) = trim s.
Proof. apply trim_fixed, trim_no_space_ends. Qed.

Lemma trim_pad ws1 ws2 s :
  Forall (λ c, is_space c = true) ws1 → Forall (λ c, is_space c = true) ws2 →
  no_space_ends s → trim (ws1 ++ s ++ ws2) = s.
Proof.
  intros H1 H2 Hs. unfold trim. rewrite trimStart_app_spaces by done.
  destruct s as [|c s].
  - simpl. unfold trimStart. by rewrite drop_while_all.
  - rewrite <-app_comm_cons, trimStart_cons_nonspace by (destruct Hs; eauto).
    rewrite app_comm_cons, trimEnd_app_spaces by done.
    fold (trim (c :: s)). rewrite <-(trim_fixed (c :: s)) at 2 by done.
    unfold trim. by rewrite trimStart_cons_nonspace by (destruct Hs; eauto).
Qed.

Lemma no_space_ends_trim s : no_space_ends s ↔ trim s = s.
Proof.
  split; [apply trim_fixed|]. intros <-. apply trim_no_space_ends.
Qed.

#[export] Instance no_space_ends_dec s : Decision (no_space_ends s).
Proof.
  refine (cast_if (decide (trim s = s))); by rewrite no_space_ends_trim.
Defined.

(** ** Facts about prefixes *)

Lemma starts_with_prefix (p s : jstring) : starts_with p s = true ↔ p `prefix_of` s.
Proof.
  revert s. induction p as [|a p IH]; intros s; simpl.
  - split; [intros _; apply prefix_nil|done].
  - destruct s as [|b s]; [split; [done|by intros ?%prefix_nil_not]|].
    destruct (decide (a = b)) as [->|Hne].
    + rewrite IH. split; [apply prefix_cons|by intros ?%prefix_cons_inv_2].
    + split; [done|]. by intros ?%prefix_cons_inv_1.
Qed.

Lemma starts_with_app (p s : jstring) : starts_with p (p ++ s) = true.
Proof. apply starts_with_prefix. by apply prefix_app_r. Qed.

(** ** Facts about the set *)

Lemma Set_add_elem x y s : y ∈ Set_add x s ↔ y = x ∨ y ∈ s.
Proof.
  unfold Set_add. case_decide; [naive_solver|].
  rewrite elem_of_app, list_elem_of_singleton. naive_solver.
Qed.

Lemma Set_add_NoDup x s : NoDup s → NoDup (Set_add x s).
Proof.
  intros H. unfold Set_add. case_decide; [done|].
  apply NoDup_app. split_and!; [done| |apply NoDup_singleton].
  intros y Hy ->%list_elem_of_singleton. done.
Qed.

Lemma Set_add_idemp x s : Set_add x (Set_add x s) = Set_add x s.
Proof.
  unfold Set_add at 1. rewrite decide_True; [done|].
  apply Set_add_elem. by left.
Qed.

Lemma Set_add_prefix x s : s `prefix_of` Set_add x s.
Proof. unfold Set_add. case_decide; [done|]. by apply prefix_app_r. Qed.

Lemma foldl_Set_add_NoDup l acc : NoDup acc → NoDup (foldl (λ s x, Set_add x s) acc l).
Proof.
  revert acc. induction l as [|x l IH]; intros acc H; cbn [foldl]; [done|].
  by apply IH, Set_add_NoDup.
Qed.

Lemma foldl_Set_add_elem l acc y :
  y ∈ foldl (λ s x, Set_add x s) acc l ↔ y ∈ acc ∨ y ∈ l.
Proof.
  revert acc. induction l as [|x l IH]; intros acc; cbn [foldl].
  - rewrite elem_of_nil. naive_solver.
  - rewrite IH, Set_add_elem, elem_of_cons. naive_solver.
Qed.

Lemma Set_of_list_NoDup l : NoDup (Set_of_list l).
Proof. apply foldl_Set_add_NoDup, NoDup_nil_2. Qed.

Lemma elem_of_Set_of_list l y : y ∈ Set_of_list l ↔ y ∈ l.
Proof. unfold Set_of_list. rewrite foldl_Set_add_elem, elem_of_nil. naive_solver. Qed.

Lemma Set_of_list_NoDup_id l : NoDup l → Set_of_list l = l.
Proof.
  unfold Set_of_list. intros H.
  enough (∀ acc, NoDup (acc ++ l) → foldl (λ s x, Set_add x s) acc l = acc ++ l) as Hgen.
  { by apply (Hgen []). }
  clear H. induction l as [|x l IH]; intros acc Hnd; cbn [foldl].
  - by rewrite app_nil_r.
  - unfold Set_add. rewrite decide_False.
    + rewrite IH; rewrite <-app_assoc; done.
    + apply NoDup_app in Hnd as (_ & Hd & _). intros Hx. apply (Hd x Hx). by left.
Qed.

(** ** Blank strings and defaults *)

Lemma blank_nil : blank [] = true.
Proof. done. Qed.

Lemma blank_false_ne s : blank s = false → s ≠ [].
Proof. by intros H ->. Qed.

Lemma blank_false_trim s : blank s = false → trim s ≠ [].
Proof. unfold blank. by intros H%bool_decide_eq_false. Qed.

Lemma str_or_nil_r s : str_or s [] = s.
Proof. unfold str_or. by case_bool_decide. Qed.

Lemma join_singleton sep x : join sep [x] = x.
Proof. done. Qed.

(** ** Splitting and joining *)

Lemma split_nonempty sep s : split sep s ≠ [].
Proof. destruct s as [|c s]; cbn; [done|]. case_decide; [done|]. by destruct (split sep s). Qed.

(** Joining the pieces with the separator gives the string back. *)
Lemma join_split sep s : join [sep] (split sep s) = s.
Proof.
  induction s as [|c s IH]; cbn [split]; [done|].
  pose proof (split_nonempty sep s) as Hne.
  case_decide as Hc.
  - subst c. destruct (split sep s) as [|p ps]; [done|]. by rewrite <-IH.
  - destruct (split sep s) as [|p [|q ps]]; [done|..]; by rewrite <-IH.
Qed.

(** No piece holds the separator. *)
Lemma split_pieces sep s : Forall (λ piece, sep ∉ piece) (split sep s).
Proof.
  induction s as [|c s IH]; cbn [split].
  - repeat constructor. by intros ?%elem_of_nil.
  - case_decide as Hc.
    + constructor; [by intros ?%elem_of_nil|done].
    + destruct (split sep s) as [|p ps]; [repeat constructor; set_solver|].
      inversion IH; subst. constructor; [set_solver|done].
Qed.

(** A string without the separator is one piece. *)
Lemma split_no_sep sep s : sep ∉ s → split sep s = [s].
Proof.
  induction s as [|c s IH]; cbn [split]; [done|]. intros Hs.
  rewrite decide_False by set_solver. rewrite IH by set_solver. done.
Qed.

(** The pieces of two strings put together around a separator. *)
Lemma split_app_sep sep s1 s2 :
  split sep (s1 ++ sep :: s2) = split sep s1 ++ split sep s2.
Proof.
  induction s1 as [|c s1 IH]; cbn [split app].
  - by rewrite decide_True.
  - rewrite IH. case_decide; [done|].
    pose proof (split_nonempty sep s1). by destruct (split sep s1).
Qed.

(** The last piece is what follows the last separator. *)
Lemma pop_split sep s :
  pop (split sep s) =
  Some (reverse (take_while (λ c, negb (bool_decide (c = sep))) (reverse s))).
Proof.
  set (p := λ c, negb (bool_decide (c = sep))).
  pose proof (take_drop_while p (reverse s)) as Hs.
  pose proof (take_while_Forall p (reverse s)) as Htw.
  assert (sep ∉ reverse (take_while p (reverse s))) as Hfree.
  { rewrite elem_of_reverse. intros Hin. rewrite Forall_forall in Htw.
    apply Htw in Hin. unfold p in Hin. by rewrite bool_decide_eq_true_2 in Hin. }
  apply (f_equal reverse) in Hs. rewrite reverse_app, reverse_involutive in Hs.
  unfold pop. rewrite <-Hs at 1.
  destruct (drop_while p (reverse s)) as [|x l'] eqn:Hdw.
  - rewrite reverse_nil, app_nil_l, split_no_sep by done. done.
  - apply drop_while_head in Hdw. unfold p in Hdw.
    apply negb_false_iff, bool_decide_eq_true in Hdw. subst x.
    rewrite reverse_cons, <-app_assoc. cbn [app].
    rewrite split_app_sep, (split_no_sep _ (reverse (take_while _ _))) by done.
    apply last_snoc.
Qed.

(** ** Upper case *)

Lemma toUpperCase_app s1 s2 : toUpperCase (s1 ++ s2) = toUpperCase s1 ++ toUpperCase s2.
Proof. apply flat_map_app. Qed.

#[export] Hint Resolve Set_add_NoDup Set_of_list_NoDup trim_no_space_ends : docmerge.
#[export] Hint Rewrite trim_idemp toLowerCase_idemp Set_add_idemp : docmerge.
