(* ===== verification/Types.v ===== *)
(** * Types: the data of [src/src/types/template.ts]

    The four interfaces of the source as records, each in a module of its
    name so that the fields keep the names the source gives them
    ([Template.content], [FieldMapping.placeholder], ...).  A [DataRow] is a
    JavaScript object used as a dictionary: an association list in insertion
    order whose keys are distinct.  Reading a key that is absent gives
    [undefined], modelled by [None].  Properties inherited from
    [Object.prototype] are not modelled: a field name such as [constructor]
    reads as absent here. *)

From Stdlib Require Import Ascii String ZArith.
From stdpp Require Import base numbers list.
From S2P Require Import Prelude JsString.
#[local] Set Warnings "-clear-no-such-hyp".

(** ** Values and rows *)

(** The type [string | number] of a cell. *)
Inductive value : Type :=
| VStr (s : jstring)
| VNum (n : Z).

#[export] Instance value_eq_dec : EqDecision value.
Proof. solve_decision. Defined.

(** [interface DataRow { [key: string]: string | number }]. *)
Abbreviation DataRow := (list (jstring * value)).

(** [row[key]]: the value of the first binding of [key]. *)
Fixpoint row_get (row : DataRow) (key : jstring) : option value :=
  match row with
  | [] => None
  | (k, v) :: row' => if decide (k = key) then Some v else row_get row' key
  end.

(** [row[key] = v]: an existing key keeps its position, a new key goes
    last. *)
Fixpoint row_set (row : DataRow) (key : jstring) (v : value) : DataRow :=
  match row with
  | [] => [(key, v)]
  | (k, w) :: row' =>
      if decide (k = key) then (k, v) :: row' else (k, w) :: row_set row' key v
  end.

(** [Object.keys(row)]. *)
Definition row_keys (row : DataRow) : list jstring := map fst row.

(** The rows a JavaScript object can be: no key twice. *)
Definition row_wf (row : DataRow) : Prop := NoDup (row_keys row).

(** ** Truthiness and conversion to a string *)

(** The test JavaScript applies to the left operand of [||]: [undefined],
    the empty string and the number zero are falsy. *)
Definition truthy (o : option value) : bool :=
  match o with
  | None => false
  | Some (VStr s) => negb (bool_decide (s = []))
  | Some (VNum n) => negb (bool_decide (n = 0%Z))
  end.

(** [o || ''] for a cell read from a row. *)
Definition or_empty (o : option value) : value :=
  match o with
  | Some v => if truthy o then v else VStr []
  | None => VStr []
  end.

(** [String(v)]. *)
Definition String_of (v : value) : jstring :=
  match v with
  | VStr s => s
  | VNum n => string_of_Z n
  end.

(** ** The records *)

Module FieldMapping.
Record t : Type := mk {
  placeholder : jstring;
  dataField : jstring
}.
End FieldMapping.

#[export] Instance FieldMapping_eq_dec : EqDecision FieldMapping.t.
Proof. solve_decision. Defined.

Module Template.
Record t : Type := mk {
  id : jstring;
  name : jstring;
  content : jstring;
  placeholders : list jstring;
  createdAt : jstring;
  updatedAt : jstring;
  wordDocumentData : option jstring;
  isWordTemplate : option bool
}.
End Template.

#[export] Instance Template_eq_dec : EqDecision Template.t.
Proof. solve_decision. Defined.

Module MergedDocument.
Record t : Type := mk {
  id : jstring;
  content : jstring;
  rowData : DataRow
}.
End MergedDocument.

#[export] Instance MergedDocument_eq_dec : EqDecision MergedDocument.t.
Proof. solve_decision. Defined.

(** ** Notifications *)

(** The notifications of [react-hot-toast] the components raise. *)
Inductive toast : Type :=
| toast_success (message : jstring)
| toast_error (message : jstring)
| toast_loading (message : jstring).

#[export] Instance toast_eq_dec : EqDecision toast.
Proof. solve_decision. Defined.

(** ** Laws of rows *)

Section row_laws.
Implicit Types (row : DataRow) (k : jstring) (v : value).

Lemma row_get_set_eq row k v : row_get (row_set row k v) k = Some v.
Proof.
  induction row as [|[k' w] row IH]; simpl.
  - by rewrite decide_True.
  - destruct (decide (k' = k)) as [->|Hne]; simpl.
    + by rewrite decide_True.
    + by rewrite decide_False.
Qed.

Lemma row_get_set_ne row k k' v :
  k ≠ k' → row_get (row_set row k v) k' = row_get row k'.
Proof.
  intros Hne. induction row as [|[k0 w] row IH]; simpl.
  - by rewrite decide_False.
  - destruct (decide (k0 = k)) as [->|Hne0]; simpl.
    + by rewrite !decide_False.
    + by rewrite IH.
Qed.

Lemma row_get_None row k : row_get row k = None ↔ k ∉ row_keys row.
Proof.
  unfold row_keys. induction row as [|[k' w] row IH]; simpl.
  - split; [intros _; apply not_elem_of_nil|done].
  - rewrite not_elem_of_cons. destruct (decide (k' = k)) as [->|Hne].
    + split; [done|intros [? _]; done].
    + rewrite IH. naive_solver.
Qed.

Lemma row_get_Some_elem row k v : row_get row k = Some v → (k, v) ∈ row.
Proof.
  induction row as [|[k' w] row IH]; simpl; [done|].
  destruct (decide (k' = k)) as [->|Hne].
  - intros [= ->]. apply elem_of_cons. by left.
  - intros H. apply elem_of_cons. right. by apply IH.
Qed.

Lemma row_keys_set row k v :
  row_keys (row_set row k v) =
    if decide (k ∈ row_keys row) then row_keys row else row_keys row ++ [k].
Proof.
  unfold row_keys. induction row as [|[k' w] row IH]; simpl; [done|].
  destruct (decide (k' = k)) as [->|Hne]; simpl.
  - rewrite decide_True; [done|]. apply elem_of_cons. by left.
  - rewrite IH. destruct (decide (k ∈ _)) as [Hin|Hnin].
    + rewrite decide_True; [done|]. apply elem_of_cons. by right.
    + rewrite decide_False; [done|]. rewrite not_elem_of_cons. done.
Qed.

Lemma row_set_wf row k v : row_wf row → row_wf (row_set row k v).
Proof.
  unfold row_wf. rewrite row_keys_set. intros H.
  destruct (decide _) as [|Hnin]; [done|].
  apply NoDup_app. split_and!; [done| |apply NoDup_singleton].
  by intros x Hx ->%list_elem_of_singleton.
Qed.

Lemma or_empty_None : or_empty None = VStr [].
Proof. done. Qed.

Lemma String_of_or_empty_falsy o : truthy o = false → String_of (or_empty o) = [].
Proof. destruct o as [v|]; simpl; [|done]. by intros ->. Qed.

Lemma String_of_or_empty_truthy v :
  truthy (Some v) = true → String_of (or_empty (Some v)) = String_of v.
Proof. simpl. by intros ->. Qed.

End row_laws.

#[export] Hint Rewrite row_get_set_eq : docmerge.
#[export] Hint Resolve row_set_wf : docmerge.
