(* ===== verification/Regex.v ===== *)
(** * Regex: regular expressions with the meaning ECMAScript gives them

    The sources build two kinds of pattern: the literals
    [/\{\{([^}]+)\}\}/g] and [/\{([^}]+)\}/g] of the extractors, and the
    pattern the merge function assembles around a placeholder name.  This
    file gives patterns a syntax ([regex]), the backtracking matcher of the
    language specification in continuation-passing style ([rmatch]),
    [RegExp.prototype.exec] with the [lastIndex] of a global pattern
    ([exec]), and [String.prototype.replace] for a global pattern and a
    replacement string ([replace]), with the [$]-patterns of the
    replacement text ([GetSubstitution]).

    The matcher works on a position and the input that remains after it.
    A repetition tries at most as many iterations as code units remain:
    ECMAScript rejects an iteration that consumes nothing, so no match
    needs more. *)

From Stdlib Require Import Ascii String NArith.
From stdpp Require Import base numbers list.
From S2P Require Import Prelude JsString.
#[local] Set Warnings "-clear-no-such-hyp".

(** ** Syntax *)

(** The members of a character class. *)
Inductive citem : Type :=
| CChar (c : ascii)
| CRange (lo hi : ascii)
| CSpace (neg : bool)
| CDigit (neg : bool)
| CWord (neg : bool).

Inductive regex : Type :=
| REmpty
| RChar (c : ascii)
| RDot
| RClass (neg : bool) (items : list citem)
| RSeq (r1 r2 : regex)
| RAlt (r1 r2 : regex)
| RStar (greedy : bool) (r : regex)
| ROpt (greedy : bool) (r : regex)
| RGroup (i : nat) (r : regex)
| RStart
| REnd.

(** [r+] is [r r*]: group indices are unique in a pattern, so the captures
    the first iteration starts from are those the repetition would clear. *)
Definition RPlus (greedy : bool) (r : regex) : regex := RSeq r (RStar greedy r).

(** The pattern that matches the code units of [s] in order. *)
Fixpoint RLit (s : jstring) : regex :=
  match s with
  | [] => REmpty
  | c :: s' => RSeq (RChar c) (RLit s')
  end.

(** The code units of [s] in order, then [r]. *)
Fixpoint RLit_then (s : jstring) (r : regex) : regex :=
  match s with
  | [] => r
  | c :: s' => RSeq (RChar c) (RLit_then s' r)
  end.

(** The class [\s]. *)
Definition space_class : regex := RClass false [CSpace false].

(** ** Matching one code unit *)

Definition citem_matches (it : citem) (c : ascii) : bool :=
  match it with
  | CChar d => bool_decide (c = d)
  | CRange lo hi => ((code lo <=? code c) && (code c <=? code hi))%N
  | CSpace neg => xorb neg (is_space c)
  | CDigit neg => xorb neg (is_digit c)
  | CWord neg => xorb neg (is_word c)
  end.

Definition class_matches (neg : bool) (items : list citem) (c : ascii) : bool :=
  xorb neg (existsb (λ it, citem_matches it c) items).

(** ** The matcher *)

(** The state of a match: the index reached, the input from there on, and
    the captures, one per group, [None] where a group has not matched. *)
Record mstate : Type := MState {
  ms_pos : nat;
  ms_rest : jstring;
  ms_caps : list (option jstring)
}.

Definition advance (x : mstate) (rest' : jstring) : mstate :=
  MState (S (ms_pos x)) rest' (ms_caps x).

(** The indices of the groups of a pattern. *)
Fixpoint groups (r : regex) : list nat :=
  match r with
  | RSeq r1 r2 | RAlt r1 r2 => groups r1 ++ groups r2
  | RStar _ r' | ROpt _ r' => groups r'
  | RGroup i r' => i :: groups r'
  | _ => []
  end.

(** Captures are numbered from 1; slot [i - 1] of the list holds group [i]. *)
Definition set_cap (i : nat) (o : option jstring) (caps : list (option jstring)) :
    list (option jstring) :=
  <[pred i := o]> caps.

Definition clear_caps (gs : list nat) (x : mstate) : mstate :=
  MState (ms_pos x) (ms_rest x) (foldr (λ i, set_cap i None) (ms_caps x) gs).

(** The text between two states of one match. *)
Definition captured (x y : mstate) : jstring :=
  take (ms_pos y - ms_pos x) (ms_rest x).

(** A test on the next code unit. *)
Definition match_char {R} (p : ascii → bool) (x : mstate) (k : mstate → option R) :
    option R :=
  match ms_rest x with
  | c :: rest' => if p c then k (advance x rest') else None
  | [] => None
  end.

(** The loop of a repetition [r*]: [step] matches [r] once.  An iteration
    that ends where it began is rejected; the greedy form prefers one more
    iteration to the continuation, the lazy form the reverse.  [n] bounds
    the iterations that remain: the input that is left for [r*], one for
    [r?]. *)
Fixpoint star_loop {R} (step : mstate → (mstate → option R) → option R)
    (greedy : bool) (k : mstate → option R) (n : nat) (x : mstate) : option R :=
  let iter :=
    match n with
    | 0 => None
    | S n' =>
        step x (λ y, if ms_pos y =? ms_pos x then None
                     else star_loop step greedy k n' y)
    end in
  if greedy then
    match iter with
    | Some v => Some v
    | None => k x
    end
  else
    match k x with
    | Some v => Some v
    | None => iter
    end.

(** [rmatch r x k]: match [r] from state [x] and hand each way of doing so,
    in priority order, to the continuation [k], until one succeeds. *)
Fixpoint rmatch {R} (r : regex) (x : mstate) (k : mstate → option R) : option R :=
  match r with
  | REmpty => k x
  | RChar c => match_char (λ d, bool_decide (d = c)) x k
  | RDot => match_char (λ d, negb (is_line_terminator d)) x k
  | RClass neg items => match_char (class_matches neg items) x k
  | RSeq r1 r2 => rmatch r1 x (λ y, rmatch r2 y k)
  | RAlt r1 r2 =>
      match rmatch r1 x k with
      | Some v => Some v
      | None => rmatch r2 x k
      end
  | RStar greedy r' =>
      star_loop (λ x' k', rmatch r' (clear_caps (groups r') x') k')
        greedy k (length (ms_rest x)) x
  | ROpt greedy r' =>
      star_loop (λ x' k', rmatch r' (clear_caps (groups r') x') k') greedy k 1 x
  | RGroup i r' =>
      rmatch r' x
        (λ y, k (MState (ms_pos y) (ms_rest y)
                   (set_cap i (Some (captured x y)) (ms_caps y))))
  | RStart => if ms_pos x =? 0 then k x else None
  | REnd => match ms_rest x with [] => k x | _ => None end
  end.

(** ** Pattern objects and [exec] *)

(** A pattern object: its body, the number of its groups, the [g] flag and
    the mutable [lastIndex]. *)
Record RegExp : Type := mkRegExp {
  re_body : regex;
  re_ngroups : nat;
  re_global : bool;
  lastIndex : nat
}.

(** [new RegExp(...)] and pattern literals start with [lastIndex = 0]. *)
Definition RegExp_new (body : regex) (global : bool) : RegExp :=
  mkRegExp body (list_max (groups body)) global 0.

Definition set_lastIndex (re : RegExp) (i : nat) : RegExp :=
  mkRegExp (re_body re) (re_ngroups re) (re_global re) i.

(** A match at index [i] of input that continues with [rest]. *)
Definition match_at (r : regex) (ngroups : nat) (i : nat) (rest : jstring) :
    option mstate :=
  rmatch r (MState i rest (replicate ngroups None)) Some.

(** The first index from [i] on at which the pattern matches. *)
Fixpoint search (r : regex) (ngroups : nat) (i : nat) (rest : jstring) :
    option (nat * mstate) :=
  match match_at r ngroups i rest with
  | Some y => Some (i, y)
  | None =>
      match rest with
      | [] => None
      | _ :: rest' => search r ngroups (S i) rest'
      end
  end.

(** The array [exec] returns: [m_text] is element 0, [m_groups] the
    elements from 1 on, [m_index] the property [index]. *)
Record MatchResult : Type := mkMatch {
  m_index : nat;
  m_text : jstring;
  m_groups : list (option jstring)
}.

Definition m_end (m : MatchResult) : nat := m_index m + length (m_text m).

(** [match[i]] for [i >= 1]; [undefined] is [None]. *)
Definition m_group (m : MatchResult) (i : nat) : option jstring :=
  mjoin (m_groups m !! pred i).

(** [re.exec(s)]: the match and the pattern object with its new
    [lastIndex]. *)
Definition exec (re : RegExp) (s : jstring) : option MatchResult * RegExp :=
  let li := if re_global re then lastIndex re else 0 in
  let failed := if re_global re then set_lastIndex re 0 else re in
  if length s <? li then (None, failed)
  else
    match search (re_body re) (re_ngroups re) li (drop li s) with
    | None => (None, failed)
    | Some (i, y) =>
        (Some (mkMatch i (take (ms_pos y - i) (drop i s)) (ms_caps y)),
         if re_global re then set_lastIndex re (ms_pos y) else re)
    end.

(** ** [replace] with a global pattern *)

(** The expansion of the [$]-patterns of a replacement text: [$$], [$&],
    [$`], [$'] and [$n], [$nn] for the groups that exist. *)
Definition digit_val (c : ascii) : nat := N.to_nat (code c - 48).

Fixpoint GetSubstitution (m : MatchResult) (s : jstring) (repl : jstring) : jstring :=
  match repl with
  | [] => []
  | "$"%char :: t =>
      match t with
      | [] => ["$"%char]
      | "$"%char :: t' => "$"%char :: GetSubstitution m s t'
      | "&"%char :: t' => m_text m ++ GetSubstitution m s t'
      | "`"%char :: t' => take (m_index m) s ++ GetSubstitution m s t'
      | "'"%char :: t' => drop (m_end m) s ++ GetSubstitution m s t'
      | d1 :: t' =>
          let one :=
            if is_digit d1 && (1 <=? digit_val d1) && (digit_val d1 <=? length (m_groups m))
            then Some (default [] (m_group m (digit_val d1)) ++ GetSubstitution m s t')
            else None in
          let two :=
            match t' with
            | d2 :: t'' =>
                let n := 10 * digit_val d1 + digit_val d2 in
                if is_digit d1 && is_digit d2 && (1 <=? n) && (n <=? length (m_groups m))
                then Some (default [] (m_group m n) ++ GetSubstitution m s t'')
                else None
            | [] => None
            end in
          match two, one with
          | Some r, _ => r
          | None, Some r => r
          | None, None => "$"%char :: d1 :: GetSubstitution m s t'
          end
      end
  | c :: t => c :: GetSubstitution m s t
  end.

(** The matches a global [replace] collects: [exec] is called until it
    fails, and after an empty match [lastIndex] moves one step on. *)
Fixpoint collect (fuel : nat) (re : RegExp) (s : jstring) : list MatchResult :=
  match fuel with
  | 0 => []
  | S fuel' =>
      match exec re s with
      | (None, _) => []
      | (Some m, re') =>
          let re'' :=
            if bool_decide (m_text m = []) then set_lastIndex re' (S (lastIndex re'))
            else re' in
          m :: collect fuel' re'' s
      end
  end.

(** The result text: between the matches the input is copied, and each
    match is replaced by the expansion of [repl]. *)
Fixpoint assemble (ms : list MatchResult) (s : jstring) (repl : jstring)
    (next : nat) : jstring :=
  match ms with
  | [] => drop next s
  | m :: ms' =>
      if next <=? m_index m then
        take (m_index m - next) (drop next s)
          ++ GetSubstitution m s repl
          ++ assemble ms' s repl (m_end m)
      else assemble ms' s repl next
  end.

(** [s.replace(re, repl)] for a global [re]. *)
Definition replace (s : jstring) (re : RegExp) (repl : jstring) : jstring :=
  assemble (collect (S (S (length s))) (set_lastIndex re 0) s) s repl 0.

(** ** The loop [while ((m = re.exec(s)) !== null) body(m)] *)

(** The loop both extractors run.  It ends when [exec] fails; [None] means
    that [fuel] calls of [exec] were not enough. *)
Fixpoint exec_while {A} (fuel : nat) (re : RegExp) (s : jstring)
    (body : MatchResult → A → A) (acc : A) : option A :=
  match fuel with
  | 0 => None
  | S fuel' =>
      match exec re s with
      | (None, _) => Some acc
      | (Some m, re') => exec_while fuel' re' s body (body m acc)
      end
  end.

(** ** Patterns that test one code unit *)

(** The test of a pattern that consumes exactly one code unit. *)
Definition char_atom (r : regex) : option (ascii → bool) :=
  match r with
  | RChar c => Some (λ d, bool_decide (d = c))
  | RDot => Some (λ d, negb (is_line_terminator d))
  | RClass neg items => Some (class_matches neg items)
  | _ => None
  end.
