(* ===== verification/RegexFacts.v ===== *)
(** * RegexFacts: how the matcher behaves

    The facts about [Regex.v] the components rest on.

    - Soundness: a match consumes a prefix of the input and moves the index
      by its length ([rmatch_sound], [search_sound]).
    - Literals and greedy runs: a literal matches exactly its own code units
      ([rmatch_RLit]); a greedy repetition of a one-unit test takes the
      longest run when what follows cannot start with a unit the test
      accepts ([rmatch_star_run]), so backtracking never changes the result
      of the patterns of the sources.
    - The loops [exec_while] and [replace] walk the input by index; here
      they are shown equal to [scan_all] and [gsub], which recurse on the
      input that remains ([exec_while_scan], [replace_gsub]).
    - Fuel: the loops end within the length of the input; more fuel changes
      nothing ([gsub_fuel], [scan_all_terminates], [scan_all_fuel_mono]). *)

From Stdlib Require Import Ascii String NArith.
From stdpp Require Import base numbers list.
From S2P Require Import Prelude JsString Regex.
#[local] Set Warnings "-clear-no-such-hyp".

(** ** Definitions *)

(** [y] is reached from [x] by consuming input. *)
Definition extends (x y : mstate) : Prop :=
  ∃ u, ms_rest x = u ++ ms_rest y ∧ ms_pos y = ms_pos x + length u.

(** A matcher step is sound when every state it hands to its continuation
    extends the state it started from. *)
Definition step_sound {R} (step : mstate → (mstate → option R) → option R) : Prop :=
  ∀ x k v, step x k = Some v → ∃ y, extends x y ∧ k y = Some v.

(** The ways a greedy run over [u] can end, longest first. *)
Fixpoint backtrack {R} (k : mstate → option R) (i : nat) (u rest : jstring)
    (caps : list (option jstring)) : option R :=
  match u with
  | [] => k (MState i rest caps)
  | c :: u' =>
      match backtrack k (S i) u' rest caps with
      | Some v => Some v
      | None => k (MState i (c :: u' ++ rest) caps)
      end
  end.

(** The matches of [exec_while] from index [i], where [rest] is the input
    from [i] on. *)
Fixpoint scan_all (fuel : nat) (r : regex) (ng i : nat) (rest : jstring) :
    option (list MatchResult) :=
  match fuel with
  | 0 => None
  | S fuel' =>
      match search r ng i rest with
      | None => Some []
      | Some (j, y) =>
          cons (mkMatch j (take (ms_pos y - j) (drop (j - i) rest)) (ms_caps y))
            <$> scan_all fuel' r ng (ms_pos y) (ms_rest y)
      end
  end.

(** Global substitution on the input that remains: [f] gives the text that
    replaces a match. *)
Fixpoint gsub (fuel : nat) (r : regex) (ng : nat) (f : MatchResult → jstring)
    (i : nat) (rest : jstring) : jstring :=
  match fuel with
  | 0 => rest
  | S fuel' =>
      match search r ng i rest with
      | None => rest
      | Some (j, y) =>
          take (j - i) rest
            ++ f (mkMatch j (take (ms_pos y - j) (drop (j - i) rest)) (ms_caps y))
            ++ (if ms_pos y =? j then
                  match ms_rest y with
                  | [] => []
                  | c :: rest' => c :: gsub fuel' r ng f (S j) rest'
                  end
                else gsub fuel' r ng f (ms_pos y) (ms_rest y))
      end
  end.

(** A pattern that never matches the empty string. *)
Definition never_empty (r : regex) (ng : nat) : Prop :=
  ∀ i rest y, match_at r ng i rest = Some y → ms_pos y ≠ i.

(** ** Soundness of the matcher *)

Section sound.
Context {R : Type}.
Implicit Types (k : mstate → option R) (x y : mstate).

Lemma extends_refl x : extends x x.
Proof. exists []. simpl. split; [done|lia]. Qed.

Lemma extends_trans x y z : extends x y → extends y z → extends x z.
Proof.
  intros (u & Hu & Hp) (w & Hw & Hq). exists (u ++ w).
  rewrite Hu, Hw, <-app_assoc, length_app. split; [done|lia].
Qed.

Lemma extends_advance x c rest' : ms_rest x = c :: rest' → extends x (advance x rest').
Proof. intros H. exists [c]. simpl. rewrite H. split; [done|lia]. Qed.

Lemma match_char_sound p : step_sound (R:=R) (match_char p).
Proof.
  intros x k v. unfold match_char.
  destruct (ms_rest x) as [|c rest'] eqn:E; [done|].
  destruct (p c); [|done]. intros H. eauto using extends_advance.
Qed.

Lemma star_loop_sound (step : mstate → (mstate → option R) → option R) greedy n :
  step_sound step → step_sound (λ x k', star_loop step greedy k' n x).
Proof.
  intros Hs. induction n as [|n IH]; intros x k' v; simpl.
  - destruct greedy; [eauto using extends_refl|].
    destruct (k' x) eqn:E; [|done]. intros [= <-]. eauto using extends_refl.
  - assert (∀ v, step x (λ y, if ms_pos y =? ms_pos x then None
                else star_loop step greedy k' n y) = Some v →
              ∃ y, extends x y ∧ k' y = Some v) as Hiter.
    { intros w (y & Hxy & Hy)%Hs. destruct (ms_pos y =? ms_pos x); [done|].
      apply IH in Hy as (z & Hyz & Hz). eauto using extends_trans. }
    destruct greedy.
    + destruct (step x _) eqn:E; [intros [= <-]; eauto|eauto using extends_refl].
    + destruct (k' x) eqn:E; [intros [= <-]; eauto using extends_refl|eauto].
Qed.

Lemma rmatch_sound (r : regex) : step_sound (rmatch (R:=R) r).
Proof.
  induction r as [| | | |r1 IH1 r2 IH2|r1 IH1 r2 IH2|g r IH|g r IH|i r IH| |];
    intros x k v; cbn [rmatch].
  - eauto using extends_refl.
  - apply (match_char_sound _ x k v).
  - apply (match_char_sound _ x k v).
  - apply (match_char_sound _ x k v).
  - intros (y & Hxy & (z & Hyz & Hz)%IH2)%IH1. eauto using extends_trans.
  - destruct (rmatch r1 x k) eqn:E; [intros [= <-]; eauto|eauto].
  - apply (star_loop_sound (λ x' k', rmatch r (clear_caps (groups r) x') k')).
    unfold step_sound. intros x' k' w Hw. apply IH in Hw as (y & Hy & Hk). eauto.
  - apply (star_loop_sound (λ x' k', rmatch r (clear_caps (groups r) x') k')).
    unfold step_sound. intros x' k' w Hw. apply IH in Hw as (y & Hy & Hk). eauto.
  - intros (y & Hxy & Hy)%IH. eexists. split; [|exact Hy]. exact Hxy.
  - destruct (ms_pos x =? 0); [eauto using extends_refl|done].
  - destruct (ms_rest x); [eauto using extends_refl|done].
Qed.

End sound.

(** ** Literals and greedy runs *)

Section runs.
Context {R : Type}.
Implicit Types (k : mstate → option R).

(** The defining equations of the matcher, for rewriting at the places a
    proof has reached. *)
Lemma rmatch_REmpty x k : rmatch REmpty x k = k x.
Proof. done. Qed.

Lemma rmatch_RSeq r1 r2 x k : rmatch (RSeq r1 r2) x k = rmatch r1 x (λ y, rmatch r2 y k).
Proof. done. Qed.

Lemma rmatch_RAlt r1 r2 x k :
  rmatch (RAlt r1 r2) x k =
    match rmatch r1 x k with Some v => Some v | None => rmatch r2 x k end.
Proof. done. Qed.

Lemma rmatch_RGroup i r x k :
  rmatch (RGroup i r) x k =
    rmatch r x (λ y, k (MState (ms_pos y) (ms_rest y)
                          (set_cap i (Some (captured x y)) (ms_caps y)))).
Proof. done. Qed.

Lemma rmatch_RPlus g r x k :
  rmatch (RPlus g r) x k = rmatch r x (λ y, rmatch (RStar g r) y k).
Proof. done. Qed.

Lemma rmatch_RLit s i rest caps k :
  rmatch (RLit s) (MState i rest caps) k =
    if starts_with s rest then k (MState (i + length s) (drop (length s) rest) caps)
    else None.
Proof.
  revert i rest. induction s as [|c s IH]; intros i rest; simpl.
  - by rewrite Nat.add_0_r.
  - unfold match_char; simpl. destruct rest as [|d rest]; [done|].
    destruct (decide (c = d)) as [->|Hne].
    + rewrite bool_decide_eq_true_2 by done. unfold advance; simpl.
      rewrite IH. by rewrite Nat.add_succ_r.
    + by rewrite bool_decide_eq_false_2 by done.
Qed.

Lemma rmatch_RLit_app s i rest caps k :
  rmatch (RLit s) (MState i (s ++ rest) caps) k = k (MState (i + length s) rest caps).
Proof. by rewrite rmatch_RLit, starts_with_app, drop_app_length. Qed.

Lemma rmatch_RLit_then s r i rest caps k :
  rmatch (RLit_then s r) (MState i rest caps) k =
    if starts_with s rest
    then rmatch r (MState (i + length s) (drop (length s) rest) caps) k
    else None.
Proof.
  revert i rest. induction s as [|c s IH]; intros i rest; cbn [RLit_then].
  - by rewrite Nat.add_0_r.
  - rewrite rmatch_RSeq. cbn [rmatch]. unfold match_char; cbn [ms_rest starts_with].
    destruct rest as [|d rest]; [done|].
    destruct (decide (c = d)) as [->|Hne].
    + rewrite bool_decide_eq_true_2 by done. unfold advance; simpl.
      rewrite IH. by rewrite Nat.add_succ_r.
    + by rewrite bool_decide_eq_false_2 by done.
Qed.

Lemma char_atom_rmatch r p x k :
  char_atom r = Some p → rmatch r x k = match_char p x k.
Proof. destruct r; simpl; intros [= <-]; done. Qed.

Lemma char_atom_groups r p : char_atom r = Some p → groups r = [].
Proof. by destruct r. Qed.

Lemma star_loop_char_greedy step p k n i u rest caps :
  (∀ x k', step x k' = match_char p x k') →
  Forall (λ c, p c = true) u →
  (∀ c rest', rest = c :: rest' → p c = false) →
  length u ≤ n →
  star_loop step true k n (MState i (u ++ rest) caps) = backtrack k i u rest caps.
Proof.
  intros Hstep Hu Hrest. revert n i. induction Hu as [|c u Hc Hu IH]; intros n i Hn.
  - destruct n as [|n]; cbn [star_loop backtrack app]; [done|].
    rewrite Hstep. unfold match_char; cbn [ms_rest].
    destruct rest as [|c rest']; [done|]. by rewrite (Hrest c rest').
  - destruct n as [|n]; cbn [length] in Hn; [lia|].
    cbn [star_loop backtrack app]. rewrite Hstep.
    unfold match_char, advance; cbn [ms_rest ms_pos ms_caps]. rewrite Hc.
    rewrite (proj2 (Nat.eqb_neq (S i) i)) by lia.
    rewrite IH by lia. done.
Qed.

Lemma backtrack_last k i u rest caps :
  Forall (λ c, ∀ j r cs, k (MState j (c :: r) cs) = None) u →
  backtrack k i u rest caps = k (MState (i + length u) rest caps).
Proof.
  intros Hu. revert i. induction Hu as [|c u Hc Hu IH]; intros i; simpl.
  - by rewrite Nat.add_0_r.
  - rewrite IH, Hc, Nat.add_succ_r. by destruct (k _).
Qed.

(** A greedy repetition of a one-unit test, followed by a continuation that
    fails on every unit the test accepts, takes the longest run. *)
Lemma rmatch_star_run r p k i rest caps :
  char_atom r = Some p →
  (∀ c j r' cs, p c = true → k (MState j (c :: r') cs) = None) →
  rmatch (RStar true r) (MState i rest caps) k =
    k (MState (i + length (take_while p rest)) (drop_while p rest) caps).
Proof.
  intros Hr Hk. cbn [rmatch ms_rest].
  rewrite <-(take_drop_while p rest) at 1 2.
  rewrite (star_loop_char_greedy _ p).
  - apply backtrack_last. eapply Forall_impl; [apply take_while_Forall|]. eauto.
  - intros [] k'. rewrite (char_atom_groups _ _ Hr). by apply char_atom_rmatch.
  - apply take_while_Forall.
  - intros c rest'. apply drop_while_head.
  - rewrite length_app. lia.
Qed.

Lemma space_class_spec c : class_matches false [CSpace false] c = is_space c.
Proof. unfold class_matches, citem_matches; cbn [existsb xorb]. by destruct (is_space c). Qed.

Lemma rmatch_space_star k i rest caps :
  (∀ c j r' cs, is_space c = true → k (MState j (c :: r') cs) = None) →
  rmatch (RStar true space_class) (MState i rest caps) k =
    k (MState (i + length (take_while is_space rest)) (drop_while is_space rest) caps).
Proof.
  intros Hk. rewrite (rmatch_star_run _ (class_matches false [CSpace false])); [|done|].
  - by rewrite (take_while_ext _ is_space), (drop_while_ext _ is_space)
      by apply space_class_spec.
  - intros c j r' cs Hc. apply Hk. by rewrite <-space_class_spec.
Qed.

End runs.

Lemma groups_RLit_then s r : groups (RLit_then s r) = groups r.
Proof. induction s; simpl; done. Qed.

(** A replacement text without [$] is inserted as it is. *)
Lemma GetSubstitution_plain m s v : "$"%char ∉ v → GetSubstitution m s v = v.
Proof.
  induction v as [|c v IH]; [done|]. intros [Hc Hv]%not_elem_of_cons.
  cbn [GetSubstitution]. rewrite IH by done.
  destruct c as [[] [] [] [] [] [] [] []]; done.
Qed.


(** ** Searching for the first match *)

Lemma match_at_extends r ng i rest y :
  match_at r ng i rest = Some y → ∃ u, rest = u ++ ms_rest y ∧ ms_pos y = i + length u.
Proof.
  unfold match_at. intros (z & (u & Hu & Hp) & [= ->])%rmatch_sound. eauto.
Qed.

Lemma search_here r ng i rest y :
  match_at r ng i rest = Some y → search r ng i rest = Some (i, y).
Proof. destruct rest; simpl; by intros ->. Qed.

Lemma search_skip r ng i c rest :
  match_at r ng i (c :: rest) = None →
  search r ng i (c :: rest) = search r ng (S i) rest.
Proof. simpl. by intros ->. Qed.

Lemma search_skip_run r ng i u rest :
  (∀ u1 c u2, u = u1 ++ c :: u2 → match_at r ng (i + length u1) (c :: u2 ++ rest) = None) →
  search r ng i (u ++ rest) = search r ng (i + length u) rest.
Proof.
  revert i. induction u as [|c u IH]; intros i H.
  - simpl. by rewrite Nat.add_0_r.
  - cbn [app]. rewrite search_skip.
    + rewrite IH; [cbn [length]; f_equal; lia|].
      intros u1 d u2 ->. specialize (H (c :: u1) d u2 eq_refl).
      cbn [length] in H. by rewrite Nat.add_succ_r in H.
    + specialize (H [] c u eq_refl). cbn [length] in H. by rewrite Nat.add_0_r in H.
Qed.

Lemma search_sound r ng i rest j y :
  search r ng i rest = Some (j, y) →
  ∃ u w, rest = u ++ w ++ ms_rest y ∧ j = i + length u ∧ ms_pos y = j + length w
    ∧ match_at r ng j (w ++ ms_rest y) = Some y.
Proof.
  revert i. induction rest as [|c rest IH]; intros i; simpl.
  - destruct (match_at r ng i []) as [z|] eqn:E; [|done]. intros [= <- <-].
    destruct (match_at_extends _ _ _ _ _ E) as (w & Hw & Hp).
    exists [], w. cbn [app length]. rewrite <-Hw. split_and!; [done|lia|done|done].
  - destruct (match_at r ng i (c :: rest)) as [z|] eqn:E.
    + intros [= <- <-]. destruct (match_at_extends _ _ _ _ _ E) as (w & Hw & Hp).
      exists [], w. cbn [app length]. rewrite <-Hw. split_and!; [done|lia|done|done].
    + intros (u & w & -> & -> & Hp & Hm)%IH. exists (c :: u), w.
      cbn [app length]. split_and!; [done|lia|done|done].
Qed.

Lemma search_None_app r ng i rest :
  search r ng i rest = None →
  ∀ u1 u2, rest = u1 ++ u2 → match_at r ng (i + length u1) u2 = None.
Proof.
  revert i. induction rest as [|c rest IH]; intros i; simpl.
  - destruct (match_at r ng i []) eqn:E; [done|]. intros _ u1 u2 H.
    symmetry in H. apply app_eq_nil in H as [-> ->]. by rewrite Nat.add_0_r.
  - destruct (match_at r ng i (c :: rest)) eqn:E; [done|]. intros H u1 u2 Hu.
    destruct u1 as [|d u1]; cbn [app length] in *.
    + subst. by rewrite Nat.add_0_r.
    + injection Hu as -> ->. rewrite Nat.add_succ_r. by apply (IH (S i)).
Qed.

Lemma search_in_drop r ng li s j y :
  li ≤ length s → search r ng li (drop li s) = Some (j, y) →
  li ≤ j ∧ j ≤ ms_pos y ∧ ms_pos y ≤ length s ∧ ms_rest y = drop (ms_pos y) s
  ∧ drop (j - li) (drop li s) = drop j s.
Proof.
  intros Hli (u & w & Hs & -> & Hp & _)%search_sound.
  pose proof (f_equal length Hs) as Hlen.
  rewrite length_drop, !length_app in Hlen.
  split_and!; [lia..| |].
  - rewrite Hp. replace (li + length u + length w) with (li + length (u ++ w))
      by (rewrite length_app; lia).
    rewrite <-drop_drop, Hs, app_assoc. by rewrite drop_app_length.
  - rewrite drop_drop. f_equal. lia.
Qed.

(** ** The loops on the remaining input *)

Lemma exec_global re s :
  re_global re = true → lastIndex re ≤ length s →
  exec re s =
    match search (re_body re) (re_ngroups re) (lastIndex re) (drop (lastIndex re) s) with
    | None => (None, set_lastIndex re 0)
    | Some (j, y) =>
        (Some (mkMatch j (take (ms_pos y - j) (drop j s)) (ms_caps y)),
         set_lastIndex re (ms_pos y))
    end.
Proof.
  intros Hg Hli. unfold exec. rewrite Hg.
  rewrite (proj2 (Nat.ltb_ge _ _)) by done. by destruct (search _ _ _ _) as [[j y]|].
Qed.

Lemma exec_while_scan {A} fuel re s (body : MatchResult → A → A) acc :
  re_global re = true → lastIndex re ≤ length s →
  exec_while fuel re s body acc =
    (λ ms, foldl (λ a m, body m a) acc ms) <$>
      scan_all fuel (re_body re) (re_ngroups re) (lastIndex re) (drop (lastIndex re) s).
Proof.
  revert re acc. induction fuel as [|fuel IH]; intros re acc Hg Hli; [done|].
  cbn [exec_while scan_all]. rewrite exec_global by done.
  destruct (search _ _ _ _) as [[j y]|] eqn:E; [|done].
  destruct (search_in_drop _ _ _ _ _ _ Hli E) as (H1 & H2 & H3 & H4 & H5).
  rewrite IH by done. cbn [re_body re_ngroups lastIndex set_lastIndex].
  rewrite <-H4, H5. by destruct (scan_all _ _ _ _ _).
Qed.

Lemma collect_past_end fuel re s :
  re_global re = true → length s < lastIndex re → collect fuel re s = [].
Proof.
  intros Hg Hli. destruct fuel as [|fuel]; [done|]. cbn [collect]. unfold exec.
  rewrite Hg. by rewrite (proj2 (Nat.ltb_lt _ _)) by done.
Qed.

Lemma collect_assemble fuel re s repl next :
  re_global re = true → next ≤ lastIndex re → lastIndex re ≤ length s →
  assemble (collect fuel re s) s repl next =
    take (lastIndex re - next) (drop next s) ++
    gsub fuel (re_body re) (re_ngroups re) (λ m, GetSubstitution m s repl)
      (lastIndex re) (drop (lastIndex re) s).
Proof.
  revert re next. induction fuel as [|fuel IH]; intros re next Hg Hn Hli.
  { cbn [collect assemble gsub]. by rewrite take_drop_rest. }
  cbn [collect gsub]. rewrite exec_global by done.
  destruct (search _ _ _ _) as [[j y]|] eqn:E;
    [|cbn [assemble]; by rewrite take_drop_rest].
  destruct (search_in_drop _ _ _ _ _ _ Hli E) as (H1 & H2 & H3 & H4 & H5).
  rewrite H5. set (m := mkMatch j _ _).
  assert (m_end m = ms_pos y) as Hend.
  { unfold m_end, m; cbn [m_index m_text].
    rewrite length_take_le by (rewrite length_drop; lia). lia. }
  cbn [assemble]. rewrite (proj2 (Nat.leb_le next (m_index m))) by (unfold m; cbn [m_index]; lia).
  rewrite Hend. cbn [m_index m]. fold m.
  rewrite <-(take_drop_join s next (lastIndex re) j) by lia.
  rewrite <-!app_assoc. do 2 f_equal.
  destruct (Nat.eqb_spec (ms_pos y) j) as [Hj|Hj].
  - rewrite bool_decide_eq_true_2.
    2:{ unfold m; cbn [m_text]. rewrite Hj, Nat.sub_diag. done. }
    cbn [set_lastIndex lastIndex]. rewrite H4, Hj.
    destruct (drop j s) as [|c rest'] eqn:Ed.
    + apply drop_nil_inv in Ed. rewrite collect_past_end by (simpl; first [done|lia]).
      cbn [assemble]. by rewrite (drop_ge s j) by lia.
    + assert (j < length s) as Hlt.
      { destruct (decide (j < length s)); [done|]. rewrite drop_ge in Ed by lia. done. }
      rewrite IH by (simpl; first [done|lia]).
      cbn [set_lastIndex re_body re_ngroups lastIndex].
      replace (S j - j) with 1 by lia. rewrite Ed. cbn [take].
      by rewrite (drop_cons_S _ _ _ _ Ed).
  - rewrite bool_decide_eq_false_2.
    2:{ unfold m; cbn [m_text]. intros Hnil%(f_equal length).
        rewrite length_take_le in Hnil by (rewrite length_drop; lia).
        simpl in Hnil. lia. }
    rewrite IH by (simpl; first [done|lia]). cbn [set_lastIndex lastIndex re_body re_ngroups].
    by rewrite Nat.sub_diag, H4.
Qed.

Theorem replace_gsub s re repl :
  re_global re = true →
  replace s re repl =
    gsub (S (S (length s))) (re_body re) (re_ngroups re)
      (λ m, GetSubstitution m s repl) 0 s.
Proof.
  intros Hg. unfold replace. rewrite collect_assemble by (simpl; first [done|lia]).
  done.
Qed.

Lemma gsub_fuel r ng f fuel1 fuel2 i rest :
  length rest < fuel1 → length rest < fuel2 →
  gsub fuel1 r ng f i rest = gsub fuel2 r ng f i rest.
Proof.
  revert fuel2 i rest. induction fuel1 as [|fuel1 IH]; intros fuel2 i rest H1 H2; [lia|].
  destruct fuel2 as [|fuel2]; [lia|]. cbn [gsub].
  destruct (search r ng i rest) as [[j y]|] eqn:E; [|done].
  destruct (search_sound _ _ _ _ _ _ E) as (u & w & Hs & -> & Hp & _).
  apply (f_equal length) in Hs. rewrite !length_app in Hs.
  do 2 f_equal. destruct (Nat.eqb_spec (ms_pos y) (i + length u)) as [Hj|Hj].
  - destruct (ms_rest y) as [|c rest']; [done|]. cbn [length] in Hs.
    f_equal. apply IH; lia.
  - apply IH; lia.
Qed.

Lemma scan_all_terminates r ng fuel i rest :
  never_empty r ng → length rest < fuel → is_Some (scan_all fuel r ng i rest).
Proof.
  intros Hne. revert i rest. induction fuel as [|fuel IH]; intros i rest Hf; [lia|].
  cbn [scan_all]. destruct (search r ng i rest) as [[j y]|] eqn:E; [|by eexists].
  destruct (search_sound _ _ _ _ _ _ E) as (u & w & Hs & -> & Hp & Hm).
  apply Hne in Hm. apply (f_equal length) in Hs. rewrite !length_app in Hs.
  destruct (IH (ms_pos y) (ms_rest y)) as [ms Hms]; [lia|].
  rewrite Hms. by eexists.
Qed.

Lemma scan_all_fuel_mono r ng fuel fuel' i rest ms :
  scan_all fuel r ng i rest = Some ms → fuel ≤ fuel' →
  scan_all fuel' r ng i rest = Some ms.
Proof.
  revert fuel' i rest ms. induction fuel as [|fuel IH]; intros fuel' i rest ms; [done|].
  destruct fuel' as [|fuel']; [lia|]. cbn [scan_all].
  destruct (search r ng i rest) as [[j y]|]; [|done].
  destruct (scan_all fuel _ _ _ _) as [ms'|] eqn:E; [|done].
  intros [= <-] Hf. by rewrite (IH fuel' _ _ ms') by (done || lia).
Qed.

Lemma exec_while_fuel_mono {A} fuel fuel' re s (body : MatchResult → A → A) acc v :
  exec_while fuel re s body acc = Some v → fuel ≤ fuel' →
  exec_while fuel' re s body acc = Some v.
Proof.
  revert fuel' re acc. induction fuel as [|fuel IH]; intros fuel' re acc; [done|].
  destruct fuel' as [|fuel']; [lia|]. cbn [exec_while].
  destruct (exec re s) as [[m|] re']; [|done]. intros H Hf. apply IH; [done|lia].
Qed.

#[export] Hint Resolve extends_refl extends_advance : docmerge.
#[export] Hint Rewrite @rmatch_REmpty @rmatch_RSeq @rmatch_RGroup @rmatch_RPlus
  @rmatch_RLit : docmerge.
