(* ===== verification/Pattern.v ===== *)
(** * Pattern: what [new RegExp(pattern, 'g')] makes of a pattern text

    [mergeSingleDocument] builds its pattern at run time: the text
    [\{\{\s*], the placeholder name as it is, and the text [\s*\}\}] are
    joined and handed to [new RegExp].  What the name does inside the
    pattern is decided by the pattern grammar, so the development parses
    pattern texts: [parse_pattern] follows the grammar ECMAScript gives
    patterns without the [u] flag (with the extensions browsers implement:
    a brace that opens no quantifier and a closing bracket stand for
    themselves).

    The parser answers [Ok r] with the pattern it read, [Err SyntaxError]
    where [new RegExp] throws, and [Err Unsupported] for the constructs
    [Regex.v] has no syntax for: counted repetition [{n,m}],
    back-references, look-around, [\b], and the escapes [\c], [\x], [\u],
    [\k] and [\0].  Nothing is claimed of a pattern that is unsupported.

    The three functions of the grammar recurse on what is left of the text;
    they take fuel, and [parse_fuel_enough] shows that three units per
    character are enough. *)

From Stdlib Require Import Ascii String NArith.
From stdpp Require Import base numbers list.
From S2P Require Import Prelude JsString Regex.

(** ** Errors *)

Inductive regexp_error : Type :=
| SyntaxError
| Unsupported
| OutOfFuel.

#[export] Instance regexp_error_eq_dec : EqDecision regexp_error.
Proof. solve_decision. Defined.

(** ** Characters of the grammar *)

(** The role a character has where a term may begin. *)
Inductive token : Type :=
| TStart | TEnd | TBackslash | TDot | TStar | TPlus | TQuest
| TLParen | TRParen | TLBracket | TLBrace | TBar | TChar.

Definition classify (c : ascii) : token :=
  if (c =? "^")%char then TStart
  else if (c =? "$")%char then TEnd
  else if (c =? "\")%char then TBackslash
  else if (c =? ".")%char then TDot
  else if (c =? "*")%char then TStar
  else if (c =? "+")%char then TPlus
  else if (c =? "?")%char then TQuest
  else if (c =? "(")%char then TLParen
  else if (c =? ")")%char then TRParen
  else if (c =? "[")%char then TLBracket
  else if (c =? "{")%char then TLBrace
  else if (c =? "|")%char then TBar
  else TChar.

(** A character that stands for itself wherever it occurs in a pattern. *)
Definition pattern_char (c : ascii) : bool :=
  match classify c with
  | TChar => true
  | _ => false
  end.

(** [{n}], [{n,}] or [{n,m}] at the head of [s]: what follows it. *)
Definition braced_quantifier (s : jstring) : option jstring :=
  match s with
  | c :: s1 =>
      if (c =? "{")%char && negb (bool_decide (take_while is_digit s1 = [])) then
        match drop_while is_digit s1 with
        | d :: s2 =>
            if (d =? "}")%char then Some s2
            else if (d =? ",")%char then
              match drop_while is_digit s2 with
              | e :: s3 => if (e =? "}")%char then Some s3 else None
              | [] => None
              end
            else None
        | [] => None
        end
      else None
  | [] => None
  end.

(** ** Quantifiers *)

(** The optional [?] that makes a quantifier lazy. *)
Definition lazy_suffix (mk : bool → regex) (rest : jstring) : regex * jstring :=
  match rest with
  | c :: rest' => if (c =? "?")%char then (mk false, rest') else (mk true, rest)
  | [] => (mk true, rest)
  end.

(** The quantifier that may follow the atom [r]. *)
Definition quantifier (r : regex) (s : jstring) : result regexp_error (regex * jstring) :=
  match s with
  | [] => Ok (r, s)
  | c :: rest =>
      match classify c with
      | TStar => Ok (lazy_suffix (λ g, RStar g r) rest)
      | TPlus => Ok (lazy_suffix (λ g, RPlus g r) rest)
      | TQuest => Ok (lazy_suffix (λ g, ROpt g r) rest)
      | TLBrace => if braced_quantifier s is Some _ then Err Unsupported else Ok (r, s)
      | _ => Ok (r, s)
      end
  end.

Definition with_quantifier (r : regex) (n : nat) (s : jstring) :
    result regexp_error (regex * nat * jstring) :=
  '(q, rest) ← quantifier r s; Ok (q, n, rest).

(** ** Escapes *)

(** [\d], [\D], [\s], [\S], [\w], [\W]. *)
Definition class_escape (c : ascii) : option citem :=
  if (c =? "d")%char then Some (CDigit false)
  else if (c =? "D")%char then Some (CDigit true)
  else if (c =? "s")%char then Some (CSpace false)
  else if (c =? "S")%char then Some (CSpace true)
  else if (c =? "w")%char then Some (CWord false)
  else if (c =? "W")%char then Some (CWord true)
  else None.

(** [\t], [\n], [\v], [\f], [\r]. *)
Definition control_escape (c : ascii) : option ascii :=
  if (c =? "t")%char then Some "009"%char
  else if (c =? "n")%char then Some "010"%char
  else if (c =? "v")%char then Some "011"%char
  else if (c =? "f")%char then Some "012"%char
  else if (c =? "r")%char then Some "013"%char
  else None.

(** The escapes outside the model: digits, [\b], [\B], [\c], [\x], [\u]
    and [\k]. *)
Definition unsupported_escape (c : ascii) : bool :=
  is_digit c || (c =? "b")%char || (c =? "B")%char || (c =? "c")%char
  || (c =? "x")%char || (c =? "u")%char || (c =? "k")%char.

(** The character [\c] stands for, as a class member: any other escaped
    character stands for itself. *)
Definition escape_item (c : ascii) : result regexp_error citem :=
  match class_escape c with
  | Some it => Ok it
  | None =>
      match control_escape c with
      | Some d => Ok (CChar d)
      | None => if unsupported_escape c then Err Unsupported else Ok (CChar c)
      end
  end.

(** [\c] as an atom. *)
Definition atom_escape (c : ascii) : result regexp_error regex :=
  it ← escape_item c;
  Ok (match it with
      | CChar d => RChar d
      | _ => RClass false [it]
      end).

(** ** Character classes *)

(** One member of a class at the head of [s]. *)
Definition class_atom (s : jstring) : result regexp_error (citem * jstring) :=
  match s with
  | [] => Err SyntaxError
  | c :: s1 =>
      if (c =? "\")%char then
        match s1 with
        | [] => Err SyntaxError
        | e :: s2 => it ← escape_item e; Ok (it, s2)
        end
      else Ok (CChar c, s1)
  end.

(** The range [a-b]; when [a] or [b] is a class, the three stand side by
    side. *)
Definition class_range (a b : citem) : result regexp_error (list citem) :=
  match a, b with
  | CChar lo, CChar hi =>
      if (code hi <? code lo)%N then Err SyntaxError else Ok [CRange lo hi]
  | _, _ => Ok [a; CChar "-"%char; b]
  end.

(** The members of a class up to its closing bracket. *)
Fixpoint class_items (fuel : nat) (s : jstring) :
    result regexp_error (list citem * jstring) :=
  match fuel with
  | 0 => Err OutOfFuel
  | S fuel' =>
      match s with
      | [] => Err SyntaxError
      | c :: s0 =>
          if (c =? "]")%char then Ok ([], s0)
          else
            '(a, s1) ← class_atom s;
            match s1 with
            | d :: ((e :: _) as s2) =>
                if (d =? "-")%char && negb (e =? "]")%char then
                  '(b, s3) ← class_atom s2;
                  r ← class_range a b;
                  '(items, rest) ← class_items fuel' s3;
                  Ok (r ++ items, rest)
                else '(items, rest) ← class_items fuel' s1; Ok (a :: items, rest)
            | _ => '(items, rest) ← class_items fuel' s1; Ok (a :: items, rest)
            end
      end
  end.

(** ** Disjunctions, alternatives and terms *)

(** The closing parenthesis of a group [r], and its quantifier. *)
Definition close_group (r : regex) (n : nat) (s : jstring) :
    result regexp_error (regex * nat * jstring) :=
  match s with
  | c :: s' => if (c =? ")")%char then with_quantifier r n s' else Err SyntaxError
  | [] => Err SyntaxError
  end.

(** [n] counts the capturing groups opened so far; a group is numbered by
    its opening parenthesis. *)
Fixpoint parse_disjunction (fuel n : nat) (s : jstring) {struct fuel} :
    result regexp_error (regex * nat * jstring) :=
  match fuel with
  | 0 => Err OutOfFuel
  | S fuel' =>
      '(a, n1, s1) ← parse_alternative fuel' n s;
      match s1 with
      | c :: s2 =>
          if (c =? "|")%char then
            '(d, n2, s3) ← parse_disjunction fuel' n1 s2; Ok (RAlt a d, n2, s3)
          else Ok (a, n1, s1)
      | [] => Ok (a, n1, s1)
      end
  end
with parse_alternative (fuel n : nat) (s : jstring) {struct fuel} :
    result regexp_error (regex * nat * jstring) :=
  match fuel with
  | 0 => Err OutOfFuel
  | S fuel' =>
      match s with
      | [] => Ok (REmpty, n, s)
      | c :: _ =>
          match classify c with
          | TBar | TRParen => Ok (REmpty, n, s)
          | _ =>
              '(t, n1, s1) ← parse_term fuel' n s;
              '(a, n2, s2) ← parse_alternative fuel' n1 s1;
              Ok (RSeq t a, n2, s2)
          end
      end
  end
with parse_term (fuel n : nat) (s : jstring) {struct fuel} :
    result regexp_error (regex * nat * jstring) :=
  match fuel with
  | 0 => Err OutOfFuel
  | S fuel' =>
      match s with
      | [] => Err SyntaxError
      | c :: s1 =>
          match classify c with
          | TStart => Ok (RStart, n, s1)
          | TEnd => Ok (REnd, n, s1)
          | TStar | TPlus | TQuest | TRParen | TBar => Err SyntaxError
          | TLBrace =>
              if braced_quantifier s is Some _ then Err SyntaxError
              else with_quantifier (RChar c) n s1
          | TDot => with_quantifier RDot n s1
          | TChar => with_quantifier (RChar c) n s1
          | TBackslash =>
              match s1 with
              | [] => Err SyntaxError
              | e :: s2 => r ← atom_escape e; with_quantifier r n s2
              end
          | TLBracket =>
              let '(neg, s2) :=
                match s1 with
                | d :: s2 => if (d =? "^")%char then (true, s2) else (false, s1)
                | [] => (false, s1)
                end in
              '(items, s3) ← class_items fuel' s2;
              with_quantifier (RClass neg items) n s3
          | TLParen =>
              match s1 with
              | [] => Err SyntaxError
              | q :: s2 =>
                  if (q =? "?")%char then
                    match s2 with
                    | [] => Err SyntaxError
                    | k :: s3 =>
                        if (k =? ":")%char then
                          '(d, n1, s4) ← parse_disjunction fuel' n s3;
                          close_group d n1 s4
                        else Err Unsupported
                    end
                  else
                    '(d, n1, s4) ← parse_disjunction fuel' (S n) s1;
                    close_group (RGroup (S n) d) n1 s4
              end
          end
      end
  end.

(** The fuel [parse_pattern] gives the grammar. *)
Definition parse_fuel (s : jstring) : nat := 3 * length s + 3.

(** The pattern a text denotes.  Text left over can only start with a
    closing parenthesis that no group opened. *)
Definition parse_pattern (s : jstring) : result regexp_error regex :=
  '(r, _, rest) ← parse_disjunction (parse_fuel s) 0 s;
  match rest with
  | [] => Ok r
  | _ :: _ => Err SyntaxError
  end.

(** [new RegExp(pattern, flags)], where [global] says whether the flags are
    ['g'] or empty. *)
Definition RegExp_of_pattern (pattern : jstring) (global : bool) :
    result regexp_error RegExp :=
  r ← parse_pattern pattern; Ok (RegExp_new r global).
