(* ===== verification/PatternFacts.v ===== *)
(** * PatternFacts: the pattern parser is total, and plain text parses as itself

    - [parse_shrinks]: what the grammar functions leave of the text is no
      longer than the text, and a term consumes at least one character.
    - [parse_fuel_enough]: with the fuel [parse_pattern] gives them, the
      grammar functions never run out: [parse_pattern] answers with a
      pattern, [SyntaxError] or [Unsupported].
    - [parse_alternative_plain]: characters without a role in the grammar
      parse as a sequence of themselves. *)

From Stdlib Require Import Ascii String NArith.
From stdpp Require Import base numbers list.
From S2P Require Import Prelude JsString Regex Pattern.
#[local] Set Warnings "-clear-no-such-hyp".

(** ** Definitions *)

(** A grammar function leaves no more text than it was given, strictly less
    when [strict]. *)
Definition shrinks (strict : bool)
    (f : nat → jstring → result regexp_error (regex * nat * jstring)) : Prop :=
  ∀ n s r n' rest, f n s = Ok (r, n', rest) →
    if strict then length rest < length s else length rest ≤ length s.

(** With at least [3 * length s + need] units of fuel a grammar function
    does not run out of fuel on [s]. *)
Definition fuelled (need : nat) (fuel : nat)
    (f : nat → nat → jstring → result regexp_error (regex * nat * jstring)) : Prop :=
  ∀ n s, 3 * length s + need ≤ fuel → f fuel n s ≠ Err OutOfFuel.

(** No quantifier starts at the head of [s]. *)
Definition unquantified (s : jstring) : Prop := ∀ r, quantifier r s = Ok (r, s).

(** ** What the grammar functions leave of the text *)

Lemma lazy_suffix_length mk rest : length (lazy_suffix mk rest).2 ≤ length rest.
Proof.
  unfold lazy_suffix. destruct rest as [|c rest]; [done|].
  destruct (c =? "?")%char; simpl; lia.
Qed.

Lemma quantifier_length r s q rest :
  quantifier r s = Ok (q, rest) → length rest ≤ length s.
Proof.
  unfold quantifier. destruct s as [|c s]; [by intros [= _ <-]|].
  destruct (classify c);
    try (by intros [= _ <-]);
    try (destruct (braced_quantifier _); [done|by intros [= _ <-]]);
    intros [= H];
    match type of H with lazy_suffix ?mk _ = _ =>
      pose proof (lazy_suffix_length mk s) as Hl; rewrite H in Hl end;
    simpl in *; lia.
Qed.

Lemma with_quantifier_length r n s q n' rest :
  with_quantifier r n s = Ok (q, n', rest) → length rest ≤ length s.
Proof.
  unfold with_quantifier. intros ([q' rest'] & Hq & [= _ _ <-])%result_bind_Ok.
  by eapply quantifier_length.
Qed.

Lemma close_group_length r n s q n' rest :
  close_group r n s = Ok (q, n', rest) → length rest < length s.
Proof.
  unfold close_group. destruct s as [|c s]; [done|].
  destruct (c =? ")")%char; [|done]. intros H%with_quantifier_length. simpl. lia.
Qed.

Lemma class_atom_length s a rest :
  class_atom s = Ok (a, rest) → length rest < length s.
Proof.
  unfold class_atom. destruct s as [|c s]; [done|].
  destruct (c =? "\")%char.
  - destruct s as [|e s]; [done|].
    intros (it & _ & [= _ <-])%result_bind_Ok. simpl. lia.
  - intros [= _ <-]. simpl. lia.
Qed.

Lemma class_items_length fuel s items rest :
  class_items fuel s = Ok (items, rest) → length rest < length s.
Proof.
  revert s items rest. induction fuel as [|fuel IH]; intros s items rest; [done|].
  cbn [class_items]. destruct s as [|c s0]; [done|].
  destruct (c =? "]")%char; [intros [= _ <-]; simpl; lia|].
  intros ([a s1] & Ha%class_atom_length & H)%result_bind_Ok.
  assert ((class_items fuel s1 ≫= λ '(items0, rest0), Ok (a :: items0, rest0))
      = Ok (items, rest) → length rest < length (c :: s0)) as Hstep.
  { intros ([items' rest'] & Hi%IH & [= _ <-])%result_bind_Ok. lia. }
  destruct s1 as [|d [|e s2]]; try (by apply Hstep).
  destruct (_ && _); [|by apply Hstep].
  apply result_bind_Ok in H as ([b s3] & Hb%class_atom_length & H).
  apply result_bind_Ok in H as (r & _ & H).
  apply result_bind_Ok in H as ([items' rest'] & Hi%IH & [= _ <-]).
  simpl in *. lia.
Qed.

Lemma parse_disjunction_shrinks fuel :
  shrinks false (parse_alternative fuel) → shrinks false (parse_disjunction fuel) →
  shrinks false (parse_disjunction (S fuel)).
Proof.
  intros IHa IHd n s r n' rest. cbn [parse_disjunction].
  intros ([[a n1] s1] & Ha%IHa & H)%result_bind_Ok. simpl in Ha.
  destruct s1 as [|c s2]; [by simplify_eq|].
  destruct (c =? "|")%char; [|by simplify_eq].
  apply result_bind_Ok in H as ([[d n2] s3] & Hd%IHd & [= _ _ <-]). simpl in *. lia.
Qed.

Lemma parse_alternative_shrinks fuel :
  shrinks true (parse_term fuel) → shrinks false (parse_alternative fuel) →
  shrinks false (parse_alternative (S fuel)).
Proof.
  intros IHt IHa n s r n' rest. cbn [parse_alternative].
  destruct s as [|c s]; [by intros [= _ _ <-]|].
  destruct (classify c); try (by intros [= _ _ <-]);
    intros ([[t n1] s1] & Ht%IHt & H)%result_bind_Ok;
    apply result_bind_Ok in H as ([[a n2] s2] & Ha%IHa & [= _ _ <-]);
    simpl in *; lia.
Qed.

Lemma parse_term_shrinks fuel :
  shrinks false (parse_disjunction fuel) → shrinks true (parse_term (S fuel)).
Proof.
  intros IHd n s r n' rest. cbn [parse_term].
  destruct s as [|c s1]; [done|].
  destruct (classify c); try done; try (by intros [= _ _ <-]; simpl; lia);
    try (by intros H%with_quantifier_length; simpl; lia).
  - destruct s1 as [|e s2]; [done|].
    intros (r0 & _ & H%with_quantifier_length)%result_bind_Ok. simpl. lia.
  - destruct s1 as [|q s2]; [done|]. destruct (q =? "?")%char.
    + destruct s2 as [|k s3]; [done|]. destruct (k =? ":")%char; [|done].
      intros ([[d n1] s4] & Hd%IHd & H%close_group_length)%result_bind_Ok.
      simpl in *. lia.
    + intros ([[d n1] s4] & Hd%IHd & H%close_group_length)%result_bind_Ok.
      simpl in *. lia.
  - destruct (match s1 with [] => _ | _ => _ end) as [neg s2] eqn:E.
    assert (length s2 ≤ length s1) as Hs2.
    { destruct s1 as [|d s1']; [by simplify_eq|].
      destruct (d =? "^")%char; simplify_eq; simpl; lia. }
    intros ([items s3] & Hi%class_items_length & H%with_quantifier_length)%result_bind_Ok.
    simpl. lia.
  - destruct (braced_quantifier _); [done|].
    intros H%with_quantifier_length. simpl. lia.
Qed.

Lemma parse_shrinks fuel :
  shrinks false (parse_disjunction fuel) ∧ shrinks false (parse_alternative fuel)
  ∧ shrinks true (parse_term fuel).
Proof.
  induction fuel as [|fuel (IHd & IHa & IHt)]; [by split_and!|].
  split_and!; auto using parse_disjunction_shrinks, parse_alternative_shrinks,
    parse_term_shrinks.
Qed.

(** ** Fuel *)

Lemma quantifier_fuel r s : quantifier r s ≠ Err OutOfFuel.
Proof.
  unfold quantifier. destruct s as [|c s]; [done|].
  destruct (classify c); try done. by destruct (braced_quantifier _).
Qed.

Lemma with_quantifier_fuel r n s : with_quantifier r n s ≠ Err OutOfFuel.
Proof.
  unfold with_quantifier.
  intros [?|([] & _ & ?)]%result_bind_Err; [by eapply quantifier_fuel|done].
Qed.

Lemma close_group_fuel r n s : close_group r n s ≠ Err OutOfFuel.
Proof.
  unfold close_group. destruct s as [|c s]; [done|].
  destruct (c =? ")")%char; [apply with_quantifier_fuel|done].
Qed.

Lemma escape_item_fuel c : escape_item c ≠ Err OutOfFuel.
Proof.
  unfold escape_item. destruct (class_escape c); [done|].
  destruct (control_escape c); [done|]. by destruct (unsupported_escape c).
Qed.

Lemma class_atom_fuel s : class_atom s ≠ Err OutOfFuel.
Proof.
  unfold class_atom. destruct s as [|c [|e s]]; try done; destruct (c =? "\")%char; try done.
  intros [?|(? & _ & ?)]%result_bind_Err; [by eapply escape_item_fuel|done].
Qed.

Lemma class_range_fuel a b : class_range a b ≠ Err OutOfFuel.
Proof. destruct a, b; try done. simpl. by destruct (_ <? _)%N. Qed.

Lemma class_items_fuel fuel s : length s < fuel → class_items fuel s ≠ Err OutOfFuel.
Proof.
  revert s. induction fuel as [|fuel IH]; intros s Hf; [lia|].
  cbn [class_items]. destruct s as [|c s0]; [done|].
  destruct (c =? "]")%char; [done|].
  intros [?|([a s1] & Ha & H)]%result_bind_Err; [by eapply class_atom_fuel|].
  apply class_atom_length in Ha. simpl in *.
  assert ((class_items fuel s1 ≫= λ '(items0, rest0), Ok (a :: items0, rest0))
      ≠ Err OutOfFuel) as Hstep.
  { intros [?|([] & _ & ?)]%result_bind_Err; [|done]. eapply IH; [|done]. lia. }
  destruct s1 as [|d [|e s2]]; try done.
  destruct (_ && _); [|done].
  apply result_bind_Err in H as [?|([b s3] & Hb & H)]; [by eapply class_atom_fuel|].
  apply class_atom_length in Hb.
  apply result_bind_Err in H as [?|(r & _ & H)]; [by eapply class_range_fuel|].
  apply result_bind_Err in H as [?|([] & _ & ?)]; [|done].
  eapply IH; [|done]. simpl in *. lia.
Qed.

Lemma parse_disjunction_fuelled fuel :
  fuelled 2 fuel parse_alternative → fuelled 3 fuel parse_disjunction →
  fuelled 3 (S fuel) parse_disjunction.
Proof.
  intros IHa IHd n s Hf. cbn [parse_disjunction].
  intros [H|([[a n1] s1] & Ha & H)]%result_bind_Err; [by eapply IHa; [|done]; lia|].
  apply parse_shrinks in Ha. simpl in Ha.
  destruct s1 as [|c s2]; [done|]. destruct (c =? "|")%char; [|done].
  apply result_bind_Err in H as [H|([[d n2] s3] & _ & ?)]; [|done].
  eapply IHd; [|done]. simpl in *. lia.
Qed.

Lemma parse_alternative_fuelled fuel :
  fuelled 1 fuel parse_term → fuelled 2 fuel parse_alternative →
  fuelled 2 (S fuel) parse_alternative.
Proof.
  intros IHt IHa n s Hf. cbn [parse_alternative].
  destruct s as [|c s]; [done|].
  destruct (classify c); try done;
    (intros [H|([[t n1] s1] & Ht & H)]%result_bind_Err;
      [by eapply IHt; [|done]; lia|]);
    apply parse_shrinks in Ht;
    (apply result_bind_Err in H as [H|([[a n2] s2] & _ & ?)]; [|done]);
    (eapply IHa; [|done]); simpl in *; lia.
Qed.

Lemma parse_term_fuelled fuel :
  fuelled 3 fuel parse_disjunction → fuelled 1 (S fuel) parse_term.
Proof.
  intros IHd n s Hf. cbn [parse_term].
  destruct s as [|c s1]; [done|]. simpl in Hf.
  destruct (classify c); try done; try apply with_quantifier_fuel.
  - destruct s1 as [|e s2]; [done|].
    intros [H|(r & _ & H)]%result_bind_Err; [|by eapply with_quantifier_fuel].
    unfold atom_escape in H.
    apply result_bind_Err in H as [H|(? & _ & ?)]; [by eapply escape_item_fuel|done].
  - destruct s1 as [|q s2]; [done|]. simpl in Hf. destruct (q =? "?")%char.
    + destruct s2 as [|k s3]; [done|]. destruct (k =? ":")%char; [|done].
      intros [H|([[d n1] s4] & _ & H)]%result_bind_Err;
        [|by eapply close_group_fuel].
      eapply IHd; [|done]. simpl in *. lia.
    + intros [H|([[d n1] s4] & _ & H)]%result_bind_Err;
        [|by eapply close_group_fuel].
      eapply IHd; [|done]. simpl in *. lia.
  - destruct (match s1 with [] => _ | _ => _ end) as [neg s2] eqn:E.
    assert (length s2 ≤ length s1) as Hs2.
    { destruct s1 as [|d s1']; [by simplify_eq|].
      destruct (d =? "^")%char; simplify_eq; simpl; lia. }
    intros [H|([] & _ & H)]%result_bind_Err; [|by eapply with_quantifier_fuel].
    eapply class_items_fuel; [|done]. lia.
  - destruct (braced_quantifier _); [done|]. apply with_quantifier_fuel.
Qed.

Lemma parse_fuelled fuel :
  fuelled 3 fuel parse_disjunction ∧ fuelled 2 fuel parse_alternative
  ∧ fuelled 1 fuel parse_term.
Proof.
  induction fuel as [|fuel (IHd & IHa & IHt)].
  - split_and!; intros n s Hf; lia.
  - split_and!; auto using parse_disjunction_fuelled, parse_alternative_fuelled,
      parse_term_fuelled.
Qed.

(** ** Text without quantifiers *)

Lemma unquantified_nil : unquantified [].
Proof. done. Qed.

Lemma unquantified_char c s : pattern_char c = true → unquantified (c :: s).
Proof. unfold pattern_char, unquantified, quantifier. by destruct (classify c). Qed.

Lemma unquantified_backslash s : unquantified ("\"%char :: s).
Proof. done. Qed.

Lemma unquantified_app p s :
  Forall (λ c, pattern_char c = true) p → unquantified s → unquantified (p ++ s).
Proof. intros [|c p' Hc _] Hs; [done|]. by apply unquantified_char. Qed.

Lemma with_quantifier_none r n s : unquantified s → with_quantifier r n s = Ok (r, n, s).
Proof. intros H. unfold with_quantifier. by rewrite H. Qed.

Lemma with_quantifier_star r n s :
  unquantified s → with_quantifier r n ("*"%char :: s) = Ok (RStar true r, n, s).
Proof.
  intros H. unfold with_quantifier, quantifier. cbn [classify Ascii.eqb Bool.eqb].
  unfold lazy_suffix. destruct s as [|c s]; [done|].
  destruct (Ascii.eqb_spec c "?") as [->|]; [|done].
  specialize (H REmpty). unfold quantifier, lazy_suffix in H.
  cbn [classify Ascii.eqb Bool.eqb] in H. destruct s as [|d s]; [done|].
  by destruct (d =? "?")%char.
Qed.

Lemma parse_alternative_step fuel n c s :
  classify c ≠ TBar → classify c ≠ TRParen →
  parse_alternative (S fuel) n (c :: s) =
    '(t, n1, s1) ← parse_term fuel n (c :: s);
    '(a, n2, s2) ← parse_alternative fuel n1 s1;
    Ok (RSeq t a, n2, s2).
Proof. intros H1 H2. cbn [parse_alternative]. by destruct (classify c). Qed.

Lemma parse_term_escape fuel n e s :
  parse_term (S fuel) n ("\"%char :: e :: s) = r ← atom_escape e; with_quantifier r n s.
Proof. done. Qed.

Lemma parse_term_char fuel n c s :
  pattern_char c = true → unquantified s →
  parse_term (S fuel) n (c :: s) = Ok (RChar c, n, s).
Proof.
  intros Hc Hs. cbn [parse_term]. unfold pattern_char in Hc.
  destruct (classify c); try done. by apply with_quantifier_none.
Qed.

Lemma parse_alternative_plain p fuel n s a n' rest :
  Forall (λ c, pattern_char c = true) p → unquantified s →
  parse_alternative (S fuel) n s = Ok (a, n', rest) →
  parse_alternative (S (length p + fuel)) n (p ++ s) = Ok (RLit_then p a, n', rest).
Proof.
  intros Hp Hs Ha. induction Hp as [|c p Hc Hp IH]; [done|].
  cbn [length app Nat.add RLit_then]. unfold pattern_char in Hc.
  rewrite parse_alternative_step by (by destruct (classify c)).
  rewrite parse_term_char by (done || by apply unquantified_app).
  cbn [mbind result_bind]. by rewrite IH.
Qed.

Lemma parse_alternative_escape fuel n e s r :
  atom_escape e = Ok r → unquantified s →
  parse_alternative (S (S fuel)) n ("\"%char :: e :: s) =
    '(a, n', rest) ← parse_alternative (S fuel) n s; Ok (RSeq r a, n', rest).
Proof.
  intros He Hs. rewrite parse_alternative_step, parse_term_escape by done.
  rewrite He. cbn [mbind result_bind]. by rewrite with_quantifier_none.
Qed.

Lemma parse_alternative_escape_star fuel n e s r :
  atom_escape e = Ok r → unquantified s →
  parse_alternative (S (S fuel)) n ("\"%char :: e :: "*"%char :: s) =
    '(a, n', rest) ← parse_alternative (S fuel) n s; Ok (RSeq (RStar true r) a, n', rest).
Proof.
  intros He Hs. rewrite parse_alternative_step, parse_term_escape by done.
  rewrite He. cbn [mbind result_bind]. by rewrite with_quantifier_star.
Qed.

(** ** The parser is total *)

(** With the fuel [parse_pattern] gives the grammar, parsing never runs out
    of fuel, whatever the pattern text. *)
Lemma parse_fuel_enough s : parse_pattern s ≠ Err OutOfFuel.
Proof.
  unfold parse_pattern.
  intros [H|([[r n] rest] & _ & H)]%result_bind_Err; [|by destruct rest].
  destruct (parse_fuelled (parse_fuel s)) as (Hd & _ & _).
  eapply Hd; [|done]. unfold parse_fuel. lia.
Qed.
