(* ===== verification/Segments.v ===== *)
(** * Segments: templates as text and holes

    The abstract view of a template that the specification of the program
    takes: a sequence of literal text and of holes, each hole written as an
    opening delimiter, a body and a closing delimiter.  [render] prints a
    template; [instantiate] is what merging means: every hole whose trimmed
    body is bound is replaced by its value, the others stay as written.

    The theorems of [Extract.v] and [Merge.v] relate the functions of the
    sources, which work on the printed string, to these definitions. *)

From Stdlib Require Import Ascii String.
From stdpp Require Import base numbers list.
From S2P Require Import Prelude JsString.
#[local] Set Warnings "-clear-no-such-hyp".

(** ** Definitions *)

Inductive segment : Type :=
| Text (t : jstring)
| Hole (body : jstring).

#[export] Instance segment_eq_dec : EqDecision segment.
Proof. solve_decision. Defined.

Definition render_segment (op cl : jstring) (seg : segment) : jstring :=
  match seg with
  | Text t => t
  | Hole body => op ++ body ++ cl
  end.

(** The string a template stands for. *)
Fixpoint render (op cl : jstring) (segs : list segment) : jstring :=
  match segs with
  | [] => []
  | seg :: segs' => render_segment op cl seg ++ render op cl segs'
  end.

(** The bodies of the holes, in order. *)
Fixpoint hole_bodies (segs : list segment) : list jstring :=
  match segs with
  | [] => []
  | Text _ :: segs' => hole_bodies segs'
  | Hole body :: segs' => body :: hole_bodies segs'
  end.

(** Text holds no opening brace; the body of a hole is not empty and holds
    no closing brace. *)
Definition wf_segment (seg : segment) : Prop :=
  match seg with
  | Text t => "{"%char ∉ t
  | Hole body => body ≠ [] ∧ "}"%char ∉ body
  end.

#[export] Instance wf_segment_dec seg : Decision (wf_segment seg).
Proof. destruct seg; apply _. Defined.

Definition wf_segments (segs : list segment) : Prop := Forall wf_segment segs.

(** A hole for a merge: its body holds no brace at all. *)
Definition plain_segment (seg : segment) : Prop :=
  match seg with
  | Text t => "{"%char ∉ t
  | Hole body => body ≠ [] ∧ ("{"%char ∉ body) ∧ ("}"%char ∉ body)
  end.

#[export] Instance plain_segment_dec seg : Decision (plain_segment seg).
Proof. destruct seg; apply _. Defined.

Definition plain_segments (segs : list segment) : Prop := Forall plain_segment segs.

(** Merging as the specification states it: a hole whose name [env] binds
    becomes the value, any other hole stays. *)
Definition instantiate_segment (env : jstring → option jstring) (seg : segment) : segment :=
  match seg with
  | Text t => Text t
  | Hole body =>
      match env (trim body) with
      | Some v => Text v
      | None => Hole body
      end
  end.

Definition instantiate (env : jstring → option jstring) (segs : list segment) :
    list segment :=
  map (instantiate_segment env) segs.

(** The environment that binds [p] to [v] and nothing else. *)
Definition bind1 (p v : jstring) : jstring → option jstring :=
  λ q, if decide (q = p) then Some v else None.

(** [env] with [p] bound to [v] in front. *)
Definition env_cons {V} (p : jstring) (v : V) (env : jstring → option V) :
    jstring → option V :=
  λ q, if decide (q = p) then Some v else env q.

(** ** Facts *)

Lemma render_app op cl segs1 segs2 :
  render op cl (segs1 ++ segs2) = render op cl segs1 ++ render op cl segs2.
Proof.
  induction segs1 as [|seg segs1 IH]; cbn [render app]; [done|].
  by rewrite IH, app_assoc.
Qed.

Lemma hole_bodies_app segs1 segs2 :
  hole_bodies (segs1 ++ segs2) = hole_bodies segs1 ++ hole_bodies segs2.
Proof.
  induction segs1 as [|[t|b] segs1 IH]; cbn [hole_bodies app]; [done|done|].
  by rewrite IH.
Qed.

Lemma plain_segment_wf seg : plain_segment seg → wf_segment seg.
Proof. destruct seg; simpl; naive_solver. Qed.

Lemma plain_segments_wf segs : plain_segments segs → wf_segments segs.
Proof. intros H. eapply Forall_impl; [done|apply plain_segment_wf]. Qed.

Lemma instantiate_none segs : instantiate (λ _, None) segs = segs.
Proof.
  unfold instantiate. rewrite <-(map_id segs) at 2.
  apply map_ext. by intros [t|b].
Qed.

Lemma instantiate_length env segs : length (instantiate env segs) = length segs.
Proof. apply length_map. Qed.

Lemma instantiate_compose p v env segs :
  instantiate env (instantiate (bind1 p v) segs) = instantiate (env_cons p v env) segs.
Proof.
  unfold instantiate. rewrite map_map. apply map_ext. intros [t|b]; [done|].
  unfold bind1, env_cons. cbn. by destruct (decide _).
Qed.

Lemma instantiate_plain env segs :
  (∀ q v, env q = Some v → "{"%char ∉ v) →
  plain_segments segs → plain_segments (instantiate env segs).
Proof.
  intros Henv. unfold plain_segments, instantiate. rewrite Forall_fmap.
  intros H. eapply Forall_impl; [done|]. intros [t|b]; [done|]. cbn.
  destruct (env (trim b)) eqn:E; [|done]. intros _. by eapply Henv.
Qed.

(** Instantiation depends on the bindings of the environment alone. *)
#[export] Instance instantiate_proper :
  Proper (pointwise_relation jstring (=) ==> (=) ==> (=)) instantiate.
Proof.
  intros env1 env2 Henv segs _ <-. unfold instantiate. apply map_ext.
  intros [t|b]; cbn [instantiate_segment]; [done|]. by rewrite (Henv (trim b)).
Qed.

#[export] Instance env_cons_proper {V} p (v : V) :
  Proper (pointwise_relation jstring (=) ==> pointwise_relation jstring (=)) (env_cons p v).
Proof. intros env1 env2 Henv q. unfold env_cons. by destruct (decide _). Qed.

#[export] Hint Resolve plain_segments_wf : docmerge.
#[export] Hint Rewrite render_app hole_bodies_app : docmerge.
