(* ===== verification/Mapping.v ===== *)
(** * Mapping: binding placeholders to data fields

    The component [FieldMapper] of [src/src/components/FieldMapper.tsx]: the
    automatic mapping its effect computes when the placeholders or the data
    fields change, the override of one binding by a selection, and the test
    that enables the button to continue.

    The state of the component is its list of mappings; the placeholders
    and the data fields are its properties.  [FieldMapper.reachable] is the
    set of states the component can be in: the automatic mapping, followed
    by selections of a data field for a placeholder, both taken from the
    lists the component displays.  The theorems show that every reachable
    state binds each placeholder at most once and only to fields that exist,
    and that the button to continue is enabled exactly when every
    placeholder is bound. *)

From Stdlib Require Import Ascii String.
From stdpp Require Import base numbers list.
From S2P Require Import Prelude JsString Types.
#[local] Set Warnings "-clear-no-such-hyp".

Module FieldMapper.

(** ** The component *)

(** [dataFields.find(field => field.toLowerCase() === placeholder.toLowerCase())]. *)
Definition find_match (dataFields : list jstring) (placeholder : jstring) : option jstring :=
  List.find (λ field, bool_decide (toLowerCase field = toLowerCase placeholder)) dataFields.

(** The callback of [placeholders.forEach]: a match is pushed when it is
    truthy, that is found and not the empty string. *)
Definition auto_step (dataFields : list jstring) (autoMappings : list FieldMapping.t)
    (placeholder : jstring) : list FieldMapping.t :=
  match find_match dataFields placeholder with
  | Some match_ =>
      if bool_decide (match_ = []) then autoMappings
      else autoMappings ++ [FieldMapping.mk placeholder match_]
  | None => autoMappings
  end.

(** The test [if (match)] for a placeholder. *)
Definition has_match (dataFields : list jstring) (placeholder : jstring) : bool :=
  match find_match dataFields placeholder with
  | Some match_ => negb (bool_decide (match_ = []))
  | None => false
  end.

(** The effect that runs when the properties change. *)
Definition autoMappings (placeholders dataFields : list jstring) : list FieldMapping.t :=
  foldl (auto_step dataFields) [] placeholders.

(** [handleMappingChange(placeholder, dataField)] on the previous state. *)
Definition handleMappingChange (placeholder dataField : jstring)
    (prev : list FieldMapping.t) : list FieldMapping.t :=
  let existing := filter (λ m, FieldMapping.placeholder m ≠ placeholder) prev in
  existing ++ [FieldMapping.mk placeholder dataField].

(** [isComplete]. *)
Definition isComplete (placeholders : list jstring) (mappings : list FieldMapping.t) : bool :=
  (0 <? length placeholders) && (length mappings =? length placeholders).

(** [handleComplete]: the mappings handed to [onMappingComplete], if any. *)
Definition handleComplete (placeholders : list jstring) (mappings : list FieldMapping.t) :
    option (list FieldMapping.t) :=
  if isComplete placeholders mappings then Some mappings else None.

(** [mappings.find(m => m.placeholder === placeholder)], the binding the
    row of a placeholder displays. *)
Definition currentMapping (mappings : list FieldMapping.t) (placeholder : jstring) :
    option FieldMapping.t :=
  List.find (λ m, bool_decide (FieldMapping.placeholder m = placeholder)) mappings.

(** ** The controls of the component *)

Inductive call : Type :=
| onMappingComplete (mappings : list FieldMapping.t).

(** What the user does: the choice of a data field in the row of a
    placeholder, and the button to continue. *)
Inductive action : Type :=
| Select_field (placeholder dataField : jstring)
| Click_continue.

(** There is a row for each placeholder, its list offers the data fields,
    and the button is disabled until [isComplete]. *)
Definition available (placeholders dataFields : list jstring)
    (mappings : list FieldMapping.t) (a : action) : bool :=
  match a with
  | Select_field placeholder dataField =>
      bool_decide (placeholder ∈ placeholders) && bool_decide (dataField ∈ dataFields)
  | Click_continue => isComplete placeholders mappings
  end.

Definition act (placeholders : list jstring) (a : action) (mappings : list FieldMapping.t) :
    list FieldMapping.t * list call :=
  match a with
  | Select_field placeholder dataField =>
      (handleMappingChange placeholder dataField mappings, [])
  | Click_continue =>
      (mappings,
       from_option (λ m, [onMappingComplete m]) [] (handleComplete placeholders mappings))
  end.

(** What the row of a placeholder displays: its label, the value of the
    list ([currentMapping?.dataField || ""]), and whether the check mark
    stands at its end. *)
Definition row_label (placeholder : jstring) : jstring :=
  js "{{" ++ placeholder ++ js "}}".

Definition row_value (mappings : list FieldMapping.t) (placeholder : jstring) : jstring :=
  from_option FieldMapping.dataField [] (currentMapping mappings placeholder).

Definition row_checked (mappings : list FieldMapping.t) (placeholder : jstring) : bool :=
  bool_decide (is_Some (currentMapping mappings placeholder)).

(** The line beside the button: how many fields are mapped, of how many. *)
Definition mapped_line (placeholders : list jstring) (mappings : list FieldMapping.t) :
    jstring :=
  string_of_nat (length mappings) ++ js " of " ++ string_of_nat (length placeholders)
  ++ js " fields mapped".

(** ** The states of the component *)

(** The states reached from the automatic mapping by selections: the row of
    a placeholder of the template offers the data fields. *)
Inductive reachable (placeholders dataFields : list jstring) : list FieldMapping.t → Prop :=
| reach_auto : reachable placeholders dataFields (autoMappings placeholders dataFields)
| reach_change mappings placeholder dataField :
    reachable placeholders dataFields mappings →
    placeholder ∈ placeholders → dataField ∈ dataFields →
    reachable placeholders dataFields (handleMappingChange placeholder dataField mappings).

(** What every state satisfies: a placeholder is bound at most once, only
    placeholders of the template are bound, and only to fields of the data. *)
Definition mapping_inv (placeholders dataFields : list jstring)
    (mappings : list FieldMapping.t) : Prop :=
  NoDup (FieldMapping.placeholder <$> mappings)
  ∧ FieldMapping.placeholder <$> mappings ⊆ placeholders
  ∧ FieldMapping.dataField <$> mappings ⊆ dataFields.

(** ** The automatic mapping *)

Lemma find_match_Some dataFields placeholder field :
  find_match dataFields placeholder = Some field →
  field ∈ dataFields ∧ toLowerCase field = toLowerCase placeholder.
Proof.
  unfold find_match. intros [Hin Heq]%find_some. split.
  - by apply list_elem_of_In.
  - by apply bool_decide_eq_true in Heq.
Qed.

Lemma foldl_auto_step_placeholders dataFields acc placeholders :
  FieldMapping.placeholder <$> foldl (auto_step dataFields) acc placeholders =
    (FieldMapping.placeholder <$> acc) ++ filter (has_match dataFields) placeholders.
Proof.
  revert acc. induction placeholders as [|p ps IH]; intros acc; cbn [foldl].
  - by rewrite filter_nil, app_nil_r.
  - rewrite IH, filter_cons. unfold auto_step, has_match.
    destruct (find_match dataFields p) as [f|]; [|done].
    case_bool_decide; [done|]. cbn. by rewrite fmap_app, <-app_assoc.
Qed.

Lemma foldl_auto_step_elem dataFields acc placeholders m :
  m ∈ foldl (auto_step dataFields) acc placeholders →
  m ∈ acc ∨ (FieldMapping.placeholder m ∈ placeholders
             ∧ find_match dataFields (FieldMapping.placeholder m)
               = Some (FieldMapping.dataField m)
             ∧ FieldMapping.dataField m ≠ []).
Proof.
  revert acc. induction placeholders as [|p ps IH]; intros acc; cbn [foldl]; [by left|].
  intros [Hm|(Hp & Hf & Hne)]%IH; [|right; split; [by right|done]].
  unfold auto_step in Hm. destruct (find_match dataFields p) as [f|] eqn:E; [|by left].
  case_bool_decide; [by left|].
  apply elem_of_app in Hm as [?| ->%list_elem_of_singleton]; [by left|].
  right. cbn. split; [by left|done].
Qed.

(** ** One selection *)

Lemma handleMappingChange_placeholders placeholder dataField prev :
  FieldMapping.placeholder <$> handleMappingChange placeholder dataField prev =
    filter (λ p, p ≠ placeholder) (FieldMapping.placeholder <$> prev) ++ [placeholder].
Proof.
  unfold handleMappingChange. rewrite fmap_app. f_equal.
  induction prev as [|m prev IH]; [done|].
  cbn [fmap list_fmap]. rewrite !filter_cons. destruct (decide _); cbn; by rewrite IH.
Qed.

Lemma handleMappingChange_inv placeholders dataFields placeholder dataField prev :
  placeholder ∈ placeholders → dataField ∈ dataFields →
  mapping_inv placeholders dataFields prev →
  mapping_inv placeholders dataFields (handleMappingChange placeholder dataField prev).
Proof.
  intros Hp Hf (Hnd & Hps & Hfs). split_and!.
  - rewrite handleMappingChange_placeholders. apply NoDup_app. split_and!.
    + by apply NoDup_filter.
    + intros p [Hne _]%list_elem_of_filter ->%list_elem_of_singleton. done.
    + apply NoDup_singleton.
  - rewrite handleMappingChange_placeholders.
    intros p [[_ Hin]%list_elem_of_filter| ->%list_elem_of_singleton]%elem_of_app; auto.
  - unfold handleMappingChange. rewrite fmap_app.
    intros f [Hin| ->%list_elem_of_singleton]%elem_of_app; [|done].
    apply Hfs. apply list_elem_of_fmap in Hin as (m & -> & [_ Hm]%list_elem_of_filter).
    by apply list_elem_of_fmap_2.
Qed.

Lemma autoMappings_inv placeholders dataFields :
  NoDup placeholders → mapping_inv placeholders dataFields (autoMappings placeholders dataFields).
Proof.
  intros Hnd. unfold autoMappings. split_and!.
  - rewrite foldl_auto_step_placeholders. by apply NoDup_filter.
  - rewrite foldl_auto_step_placeholders. by intros p [_ Hp]%list_elem_of_filter.
  - intros f (m & -> & [?%elem_of_nil|(_ & Hm & _)]%foldl_auto_step_elem)%list_elem_of_fmap;
      [done|]. by apply find_match_Some in Hm as [? _].
Qed.

Lemma reachable_inv placeholders dataFields mappings :
  NoDup placeholders → reachable placeholders dataFields mappings →
  mapping_inv placeholders dataFields mappings.
Proof.
  intros Hnd. induction 1; auto using autoMappings_inv, handleMappingChange_inv.
Qed.

Lemma currentMapping_Some mappings placeholder m :
  currentMapping mappings placeholder = Some m →
  m ∈ mappings ∧ FieldMapping.placeholder m = placeholder.
Proof.
  unfold currentMapping. intros [Hin Heq]%find_some. split.
  - by apply list_elem_of_In.
  - by apply bool_decide_eq_true in Heq.
Qed.

Lemma currentMapping_app_miss ms1 ms2 placeholder :
  placeholder ∉ FieldMapping.placeholder <$> ms1 →
  currentMapping (ms1 ++ ms2) placeholder = currentMapping ms2 placeholder.
Proof.
  unfold currentMapping. induction ms1 as [|m ms1 IH]; [done|]. cbn [fmap list_fmap].
  intros [Hm Hms]%not_elem_of_cons. cbn [app List.find].
  rewrite bool_decide_eq_false_2 by done. by apply IH.
Qed.

Lemma currentMapping_app_hit ms1 ms2 placeholder m :
  currentMapping ms1 placeholder = Some m →
  currentMapping (ms1 ++ ms2) placeholder = Some m.
Proof.
  unfold currentMapping. induction ms1 as [|m1 ms1 IH]; [done|]. cbn [app List.find].
  by destruct (bool_decide _).
Qed.

Lemma currentMapping_filter ms placeholder q :
  placeholder ≠ q →
  currentMapping (filter (λ m, FieldMapping.placeholder m ≠ q) ms) placeholder =
    currentMapping ms placeholder.
Proof.
  intros Hne. unfold currentMapping. induction ms as [|m ms IH]; [done|].
  rewrite filter_cons. cbn [List.find]. destruct (decide _) as [Hm|Hm]; cbn [List.find].
  - by rewrite IH.
  - rewrite bool_decide_eq_false_2; [done|]. intros Heq. apply Hm. by rewrite Heq.
Qed.

(** ** The theorems *)

(** C26. Every binding the automatic mapping makes ties a placeholder of the
    template to a field of the data whose name is not empty and equals the
    placeholder up to the case of its letters. *)
Theorem autoMappings_sound placeholders dataFields m :
  m ∈ autoMappings placeholders dataFields →
  FieldMapping.placeholder m ∈ placeholders
  ∧ FieldMapping.dataField m ∈ dataFields
  ∧ FieldMapping.dataField m ≠ []
  ∧ toLowerCase (FieldMapping.dataField m) = toLowerCase (FieldMapping.placeholder m).
Proof.
  intros [?%elem_of_nil|(Hp & Hf & Hne)]%foldl_auto_step_elem; [done|].
  apply find_match_Some in Hf as [? ?]. done.
Qed.

Lemma autoMappings_sound_witness :
  FieldMapping.placeholder (FieldMapping.mk (js "Name") (js "NAME")) ∈ [js "Name"; js "City"]
  ∧ FieldMapping.dataField (FieldMapping.mk (js "Name") (js "NAME")) ∈ [js "id"; js "NAME"]
  ∧ FieldMapping.dataField (FieldMapping.mk (js "Name") (js "NAME")) ≠ []
  ∧ toLowerCase (FieldMapping.dataField (FieldMapping.mk (js "Name") (js "NAME"))) =
    toLowerCase (FieldMapping.placeholder (FieldMapping.mk (js "Name") (js "NAME"))).
Proof.
  apply (autoMappings_sound [js "Name"; js "City"] [js "id"; js "NAME"]).
  vm_compute. apply list_elem_of_here.
Defined.

(** The automatic mapping binds exactly the placeholders that have a
    field of the same name up to case, in the order of the template. *)
Theorem autoMappings_placeholders placeholders dataFields :
  FieldMapping.placeholder <$> autoMappings placeholders dataFields =
    filter (has_match dataFields) placeholders.
Proof. apply foldl_auto_step_placeholders. Qed.

(** A selection binds its placeholder to the selected field and leaves
    the binding of every other placeholder as it was. *)
Theorem handleMappingChange_lookup placeholder dataField prev q :
  currentMapping (handleMappingChange placeholder dataField prev) q =
    if decide (q = placeholder) then Some (FieldMapping.mk placeholder dataField)
    else currentMapping prev q.
Proof.
  unfold handleMappingChange. destruct (decide (q = placeholder)) as [->|Hne].
  - rewrite currentMapping_app_miss.
    + unfold currentMapping. cbn. by rewrite bool_decide_eq_true_2.
    + intros (m & Hm & [Hne _]%list_elem_of_filter)%list_elem_of_fmap. done.
  - destruct (currentMapping prev q) as [m|] eqn:E.
    + apply currentMapping_app_hit. by rewrite currentMapping_filter.
    + rewrite <-(currentMapping_filter _ _ placeholder Hne) in E.
      destruct (currentMapping (filter _ prev ++ _) q) as [m|] eqn:E'; [|done].
      exfalso. apply currentMapping_Some in E' as [Hin Hq].
      apply elem_of_app in Hin as [Hin| ->%list_elem_of_singleton]; [|done].
      revert E. unfold currentMapping. generalize (filter
        (λ m0, FieldMapping.placeholder m0 ≠ placeholder) prev) Hin.
      intros l Hl Hfind. apply list_elem_of_In in Hl.
      eapply (find_none _ _ Hfind) in Hl. by rewrite bool_decide_eq_true_2 in Hl.
Qed.

(** C6. In every state of the component no placeholder is bound twice, only
    placeholders of the template are bound, and only to fields of the
    data. *)
Theorem reachable_mapping_inv placeholders dataFields mappings :
  NoDup placeholders → reachable placeholders dataFields mappings →
  mapping_inv placeholders dataFields mappings.
Proof. apply reachable_inv. Qed.

Lemma reachable_mapping_inv_witness :
  mapping_inv [js "Name"; js "City"] [js "name"; js "town"]
    (handleMappingChange (js "City") (js "town")
       (autoMappings [js "Name"; js "City"] [js "name"; js "town"])).
Proof.
  apply reachable_mapping_inv; [by apply (bool_decide_unpack _)|].
  apply reach_change; [apply reach_auto|by apply (bool_decide_unpack _)..].
Defined.

Lemma isComplete_covers placeholders dataFields mappings :
  NoDup placeholders → reachable placeholders dataFields mappings →
  isComplete placeholders mappings = true →
  placeholders ⊆ FieldMapping.placeholder <$> mappings.
Proof.
  intros Hnd (Hms & Hsub & _)%reachable_inv [_ Hlen%Nat.eqb_eq]%andb_true_iff; [|done].
  assert ((FieldMapping.placeholder <$> mappings) ≡ₚ placeholders) as Hperm.
  { apply submseteq_length_Permutation.
    - by apply NoDup_submseteq.
    - by rewrite length_fmap, Hlen. }
  intros p Hp. by rewrite Hperm.
Qed.

(** C25. The button to continue is enabled only when every placeholder of
    the template is bound: in a reachable state, [isComplete] implies that
    the bound placeholders are those of the template. *)
Theorem isComplete_all_bound placeholders dataFields mappings :
  NoDup placeholders → reachable placeholders dataFields mappings →
  isComplete placeholders mappings = true →
  placeholders ⊆ FieldMapping.placeholder <$> mappings.
Proof. apply isComplete_covers. Qed.

Lemma isComplete_all_bound_witness :
  [js "Name"; js "City"] ⊆ FieldMapping.placeholder <$>
    handleMappingChange (js "City") (js "town")
      (autoMappings [js "Name"; js "City"] [js "name"; js "town"]).
Proof.
  apply (isComplete_all_bound _ [js "name"; js "town"]);
    [by apply (bool_decide_unpack _)| |reflexivity].
  apply reach_change; [apply reach_auto|by apply (bool_decide_unpack _)..].
Defined.

(** A template without placeholders never enables the button: for an
    empty list of placeholders [handleComplete] hands nothing on, whatever
    the mappings. *)
Theorem handleComplete_no_placeholders mappings : handleComplete [] mappings = None.
Proof. done. Qed.

(** The override is idempotent, and two overrides of different
    placeholders give the same bindings in either order, up to the order of
    the list. *)
Theorem handleMappingChange_idemp_order p q f g prev :
  handleMappingChange p f (handleMappingChange p f prev) = handleMappingChange p f prev
  ∧ (p ≠ q →
     handleMappingChange p f (handleMappingChange q g prev)
       ≡ₚ handleMappingChange q g (handleMappingChange p f prev)).
Proof.
  unfold handleMappingChange. split; [|intros Hne]; rewrite !filter_app, !filter_cons, !filter_nil.
  - cbn [FieldMapping.placeholder]. rewrite decide_False by (by intros []).
    rewrite app_nil_r. f_equal. rewrite list_filter_filter. apply list_filter_iff. naive_solver.
  - cbn [FieldMapping.placeholder]. rewrite !decide_True by done.
    rewrite !list_filter_filter, <-!app_assoc.
    rewrite (list_filter_iff _ (λ m, FieldMapping.placeholder m ≠ q ∧ FieldMapping.placeholder m ≠ p))
      by naive_solver.
    apply Permutation_app_head, Permutation_swap.
Qed.

(** ** The controls *)

Lemma mapper_act_reachable placeholders dataFields a mappings :
  reachable placeholders dataFields mappings →
  available placeholders dataFields mappings a = true →
  reachable placeholders dataFields (act placeholders a mappings).1.
Proof.
  intros Hr Ha. destruct a as [p f|]; cbn in *; [|done].
  apply andb_true_iff in Ha as [Hp%bool_decide_eq_true Hf%bool_decide_eq_true].
  by apply reach_change.
Qed.

Lemma act_mapping_inv placeholders dataFields a mappings :
  mapping_inv placeholders dataFields mappings →
  available placeholders dataFields mappings a = true →
  mapping_inv placeholders dataFields (act placeholders a mappings).1.
Proof.
  intros Hi Ha. destruct a as [p f|]; cbn in *; [|done].
  apply andb_true_iff in Ha as [Hp%bool_decide_eq_true Hf%bool_decide_eq_true].
  by apply handleMappingChange_inv.
Qed.

Lemma mapper_act_calls placeholders a mappings c :
  c ∈ (act placeholders a mappings).2 →
  a = Click_continue ∧ c = onMappingComplete mappings
  ∧ isComplete placeholders mappings = true.
Proof.
  destruct a as [p f|]; cbn; [by intros ?%elem_of_nil|].
  unfold handleComplete. destruct (isComplete placeholders mappings); cbn.
  - by intros ->%list_elem_of_singleton.
  - by intros ?%elem_of_nil.
Qed.

Lemma mapper_act_one_call placeholders a mappings : length (act placeholders a mappings).2 ≤ 1.
Proof.
  destruct a as [p f|]; cbn; [lia|].
  unfold handleComplete. destruct (isComplete placeholders mappings); cbn; lia.
Qed.

(** The button to continue, when enabled, hands the mappings on display
    to the page and leaves them as they are. *)
Theorem continue_hands_mappings placeholders dataFields mappings :
  available placeholders dataFields mappings Click_continue = true →
  act placeholders Click_continue mappings = (mappings, [onMappingComplete mappings]).
Proof. cbn. unfold handleComplete. by intros ->. Qed.

(** The row of a placeholder displays the field chosen last for it, and
    the check mark with it. *)
Theorem row_after_select placeholders placeholder dataField mappings :
  let after := (act placeholders (Select_field placeholder dataField) mappings).1 in
  row_value after placeholder = dataField ∧ row_checked after placeholder = true.
Proof.
  cbn [act fst]. unfold row_value, row_checked.
  rewrite handleMappingChange_lookup, decide_True by done.
  split; [done|by apply bool_decide_eq_true_2].
Qed.

End FieldMapper.
