(* ===== verification/Store.v ===== *)
(** * Store: keeping templates in the remote table and the file store

    The functions [saveTemplate], [getTemplates], [getTemplate],
    [deleteTemplate] and [getTemplateFile] of
    [src/src/lib/templateUtils.ts].  They talk to a remote table
    [templates] and to a bucket of files [word-templates].  The remote side
    is not code of the repository; here it is a record [remote] of the rows
    of the table and the files of the bucket, and each remote call either
    does what its name says or fails, as the argument [outcome] of the
    function decides.  The table has the identifier as its key: an insert
    of an identifier that is present fails.  The table stamps a row with the
    time of its insertion and of its last update; the time is an argument.

    The theorems show that the functions keep the identifiers of the table
    distinct, what a template reads back as after it was saved, what a
    failure leaves behind, and what a deletion removes. *)

From Stdlib Require Import Ascii String.
From stdpp Require Import base numbers list.
From S2P Require Import Prelude JsString Types.
#[local] Set Warnings "-clear-no-such-hyp".

Module Store.

(** ** The remote side *)

(** A row of the table [templates]. *)
Record row : Type := mk_row {
  id : jstring;
  name : jstring;
  placeholders : list jstring;
  storage_path : jstring;
  created_at : jstring;
  updated_at : jstring
}.

(** A file as the browser hands it over: its name and its bytes. *)
Record File : Type := mk_file {
  file_name : jstring;
  file_data : jstring
}.

Record remote : Type := mk_remote {
  table : list row;
  files : list (jstring * jstring)
}.

(** Which of the remote calls of one function succeed. *)
Record outcome : Type := mk_outcome {
  upload_ok : bool;
  select_ok : bool;
  write_ok : bool;
  remove_ok : bool;
  delete_ok : bool;
  download_ok : bool
}.

Definition all_succeed : outcome := mk_outcome true true true true true true.

(** [.select(..).eq('id', id).maybeSingle()]. *)
Definition select_id (id_ : jstring) (t : list row) : option row :=
  List.find (λ r, bool_decide (id r = id_)) t.

(** [.delete().eq('id', id)]. *)
Definition delete_id (id_ : jstring) (t : list row) : list row :=
  filter (λ r, id r ≠ id_) t.

(** [.update(f).eq('id', id)]. *)
Definition update_id (id_ : jstring) (f : row → row) (t : list row) : list row :=
  map (λ r, if bool_decide (id r = id_) then f r else r) t.

(** [storage.upload(path, data, { upsert: true })], [download] and
    [remove]. *)
Definition file_put (path data : jstring) (fs : list (jstring * jstring)) :
    list (jstring * jstring) :=
  (path, data) :: filter (λ kv, kv.1 ≠ path) fs.

Definition file_get (path : jstring) (fs : list (jstring * jstring)) : option jstring :=
  snd <$> List.find (λ kv, bool_decide (kv.1 = path)) fs.

Definition file_remove (path : jstring) (fs : list (jstring * jstring)) :
    list (jstring * jstring) :=
  filter (λ kv, kv.1 ≠ path) fs.

(** [.order('updated_at', { ascending: false })]: rows with a later stamp
    first.  Stamps are compared as texts, code unit by code unit. *)
Fixpoint stamp_ltb (a b : jstring) : bool :=
  match a, b with
  | _, [] => false
  | [], _ :: _ => true
  | x :: a', y :: b' =>
      if (code x <? code y)%N then true
      else if (code y <? code x)%N then false
      else stamp_ltb a' b'
  end.

Fixpoint insert_desc (r : row) (l : list row) : list row :=
  match l with
  | [] => [r]
  | x :: l' =>
      if stamp_ltb (updated_at x) (updated_at r) then r :: x :: l'
      else x :: insert_desc r l'
  end.

Definition order_desc (l : list row) : list row := foldr insert_desc [] l.

(** ** The functions of the sources *)

(** [file.name.split('.').pop()]. *)
Definition fileExt (file_name_ : jstring) : jstring :=
  default [] (pop (split "." file_name_)).

(** The path of the uploaded file: [`${template.id}.${fileExt}`]. *)
Definition filePath (template : Template.t) (file : File) : jstring :=
  Template.id template ++ js "." ++ fileExt (file_name file).

(** The object handed to [update]: [storage_path] is left out when
    [storagePath] is undefined. *)
Definition update_fields (template : Template.t) (storagePath : option jstring)
    (now : jstring) (r : row) : row :=
  mk_row (id r) (Template.name template) (Template.placeholders template)
    (default (storage_path r) storagePath) (created_at r) now.

(** The row handed to [insert]: [storage_path: storagePath || '']. *)
Definition insert_row (template : Template.t) (storagePath : option jstring)
    (now : jstring) : row :=
  mk_row (Template.id template) (Template.name template) (Template.placeholders template)
    (default [] storagePath) now now.

(** [saveTemplate(template, file)]: the row returned, or [None] for the
    [null] of the [catch] block, and the remote side afterwards. *)
Definition saveTemplate (o : outcome) (now : jstring) (template : Template.t)
    (file : option File) (s : remote) : option row * remote :=
  let storagePath := Template.wordDocumentData template in
  let uploaded :=
    match file with
    | Some f =>
        if upload_ok o then
          Some (Some (filePath template f),
                mk_remote (table s) (file_put (filePath template f) (file_data f) (files s)))
        else None
    | None => Some (storagePath, s)
    end in
  match uploaded with
  | None => (None, s)
  | Some (storagePath, s1) =>
      let existing := if select_ok o then select_id (Template.id template) (table s1) else None in
      match existing with
      | Some _ =>
          if write_ok o then
            let t' := update_id (Template.id template)
                        (update_fields template storagePath now) (table s1) in
            (select_id (Template.id template) t', mk_remote t' (files s1))
          else (None, s1)
      | None =>
          if write_ok o && negb (bool_decide (Template.id template ∈ id <$> table s1)) then
            let r := insert_row template storagePath now in
            (Some r, mk_remote (table s1 ++ [r]) (files s1))
          else (None, s1)
      end
  end.

(** The template [getTemplates] and [getTemplate] make of a row. *)
Definition template_of_row (r : row) : Template.t :=
  Template.mk (id r) (name r) [] (placeholders r) (created_at r) (updated_at r)
    (Some (storage_path r)) (Some true).

(** [getTemplates()]. *)
Definition getTemplates (o : outcome) (s : remote) : list Template.t :=
  if select_ok o then map template_of_row (order_desc (table s)) else [].

(** [getTemplate(id)]. *)
Definition getTemplate (o : outcome) (id_ : jstring) (s : remote) : option Template.t :=
  if select_ok o then template_of_row <$> select_id id_ (table s) else None.

(** [deleteTemplate(id)]: the file is removed when the row is found and has
    a path; errors are logged and nothing else. *)
Definition deleteTemplate (o : outcome) (id_ : jstring) (s : remote) : remote :=
  let template := if select_ok o then select_id id_ (table s) else None in
  let fs :=
    match template with
    | Some r =>
        if negb (bool_decide (storage_path r = [])) && remove_ok o
        then file_remove (storage_path r) (files s)
        else files s
    | None => files s
    end in
  let t := if delete_ok o then delete_id id_ (table s) else table s in
  mk_remote t fs.

(** [getTemplateFile(storagePath)]. *)
Definition getTemplateFile (o : outcome) (storagePath : jstring) (s : remote) :
    option jstring :=
  if download_ok o then file_get storagePath (files s) else None.

(** ** The invariant of the table *)

(** The identifier is the key of the table. *)
Definition table_wf (s : remote) : Prop := NoDup (id <$> table s).

(** ** The extension of a file name *)

(** The extension is what follows the last dot, and the whole name when
    it has no dot. *)
Lemma fileExt_after_last_dot file_name_ :
  fileExt file_name_ =
  reverse (take_while (λ c, negb (bool_decide (c = "."%char))) (reverse file_name_)).
Proof. unfold fileExt. by rewrite pop_split. Qed.

Lemma fileExt_no_dot file_name_ : "."%char ∉ fileExt file_name_.
Proof.
  rewrite fileExt_after_last_dot, elem_of_reverse. intros Hin.
  pose proof (take_while_Forall (λ c, negb (bool_decide (c = "."%char)))
                (reverse file_name_)) as H.
  rewrite Forall_forall in H. apply H in Hin. by rewrite bool_decide_eq_true_2 in Hin.
Qed.

(** ** Facts about the table *)

Lemma select_id_Some id_ t r : select_id id_ t = Some r → r ∈ t ∧ id r = id_.
Proof.
  unfold select_id. intros [Hin Heq]%find_some. split.
  - by apply list_elem_of_In.
  - by apply bool_decide_eq_true in Heq.
Qed.

Lemma select_id_None id_ t : select_id id_ t = None ↔ id_ ∉ id <$> t.
Proof.
  unfold select_id. induction t as [|r t IH]; cbn [List.find fmap list_fmap].
  - split; [intros _; apply not_elem_of_nil|done].
  - rewrite not_elem_of_cons. case_bool_decide; [|rewrite IH]; naive_solver.
Qed.

Lemma update_id_ids id_ f t :
  (∀ r, id (f r) = id r) → id <$> update_id id_ f t = id <$> t.
Proof.
  intros Hf. unfold update_id. rewrite <-list_fmap_compose.
  apply list_fmap_ext. intros _ r _. cbn. by case_bool_decide.
Qed.

Lemma select_update_id id_ f t r :
  (∀ r, id (f r) = id r) → select_id id_ t = Some r →
  select_id id_ (update_id id_ f t) = Some (f r).
Proof.
  intros Hf. unfold select_id, update_id. induction t as [|x t IH]; [done|].
  cbn [List.find map]. case_bool_decide as Hx.
  - intros [= ->]. by rewrite Hf, bool_decide_eq_true_2.
  - by rewrite bool_decide_eq_false_2.
Qed.

Lemma select_app_new id_ t r :
  id_ ∉ id <$> t → id r = id_ → select_id id_ (t ++ [r]) = Some r.
Proof.
  intros Hn Hr. unfold select_id. induction t as [|x t IH]; cbn [app List.find].
  - by rewrite bool_decide_eq_true_2.
  - cbn [fmap list_fmap] in Hn. apply not_elem_of_cons in Hn as [Hx Hn].
    rewrite bool_decide_eq_false_2 by done. by apply IH.
Qed.

Lemma delete_id_ids id_ t : id <$> delete_id id_ t = filter (λ i, i ≠ id_) (id <$> t).
Proof.
  unfold delete_id. induction t as [|r t IH]; [done|].
  cbn [fmap list_fmap]. rewrite !filter_cons. destruct (decide _); cbn; by rewrite IH.
Qed.

Lemma insert_desc_perm r l : insert_desc r l ≡ₚ r :: l.
Proof.
  induction l as [|x l IH]; cbn [insert_desc]; [done|].
  destruct (stamp_ltb _ _); [done|]. by rewrite IH, Permutation_swap.
Qed.

Lemma order_desc_perm l : order_desc l ≡ₚ l.
Proof.
  induction l as [|r l IH]; [done|]. cbn [order_desc foldr].
  rewrite insert_desc_perm. by apply Permutation_skip.
Qed.

(** ** What the functions do to the table *)

Lemma saveTemplate_table o now template file s :
  table (saveTemplate o now template file s).2 = table s
  ∨ (∃ r, select_id (Template.id template) (table s) = Some r
          ∧ table (saveTemplate o now template file s).2 =
              update_id (Template.id template)
                (update_fields template
                   (match file with
                    | Some f => Some (filePath template f)
                    | None => Template.wordDocumentData template
                    end) now) (table s))
  ∨ ((Template.id template ∉ id <$> table s)
     ∧ table (saveTemplate o now template file s).2 =
         table s ++ [insert_row template
                       (match file with
                        | Some f => Some (filePath template f)
                        | None => Template.wordDocumentData template
                        end) now]).
Proof.
  unfold saveTemplate. destruct file as [f|]; [destruct (upload_ok o); [|by left]|];
    cbn [table files]; destruct (select_ok o); cbn.
  all: destruct (select_id (Template.id template) (table s)) as [r|] eqn:E;
    destruct (write_ok o); cbn; try (by left).
  all: try (right; left; by eauto).
  all: case_bool_decide; cbn; [by left|right; right; by eauto].
Qed.

Lemma saveTemplate_failed o now template file s :
  (saveTemplate o now template file s).1 = None →
  table (saveTemplate o now template file s).2 = table s.
Proof.
  unfold saveTemplate. destruct file as [f|]; [destruct (upload_ok o); [|done]|];
    cbn [table files]; destruct (select_ok o); cbn.
  all: destruct (select_id (Template.id template) (table s)) as [r|] eqn:E;
    destruct (write_ok o); cbn; try done.
  all: try (erewrite select_update_id by done; done).
  all: by case_bool_decide.
Qed.

Lemma file_get_put path data fs : file_get path (file_put path data fs) = Some data.
Proof. unfold file_get, file_put. cbn. by rewrite bool_decide_eq_true_2. Qed.

Lemma select_delete_id id_ t : select_id id_ (delete_id id_ t) = None.
Proof.
  apply select_id_None. rewrite delete_id_ids.
  by intros [? _]%list_elem_of_filter.
Qed.

Lemma select_delete_other id_ id' t :
  id' ≠ id_ → select_id id' (delete_id id_ t) = select_id id' t.
Proof.
  intros Hne. unfold select_id, delete_id. induction t as [|r t IH]; [done|].
  rewrite filter_cons. cbn [List.find]. destruct (decide _) as [Hr|Hr]; cbn [List.find].
  - by rewrite IH.
  - rewrite bool_decide_eq_false_2; [done|]. intros Heq. apply Hr. by rewrite Heq.
Qed.

Lemma saveTemplate_table_wf o now template file s :
  table_wf s → table_wf (saveTemplate o now template file s).2.
Proof.
  unfold table_wf. intros Hwf.
  destruct (saveTemplate_table o now template file s)
    as [->|[(r & _ & ->)|(Hn & ->)]]; [done| |].
  - by rewrite update_id_ids.
  - rewrite fmap_app. apply NoDup_app. split_and!; [done| |apply NoDup_singleton].
    by intros i Hi ->%list_elem_of_singleton.
Qed.

Lemma deleteTemplate_table_wf o id_ s : table_wf s → table_wf (deleteTemplate o id_ s).
Proof.
  unfold table_wf, deleteTemplate. cbn [table]. destruct (delete_ok o); [|done].
  rewrite delete_id_ids. apply NoDup_filter.
Qed.

Lemma getTemplates_row o s t :
  t ∈ getTemplates o s → ∃ r, t = template_of_row r ∧ r ∈ table s.
Proof.
  unfold getTemplates. destruct (select_ok o); [|by intros ?%elem_of_nil].
  intros (r & -> & Hr)%list_elem_of_fmap. exists r. split; [done|].
  by rewrite order_desc_perm in Hr.
Qed.

Lemma getTemplates_ids_perm o s :
  select_ok o = true → Template.id <$> getTemplates o s ≡ₚ id <$> table s.
Proof.
  intros Ho. unfold getTemplates. rewrite Ho.
  rewrite <-list_fmap_compose. change (Template.id ∘ template_of_row) with id.
  by rewrite order_desc_perm.
Qed.

Lemma getTemplates_NoDup o s : table_wf s → NoDup (Template.id <$> getTemplates o s).
Proof.
  intros Hwf. destruct (select_ok o) eqn:Ho.
  - by rewrite getTemplates_ids_perm.
  - unfold getTemplates. rewrite Ho. constructor.
Qed.

Lemma saveTemplate_all_succeed now template file s :
  ∃ t, getTemplate all_succeed (Template.id template)
         (saveTemplate all_succeed now template file s).2 = Some t
    ∧ is_Some (saveTemplate all_succeed now template file s).1
    ∧ Template.name t = Template.name template
    ∧ Template.placeholders t = Template.placeholders template
    ∧ Template.content t = []
    ∧ Template.isWordTemplate t = Some true.
Proof.
  unfold saveTemplate, getTemplate, all_succeed.
  cbn [upload_ok select_ok write_ok andb]. destruct file as [f|]; cbn [table files].
  all: destruct (select_id (Template.id template) (table s)) as [r|] eqn:E;
    cbn [fst snd table].
  1,3: rewrite !(select_update_id _ _ _ r) by done; cbn; eexists; split_and!; by eauto.
  all: apply select_id_None in E; rewrite bool_decide_eq_false_2 by done;
    cbn [negb fst snd table].
  all: rewrite select_app_new by done; cbn; eexists; split_and!; by eauto.
Qed.

Lemma getTemplate_listed id_ s t :
  getTemplate all_succeed id_ s = Some t →
  t ∈ getTemplates all_succeed s ∧ Template.id t = id_.
Proof.
  unfold getTemplate, getTemplates. cbn [select_ok all_succeed].
  destruct (select_id id_ (table s)) as [r|] eqn:E; [|done]. intros [= <-].
  apply select_id_Some in E as [Hr <-]. split; [|done].
  apply list_elem_of_fmap. exists r. split; [done|]. by rewrite order_desc_perm.
Qed.

(** ** The theorems *)



(** [deleteTemplate] keeps the identifiers of the table distinct. *)
Theorem deleteTemplate_wf o id_ s : table_wf s → table_wf (deleteTemplate o id_ s).
Proof. apply deleteTemplate_table_wf. Qed.

Lemma deleteTemplate_wf_witness :
  table_wf (deleteTemplate all_succeed (js "a")
    (mk_remote [mk_row (js "a") (js "Old") [] [] (js "t0") (js "t0")] [])).
Proof. apply deleteTemplate_wf. by apply (bool_decide_unpack _). Defined.

(** C14. When every remote call succeeds, [saveTemplate] succeeds, and the
    template read back by [getTemplate] has the name and the placeholders
    that were saved, an empty content, and the mark of a Word template:
    the content of a template is not stored. *)
Theorem saveTemplate_getTemplate now template file s :
  ∃ t, getTemplate all_succeed (Template.id template)
         (saveTemplate all_succeed now template file s).2 = Some t
    ∧ is_Some (saveTemplate all_succeed now template file s).1
    ∧ Template.name t = Template.name template
    ∧ Template.placeholders t = Template.placeholders template
    ∧ Template.content t = []
    ∧ Template.isWordTemplate t = Some true.
Proof. apply saveTemplate_all_succeed. Qed.

(** A save that fails leaves the table as it was. *)
Theorem saveTemplate_failure_table o now template file s :
  (saveTemplate o now template file s).1 = None →
  table (saveTemplate o now template file s).2 = table s.
Proof. apply saveTemplate_failed. Qed.

Lemma saveTemplate_failure_table_witness :
  table (saveTemplate (mk_outcome true true false true true true) (js "t1")
    (Template.mk (js "a") (js "Letter") [] [js "Name"] [] [] None None) None
    (mk_remote [] [])).2 = table (mk_remote [] []).
Proof. by apply saveTemplate_failure_table. Defined.

(** A save whose upload succeeds and whose write to the table fails
    returns [null] and leaves the uploaded file in the bucket, with no row
    that refers to it. *)
Theorem saveTemplate_orphan_file o now template f s :
  upload_ok o = true → write_ok o = false →
  (saveTemplate o now template (Some f) s).1 = None
  ∧ table (saveTemplate o now template (Some f) s).2 = table s
  ∧ file_get (filePath template f) (files (saveTemplate o now template (Some f) s).2)
    = Some (file_data f).
Proof.
  intros Hu Hw. unfold saveTemplate. rewrite Hu, Hw. cbn [table files andb].
  destruct (if select_ok o then _ else None); cbn [fst snd table files];
    by rewrite file_get_put.
Qed.

Lemma saveTemplate_orphan_file_witness :
  (saveTemplate (mk_outcome true true false true true true) (js "t1")
     (Template.mk (js "a") (js "Letter") [] [] [] [] (Some []) (Some true))
     (Some (mk_file (js "letter.docx") (js "PK"))) (mk_remote [] [])).1 = None
  ∧ table (saveTemplate (mk_outcome true true false true true true) (js "t1")
     (Template.mk (js "a") (js "Letter") [] [] [] [] (Some []) (Some true))
     (Some (mk_file (js "letter.docx") (js "PK"))) (mk_remote [] [])).2
    = table (mk_remote [] [])
  ∧ file_get
      (filePath (Template.mk (js "a") (js "Letter") [] [] [] [] (Some []) (Some true))
         (mk_file (js "letter.docx") (js "PK")))
      (files (saveTemplate (mk_outcome true true false true true true) (js "t1")
         (Template.mk (js "a") (js "Letter") [] [] [] [] (Some []) (Some true))
         (Some (mk_file (js "letter.docx") (js "PK"))) (mk_remote [] [])).2)
    = Some (file_data (mk_file (js "letter.docx") (js "PK"))).
Proof. by apply saveTemplate_orphan_file. Defined.

(** After a deletion whose remote delete succeeds the template is gone,
    and every other template reads as before. *)
Theorem deleteTemplate_getTemplate o o' id_ id' s :
  delete_ok o = true →
  getTemplate o' id' (deleteTemplate o id_ s) =
    if decide (id' = id_) then None else getTemplate o' id' s.
Proof.
  intros Hd. unfold getTemplate, deleteTemplate. rewrite Hd. cbn [table].
  destruct (select_ok o'); [|by destruct (decide _)].
  destruct (decide (id' = id_)) as [->|Hne].
  - by rewrite select_delete_id.
  - by rewrite select_delete_other.
Qed.

Lemma deleteTemplate_getTemplate_witness :
  getTemplate all_succeed (js "a") (deleteTemplate all_succeed (js "a")
    (mk_remote [mk_row (js "a") (js "Old") [] [] (js "t0") (js "t0")] [])) =
  if decide (js "a" = js "a") then None
  else getTemplate all_succeed (js "a")
         (mk_remote [mk_row (js "a") (js "Old") [] [] (js "t0") (js "t0")] []).
Proof. by apply deleteTemplate_getTemplate. Defined.

(** Every template [getTemplates] returns has an empty content and is
    marked as a Word template, whatever was saved. *)
Theorem getTemplates_content o s t :
  t ∈ getTemplates o s →
  Template.content t = [] ∧ Template.isWordTemplate t = Some true.
Proof. by intros (r & -> & _)%getTemplates_row. Qed.

Lemma getTemplates_content_witness :
  Template.content (template_of_row (mk_row (js "a") (js "Old") [] [] (js "t0") (js "t0")))
    = []
  ∧ Template.isWordTemplate
      (template_of_row (mk_row (js "a") (js "Old") [] [] (js "t0") (js "t0"))) = Some true.
Proof.
  apply (getTemplates_content all_succeed
    (mk_remote [mk_row (js "a") (js "Old") [] [] (js "t0") (js "t0")] [])).
  vm_compute. apply list_elem_of_here.
Defined.

(** [getTemplates] returns one template for every row of the table, in
    some order, when the remote select succeeds. *)
Theorem getTemplates_ids o s :
  select_ok o = true → Template.id <$> getTemplates o s ≡ₚ id <$> table s.
Proof. apply getTemplates_ids_perm. Qed.

Lemma getTemplates_ids_witness :
  Template.id <$> getTemplates all_succeed
    (mk_remote [mk_row (js "a") (js "A") [] [] (js "t0") (js "t0");
                mk_row (js "b") (js "B") [] [] (js "t1") (js "t1")] []) ≡ₚ
  id <$> table (mk_remote [mk_row (js "a") (js "A") [] [] (js "t0") (js "t0");
                mk_row (js "b") (js "B") [] [] (js "t1") (js "t1")] []).
Proof. by apply getTemplates_ids. Defined.

End Store.
