(* ===== verification/Extract.v ===== *)
(** * Extract: finding the placeholders of a template

    [extractPlaceholders] of [src/src/lib/templateUtils.ts] and the scanning
    loop of [extractPlaceholdersFromWord] of [src/src/lib/wordDocumentUtils.ts].
    Both run a global regular expression over the text with [regex.exec] in a
    [while] loop and collect the trimmed first group of every match in a
    [Set]; they differ only in the pattern ([{{..}}] against [{..}]).

    The loops are modelled as the sources write them, over [Regex.exec_while].
    The file then gives a direct scanner, [holes], that reads the text from
    left to right without a regular expression, proves that the loops compute
    [holes], and derives from it what the extractors promise: they terminate,
    the result has no duplicates, every name is trimmed, every name comes from
    an occurrence in the text, and a template written as a sequence of text
    and holes gives back exactly its holes. *)

From Stdlib Require Import Ascii String NArith.
From stdpp Require Import base numbers list.
From S2P Require Import Prelude JsString Types Regex RegexFacts Segments.
#[local] Set Warnings "-clear-no-such-hyp".

(** ** The extractors of the sources *)

(** The pattern [/\{\{([^}]+)\}\}/g] of [extractPlaceholders]. *)
Definition re_double_brace : regex :=
  RSeq (RChar "{") (RSeq (RChar "{")
    (RSeq (RGroup 1 (RPlus true (RClass true [CChar "}"])))
      (RSeq (RChar "}") (RChar "}")))).

(** The body of the loop: [placeholders.add(match[1].trim())]. *)
Definition add_placeholder (m : MatchResult) (placeholders : list jstring) : list jstring :=
  Set_add (trim (default [] (m_group m 1))) placeholders.

(** [extractPlaceholders] with the number of iterations of its [while] loop
    bounded by [fuel]; [None] when the bound is reached. *)
Definition extractPlaceholders_fuel (fuel : nat) (content : jstring) : option (list jstring) :=
  let regex := RegExp_new re_double_brace true in
  let placeholders := [] in
  exec_while fuel regex content add_placeholder placeholders.

(** [extractPlaceholders(content)].  Every match consumes at least four
    characters, so [S (length content)] iterations are enough
    ([extractPlaceholders_terminates]). *)
Definition extractPlaceholders (content : jstring) : list jstring :=
  default [] (extractPlaceholders_fuel (S (length content)) content).

(** The pattern [/\{([^}]+)\}/g] of [extractPlaceholdersFromWord]. *)
Definition re_single_brace : regex :=
  RSeq (RChar "{")
    (RSeq (RGroup 1 (RPlus true (RClass true [CChar "}"]))) (RChar "}")).

(** The scanning loop of [extractPlaceholdersFromWord], applied to the text
    [doc.getFullText()] returns. *)
Definition extractPlaceholdersFromText_fuel (fuel : nat) (text : jstring) : option (list jstring) :=
  let regex := RegExp_new re_single_brace true in
  let placeholders := [] in
  exec_while fuel regex text add_placeholder placeholders.

Definition extractPlaceholdersFromText (text : jstring) : list jstring :=
  default [] (extractPlaceholdersFromText_fuel (S (length text)) text).

(** [extractPlaceholdersFromWord(file)].  Reading the file, unzipping it and
    extracting its text are calls into [PizZip] and [docxtemplater]; their
    outcome is the argument [fullText]: the text, or the error they threw.
    The [catch] block rethrows, so an error is passed on. *)
Definition extractPlaceholdersFromWord {E} (fullText : result E jstring) : result E (list jstring) :=
  extractPlaceholdersFromText <$> fullText.

(** ** A direct scanner *)

(** What [[^}]] accepts. *)
Definition not_close (c : ascii) : bool := class_matches true [CChar "}"%char] c.

(** The pattern [op([^}]+)cl] for literal delimiters [op] and [cl]. *)
Definition brace_pattern (op cl : jstring) : regex :=
  RSeq (RLit op) (RSeq (RGroup 1 (RPlus true (RClass true [CChar "}"%char]))) (RLit cl)).

(** A hole that starts at the head of [s]: the delimiter [op], the longest
    run of characters other than the closing brace, which must not be empty,
    and the delimiter [cl].  Gives the run and what follows the hole. *)
Definition hole_at (op cl s : jstring) : option (jstring * jstring) :=
  if starts_with op s then
    let s1 := drop (length op) s in
    let body := take_while not_close s1 in
    let s2 := drop_while not_close s1 in
    if bool_decide (body = []) then None
    else if starts_with cl s2 then Some (body, drop (length cl) s2) else None
  else None.

(** The leftmost hole of [s]. *)
Fixpoint next_hole (op cl s : jstring) : option (jstring * jstring) :=
  match hole_at op cl s with
  | Some h => Some h
  | None =>
      match s with
      | [] => None
      | _ :: s' => next_hole op cl s'
      end
  end.

(** The holes of [s] from left to right, each search resuming after the
    previous hole. *)
Fixpoint scan_holes (fuel : nat) (op cl s : jstring) : list jstring :=
  match fuel with
  | 0 => []
  | S fuel' =>
      match next_hole op cl s with
      | None => []
      | Some (body, rest) => body :: scan_holes fuel' op cl rest
      end
  end.

Definition holes (op cl s : jstring) : list jstring := scan_holes (S (length s)) op cl s.

(** ** The patterns against the scanner *)

Lemma match_at_brace_pattern op cl' i s :
  match_at (brace_pattern op ("}"%char :: cl')) 1 i s =
    (λ h, MState (i + length op + length h.1 + S (length cl')) h.2 [Some h.1])
      <$> hole_at op ("}"%char :: cl') s.
Proof.
  set (cl := "}"%char :: cl').
  unfold match_at, brace_pattern, hole_at. cbn [replicate].
  rewrite rmatch_RSeq, rmatch_RLit. destruct (starts_with op s); [|done].
  set (s1 := drop (length op) s).
  rewrite rmatch_RSeq, rmatch_RGroup, rmatch_RPlus.
  rewrite (char_atom_rmatch _ not_close) by done.
  unfold match_char; cbn [ms_rest].
  destruct s1 as [|c s1']; [done|]. cbn [take_while drop_while].
  destruct (not_close c) eqn:Hc; [|by rewrite bool_decide_eq_true_2].
  rewrite bool_decide_eq_false_2 by done.
  unfold advance; cbn [ms_pos ms_rest ms_caps].
  rewrite (rmatch_star_run _ not_close) by first
    [ done
    | intros d j r' cs Hd; cbn [ms_pos ms_rest ms_caps]; rewrite rmatch_RLit;
      unfold cl; cbn [starts_with]; rewrite decide_False; [done|];
      intros <-; by vm_compute in Hd ].
  cbn [ms_pos ms_rest ms_caps]. unfold captured; cbn [ms_pos ms_rest].
  rewrite rmatch_RLit. destruct (starts_with cl _); [|done].
  cbn [fmap option_fmap option_map fst snd length].
  f_equal. f_equal; [unfold cl; cbn [length]; lia|].
  replace (S (i + length op) + length (take_while not_close s1') - (i + length op))
    with (S (length (take_while not_close s1'))) by lia.
  cbn [take]. by rewrite take_length_take_while.
Qed.

Lemma match_at_double_brace i s :
  match_at re_double_brace 1 i s = match_at (brace_pattern (js "{{") (js "}}")) 1 i s.
Proof. reflexivity. Qed.

Lemma match_at_single_brace i s :
  match_at re_single_brace 1 i s = match_at (brace_pattern (js "{") (js "}")) 1 i s.
Proof. reflexivity. Qed.

Lemma hole_at_body op cl s b rest :
  hole_at op cl s = Some (b, rest) →
  s = op ++ b ++ cl ++ rest ∧ b ≠ [] ∧ Forall (λ c, not_close c = true) b.
Proof.
  unfold hole_at. destruct (starts_with op s) eqn:Hop; [|done].
  apply starts_with_prefix in Hop as [s1 ->]. rewrite drop_app_length.
  case_bool_decide as Hb; [done|].
  destruct (starts_with cl _) eqn:Hcl; [|done].
  apply starts_with_prefix in Hcl as [s2 Hs2]. intros [= <- <-].
  rewrite Hs2, drop_app_length. split_and!; [|done|apply take_while_Forall].
  by rewrite <-Hs2, take_drop_while.
Qed.

Lemma next_hole_length op cl s b rest :
  next_hole op cl s = Some (b, rest) → length rest < length s.
Proof.
  induction s as [|c s IH]; cbn [next_hole].
  - destruct (hole_at op cl []) as [[b' r']|] eqn:E; [|done].
    apply hole_at_body in E as (E & Hb & _). destruct op, b'; done.
  - destruct (hole_at op cl (c :: s)) as [[b' r']|] eqn:E.
    + intros [= -> ->]. apply hole_at_body in E as (E & Hb & _).
      apply (f_equal length) in E. rewrite !length_app in E.
      destruct b; [done|]. simpl in *. lia.
    + intros H%IH. simpl. lia.
Qed.

Lemma scan_holes_fuel op cl f1 f2 s :
  length s < f1 → length s < f2 → scan_holes f1 op cl s = scan_holes f2 op cl s.
Proof.
  revert f2 s. induction f1 as [|f1 IH]; intros f2 s H1 H2; [lia|].
  destruct f2 as [|f2]; [lia|]. cbn [scan_holes].
  destruct (next_hole op cl s) as [[b rest]|] eqn:E; [|done].
  apply next_hole_length in E. f_equal. apply IH; lia.
Qed.

(** ** The loop against the scanner

    The lemmas of this section hold for any pattern [r] that matches exactly
    the holes [hole_at op cl] describes. *)

Section brace_scan.
Context (r : regex) (op cl : jstring).
Hypothesis Hr : ∀ i s, match_at r 1 i s =
  (λ h, MState (i + length op + length h.1 + length cl) h.2 [Some h.1])
    <$> hole_at op cl s.

Lemma search_next_hole i s :
  (λ jy, (ms_rest jy.2, ms_caps jy.2)) <$> search r 1 i s =
  (λ h, (h.2, [Some h.1])) <$> next_hole op cl s.
Proof using Hr.
  revert i. induction s as [|c s IH]; intros i; cbn [search next_hole]; rewrite Hr.
  - by destruct (hole_at op cl []) as [[b rest]|].
  - destruct (hole_at op cl (c :: s)) as [[b rest]|]; [done|]. apply IH.
Qed.

Lemma brace_never_empty : never_empty r 1.
Proof using Hr.
  intros i s y. rewrite Hr. destruct (hole_at op cl s) as [[b rest]|] eqn:E; [|done].
  intros [= <-]. apply hole_at_body in E as (_ & Hb & _).
  destruct b; [done|]. simpl. lia.
Qed.

Lemma scan_all_holes fuel i s ms :
  scan_all fuel r 1 i s = Some ms →
  map m_groups ms = map (λ b, [Some b]) (scan_holes fuel op cl s).
Proof using Hr.
  revert i s ms. induction fuel as [|fuel IH]; intros i s ms; [done|].
  cbn [scan_all scan_holes]. pose proof (search_next_hole i s) as Hs.
  destruct (search r 1 i s) as [[j y]|], (next_hole op cl s) as [[b rest]|];
    simplify_eq/=; [|by intros [= <-]].
  destruct (scan_all fuel r 1 (ms_pos y) (ms_rest y)) as [ms'|] eqn:E; [|done].
  intros [= <-]. cbn [map m_groups]. f_equal; [done|]. by eapply IH.
Qed.

Lemma foldl_add_placeholder ms bodies acc :
  map m_groups ms = map (λ b, [Some b]) bodies →
  foldl (λ a m, add_placeholder m a) acc ms =
    foldl (λ s x, Set_add x s) acc (map trim bodies).
Proof.
  revert bodies acc. induction ms as [|m ms IH]; intros [|b bodies] acc; try done.
  intros [= Hm Hms]. cbn [foldl map]. rewrite <-(IH _ _ Hms).
  unfold add_placeholder, m_group. by rewrite Hm.
Qed.

Lemma exec_while_holes content :
  list_max (groups r) = 1 →
  exec_while (S (length content)) (RegExp_new r true) content add_placeholder [] =
    Some (Set_of_list (map trim (holes op cl content))).
Proof using Hr.
  intros Hg. rewrite exec_while_scan by (simpl; first [done|lia]).
  unfold RegExp_new; cbn [re_body re_ngroups lastIndex]. rewrite Hg, drop_0.
  destruct (scan_all_terminates r 1 (S (length content)) 0 content) as [ms Hms];
    [apply brace_never_empty|lia|].
  rewrite Hms. cbn [fmap option_fmap option_map]. f_equal.
  apply foldl_add_placeholder. by apply (scan_all_holes _ 0).
Qed.

End brace_scan.

(** ** Holes of a text: shape, soundness, rendered templates *)

Lemma hole_at_not_open op' cl c s :
  c ≠ "{"%char → hole_at ("{"%char :: op') cl (c :: s) = None.
Proof. intros Hc. unfold hole_at. cbn [starts_with]. by rewrite decide_False. Qed.

Lemma hole_at_nil op' cl : hole_at ("{"%char :: op') cl [] = None.
Proof. done. Qed.

Lemma next_hole_text op' cl t s :
  "{"%char ∉ t → next_hole ("{"%char :: op') cl (t ++ s) = next_hole ("{"%char :: op') cl s.
Proof.
  induction t as [|c t IH]; [done|]. intros [Hc Ht]%not_elem_of_cons.
  cbn [app next_hole]. rewrite hole_at_not_open by done. by apply IH.
Qed.

Lemma not_close_spec c : not_close c = true ↔ c ≠ "}"%char.
Proof.
  unfold not_close, class_matches, citem_matches; cbn [existsb].
  rewrite orb_false_r. case_bool_decide; naive_solver.
Qed.

Lemma Forall_not_close b : Forall (λ c, not_close c = true) b ↔ "}"%char ∉ b.
Proof.
  rewrite Forall_forall. setoid_rewrite not_close_spec. split.
  - intros H Hin. by apply (H _ Hin).
  - intros H c Hc ->. done.
Qed.

Lemma hole_at_hole op cl' b s :
  b ≠ [] → "}"%char ∉ b →
  hole_at op ("}"%char :: cl') (op ++ b ++ ("}"%char :: cl') ++ s) = Some (b, s).
Proof.
  intros Hb Hcl%Forall_not_close. unfold hole_at.
  rewrite starts_with_app, drop_app_length.
  rewrite take_while_app_true, drop_while_app_true by done.
  cbn [app]. rewrite take_while_stop, drop_while_stop by done.
  rewrite app_nil_r, bool_decide_eq_false_2 by done.
  change ("}"%char :: cl' ++ s) with (("}"%char :: cl') ++ s).
  by rewrite starts_with_app, drop_app_length.
Qed.

Lemma next_hole_hole op cl' b s :
  b ≠ [] → "}"%char ∉ b →
  next_hole op ("}"%char :: cl') (op ++ b ++ ("}"%char :: cl') ++ s) = Some (b, s).
Proof.
  intros Hb Hcl. destruct (op ++ b ++ ("}"%char :: cl') ++ s) eqn:E;
    cbn [next_hole]; rewrite <-E, hole_at_hole by done; done.
Qed.

Lemma scan_holes_render op' cl' segs fuel :
  length (render ("{"%char :: op') ("}"%char :: cl') segs) < fuel →
  wf_segments segs →
  scan_holes fuel ("{"%char :: op') ("}"%char :: cl')
    (render ("{"%char :: op') ("}"%char :: cl') segs) = hole_bodies segs.
Proof.
  revert fuel. induction segs as [|[t|b] segs IH]; intros fuel Hf Hwf.
  - destruct fuel; [lia|]. done.
  - apply Forall_cons in Hwf as [Ht Hwf]. cbn [render render_segment hole_bodies] in *.
    rewrite length_app in Hf. rewrite <-(IH fuel) by (done || lia).
    destruct fuel; [lia|]. cbn [scan_holes]. by rewrite next_hole_text.
  - apply Forall_cons in Hwf as [[Hb Hcl] Hwf]. cbn [render render_segment hole_bodies] in *.
    rewrite !length_app in Hf. cbn [length] in Hf.
    destruct fuel; [lia|]. cbn [scan_holes].
    rewrite <-!app_assoc, next_hole_hole by done. f_equal. apply IH; [lia|done].
Qed.

Lemma holes_render op' cl' segs :
  wf_segments segs →
  holes ("{"%char :: op') ("}"%char :: cl')
    (render ("{"%char :: op') ("}"%char :: cl') segs) = hole_bodies segs.
Proof. intros Hwf. apply scan_holes_render; [lia|done]. Qed.

Lemma next_hole_sound op cl s b rest :
  next_hole op cl s = Some (b, rest) →
  ∃ pre, s = pre ++ op ++ b ++ cl ++ rest ∧ b ≠ [] ∧ "}"%char ∉ b.
Proof.
  induction s as [|c s IH]; cbn [next_hole].
  - destruct (hole_at op cl []) as [[b' r']|] eqn:E; [|done]. intros [= -> ->].
    apply hole_at_body in E as (E & Hb & Hc%Forall_not_close). by exists [].
  - destruct (hole_at op cl (c :: s)) as [[b' r']|] eqn:E.
    + intros [= -> ->].
      apply hole_at_body in E as (E & Hb & Hc%Forall_not_close). by exists [].
    + intros (pre & -> & Hb & Hc)%IH. by exists (c :: pre).
Qed.

Lemma scan_holes_sound fuel op cl s b :
  b ∈ scan_holes fuel op cl s →
  ∃ pre post, s = pre ++ op ++ b ++ cl ++ post ∧ b ≠ [] ∧ "}"%char ∉ b.
Proof.
  revert s. induction fuel as [|fuel IH]; intros s; cbn [scan_holes].
  - by intros ?%elem_of_nil.
  - destruct (next_hole op cl s) as [[b' rest]|] eqn:E; [|by intros ?%elem_of_nil].
    apply next_hole_sound in E as (pre & -> & Hb & Hc).
    intros [->|(pre' & post & -> & Hb' & Hc')%IH]%elem_of_cons; [by eauto|].
    exists (pre ++ op ++ b' ++ cl ++ pre'), post. by rewrite <-!app_assoc.
Qed.

(** ** The extractors *)

(** The two loops compute the trimmed holes of the text, first occurrence
    first, within [S (length content)] iterations. *)
Lemma extractPlaceholders_fuel_holes content :
  extractPlaceholders_fuel (S (length content)) content =
    Some (Set_of_list (map trim (holes (js "{{") (js "}}") content))).
Proof.
  apply (exec_while_holes _ (js "{{") (js "}}")); [|done].
  intros i s. rewrite match_at_double_brace.
  by rewrite (match_at_brace_pattern (js "{{") (js "}")).
Qed.

Lemma extractPlaceholdersFromText_fuel_holes text :
  extractPlaceholdersFromText_fuel (S (length text)) text =
    Some (Set_of_list (map trim (holes (js "{") (js "}") text))).
Proof.
  apply (exec_while_holes _ (js "{") (js "}")); [|done].
  intros i s. rewrite match_at_single_brace.
  by rewrite (match_at_brace_pattern (js "{") []).
Qed.

(** The extractors compute the scanner. *)
Lemma extractPlaceholders_scan content :
  extractPlaceholders content = Set_of_list (map trim (holes (js "{{") (js "}}") content)).
Proof. unfold extractPlaceholders. by rewrite extractPlaceholders_fuel_holes. Qed.

Lemma extractPlaceholdersFromText_scan text :
  extractPlaceholdersFromText text = Set_of_list (map trim (holes (js "{") (js "}") text)).
Proof. unfold extractPlaceholdersFromText. by rewrite extractPlaceholdersFromText_fuel_holes. Qed.

(** ** The theorems *)

(** C2. [extractPlaceholders], the [regex.exec] loop of the source, returns
    exactly the trimmed bodies of the [{{..}}] holes a left-to-right scan of
    the content finds, duplicates dropped and first occurrences in order. *)
Theorem extractPlaceholders_holes content :
  extractPlaceholders content = Set_of_list (map trim (holes (js "{{") (js "}}") content)).
Proof. apply extractPlaceholders_scan. Qed.

(** The scanning loop of [extractPlaceholdersFromWord] returns exactly
    the trimmed bodies of the [{..}] holes a left-to-right scan of the text
    finds, duplicates dropped and first occurrences in order. *)
Theorem extractPlaceholdersFromText_holes text :
  extractPlaceholdersFromText text = Set_of_list (map trim (holes (js "{") (js "}") text)).
Proof. apply extractPlaceholdersFromText_scan. Qed.

(** C15. The [while] loop of [extractPlaceholders] terminates: any bound on
    the number of iterations above the length of the content is enough, and
    the loop then returns the value of [extractPlaceholders]. *)
Theorem extractPlaceholders_terminates content fuel :
  length content < fuel →
  extractPlaceholders_fuel fuel content = Some (extractPlaceholders content).
Proof.
  intros Hf. apply (exec_while_fuel_mono (S (length content))); [|lia].
  rewrite ?extractPlaceholders_scan. apply extractPlaceholders_fuel_holes.
Qed.

Lemma extractPlaceholders_terminates_witness :
  extractPlaceholders_fuel 100 (js "Dear {{ Name }}, {{City}}") =
    Some (extractPlaceholders (js "Dear {{ Name }}, {{City}}")).
Proof. apply extractPlaceholders_terminates. vm_compute. lia. Defined.

(** The list [extractPlaceholders] returns has no duplicates, however
    often a placeholder occurs in the content. *)
Theorem extractPlaceholders_NoDup content : NoDup (extractPlaceholders content).
Proof. rewrite ?extractPlaceholders_scan. apply Set_of_list_NoDup. Qed.

(** Every name [extractPlaceholders] returns is trimmed: it neither
    starts nor ends with white space. *)
Theorem extractPlaceholders_trimmed content :
  Forall no_space_ends (extractPlaceholders content).
Proof.
  rewrite ?extractPlaceholders_scan. apply Forall_forall.
  intros p (b & -> & _)%elem_of_Set_of_list%list_elem_of_fmap.
  apply trim_no_space_ends.
Qed.

(** C21. Extraction is sound: every name [extractPlaceholders] returns is the
    trimmed body of an occurrence [{{body}}] in the content, where the body
    is not empty and holds no closing brace. *)
Theorem extractPlaceholders_sound content p :
  p ∈ extractPlaceholders content →
  ∃ pre body post,
    content = pre ++ js "{{" ++ body ++ js "}}" ++ post
    ∧ body ≠ [] ∧ ("}"%char ∉ body) ∧ p = trim body.
Proof.
  rewrite ?extractPlaceholders_scan. intros (b & -> & Hb)%elem_of_Set_of_list%list_elem_of_fmap.
  apply scan_holes_sound in Hb as (pre & post & -> & ? & ?). by eauto 10.
Qed.

Lemma extractPlaceholders_sound_witness :
  ∃ pre body post,
    js "Hi {{ Name }}!" = pre ++ js "{{" ++ body ++ js "}}" ++ post
    ∧ body ≠ [] ∧ ("}"%char ∉ body) ∧ js "Name" = trim body.
Proof.
  apply (extractPlaceholders_sound (js "Hi {{ Name }}!") (js "Name")).
  vm_compute. apply list_elem_of_here.
Defined.

(** Extraction finds the first placeholder of a text: when no opening
    brace precedes an occurrence [{{body}}] whose body is not empty and holds
    no closing brace, the trimmed body is one of the names returned. *)
Theorem extractPlaceholders_complete pre body post :
  "{"%char ∉ pre → body ≠ [] → "}"%char ∉ body →
  trim body ∈ extractPlaceholders (pre ++ js "{{" ++ body ++ js "}}" ++ post).
Proof.
  intros Hpre Hb Hc. rewrite ?extractPlaceholders_scan.
  apply elem_of_Set_of_list, list_elem_of_fmap. exists body. split; [done|].
  unfold holes. cbn [scan_holes]. rewrite (next_hole_text (js "{")) by done.
  rewrite (next_hole_hole _ (js "}")) by done. by left.
Qed.

Lemma extractPlaceholders_complete_witness :
  trim (js " Name ") ∈
    extractPlaceholders (js "Hi " ++ js "{{" ++ js " Name " ++ js "}}" ++ js "!").
Proof.
  apply extractPlaceholders_complete; [|done|]; by apply (bool_decide_unpack _).
Defined.

(** C5. A template written as text without opening braces and holes gives
    back its holes: [extractPlaceholders] of the rendered template is the
    list of the trimmed hole bodies without duplicates, in order of first
    appearance. *)
Theorem extractPlaceholders_render segs :
  wf_segments segs →
  extractPlaceholders (render (js "{{") (js "}}") segs) =
    Set_of_list (map trim (hole_bodies segs)).
Proof.
  intros Hwf. rewrite ?extractPlaceholders_scan. by rewrite (holes_render (js "{") (js "}")).
Qed.

Lemma extractPlaceholders_render_witness :
  extractPlaceholders
    (render (js "{{") (js "}}") [Text (js "Dear "); Hole (js " Name "); Hole (js "Name")]) =
  Set_of_list (map trim (hole_bodies [Text (js "Dear "); Hole (js " Name "); Hole (js "Name")])).
Proof. apply extractPlaceholders_render. by apply (bool_decide_unpack _). Defined.

(** ** Outside the bounds *)

(** A placeholder that follows an opening pair without its closing pair is
    not extracted: the scan takes everything from the first opening pair to
    the closing pair as one name. *)
Example extract_after_open_pair :
  extractPlaceholders (js "{{b{{Name}}") = [js "b{{Name"].
Proof. by vm_compute. Qed.

(** The scan of the Word path reads a placeholder written with double
    braces as a name that starts with a brace. *)
Example extract_word_double_brace :
  extractPlaceholdersFromText (js "Dear {{Name}}") = [js "{Name"].
Proof. by vm_compute. Qed.

(** A pair of braces that holds only white space gives the empty name. *)
Example extract_blank_name : extractPlaceholders (js "{{ }}") = [[]].
Proof. by vm_compute. Qed.
