(* ===== verification/Merge.v ===== *)
(** * Merge: substituting the values of a row for the placeholders

    [mergeSingleDocument] of [src/src/lib/templateUtils.ts].  For every
    mapping, in order,
    the value is read from the row ([rowData[f] || '']), the pattern is
    built from the placeholder name by [new RegExp] ([Pattern.v]), and
    [String.prototype.replace] rewrites the content ([Regex.v]).  A pattern
    text that [new RegExp] rejects throws; the exception leaves the loop and
    the function, so the result is a [result].

    The main theorem, [mergeSingleDocument_instantiate], says when the
    regular-expression code does what merging means ([Segments.instantiate]):
    on a template that is text and holes, for placeholder names without
    pattern syntax and values without [$] and [{].  The examples at the end
    show what happens outside these bounds.  [Batch.v] holds the functions
    that merge a whole dataset and the Word path. *)

From Stdlib Require Import Ascii String NArith ZArith.
From stdpp Require Import base numbers pretty list.
From S2P Require Import Prelude JsString Types Regex RegexFacts Pattern PatternFacts.
From S2P Require Import Segments Extract.
#[local] Set Warnings "-clear-no-such-hyp".

(** ** The functions of the sources *)

(** The template literal [`\\{\\{\\s*${placeholder}\\s*\\}\\}`]: the name
    enters the pattern text as it is. *)
Definition merge_pattern (placeholder : jstring) : jstring :=
  js "\{\{\s*" ++ placeholder ++ js "\s*\}\}".

(** [rowData[dataField] || '']. *)
Definition cell (rowData : DataRow) (dataField : jstring) : value :=
  or_empty (row_get rowData dataField).

(** The body of the loop of [mergeSingleDocument], from the content so far
    to the content after one mapping. *)
Definition merge_mapping (rowData : DataRow) (content : jstring)
    (mapping : FieldMapping.t) : result regexp_error jstring :=
  let value := cell rowData (FieldMapping.dataField mapping) in
  regex ← RegExp_of_pattern (merge_pattern (FieldMapping.placeholder mapping)) true;
  Ok (replace content regex (String_of value)).

(** [mergeSingleDocument(template, rowData, mappings)]. *)
Definition mergeSingleDocument (template : Template.t) (rowData : DataRow)
    (mappings : list FieldMapping.t) : result regexp_error jstring :=
  let content := Template.content template in
  forEach (merge_mapping rowData) mappings content.

(** ** A direct account of one substitution *)

(** The pattern [new RegExp] builds for a name without pattern syntax. *)
Definition merge_regex (p : jstring) : regex :=
  RLit_then (js "{{") (RSeq (RStar true space_class)
    (RLit_then p (RSeq (RStar true space_class) (RLit_then (js "}}") REmpty)))).

(** A slot for [p] at the head of [s]: two opening braces, white space, the
    name, white space, two closing braces.  Gives what follows the slot. *)
Definition slot_at (p s : jstring) : option jstring :=
  if starts_with (js "{{") s then
    let s1 := drop_while is_space (drop 2 s) in
    if starts_with p s1 then
      let s2 := drop_while is_space (drop (length p) s1) in
      if starts_with (js "}}") s2 then Some (drop 2 s2) else None
    else None
  else None.

(** The index at which a slot that starts at index [i] ends. *)
Definition slot_end (i : nat) (p s : jstring) : nat :=
  let s0 := drop 2 s in
  let s1 := drop (length p) (drop_while is_space s0) in
  i + 2 + length (take_while is_space s0) + length p
    + length (take_while is_space s1) + 2.

(** The leftmost slot of [s]: the text before it and the text after it. *)
Fixpoint find_slot (p s : jstring) : option (jstring * jstring) :=
  match slot_at p s with
  | Some rest => Some ([], rest)
  | None =>
      match s with
      | [] => None
      | c :: s' => prod_map (cons c) id <$> find_slot p s'
      end
  end.

(** Every slot for [p] replaced by [v], from left to right. *)
Fixpoint subst_slots (fuel : nat) (p v s : jstring) : jstring :=
  match fuel with
  | 0 => s
  | S fuel' =>
      match find_slot p s with
      | None => s
      | Some (pre, rest) => pre ++ v ++ subst_slots fuel' p v rest
      end
  end.

(** ** The bounds of the main theorem *)

(** A placeholder name the pattern takes literally: not empty, no white
    space at its ends, no closing brace and no character with a role in
    the pattern grammar. *)
Definition plain_name (p : jstring) : Prop :=
  p ≠ [] ∧ no_space_ends p ∧ ("}"%char ∉ p) ∧ Forall (λ c, pattern_char c = true) p.

(** A value [replace] inserts as it is and that opens no new slot. *)
Definition safe_value (v : jstring) : Prop := ("$"%char ∉ v) ∧ ("{"%char ∉ v).

Definition good_mapping (rowData : DataRow) (m : FieldMapping.t) : Prop :=
  plain_name (FieldMapping.placeholder m)
  ∧ safe_value (String_of (cell rowData (FieldMapping.dataField m))).

(** What the mappings bind a name to: the value of the first mapping for
    it. *)
Definition mapping_env (rowData : DataRow) (mappings : list FieldMapping.t) :
    jstring → option jstring :=
  foldr (λ m, env_cons (FieldMapping.placeholder m)
                (String_of (cell rowData (FieldMapping.dataField m))))
    (λ _, None) mappings.

#[export] Instance plain_name_dec p : Decision (plain_name p).
Proof. unfold plain_name. apply _. Defined.

#[export] Instance safe_value_dec v : Decision (safe_value v).
Proof. unfold safe_value. apply _. Defined.

#[export] Instance good_mapping_dec rowData m : Decision (good_mapping rowData m).
Proof. unfold good_mapping. apply _. Defined.

(** A template of the plain-text path, printed. *)
Abbreviation render2 := (render (js "{{") (js "}}")).

(** ** The contract of a merge function *)

(** What a function that merges one row promises its callers, within the
    bounds above: the result is the template instantiated by the mappings.
    [Batch.v] proves what a batch returns from this contract alone;
    [mergeSingleDocument_contract] shows that the function of the source
    keeps it. *)
Class MergeContract
    (merge : Template.t → DataRow → list FieldMapping.t → result regexp_error jstring) :
    Prop :=
  merge_instantiates : ∀ template rowData mappings segs,
    Template.content template = render2 segs → plain_segments segs →
    Forall (good_mapping rowData) mappings →
    merge template rowData mappings =
      Ok (render2 (instantiate (mapping_env rowData mappings) segs)).

(** ** The pattern of a plain name *)

Lemma parse_merge_suffix fuel n :
  parse_alternative (4 + fuel) n (js "\s*\}\}") =
    Ok (RSeq (RStar true space_class) (RLit_then (js "}}") REmpty), n, []).
Proof. done. Qed.

Lemma parse_merge_prefix fuel n s :
  unquantified s →
  parse_alternative (4 + fuel) n (js "\{\{\s*" ++ s) =
    '(a, n', rest) ← parse_alternative (S fuel) n s;
    Ok (RLit_then (js "{{") (RSeq (RStar true space_class) a), n', rest).
Proof.
  intros Hs. cbn [Nat.add js list_ascii_of_string app].
  rewrite (parse_alternative_escape _ _ _ _ (RChar "{")) by done.
  rewrite (parse_alternative_escape _ _ _ _ (RChar "{")) by done.
  rewrite (parse_alternative_escape_star _ _ _ _ space_class) by done.
  by destruct (parse_alternative (S fuel) n s) as [[[a n'] rest]|].
Qed.

Lemma parse_merge_pattern p :
  Forall (λ c, pattern_char c = true) p →
  parse_pattern (merge_pattern p) = Ok (merge_regex p).
Proof.
  intros Hp. unfold parse_pattern, parse_fuel, merge_pattern.
  rewrite !length_app. cbn [length js list_ascii_of_string].
  replace (3 * (7 + (length p + 7)) + 3) with
    (S (4 + (length p + (3 + (37 + 2 * length p))))) by lia.
  cbn [parse_disjunction].
  rewrite parse_merge_prefix by (by apply unquantified_app).
  change (3 + ?x) with (S (S (S x))).
  by rewrite (parse_alternative_plain p _ _ _ _ _ _ Hp (unquantified_backslash _)
    (parse_merge_suffix _ _)).
Qed.

Lemma match_at_merge_regex c0 p' i s :
  is_space c0 = false →
  match_at (merge_regex (c0 :: p')) 0 i s =
    (λ rest, MState (slot_end i (c0 :: p') s) rest []) <$> slot_at (c0 :: p') s.
Proof.
  intros Hc0. set (p := c0 :: p'). unfold match_at, merge_regex, slot_at, slot_end.
  cbn [replicate]. rewrite rmatch_RLit_then. destruct (starts_with (js "{{") s); [|done].
  rewrite rmatch_RSeq, rmatch_space_star.
  2:{ intros c j r' cs Hc. rewrite rmatch_RLit_then. unfold p. cbn [starts_with].
      rewrite decide_False; [done|]. by intros ->; congruence. }
  rewrite rmatch_RLit_then. destruct (starts_with p _); [|done].
  rewrite rmatch_RSeq, rmatch_space_star.
  2:{ intros c j r' cs Hc. rewrite rmatch_RLit_then. cbn [js list_ascii_of_string starts_with].
      rewrite decide_False; [done|]. intros <-. by vm_compute in Hc. }
  rewrite rmatch_RLit_then. destruct (starts_with (js "}}") _); [|done].
  by rewrite rmatch_REmpty.
Qed.

(** ** [replace] against the direct substitution

    For any pattern [r] that matches exactly the slots of [p]. *)

Section slots.
Context (r : regex) (p : jstring).
Hypothesis Hr : ∀ i s, match_at r 0 i s =
  (λ rest, MState (slot_end i p s) rest []) <$> slot_at p s.

Lemma slot_end_gt i s : i < slot_end i p s.
Proof. unfold slot_end. lia. Qed.

Lemma search_find_slot i s :
  (λ jy, (take (jy.1 - i) s, ms_rest jy.2, ms_pos jy.2 =? jy.1)) <$> search r 0 i s =
  (λ h, (h.1, h.2, false)) <$> find_slot p s.
Proof using Hr.
  revert i. induction s as [|c s IH]; intros i; cbn [search find_slot]; rewrite Hr.
  - destruct (slot_at p []) as [rest|]; [|done]. cbn.
    rewrite Nat.sub_diag. do 2 f_equal. apply Nat.eqb_neq.
    pose proof (slot_end_gt i []). lia.
  - destruct (slot_at p (c :: s)) as [rest|]; cbn.
    + rewrite Nat.sub_diag. do 2 f_equal. apply Nat.eqb_neq.
      pose proof (slot_end_gt i (c :: s)). lia.
    + specialize (IH (S i)).
      destruct (search r 0 (S i) s) as [[j y]|] eqn:E,
        (find_slot p s) as [[pre rest]|]; simplify_eq/=; [|done].
      apply search_sound in E as (u & w & _ & -> & _).
      replace (S i + length u - i) with (S (length u)) by lia.
      replace (S i + length u - S i) with (length u) by lia.
      by destruct (ms_pos y =? S i + length u).
Qed.

Lemma gsub_subst_slots fuel f v i s :
  (∀ m, f m = v) → gsub fuel r 0 f i s = subst_slots fuel p v s.
Proof using Hr.
  intros Hf. revert i s. induction fuel as [|fuel IH]; intros i s; [done|].
  cbn [gsub subst_slots]. pose proof (search_find_slot i s) as Hs.
  destruct (search r 0 i s) as [[j y]|], (find_slot p s) as [[pre rest]|];
    simplify_eq/=; [|done].
  rewrite Hf. destruct (ms_pos y =? j); [done|]. by rewrite IH.
Qed.

End slots.

(** ** Slots in a rendered template *)

Lemma slot_at_Some p s rest :
  slot_at p s = Some rest →
  ∃ ws1 ws2, s = js "{{" ++ ws1 ++ p ++ ws2 ++ js "}}" ++ rest
    ∧ Forall (λ c, is_space c = true) ws1 ∧ Forall (λ c, is_space c = true) ws2.
Proof.
  unfold slot_at. destruct (starts_with (js "{{") s) eqn:H1; [|done].
  apply starts_with_prefix in H1 as [s0 ->]. rewrite (drop_app_length (js "{{")).
  destruct (starts_with p _) eqn:H2; [|done].
  apply starts_with_prefix in H2 as [s1 H2]. rewrite H2, drop_app_length.
  destruct (starts_with (js "}}") _) eqn:H3; [|done].
  apply starts_with_prefix in H3 as [s2 H3]. rewrite H3, (drop_app_length (js "}}")).
  intros [= <-]. exists (take_while is_space s0), (take_while is_space s1).
  split_and!; [|apply take_while_Forall..].
  by rewrite <-H3, take_drop_while, <-H2, take_drop_while.
Qed.

Lemma slot_at_pad c0 p' ws1 ws2 rest :
  is_space c0 = false →
  Forall (λ c, is_space c = true) ws1 → Forall (λ c, is_space c = true) ws2 →
  slot_at (c0 :: p') (js "{{" ++ ws1 ++ (c0 :: p') ++ ws2 ++ js "}}" ++ rest) = Some rest.
Proof.
  intros Hc0 H1 H2. unfold slot_at.
  rewrite starts_with_app, (drop_app_length (js "{{")).
  rewrite drop_while_app_true by done.
  cbn [app]. rewrite drop_while_stop by done.
  change (c0 :: p' ++ ?x) with ((c0 :: p') ++ x).
  rewrite starts_with_app, drop_app_length, drop_while_app_true by done.
  cbn [js list_ascii_of_string app]. by rewrite drop_while_stop by done.
Qed.

Lemma slot_at_hole p b s :
  plain_name p → "}"%char ∉ b →
  slot_at p (js "{{" ++ b ++ js "}}" ++ s) = if decide (trim b = p) then Some s else None.
Proof.
  intros (Hne & Hends & Hcl & _) Hb. destruct p as [|c0 p']; [done|].
  assert (is_space c0 = false) as Hc0 by (destruct Hends as [Hh _]; eauto).
  destruct (decide _) as [Heq|Hneq].
  - destruct (trim_decompose b) as (ws1 & ws2 & Hb' & H1 & H2).
    rewrite Hb', Heq, <-!app_assoc. by apply slot_at_pad.
  - destruct (slot_at _ _) as [rest|] eqn:E; [|done]. exfalso. apply Hneq.
    apply slot_at_Some in E as (ws1 & ws2 & E & H1 & H2).
    apply (inj (app (js "{{"))) in E.
    rewrite !(app_assoc _ _ (js "}}" ++ _)) in E.
    apply (app_cons_first_eq "}"%char) in E as [-> _]; [by apply trim_pad|done|].
    rewrite !not_elem_of_app. split_and!; [|done|]; by apply spaces_not_elem.
Qed.

Lemma slot_at_not_open p c s : "{"%char ≠ c → slot_at p (c :: s) = None.
Proof. intros Hc. unfold slot_at. cbn [js list_ascii_of_string starts_with]. by rewrite decide_False. Qed.

Lemma slot_at_single_open p c s : "{"%char ≠ c → slot_at p ("{"%char :: c :: s) = None.
Proof.
  intros Hc. unfold slot_at. cbn [js list_ascii_of_string starts_with].
  rewrite decide_True by done. by rewrite decide_False.
Qed.

Lemma find_slot_skip p u s :
  "{"%char ∉ u → find_slot p (u ++ s) = prod_map (app u) id <$> find_slot p s.
Proof.
  induction u as [|c u IH]; intros Hu.
  - cbn [app]. by destruct (find_slot p s) as [[]|].
  - apply not_elem_of_cons in Hu as [Hc Hu]. cbn [app find_slot].
    rewrite slot_at_not_open, IH by done. by destruct (find_slot p s) as [[]|].
Qed.

Lemma find_slot_hole p b s :
  plain_name p → b ≠ [] → "{"%char ∉ b → "}"%char ∉ b →
  find_slot p (js "{{" ++ b ++ js "}}" ++ s) =
    if decide (trim b = p) then Some ([], s)
    else prod_map (app (js "{{" ++ b ++ js "}}")) id <$> find_slot p s.
Proof.
  intros Hp Hne Ho Hc. pose proof (slot_at_hole p b s Hp Hc) as Hs.
  cbn [js list_ascii_of_string app find_slot] in *. rewrite Hs.
  destruct (decide _); [done|].
  destruct b as [|c b]; [done|]. apply not_elem_of_cons in Ho as [Hc0 Ho].
  cbn [app find_slot]. rewrite slot_at_single_open, slot_at_not_open by done.
  rewrite (find_slot_skip p b) by done.
  change ("}"%char :: "}"%char :: s) with (js "}}" ++ s).
  rewrite (find_slot_skip p (js "}}")) by by apply (bool_decide_unpack _).
  by destruct (find_slot p s) as [[]|]; cbn; rewrite <-?app_assoc.
Qed.

Lemma subst_slots_skip fuel p v u s :
  "{"%char ∉ u → subst_slots (S fuel) p v (u ++ s) = u ++ subst_slots (S fuel) p v s.
Proof.
  intros Hu. cbn [subst_slots]. rewrite find_slot_skip by done.
  destruct (find_slot p s) as [[pre rest]|]; cbn; [|done]. by rewrite <-app_assoc.
Qed.

Lemma subst_slots_render p v segs fuel :
  plain_name p → plain_segments segs → length (render2 segs) < fuel →
  subst_slots fuel p v (render2 segs) = render2 (instantiate (bind1 p v) segs).
Proof.
  intros Hp Hsegs. revert fuel. unfold instantiate.
  induction Hsegs as [|[t|b] segs Hseg Hsegs IH];
    intros fuel Hf; (destruct fuel as [|fuel]; [lia|]).
  - done.
  - cbn [render render_segment instantiate map instantiate_segment] in *.
    rewrite subst_slots_skip by done. rewrite length_app in Hf.
    f_equal. apply IH. lia.
  - destruct Hseg as (Hne & Ho & Hc).
    cbn [render render_segment instantiate map instantiate_segment] in *.
    rewrite !length_app in Hf. change (length (js "{{")) with 2 in Hf.
    rewrite <-!app_assoc. cbn [subst_slots]. rewrite find_slot_hole by done.
    unfold bind1 at 1. destruct (decide _).
    + cbn [render render_segment app]. f_equal. apply IH. lia.
    + specialize (IH (S fuel) ltac:(lia)). cbn [subst_slots] in IH.
      cbn [render render_segment]. rewrite <-IH, <-!app_assoc.
      by destruct (find_slot p _) as [[pre rest]|]; cbn; rewrite <-?app_assoc.
Qed.

(** ** One mapping, then all *)

Lemma merge_mapping_render rowData segs mapping :
  good_mapping rowData mapping → plain_segments segs →
  merge_mapping rowData (render2 segs) mapping =
    Ok (render2 (instantiate
      (bind1 (FieldMapping.placeholder mapping)
         (String_of (cell rowData (FieldMapping.dataField mapping)))) segs)).
Proof.
  intros [Hp [Hd Ho]] Hsegs. unfold merge_mapping, RegExp_of_pattern.
  rewrite parse_merge_pattern by apply Hp. cbn [mbind result_bind]. f_equal.
  rewrite replace_gsub by done. unfold RegExp_new; cbn [re_body re_ngroups].
  destruct Hp as (Hne & Hends & Hcl & Hpc).
  destruct (FieldMapping.placeholder mapping) as [|c0 p'] eqn:Ep; [done|].
  assert (is_space c0 = false) as Hc0 by (destruct Hends as [Hh _]; eauto).
  replace (list_max (groups (merge_regex (c0 :: p')))) with 0
    by (unfold merge_regex; cbn [RLit_then js list_ascii_of_string groups app];
        by rewrite groups_RLit_then).
  rewrite (gsub_subst_slots _ (c0 :: p') (λ i s, match_at_merge_regex c0 p' i s Hc0)
    _ _ (String_of (cell rowData (FieldMapping.dataField mapping))))
    by (intros m; by apply GetSubstitution_plain).
  apply subst_slots_render; [done|done|lia].
Qed.

Lemma mapping_env_safe rowData mappings q v :
  Forall (good_mapping rowData) mappings →
  mapping_env rowData mappings q = Some v → "{"%char ∉ v.
Proof.
  induction 1 as [|m ms [_ [_ Hm]] _ IH]; cbn [mapping_env foldr]; [done|].
  unfold env_cons at 1. destruct (decide _); [by intros [= <-]|apply IH].
Qed.

Lemma mapping_env_cons rowData m ms p :
  mapping_env rowData (m :: ms) p =
    if decide (p = FieldMapping.placeholder m)
    then Some (String_of (cell rowData (FieldMapping.dataField m)))
    else mapping_env rowData ms p.
Proof. done. Qed.

Lemma mapping_env_Some rowData ms p :
  p ∈ FieldMapping.placeholder <$> ms → is_Some (mapping_env rowData ms p).
Proof.
  induction ms as [|m ms IH]; cbn [fmap list_fmap]; [by intros ?%elem_of_nil|].
  rewrite mapping_env_cons. destruct (decide _); [by eexists|].
  intros [?|?]%elem_of_cons; [done|by apply IH].
Qed.

(** Mappings with distinct placeholders bind the same in any order. *)
Lemma mapping_env_perm rowData ms ms' :
  NoDup (FieldMapping.placeholder <$> ms) → ms ≡ₚ ms' →
  pointwise_relation jstring (=) (mapping_env rowData ms) (mapping_env rowData ms').
Proof.
  intros Hnd Hp. induction Hp as [|m ms ms' Hp IH|m1 m2 ms|ms1 ms2 ms3 Hp1 IH1 Hp2 IH2].
  - done.
  - intros q. rewrite !mapping_env_cons. destruct (decide _); [done|].
    apply IH. by apply NoDup_cons in Hnd as [_ ?].
  - intros q. rewrite !mapping_env_cons.
    destruct (decide (q = FieldMapping.placeholder m1)) as [->|];
      destruct (decide (_ = FieldMapping.placeholder m2)) as [E|]; try done.
    exfalso. cbn in Hnd. apply NoDup_cons in Hnd as [Hnin _].
    apply Hnin. rewrite <-E. apply elem_of_cons. by left.
  - etrans; [by apply IH1|]. apply IH2. by rewrite <-Hp1.
Qed.

Lemma forEach_merge_render rowData mappings segs :
  plain_segments segs → Forall (good_mapping rowData) mappings →
  forEach (merge_mapping rowData) mappings (render2 segs) =
    Ok (render2 (instantiate (mapping_env rowData mappings) segs)).
Proof.
  intros Hsegs Hms. revert segs Hsegs.
  induction Hms as [|m ms Hm Hms IH]; intros segs Hsegs; cbn [forEach mapping_env foldr].
  - by rewrite instantiate_none.
  - rewrite merge_mapping_render by done. cbn [mbind result_bind].
    rewrite IH, instantiate_compose; [done|].
    apply instantiate_plain; [|done]. intros q v. unfold bind1.
    destruct (decide _); [|done]. intros [= <-]. apply Hm.
Qed.

(** ** The errors of a merge *)

Lemma merge_mapping_Err rowData rowData' content content' m e :
  merge_mapping rowData content m = Err e → merge_mapping rowData' content' m = Err e.
Proof. unfold merge_mapping. by destruct (RegExp_of_pattern _ _). Qed.

Lemma merge_mapping_is_ok rowData rowData' content content' m :
  is_ok (merge_mapping rowData content m) = is_ok (merge_mapping rowData' content' m).
Proof. unfold merge_mapping. by destruct (RegExp_of_pattern _ _). Qed.

Lemma forEach_merge_Err rowData rowData' mappings content content' e :
  forEach (merge_mapping rowData) mappings content = Err e →
  forEach (merge_mapping rowData') mappings content' = Err e.
Proof.
  apply forEach_Err_irrelevant; eauto using merge_mapping_Err, merge_mapping_is_ok.
Qed.

Lemma merge_mapping_fuel rowData content m :
  merge_mapping rowData content m ≠ Err OutOfFuel.
Proof.
  unfold merge_mapping, RegExp_of_pattern.
  destruct (parse_pattern _) as [r|e] eqn:E; [done|].
  intros [= ->]. by eapply parse_fuel_enough.
Qed.

(** ** What a merge leaves to extract *)

Lemma hole_bodies_instantiate env segs :
  hole_bodies (instantiate env segs) =
    filter (λ b, env (trim b) = None) (hole_bodies segs).
Proof.
  induction segs as [|[t|b] segs IH]; cbn [instantiate map instantiate_segment hole_bodies];
    [done|apply IH|].
  rewrite filter_cons. destruct (env (trim b)) eqn:E; cbn [hole_bodies].
  - rewrite decide_False by done. apply IH.
  - rewrite decide_True by done. f_equal. apply IH.
Qed.

Lemma extractPlaceholders_instantiate env segs :
  plain_segments segs → (∀ q v, env q = Some v → "{"%char ∉ v) →
  extractPlaceholders (render2 (instantiate env segs)) =
    Set_of_list (trim <$> filter (λ b, env (trim b) = None) (hole_bodies segs)).
Proof.
  intros Hsegs Henv. rewrite ?extractPlaceholders_scan.
  rewrite (holes_render (js "{") (js "}"))
    by by apply plain_segments_wf, instantiate_plain.
  by rewrite hole_bodies_instantiate.
Qed.

Lemma elem_of_extract_instantiate env segs p :
  plain_segments segs → (∀ q v, env q = Some v → "{"%char ∉ v) →
  p ∈ extractPlaceholders (render2 (instantiate env segs)) ↔
  p ∈ extractPlaceholders (render2 segs) ∧ env p = None.
Proof.
  intros Hsegs Henv. rewrite extractPlaceholders_instantiate by done. rewrite ?extractPlaceholders_scan.
  rewrite (holes_render (js "{") (js "}")) by by apply plain_segments_wf.
  rewrite !elem_of_Set_of_list, !list_elem_of_fmap.
  setoid_rewrite list_elem_of_filter. naive_solver.
Qed.

Lemma instantiate_complete rowData mappings segs :
  plain_segments segs → Forall (good_mapping rowData) mappings →
  extractPlaceholders (render2 segs) ⊆ FieldMapping.placeholder <$> mappings →
  extractPlaceholders (render2 (instantiate (mapping_env rowData mappings) segs)) = [].
Proof.
  intros Hsegs Hms Hall. apply elem_of_nil_inv. intros p.
  rewrite elem_of_extract_instantiate by eauto using mapping_env_safe.
  intros [Hp%Hall%(mapping_env_Some rowData) Hn]. rewrite Hn in Hp. by destruct Hp.
Qed.

(** ** The theorems *)

(** C1. On a template that is text and holes, whose holes hold no brace,
    with placeholder names free of pattern syntax and values free of [$] and
    [{], [mergeSingleDocument] succeeds and its result is the template with
    every hole whose trimmed name a mapping binds replaced by the value of
    the first such mapping, and every other hole left as written. *)
Theorem mergeSingleDocument_instantiate template rowData mappings segs :
  Template.content template = render2 segs →
  plain_segments segs →
  Forall (good_mapping rowData) mappings →
  mergeSingleDocument template rowData mappings =
    Ok (render2 (instantiate (mapping_env rowData mappings) segs)).
Proof.
  unfold mergeSingleDocument. intros -> Hsegs Hms. by apply forEach_merge_render.
Qed.

Lemma mergeSingleDocument_instantiate_witness :
  mergeSingleDocument
    (Template.mk [] [] (js "Dear {{ Name }}, you owe {{Amount}}.") [] [] [] None None)
    [(js "name", VStr (js "Ann")); (js "amt", VNum 12)]
    [FieldMapping.mk (js "Name") (js "name"); FieldMapping.mk (js "Amount") (js "amt")] =
  Ok (render2 (instantiate
        (mapping_env [(js "name", VStr (js "Ann")); (js "amt", VNum 12)]
           [FieldMapping.mk (js "Name") (js "name");
            FieldMapping.mk (js "Amount") (js "amt")])
        [Text (js "Dear "); Hole (js " Name "); Text (js ", you owe ");
         Hole (js "Amount"); Text (js ".")])).
Proof.
  apply mergeSingleDocument_instantiate;
    [reflexivity|by apply (bool_decide_unpack _)..].
Defined.

(** Whether [mergeSingleDocument] throws, and what it throws, depends on
    the mappings alone: an error raised for one template and row is raised
    for every template and row. *)
Theorem mergeSingleDocument_error_mappings template template' rowData rowData' mappings e :
  mergeSingleDocument template rowData mappings = Err e →
  mergeSingleDocument template' rowData' mappings = Err e.
Proof. apply forEach_merge_Err. Qed.

Lemma mergeSingleDocument_error_mappings_witness :
  mergeSingleDocument (Template.mk [] [] (js "Hello") [] [] [] None None)
    [(js "n", VStr (js "Ann"))] [FieldMapping.mk (js "f(x") (js "n")] = Err SyntaxError.
Proof.
  apply (mergeSingleDocument_error_mappings
    (Template.mk [] [] (js "{{f(x}}") [] [] [] None None) _ []).
  by vm_compute.
Defined.

(** C22. After a merge within the bounds of the main theorem, the
    placeholders [extractPlaceholders] still finds in the result are exactly
    those of the template that no mapping binds. *)
Theorem merge_leaves_unmapped template rowData mappings segs p :
  Template.content template = render2 segs → plain_segments segs →
  Forall (good_mapping rowData) mappings →
  ∃ content, mergeSingleDocument template rowData mappings = Ok content ∧
    (p ∈ extractPlaceholders content ↔
     p ∈ extractPlaceholders (Template.content template)
     ∧ mapping_env rowData mappings p = None).
Proof.
  intros Hc Hsegs Hms. eexists. split.
  { unfold mergeSingleDocument. rewrite Hc. by apply forEach_merge_render. }
  rewrite Hc. apply elem_of_extract_instantiate; eauto using mapping_env_safe.
Qed.

Lemma merge_leaves_unmapped_witness :
  ∃ content,
    mergeSingleDocument (Template.mk [] [] (js "{{A}} and {{B}}") [] [] [] None None)
      [(js "a", VStr (js "x"))] [FieldMapping.mk (js "A") (js "a")] = Ok content ∧
    (js "B" ∈ extractPlaceholders content ↔
     js "B" ∈ extractPlaceholders (js "{{A}} and {{B}}")
     ∧ mapping_env [(js "a", VStr (js "x"))] [FieldMapping.mk (js "A") (js "a")] (js "B")
       = None).
Proof.
  apply (merge_leaves_unmapped
    (Template.mk [] [] (js "{{A}} and {{B}}") [] [] [] None None)
    [(js "a", VStr (js "x"))] [FieldMapping.mk (js "A") (js "a")]
    [Hole (js "A"); Text (js " and "); Hole (js "B")] (js "B"));
    [reflexivity|by apply (bool_decide_unpack _)..].
Defined.

(** C4. When every placeholder of the template has a mapping, a merge
    within the bounds of the main theorem leaves no placeholder behind. *)
Theorem merge_complete template rowData mappings segs :
  Template.content template = render2 segs → plain_segments segs →
  Forall (good_mapping rowData) mappings →
  extractPlaceholders (Template.content template) ⊆ FieldMapping.placeholder <$> mappings →
  ∃ content, mergeSingleDocument template rowData mappings = Ok content ∧
    extractPlaceholders content = [].
Proof.
  intros Hc Hsegs Hms Hall. eexists. split.
  { unfold mergeSingleDocument. rewrite Hc. by apply forEach_merge_render. }
  rewrite Hc in Hall. by apply instantiate_complete.
Qed.

Lemma merge_complete_witness :
  ∃ content,
    mergeSingleDocument (Template.mk [] [] (js "{{A}} and {{ A }}") [] [] [] None None)
      [(js "a", VStr (js "x"))] [FieldMapping.mk (js "A") (js "a")] = Ok content ∧
    extractPlaceholders content = [].
Proof.
  apply (merge_complete
    (Template.mk [] [] (js "{{A}} and {{ A }}") [] [] [] None None)
    [(js "a", VStr (js "x"))] [FieldMapping.mk (js "A") (js "a")]
    [Hole (js "A"); Text (js " and "); Hole (js " A ")]);
    [reflexivity|by apply (bool_decide_unpack _)..|].
  intros p Hp. vm_compute in Hp. vm_compute.
  apply list_elem_of_singleton in Hp as ->. apply list_elem_of_here.
Defined.


(** ** Outside the bounds *)



(** A placeholder name enters the pattern unescaped: the parentheses of
    the name [Price (USD)] form a group, the pattern does not match the
    placeholder, and the document keeps it. *)
Example merge_name_with_group :
  mergeSingleDocument (Template.mk [] [] (js "{{Price (USD)}}") [] [] [] None None)
    [(js "price", VStr (js "10"))] [FieldMapping.mk (js "Price (USD)") (js "price")] =
  Ok (js "{{Price (USD)}}").
Proof. by vm_compute. Qed.

(** A placeholder name with an alternation bar splits the pattern: for
    the name [a|b] the text [{{a] and the text [b}}] are replaced wherever
    they occur. *)
Example merge_name_with_bar :
  mergeSingleDocument (Template.mk [] [] (js "{{a}} b}}") [] [] [] None None)
    [(js "n", VStr (js "X"))] [FieldMapping.mk (js "a|b") (js "n")] =
  Ok (js "X}} X").
Proof. by vm_compute. Qed.

(** A placeholder name that is no pattern makes [new RegExp] throw: the
    merge of a template with the placeholder [f(x] ends in a SyntaxError. *)
Example merge_name_syntax_error :
  mergeSingleDocument (Template.mk [] [] (js "{{f(x}}") [] [] [] None None)
    [(js "n", VStr (js "X"))] [FieldMapping.mk (js "f(x") (js "n")] =
  Err SyntaxError.
Proof. by vm_compute. Qed.

(** The number zero is falsy: a cell that holds 0 is rendered as the
    empty string, whatever the template and the mapping. *)
Theorem merge_zero_is_empty rowData dataField :
  row_get rowData dataField = Some (VNum 0) → String_of (cell rowData dataField) = [].
Proof. unfold cell. by intros ->. Qed.

Lemma merge_zero_is_empty_witness :
  String_of (cell [(js "count", VNum 0)] (js "count")) = [].
Proof. by apply merge_zero_is_empty. Defined.

(** A field the row does not have is rendered as the empty string. *)
Theorem merge_missing_field template rowData placeholder dataField segs :
  Template.content template = render2 segs → plain_segments segs →
  plain_name placeholder → row_get rowData dataField = None →
  mergeSingleDocument template rowData [FieldMapping.mk placeholder dataField] =
    Ok (render2 (instantiate (bind1 placeholder []) segs)).
Proof.
  intros Hc Hsegs Hp Hget. unfold mergeSingleDocument. rewrite Hc. cbn [forEach].
  assert (String_of (cell rowData dataField) = []) as Hv
    by (unfold cell; by rewrite Hget).
  rewrite merge_mapping_render; cbn [FieldMapping.placeholder FieldMapping.dataField];
    [by rewrite Hv| |done].
  split; [done|]. cbn [FieldMapping.dataField]. rewrite Hv.
  split; apply not_elem_of_nil.
Qed.

Lemma merge_missing_field_witness :
  mergeSingleDocument (Template.mk [] [] (js "Hello {{Name}}") [] [] [] None None) []
    [FieldMapping.mk (js "Name") (js "fullname")] =
  Ok (render2 (instantiate (bind1 (js "Name") []) [Text (js "Hello "); Hole (js "Name")])).
Proof.
  apply merge_missing_field;
    [reflexivity|by apply (bool_decide_unpack _)..|reflexivity].
Defined.

(** C23. Within the bounds of the main theorem, the order of the mappings
    is irrelevant: two lists of mappings with distinct placeholders that
    hold the same mappings give the same document. *)
Theorem merge_order_irrelevant template rowData mappings mappings' segs :
  Template.content template = render2 segs → plain_segments segs →
  Forall (good_mapping rowData) mappings →
  NoDup (FieldMapping.placeholder <$> mappings) → mappings ≡ₚ mappings' →
  mergeSingleDocument template rowData mappings =
    mergeSingleDocument template rowData mappings'.
Proof.
  intros Hc Hsegs Hms Hnd Hp. unfold mergeSingleDocument. rewrite Hc.
  rewrite !forEach_merge_render by (done || by rewrite <-Hp).
  by rewrite (mapping_env_perm rowData _ _ Hnd Hp).
Qed.

Lemma merge_order_irrelevant_witness :
  mergeSingleDocument (Template.mk [] [] (js "{{A}} and {{B}}") [] [] [] None None)
    [(js "a", VStr (js "x")); (js "b", VStr (js "y"))]
    [FieldMapping.mk (js "A") (js "a"); FieldMapping.mk (js "B") (js "b")] =
  mergeSingleDocument (Template.mk [] [] (js "{{A}} and {{B}}") [] [] [] None None)
    [(js "a", VStr (js "x")); (js "b", VStr (js "y"))]
    [FieldMapping.mk (js "B") (js "b"); FieldMapping.mk (js "A") (js "a")].
Proof.
  apply (merge_order_irrelevant _ _ _ _ [Hole (js "A"); Text (js " and "); Hole (js "B")]);
    [reflexivity|by apply (bool_decide_unpack _)..|apply Permutation_swap].
Defined.

(** ** The contract is kept *)

#[export] Instance mergeSingleDocument_contract : MergeContract mergeSingleDocument.
Proof.
  intros template rowData mappings segs Hc Hsegs Hms.
  unfold mergeSingleDocument. rewrite Hc. by apply forEach_merge_render.
Qed.
