(* ===== verification/Batch.v ===== *)
(** * Batch: merging a dataset, and the Word path

    [mergeAllDocuments] of [src/src/lib/templateUtils.ts], and
    [mergeWordDocument], [mergeAllWordDocuments] and [fileToBase64] of
    [src/src/lib/wordDocumentUtils.ts].

    Of the Word path the source holds the value table it hands to the
    document engine and the all-or-nothing batch; the engine itself (loading
    the blob, rendering, generating the bytes) is outside the repository
    and is the argument [engine] of the two functions.

    The theorems say that a batch keeps the rows in order under distinct
    identifiers, that it fails as a whole or not at all, what the value
    table holds, and that on mappings with distinct placeholders the table
    binds every name to the value the plain-text path inserts. *)

From Stdlib Require Import Ascii String NArith ZArith.
From stdpp Require Import base numbers pretty list.
From S2P Require Import Prelude JsString Types Regex Pattern Segments Extract Merge.
#[local] Set Warnings "-clear-no-such-hyp".

(** ** The functions of the sources *)

(** The template literal [`doc-${index}`]. *)
Definition doc_id (index : nat) : jstring := js "doc-" ++ string_of_nat index.

(** The document [mergeAllDocuments] makes of the row at [index]. *)
Definition merged_document (template : Template.t) (mappings : list FieldMapping.t)
    (index : nat) (row : DataRow) : result regexp_error MergedDocument.t :=
  content ← mergeSingleDocument template row mappings;
  Ok (MergedDocument.mk (doc_id index) content row).

(** [mergeAllDocuments(template, dataset, mappings)]: [dataset.map] stops at
    the first row whose callback throws. *)
Definition mergeAllDocuments (template : Template.t) (dataset : list DataRow)
    (mappings : list FieldMapping.t) : result regexp_error (list MergedDocument.t) :=
  all_ok (imap (merged_document template mappings) dataset).

(** The object [data] that [mergeWordDocument] builds for the engine: each
    mapping assigns [data[placeholder] = rowData[dataField] || '']. *)
Definition word_data (rowData : DataRow) (mappings : list FieldMapping.t) : DataRow :=
  foldl (λ data mapping,
           row_set data (FieldMapping.placeholder mapping)
             (cell rowData (FieldMapping.dataField mapping)))
    [] mappings.

(** [mergeWordDocument(templateBlob, rowData, mappings)].  [engine data] is
    what loading the blob, [doc.render(data)] and [generate] give for the
    table [data]: the bytes of the document, or the error thrown. *)
Definition mergeWordDocument {E B} (engine : DataRow → result E B)
    (rowData : DataRow) (mappings : list FieldMapping.t) : result E B :=
  let data := word_data rowData mappings in
  engine data.

(** [mergeAllWordDocuments]: [Promise.all] over the rows; one rejection
    rejects the batch. *)
Definition mergeAllWordDocuments {E B} (engine : DataRow → result E B)
    (dataset : list DataRow) (mappings : list FieldMapping.t) : result E (list B) :=
  all_ok (map (λ row, mergeWordDocument engine row mappings) dataset).

(** [fileToBase64(file)].  [read] is what [reader.readAsDataURL(file)]
    ends in: the data URL in [reader.result], or [reader.error].  The
    promise is fulfilled with [base64.split(',')[1]], which is [undefined]
    for a URL without a comma. *)
Definition fileToBase64 {E} (read : result E jstring) : result E (option jstring) :=
  base64 ← read;
  Ok (split "," base64 !! 1).

(** ** The table as an environment *)

(** What the mappings bind a name to, as a value: the first mapping for the
    name decides. *)
Definition mapping_values (rowData : DataRow) (mappings : list FieldMapping.t) :
    jstring → option value :=
  foldr (λ m, env_cons (FieldMapping.placeholder m)
                (cell rowData (FieldMapping.dataField m)))
    (λ _, None) mappings.

(** ** Lemmas on the batch *)

Lemma doc_id_inj : Inj (=) (=) doc_id.
Proof. intros m n H. apply (inj (app _)) in H. by apply string_of_nat_inj. Qed.

Lemma mergeAllDocuments_lookup template dataset mappings docs :
  mergeAllDocuments template dataset mappings = Ok docs →
  length docs = length dataset ∧
  ∀ index row, dataset !! index = Some row →
    ∃ content, mergeSingleDocument template row mappings = Ok content
      ∧ docs !! index = Some (MergedDocument.mk (doc_id index) content row).
Proof.
  unfold mergeAllDocuments. intros H%all_ok_Ok. split.
  - apply (f_equal length) in H. by rewrite length_imap, length_fmap in H.
  - intros index row Hrow. apply (f_equal (λ l, l !! index)) in H.
    rewrite list_lookup_imap, list_lookup_fmap, Hrow in H. cbn in H.
    unfold merged_document in H.
    destruct (mergeSingleDocument template row mappings) as [content|e]; cbn in H.
    + exists content. split; [done|]. destruct (docs !! index); by simplify_eq/=.
    + by destruct (docs !! index).
Qed.

(** ** Lemmas on the table *)

Lemma mapping_values_cons rowData m ms p :
  mapping_values rowData (m :: ms) p =
    if decide (p = FieldMapping.placeholder m)
    then Some (cell rowData (FieldMapping.dataField m))
    else mapping_values rowData ms p.
Proof. done. Qed.

Lemma mapping_values_app rowData ms1 ms2 p :
  mapping_values rowData (ms1 ++ ms2) p =
    match mapping_values rowData ms1 p with
    | Some v => Some v
    | None => mapping_values rowData ms2 p
    end.
Proof.
  induction ms1 as [|m ms1 IH]; [done|].
  rewrite <-app_comm_cons, !mapping_values_cons. by destruct (decide _).
Qed.

Lemma mapping_values_None rowData ms p :
  p ∉ FieldMapping.placeholder <$> ms → mapping_values rowData ms p = None.
Proof.
  induction ms as [|m ms IH]; [done|]. cbn [fmap list_fmap].
  intros [Hp Hms]%not_elem_of_cons.
  rewrite mapping_values_cons, decide_False by done. by apply IH.
Qed.

Lemma mapping_env_values rowData ms p :
  mapping_env rowData ms p = String_of <$> mapping_values rowData ms p.
Proof.
  induction ms as [|m ms IH]; [done|].
  rewrite mapping_env_cons, mapping_values_cons. by destruct (decide _).
Qed.

Lemma foldl_row_set_get rowData ms data p :
  row_get (foldl (λ data mapping,
             row_set data (FieldMapping.placeholder mapping)
               (cell rowData (FieldMapping.dataField mapping))) data ms) p =
    match mapping_values rowData (reverse ms) p with
    | Some v => Some v
    | None => row_get data p
    end.
Proof.
  revert data. induction ms as [|m ms IH]; intros data; cbn [foldl]; [done|].
  rewrite IH, reverse_cons, mapping_values_app.
  destruct (mapping_values rowData (reverse ms) p); [done|].
  rewrite mapping_values_cons.
  destruct (decide (p = FieldMapping.placeholder m)) as [->|Hne].
  - by rewrite row_get_set_eq.
  - by rewrite row_get_set_ne.
Qed.

Lemma mapping_values_reverse rowData ms p :
  NoDup (FieldMapping.placeholder <$> ms) →
  mapping_values rowData (reverse ms) p = mapping_values rowData ms p.
Proof.
  induction ms as [|m ms IH]; [done|]. cbn [fmap list_fmap].
  intros [Hm Hms]%NoDup_cons. rewrite reverse_cons, mapping_values_app, IH by done.
  rewrite !mapping_values_cons.
  destruct (decide (p = FieldMapping.placeholder m)) as [->|Hne].
  - by rewrite mapping_values_None.
  - by destruct (mapping_values rowData ms p).
Qed.

Lemma foldl_row_set_wf rowData ms data :
  row_wf data →
  row_wf (foldl (λ data mapping,
             row_set data (FieldMapping.placeholder mapping)
               (cell rowData (FieldMapping.dataField mapping))) data ms).
Proof.
  revert data. induction ms as [|m ms IH]; intros data Hd; cbn [foldl]; [done|].
  by apply IH, row_set_wf.
Qed.

(** A batch over any merge function that keeps the contract. *)
Section contract.
Context (merge : Template.t → DataRow → list FieldMapping.t → result regexp_error jstring).
Context `{!MergeContract merge}.

Lemma batch_instantiate template dataset mappings segs :
  Template.content template = render2 segs → plain_segments segs →
  Forall (λ row, Forall (good_mapping row) mappings) dataset →
  all_ok (imap (λ index row,
                  content ← merge template row mappings;
                  Ok (MergedDocument.mk (doc_id index) content row)) dataset) =
    Ok (imap (λ index row,
          MergedDocument.mk (doc_id index)
            (render2 (instantiate (mapping_env row mappings) segs)) row) dataset).
Proof.
  intros Hc Hsegs Hds. apply all_ok_Ok, list_eq. intros i.
  rewrite list_lookup_fmap, !list_lookup_imap.
  destruct (dataset !! i) as [row|] eqn:E; [|done]. cbn.
  by rewrite (merge_instantiates _ _ _ segs Hc Hsegs (Forall_lookup_1 _ _ _ _ Hds E)).
Qed.

End contract.

Lemma mergeAllDocuments_render template dataset mappings segs :
  Template.content template = render2 segs → plain_segments segs →
  Forall (λ row, Forall (good_mapping row) mappings) dataset →
  mergeAllDocuments template dataset mappings =
    Ok (imap (λ index row,
          MergedDocument.mk (doc_id index)
            (render2 (instantiate (mapping_env row mappings) segs)) row) dataset).
Proof. apply (batch_instantiate mergeSingleDocument). Qed.

(** ** The theorems *)

(** C3. Within the bounds of the main theorem of [Merge.v] for every row,
    [mergeAllDocuments] succeeds and returns, for the row at each index, the
    document with identifier [doc-index], the instantiated template as
    content and the row itself, in the order of the dataset. *)
Theorem mergeAllDocuments_instantiate template dataset mappings segs :
  Template.content template = render2 segs → plain_segments segs →
  Forall (λ row, Forall (good_mapping row) mappings) dataset →
  mergeAllDocuments template dataset mappings =
    Ok (imap (λ index row,
          MergedDocument.mk (doc_id index)
            (render2 (instantiate (mapping_env row mappings) segs)) row) dataset).
Proof. apply mergeAllDocuments_render. Qed.

Lemma mergeAllDocuments_instantiate_witness :
  mergeAllDocuments (Template.mk [] [] (js "Hi {{Name}}") [] [] [] None None)
    [[(js "Name", VStr (js "A"))]; [(js "Name", VStr (js "B"))]]
    [FieldMapping.mk (js "Name") (js "Name")] =
  Ok (imap (λ index row,
        MergedDocument.mk (doc_id index)
          (render2 (instantiate
             (mapping_env row [FieldMapping.mk (js "Name") (js "Name")])
             [Text (js "Hi "); Hole (js "Name")])) row)
       [[(js "Name", VStr (js "A"))]; [(js "Name", VStr (js "B"))]]).
Proof.
  apply mergeAllDocuments_instantiate;
    [reflexivity|by apply (bool_decide_unpack _)..].
Defined.

(** The documents of a batch carry pairwise distinct identifiers. *)
Theorem mergeAllDocuments_ids_NoDup template dataset mappings docs :
  mergeAllDocuments template dataset mappings = Ok docs →
  NoDup (MergedDocument.id <$> docs).
Proof.
  intros H. apply NoDup_alt. intros i j x.
  destruct (mergeAllDocuments_lookup _ _ _ _ H) as [Hlen Hl].
  rewrite !list_lookup_fmap. intros Hi Hj.
  destruct (docs !! i) as [di|] eqn:Ei, (docs !! j) as [dj|] eqn:Ej; simplify_eq/=.
  destruct (lookup_lt_is_Some_2 dataset i) as [ri Hri];
    [rewrite <-Hlen; by eapply lookup_lt_Some|].
  destruct (lookup_lt_is_Some_2 dataset j) as [rj Hrj];
    [rewrite <-Hlen; by eapply lookup_lt_Some|].
  destruct (Hl i ri Hri) as (ci & _ & Hdi), (Hl j rj Hrj) as (cj & _ & Hdj).
  simplify_eq/=. by apply string_of_nat_inj.
Qed.

Lemma mergeAllDocuments_ids_NoDup_witness :
  NoDup (MergedDocument.id <$>
    [MergedDocument.mk (doc_id 0) (js "Hi A") [(js "Name", VStr (js "A"))];
     MergedDocument.mk (doc_id 1) (js "Hi B") [(js "Name", VStr (js "B"))]]).
Proof.
  apply (mergeAllDocuments_ids_NoDup
    (Template.mk [] [] (js "Hi {{Name}}") [] [] [] None None)
    [[(js "Name", VStr (js "A"))]; [(js "Name", VStr (js "B"))]]
    [FieldMapping.mk (js "Name") (js "Name")]).
  by vm_compute.
Defined.

(** A batch keeps the association of rows and documents: the rows of
    the documents returned are the rows of the dataset, in order. *)
Theorem mergeAllDocuments_rows template dataset mappings docs :
  mergeAllDocuments template dataset mappings = Ok docs →
  MergedDocument.rowData <$> docs = dataset.
Proof.
  intros H. apply list_eq. intros i.
  destruct (mergeAllDocuments_lookup _ _ _ _ H) as [Hlen Hl].
  rewrite list_lookup_fmap. destruct (dataset !! i) as [row|] eqn:E.
  - by destruct (Hl i row E) as (content & _ & ->).
  - apply lookup_ge_None in E. rewrite (proj2 (lookup_ge_None docs i)) by lia. done.
Qed.

Lemma mergeAllDocuments_rows_witness :
  MergedDocument.rowData <$>
    [MergedDocument.mk (doc_id 0) (js "Hi A") [(js "Name", VStr (js "A"))];
     MergedDocument.mk (doc_id 1) (js "Hi B") [(js "Name", VStr (js "B"))]] =
  [[(js "Name", VStr (js "A"))]; [(js "Name", VStr (js "B"))]].
Proof.
  apply (mergeAllDocuments_rows
    (Template.mk [] [] (js "Hi {{Name}}") [] [] [] None None) _
    [FieldMapping.mk (js "Name") (js "Name")]).
  by vm_compute.
Defined.

(** C24. A batch over a dataset that is not empty fails exactly when the
    merge of its first row fails, and with the same error: no batch is
    partly done. *)
Theorem mergeAllDocuments_error template row dataset mappings e :
  mergeAllDocuments template (row :: dataset) mappings = Err e ↔
  mergeSingleDocument template row mappings = Err e.
Proof.
  unfold mergeAllDocuments. cbn [imap all_ok]. unfold merged_document at 1.
  destruct (mergeSingleDocument template row mappings) as [content|e1] eqn:E; cbn;
    [|split; congruence].
  split; [|done]. intros He.
  assert (is_ok (all_ok (imap (merged_document template mappings ∘ S) dataset)) = true) as Hok.
  { apply all_ok_is_ok, Forall_lookup. intros i r.
    rewrite list_lookup_imap. destruct (dataset !! i) as [row'|]; [|done].
    intros [= <-]. cbn. unfold merged_document.
    destruct (mergeSingleDocument template row' mappings) as [|e'] eqn:E'; [done|].
    apply (forEach_merge_Err _ row _ _ (Template.content template)) in E'.
    unfold mergeSingleDocument in E. congruence. }
  by destruct (all_ok _).
Qed.

(** The table [mergeWordDocument] hands to the engine binds a name to
    the value of the last mapping for it. *)
Theorem word_data_get rowData mappings p :
  row_get (word_data rowData mappings) p = mapping_values rowData (reverse mappings) p.
Proof.
  unfold word_data. rewrite foldl_row_set_get.
  by destruct (mapping_values _ _ _).
Qed.

(** C9. On mappings with distinct placeholders the two paths agree: the
    string form of what the table of the Word path binds a name to is what
    the plain-text path inserts for it. *)
Theorem word_data_agrees rowData mappings p :
  NoDup (FieldMapping.placeholder <$> mappings) →
  String_of <$> row_get (word_data rowData mappings) p = mapping_env rowData mappings p.
Proof.
  intros Hnd. unfold word_data. rewrite foldl_row_set_get, mapping_values_reverse by done.
  rewrite mapping_env_values. by destruct (mapping_values _ _ _).
Qed.

Lemma word_data_agrees_witness :
  String_of <$> row_get
    (word_data [(js "n", VStr (js "Ann")); (js "k", VNum 3)]
       [FieldMapping.mk (js "Name") (js "n"); FieldMapping.mk (js "Count") (js "k")])
    (js "Count") =
  mapping_env [(js "n", VStr (js "Ann")); (js "k", VNum 3)]
    [FieldMapping.mk (js "Name") (js "n"); FieldMapping.mk (js "Count") (js "k")]
    (js "Count").
Proof. apply word_data_agrees. by apply (bool_decide_unpack _). Defined.

(** The table [mergeWordDocument] builds has no key twice. *)
Theorem word_data_wf rowData mappings : row_wf (word_data rowData mappings).
Proof. apply foldl_row_set_wf, NoDup_nil_2. Qed.

(** [mergeAllWordDocuments] succeeds exactly when the engine renders
    every row, and then returns the outputs in the order of the dataset. *)
Theorem mergeAllWordDocuments_Ok {E B} (engine : DataRow → result E B)
    dataset mappings outs :
  mergeAllWordDocuments engine dataset mappings = Ok outs ↔
  Forall2 (λ row out, engine (word_data row mappings) = Ok out) dataset outs.
Proof.
  unfold mergeAllWordDocuments, mergeWordDocument. rewrite all_ok_Ok.
  revert outs. induction dataset as [|row ds IH]; intros [|out outs]; cbn.
  - split; [constructor|done].
  - split; [done|inversion 1].
  - split; [done|inversion 1].
  - rewrite Forall2_cons, <-IH. split; [by intros [= -> ->]|by intros [-> ->]].
Qed.

(** [mergeAllWordDocuments] fails exactly when the engine fails on some
    row, with the error of the first row that fails: one bad row rejects the
    batch, and no output is returned for the rows that rendered. *)
Theorem mergeAllWordDocuments_Err {E B} (engine : DataRow → result E B)
    dataset mappings e :
  mergeAllWordDocuments engine dataset mappings = Err e ↔
  ∃ i row, dataset !! i = Some row ∧ engine (word_data row mappings) = Err e
    ∧ Forall (λ row', is_ok (engine (word_data row' mappings)) = true) (take i dataset).
Proof.
  unfold mergeAllWordDocuments, mergeWordDocument. rewrite all_ok_Err.
  split.
  - intros (i & Hi & Hf). rewrite list_lookup_fmap in Hi.
    destruct (dataset !! i) as [row|] eqn:E'; [|done]. exists i, row.
    split_and!; [done|by simplify_eq/=|].
    rewrite <-fmap_take in Hf. by apply Forall_fmap in Hf.
  - intros (i & row & Hi & He & Hf). exists i. split.
    + by rewrite list_lookup_fmap, Hi; cbn; rewrite He.
    + rewrite <-fmap_take. by apply Forall_fmap.
Qed.

(** [fileToBase64] gives what follows the first comma of the data URL up
    to the next one: the whole payload of a URL [data:<type>;base64,<payload>]
    whose type has no comma, the payload in base 64 having none. *)
Theorem fileToBase64_payload {E} (header payload : jstring) :
  ","%char ∉ header → ","%char ∉ payload →
  fileToBase64 (E:=E) (Ok (header ++ ","%char :: payload)) = Ok (Some payload).
Proof.
  intros Hh Hp. cbn. by rewrite split_app_sep, !split_no_sep.
Qed.

Lemma fileToBase64_payload_witness :
  fileToBase64 (E:=unit) (Ok (js "data:text/plain;base64" ++ ","%char :: js "SGk="))
    = Ok (Some (js "SGk=")).
Proof.
  apply (fileToBase64_payload (js "data:text/plain;base64") (js "SGk="));
    by apply (bool_decide_unpack _).
Defined.

(** A read that fails rejects the promise with the error of the reader,
    and a URL without a comma fulfils it with [undefined]. *)
Theorem fileToBase64_other {E} (e : E) (url : jstring) :
  fileToBase64 (Err e) = Err e
  ∧ (","%char ∉ url → fileToBase64 (E:=E) (Ok url) = Ok None).
Proof. split; [done|]. intros Hu. cbn. by rewrite split_no_sep. Qed.
