(* ===== verification/Export.v ===== *)
(** * Export: paging through the documents and downloading them

    The component [DocumentPreview] of
    [src/src/components/DocumentPreview.tsx].  Its properties are the merged
    documents, the template, the dataset and the mappings; its state is the
    index of the document shown and the flag that a download is running.
    With it [downloadWordDocument] of [src/src/lib/wordDocumentUtils.ts].

    A download is an effect on the browser.  Here a handler returns what it
    did: the file it offered for download, if any, and the notification it
    showed.  Fetching the template file ([getTemplateFile]) and the document
    engine are arguments: [fetch path] is the blob stored under [path], and
    [engine blob data] the bytes the engine renders from a blob and a value
    table, [None] where the call fails.  The archive library is modelled by
    the list of its entries.

    The theorems give the names and contents of what is exported, show that
    the names of the entries of an archive are distinct, that paging stays
    within the documents, and that a download either offers a complete file
    or reports an error. *)

From Stdlib Require Import Ascii String ZArith.
From stdpp Require Import base numbers list.
From S2P Require Import Prelude JsString Types Regex Pattern Segments Extract Merge Batch.
#[local] Set Warnings "-clear-no-such-hyp".

Module DocumentPreview.

(** ** Properties, state and effects *)

Record props : Type := mk_props {
  documents : list MergedDocument.t;
  template : Template.t;
  dataset : list DataRow;
  mappings : list FieldMapping.t
}.

Record state : Type := mk_state {
  currentIndex : Z;
  isGenerating : bool
}.

(** A file offered for download: its name, the type of its blob and its
    content. *)
Record download : Type := mk_download {
  file_name : jstring;
  file_type : jstring;
  file_body : jstring
}.

(** An archive offered for download: its name and its entries. *)
Record archive : Type := mk_archive {
  zip_name : jstring;
  zip_entries : list (jstring * jstring)
}.

#[export] Instance download_eq_dec : EqDecision download.
Proof. solve_decision. Defined.

(** The initial state, [useState(0)] and [useState(false)]. *)
Definition initial : state := mk_state 0 false.

Definition set_generating (b : bool) (s : state) : state := mk_state (currentIndex s) b.

(** [const isWordTemplate = template.isWordTemplate], as a condition. *)
Definition isWordTemplate (p : props) : bool :=
  bool_decide (Template.isWordTemplate (template p) = Some true).

(** ** Paging *)

(** [handlePrevious]: [Math.max(0, prev - 1)]. *)
Definition handlePrevious (s : state) : state :=
  mk_state (Z.max 0 (currentIndex s - 1)) (isGenerating s).

(** [handleNext]: [Math.min(documents.length - 1, prev + 1)]. *)
Definition handleNext (p : props) (s : state) : state :=
  mk_state (Z.min (Z.of_nat (length (documents p)) - 1) (currentIndex s + 1))
    (isGenerating s).

(** ** Names *)

(** [`document-${index + 1}.${ext}`]. *)
Definition document_name (index : nat) (ext : jstring) : jstring :=
  js "document-" ++ string_of_nat (index + 1) ++ js "." ++ ext.

(** [`merged-documents-${Date.now()}.zip`]. *)
Definition archive_name (now : nat) : jstring :=
  js "merged-documents-" ++ string_of_nat now ++ js ".zip".

(** ** Downloads *)

(** [downloadWordDocument(arrayBuffer, filename)] of
    [src/src/lib/wordDocumentUtils.ts]: [saveAs] of a blob of the type of
    Word documents. *)
Definition downloadWordDocument (arrayBuffer filename : jstring) : download :=
  mk_download filename
    (js "application/vnd.openxmlformats-officedocument.wordprocessingml.document")
    arrayBuffer.

Section downloads.
Context (fetch : jstring → option jstring).
Context (engine : jstring → DataRow → option jstring).

(** The template file of a Word template: the two [throw]s at the head of
    both download functions. *)
Definition template_blob (p : props) : option jstring :=
  match Template.wordDocumentData (template p) with
  | Some path => if bool_decide (path = []) then None else fetch path
  | None => None
  end.

(** [mergeWordDocument(templateBlob, dataset[index], mappings)]: reading a
    field of a row that does not exist throws. *)
Definition merge_row (p : props) (blob : jstring) (index : nat) : option jstring :=
  match dataset p !! index with
  | Some rowData => engine blob (word_data rowData (mappings p))
  | None =>
      match mappings p with
      | [] => engine blob []
      | _ :: _ => None
      end
  end.

(** The body of the [try] block of [downloadSingleDocument]: the file
    offered, or [None] when something threw. *)
Definition single_file (p : props) (index : nat) : option download :=
  if isWordTemplate p then
    blob ← template_blob p;
    bytes ← merge_row p blob index;
    Some (downloadWordDocument bytes (document_name index (js "docx")))
  else
    doc ← documents p !! index;
    Some (mk_download (document_name index (js "html")) (js "text/html")
            (MergedDocument.content doc)).

(** [downloadSingleDocument(index)]. *)
Definition downloadSingleDocument (p : props) (index : nat) (s : state) :
    state * option download * toast :=
  let s1 := set_generating true s in
  match single_file p index with
  | Some f =>
      (set_generating false s1, Some f,
       toast_success (if isWordTemplate p then js "Word document downloaded"
                      else js "Document downloaded"))
  | None => (set_generating false s1, None, toast_error (js "Error generating document"))
  end.

(** The entries [zip.file] is called with. *)
Definition zip_files (p : props) : option (list (jstring * jstring)) :=
  if isWordTemplate p then
    blob ← template_blob p;
    allDocuments ← mapM (λ row, engine blob (word_data row (mappings p))) (dataset p);
    Some (imap (λ index arrayBuffer, (document_name index (js "docx"), arrayBuffer))
            allDocuments)
  else
    Some (imap (λ index doc,
                  (document_name index (js "html"), MergedDocument.content doc))
            (documents p)).

(** [downloadAllAsZip()]; [zip_ok] says whether [generateAsync] succeeds. *)
Definition downloadAllAsZip (zip_ok : bool) (now : nat) (p : props) (s : state) :
    state * option archive * toast :=
  let s1 := set_generating true s in
  match zip_files p with
  | Some entries =>
      if zip_ok then
        (set_generating false s1, Some (mk_archive (archive_name now) entries),
         toast_success (js "Downloaded " ++ string_of_nat (length (documents p))
                        ++ js " documents as ZIP"))
      else (set_generating false s1, None, toast_error (js "Error creating ZIP file"))
  | None => (set_generating false s1, None, toast_error (js "Error creating ZIP file"))
  end.

End downloads.

(** [handleEmailDocuments]. *)
Definition handleEmailDocuments : toast :=
  toast_loading
    (js "Email feature coming soon! Connect to Cloud to enable automated emails.").

(** ** The controls of the component *)

Inductive call : Type :=
| onBack.

(** What the user does: the component displays four buttons and nothing
    else.  [zip_ok] and [now] are what the archive library and the clock
    answer at the click. *)
Inductive action : Type :=
| Click_download_this
| Click_download_all (zip_ok : bool) (now : nat)
| Click_email
| Click_back.

(** The two buttons that download are disabled while [isGenerating]. *)
Definition available (s : state) (a : action) : bool :=
  match a with
  | Click_download_this | Click_download_all _ _ => negb (isGenerating s)
  | Click_email | Click_back => true
  end.

(** The label of the first button. *)
Definition download_label (p : props) (s : state) : jstring :=
  if isGenerating s then js "Generating..."
  else js "Download This " ++ (if isWordTemplate p then js "(.docx)" else js "(.html)").

(** What the browser shows for a click: a file, an archive, a
    notification. *)
Inductive shown : Type :=
| File (f : download)
| Archive (a : archive)
| Toast (t : toast).

Section controls.
Context (fetch : jstring → option jstring).
Context (engine : jstring → DataRow → option jstring).

(** A click: the new state, the calls on the page and what the browser
    shows.  The first button downloads the document at [currentIndex]. *)
Definition click (p : props) (a : action) (s : state) : state * list call * list shown :=
  match a with
  | Click_download_this =>
      let '(s', f, t) := downloadSingleDocument fetch engine p (Z.to_nat (currentIndex s)) s in
      (s', [], from_option (λ f, [File f]) [] f ++ [Toast t])
  | Click_download_all zip_ok now =>
      let '(s', z, t) := downloadAllAsZip fetch engine zip_ok now p s in
      (s', [], from_option (λ z, [Archive z]) [] z ++ [Toast t])
  | Click_email => (s, [], [Toast handleEmailDocuments])
  | Click_back => (s, [onBack], [])
  end.

End controls.

(** What a click does to the component and the page, whatever the file
    store and the engine answer: a download raises [isGenerating] and
    lowers it again at its end. *)
Definition act (p : props) (a : action) (s : state) : state * list call :=
  match a with
  | Click_download_this | Click_download_all _ _ =>
      (set_generating false (set_generating true s), [])
  | Click_email => (s, [])
  | Click_back => (s, [onBack])
  end.

(** The states the buttons lead to. *)
Inductive reachable (p : props) : state → Prop :=
| reach_initial : reachable p initial
| reach_act a s : reachable p s → available s a = true → reachable p (act p a s).1.

(** ** Facts about names *)

Lemma document_name_inj ext : Inj (=) (=) (λ index, document_name index ext).
Proof.
  intros i j H. unfold document_name in H.
  apply (inj (app _)), app_inv_tail, string_of_nat_inj in H. lia.
Qed.

Lemma imap_names_NoDup {A} (f : A → jstring) ext (l : list A) :
  NoDup (fst <$> imap (λ index x, (document_name index ext, f x)) l).
Proof.
  apply NoDup_alt. intros i j n. rewrite !list_lookup_fmap, !list_lookup_imap.
  destruct (l !! i), (l !! j); cbn [fmap option_fmap option_map fst]; try done.
  intros [= <-] [= H]. apply app_inv_tail, string_of_nat_inj in H. lia.
Qed.

Lemma mapM_option_length {A B} (f : A → option B) l k :
  mapM f l = Some k → length k = length l.
Proof. by intros H%mapM_Some_1%Forall2_length. Qed.

Section facts.
Context (fetch : jstring → option jstring).
Context (engine : jstring → DataRow → option jstring).

Lemma zip_files_names p entries :
  zip_files fetch engine p = Some entries → NoDup (fst <$> entries).
Proof.
  unfold zip_files. destruct (isWordTemplate p).
  - destruct (template_blob fetch p) as [blob|]; [|done]. cbn.
    destruct (mapM _ _) as [all|]; [|done]. cbn. intros [= <-].
    apply (imap_names_NoDup id).
  - intros [= <-]. apply imap_names_NoDup.
Qed.

(** ** The theorems *)

(** C28. Paging stays within the documents: from an index of a document,
    [handleNext] and [handlePrevious] lead to an index of a document. *)
Theorem paging_in_range p s :
  (0 ≤ currentIndex s < Z.of_nat (length (documents p)))%Z →
  (0 ≤ currentIndex (handleNext p s) < Z.of_nat (length (documents p)))%Z
  ∧ (0 ≤ currentIndex (handlePrevious s) < Z.of_nat (length (documents p)))%Z.
Proof. unfold handleNext, handlePrevious. cbn. lia. Qed.

Lemma paging_in_range_witness :
  (0 ≤ currentIndex (handleNext
        (mk_props [MergedDocument.mk (doc_id 0) [] []; MergedDocument.mk (doc_id 1) [] []]
           (Template.mk [] [] [] [] [] [] None None) [] []) (mk_state 1 false))
     < Z.of_nat (length [MergedDocument.mk (doc_id 0) [] []; MergedDocument.mk (doc_id 1) [] []]))%Z
  ∧ (0 ≤ currentIndex (handlePrevious (mk_state 1 false))
     < Z.of_nat (length [MergedDocument.mk (doc_id 0) [] []; MergedDocument.mk (doc_id 1) [] []]))%Z.
Proof.
  apply (paging_in_range
    (mk_props [MergedDocument.mk (doc_id 0) [] []; MergedDocument.mk (doc_id 1) [] []]
       (Template.mk [] [] [] [] [] [] None None) [] []) (mk_state 1 false)).
  cbn. lia.
Defined.

(** With no documents, [handleNext] leaves the range of indices: the
    index becomes -1. *)
Theorem handleNext_no_documents p s :
  documents p = [] → (0 ≤ currentIndex s)%Z → currentIndex (handleNext p s) = (-1)%Z.
Proof. intros Hd Hi. unfold handleNext. rewrite Hd. cbn. lia. Qed.

Lemma handleNext_no_documents_witness :
  currentIndex (handleNext (mk_props [] (Template.mk [] [] [] [] [] [] None None) [] [])
                  initial) = (-1)%Z.
Proof. by apply handleNext_no_documents. Defined.

(** The export of a plain-text template as an archive succeeds when the
    archive library does, and holds one entry per document, in order: entry
    [i] is named [document-(i+1).html] and holds the content of document
    [i]. *)
Theorem downloadAllAsZip_plain now p s :
  isWordTemplate p = false →
  (downloadAllAsZip fetch engine true now p s).1.2 =
    Some (mk_archive (archive_name now)
            (imap (λ index doc,
                     (document_name index (js "html"), MergedDocument.content doc))
               (documents p))).
Proof. intros Hw. unfold downloadAllAsZip, zip_files. by rewrite Hw. Qed.

(** C8. The entries of an archive carry pairwise distinct names, so no
    document overwrites another. *)
Theorem downloadAllAsZip_names zip_ok now p s a :
  (downloadAllAsZip fetch engine zip_ok now p s).1.2 = Some a →
  NoDup (fst <$> zip_entries a).
Proof.
  unfold downloadAllAsZip. destruct (zip_files fetch engine p) as [entries|] eqn:E; [|done].
  destruct zip_ok; [|done]. intros [= <-]. by eapply zip_files_names.
Qed.

(** C27. The export of a Word template as an archive is all or nothing: an
    archive is offered only when the engine renders every row, and then it
    holds one entry per row of the dataset. *)
Theorem downloadAllAsZip_word zip_ok now p s a :
  isWordTemplate p = true →
  (downloadAllAsZip fetch engine zip_ok now p s).1.2 = Some a →
  ∃ blob, template_blob fetch p = Some blob
    ∧ Forall (λ row, is_Some (engine blob (word_data row (mappings p)))) (dataset p)
    ∧ length (zip_entries a) = length (dataset p).
Proof.
  intros Hw. unfold downloadAllAsZip, zip_files. rewrite Hw.
  destruct (template_blob fetch p) as [blob|]; [|done]. cbn.
  destruct (mapM _ _) as [all|] eqn:E; [|done]. cbn. destruct zip_ok; [|done].
  intros [= <-]. exists blob. split_and!; [done| |].
  - apply (mapM_is_Some_1 (λ row, engine blob (word_data row (mappings p)))).
    by rewrite E.
  - cbn. rewrite length_imap. by eapply mapM_option_length.
Qed.

(** The download of one document of a plain-text template offers the
    file [document-(index+1).html] with the content of that document. *)
Theorem downloadSingleDocument_plain p index s doc :
  isWordTemplate p = false → documents p !! index = Some doc →
  downloadSingleDocument fetch engine p index s =
    (mk_state (currentIndex s) false,
     Some (mk_download (document_name index (js "html")) (js "text/html")
             (MergedDocument.content doc)),
     toast_success (js "Document downloaded")).
Proof.
  intros Hw Hdoc. unfold downloadSingleDocument, single_file. by rewrite Hw, Hdoc.
Qed.

(** The download of one document of a Word template whose file is
    fetched and whose row the engine renders offers the bytes rendered as
    [document-(index+1).docx], in a blob of the type of Word documents. *)
Theorem downloadSingleDocument_word p index s blob rowData bytes :
  isWordTemplate p = true → template_blob fetch p = Some blob →
  dataset p !! index = Some rowData →
  engine blob (word_data rowData (mappings p)) = Some bytes →
  downloadSingleDocument fetch engine p index s =
    (mk_state (currentIndex s) false,
     Some (mk_download (document_name index (js "docx"))
             (js "application/vnd.openxmlformats-officedocument.wordprocessingml.document")
             bytes),
     toast_success (js "Word document downloaded")).
Proof.
  intros Hw Hblob Hrow Hbytes.
  unfold downloadSingleDocument, single_file, merge_row. rewrite Hw, Hblob. cbn.
  by rewrite Hrow, Hbytes.
Qed.

(** A template marked as a Word template whose file path is empty
    cannot be exported: both downloads end with the error notification and
    offer nothing. *)
Theorem download_without_file p index zip_ok now s :
  Template.isWordTemplate (template p) = Some true →
  Template.wordDocumentData (template p) = Some [] →
  (downloadSingleDocument fetch engine p index s).1.2 = None
  ∧ (downloadAllAsZip fetch engine zip_ok now p s).1.2 = None.
Proof.
  intros Hw Hpath.
  unfold downloadSingleDocument, downloadAllAsZip, single_file, zip_files,
    isWordTemplate, template_blob.
  by rewrite Hw, Hpath.
Qed.

(** ** The controls *)

(** [act] is what the handlers do to the state and the page. *)
Lemma click_act p a s : (click fetch engine p a s).1 = act p a s.
Proof.
  destruct a as [|zip_ok now| |]; cbn; try done.
  - unfold downloadSingleDocument. by destruct (single_file _ _ _ _).
  - unfold downloadAllAsZip. by destruct (zip_files _ _ _) as [?|], zip_ok.
Qed.

Lemma preview_click_state p a s : s = initial → (act p a s).1 = initial.
Proof. intros ->. by destruct a. Qed.

Lemma reachable_initial p s : reachable p s → s = initial.
Proof. induction 1 as [|a s _ IH Ha]; [done|by apply preview_click_state]. Qed.

Lemma preview_click_one_call p a s : length (act p a s).2 ≤ 1.
Proof. destruct a; cbn; lia. Qed.

(** The component displays no control that pages: whatever the buttons
    clicked, the index stays at the first document, no download is left
    running, and the first button offers the file of the first document
    or reports an error. *)
Theorem preview_stays_first p s :
  reachable p s →
  currentIndex s = 0%Z ∧ isGenerating s = false
  ∧ (click fetch engine p Click_download_this s).2 =
      match single_file fetch engine p 0 with
      | Some f =>
          [File f; Toast (toast_success (if isWordTemplate p then js "Word document downloaded"
                                         else js "Document downloaded"))]
      | None => [Toast (toast_error (js "Error generating document"))]
      end.
Proof.
  intros ->%reachable_initial. split_and!; [done..|].
  cbn. unfold downloadSingleDocument. by destruct (single_file _ _ _ _).
Qed.

End facts.

Lemma downloadAllAsZip_plain_witness :
  (downloadAllAsZip (λ _, None) (λ _ _, None) true 7
     (mk_props [MergedDocument.mk (doc_id 0) (js "Hi A") []]
        (Template.mk [] [] (js "Hi {{Name}}") [js "Name"] [] [] None None) [[]] [])
     initial).1.2 =
  Some (mk_archive (archive_name 7)
          (imap (λ index doc,
                   (document_name index (js "html"), MergedDocument.content doc))
             [MergedDocument.mk (doc_id 0) (js "Hi A") []])).
Proof. by apply downloadAllAsZip_plain. Defined.

Lemma downloadAllAsZip_names_witness :
  NoDup (fst <$> zip_entries
    (mk_archive (archive_name 7)
       [(document_name 0 (js "html"), js "Hi A"); (document_name 1 (js "html"), js "Hi B")])).
Proof.
  apply (downloadAllAsZip_names (λ _, None) (λ _ _, None) true 7
    (mk_props [MergedDocument.mk (doc_id 0) (js "Hi A") [];
               MergedDocument.mk (doc_id 1) (js "Hi B") []]
       (Template.mk [] [] (js "Hi {{Name}}") [js "Name"] [] [] None None) [] [])
    initial).
  reflexivity.
Defined.

Lemma downloadAllAsZip_word_witness :
  ∃ blob,
    template_blob (λ _, Some (js "PK"))
      (mk_props [] (Template.mk [] [] [] [] [] [] (Some (js "a.docx")) (Some true))
         [[(js "n", VStr (js "Ann"))]] [FieldMapping.mk (js "Name") (js "n")]) = Some blob
    ∧ Forall (λ row, is_Some ((λ _ _, Some (js "bytes")) blob
               (word_data row [FieldMapping.mk (js "Name") (js "n")])))
        [[(js "n", VStr (js "Ann"))]]
    ∧ length (zip_entries (mk_archive (archive_name 7)
               [(document_name 0 (js "docx"), js "bytes")])) =
      length [[(js "n", VStr (js "Ann"))]].
Proof.
  apply (downloadAllAsZip_word (λ _, Some (js "PK")) (λ _ _, Some (js "bytes")) true 7
    (mk_props [] (Template.mk [] [] [] [] [] [] (Some (js "a.docx")) (Some true))
       [[(js "n", VStr (js "Ann"))]] [FieldMapping.mk (js "Name") (js "n")]) initial);
    reflexivity.
Defined.

Lemma downloadSingleDocument_plain_witness :
  downloadSingleDocument (λ _, None) (λ _ _, None)
    (mk_props [MergedDocument.mk (doc_id 0) (js "Hi A") []]
       (Template.mk [] [] (js "Hi {{Name}}") [js "Name"] [] [] None None) [[]] [])
    0 initial =
  (mk_state (currentIndex initial) false,
   Some (mk_download (document_name 0 (js "html")) (js "text/html")
           (MergedDocument.content (MergedDocument.mk (doc_id 0) (js "Hi A") []))),
   toast_success (js "Document downloaded")).
Proof. by apply downloadSingleDocument_plain. Defined.

Lemma download_without_file_witness :
  (downloadSingleDocument (λ _, None) (λ _ _, None)
     (mk_props [] (Template.mk [] [] [] [] [] [] (Some []) (Some true)) [] [])
     0 initial).1.2 = None
  ∧ (downloadAllAsZip (λ _, None) (λ _ _, None) true 7
       (mk_props [] (Template.mk [] [] [] [] [] [] (Some []) (Some true)) [] [])
       initial).1.2 = None.
Proof. by apply download_without_file. Defined.

(** The export scenario of the specification: the template
    [Hi {{Name}}], the rows [Name = A] and [Name = B] and the mapping of
    [Name] to [Name] give an archive with the entries [document-1.html],
    holding [Hi A], and [document-2.html], holding [Hi B]. *)
Example export_scenario :
  (λ docs, zip_entries <$>
     (downloadAllAsZip (λ _, None) (λ _ _, None) true 0
        (mk_props docs (Template.mk [] [] (js "Hi {{Name}}") [js "Name"] [] [] None None)
           [[(js "Name", VStr (js "A"))]; [(js "Name", VStr (js "B"))]]
           [FieldMapping.mk (js "Name") (js "Name")])
        initial).1.2) <$>
    mergeAllDocuments (Template.mk [] [] (js "Hi {{Name}}") [js "Name"] [] [] None None)
      [[(js "Name", VStr (js "A"))]; [(js "Name", VStr (js "B"))]]
      [FieldMapping.mk (js "Name") (js "Name")] =
  Ok (Some [(js "document-1.html", js "Hi A"); (js "document-2.html", js "Hi B")]).
Proof. by vm_compute. Qed.

End DocumentPreview.
