(* ===== verification/Forms.v ===== *)
(** * Forms: the components that collect a template and its data

    Four components of [src/src/components], each in a module of its name,
    with its React state as a record and one definition per handler:

    - [TemplateEditor] ([TemplateEditor.tsx]): the editor of a plain-text
      template, which keeps the detected placeholders beside the content;
    - [WordTemplateUploader] ([WordTemplateUploader.tsx]): the upload of a
      Word document as a template;
    - [DatasetUploader] ([DatasetUploader.tsx]): the upload of a dataset;
    - [ManualFormFiller] ([ManualFormFiller.tsx]): the form that asks a
      value for each placeholder and keeps a draft in [localStorage].

    A handler is a function from the state before to the state after,
    together with what it hands to its callbacks and the notification it
    raises.  An asynchronous handler is modelled by its outcome: the state
    after its last [await], with the result of the awaited call as an
    argument.  Calls into libraries ([Papa.parse], [docxtemplater], the
    [FileReader]) are arguments of the handlers. *)

From Stdlib Require Import Ascii String ZArith.
From stdpp Require Import base numbers list.
From S2P Require Import Prelude JsString Types Regex Pattern Segments Extract Store.
#[local] Set Warnings "-clear-no-such-hyp".

(** ** Built-ins the components call *)

(** A pattern literal [/pattern/]. *)
Definition regex_literal (pattern : string) : regex :=
  match parse_pattern (js pattern) with
  | Ok r => r
  | Err _ => REmpty
  end.

(** [s.match(re)] for a pattern with the flag [i] whose letters are written
    in lower case: the match is found in the text with its ASCII letters in
    lower case. *)
Definition match_i (r : regex) (s : jstring) : option MatchResult :=
  (exec (RegExp_new r false) (toLowerCase s)).1.

(** [s.replace(re, '')] for such a pattern without the flag [g]: the first
    match is cut out. *)
Definition remove_match_i (r : regex) (s : jstring) : jstring :=
  match match_i r s with
  | Some m => take (m_index m) s ++ drop (m_end m) s
  | None => s
  end.

(** * TemplateEditor *)

Module TemplateEditor.

Record state : Type := mk_state {
  name : jstring;
  content : jstring;
  detectedPlaceholders : list jstring
}.

(** The three [useState] calls: the fields of the template edited, or
    empty values for a new template. *)
Definition initial (template : option Template.t) : state :=
  mk_state (str_or (from_option Template.name [] template) [])
    (str_or (from_option Template.content [] template) [])
    (from_option Template.placeholders [] template).

Definition setName (value : jstring) (s : state) : state :=
  mk_state value (content s) (detectedPlaceholders s).

(** [handleContentChange]. *)
Definition handleContentChange (value : jstring) (s : state) : state :=
  let placeholders := extractPlaceholders value in
  mk_state (name s) value placeholders.

(** [handleSave]: the template handed to [onSave].  [uuid] is what
    [crypto.randomUUID()] returns and [now] the time stamp. *)
Definition handleSave (uuid now : jstring) (template : option Template.t) (s : state) :
    Template.t :=
  Template.mk (str_or (from_option Template.id [] template) uuid)
    (name s) (content s) (detectedPlaceholders s)
    (str_or (from_option Template.createdAt [] template) now) now None None.

(** [insertPlaceholder].  [textarea] is the selection of the text area the
    document holds, if it holds one. *)
Definition insertPlaceholder (textarea : option (nat * nat)) (placeholder : jstring)
    (s : state) : state :=
  match textarea with
  | Some (start, end_) =>
      let newContent :=
        take start (content s) ++ (js "{{" ++ placeholder ++ js "}}")
          ++ drop end_ (content s) in
      handleContentChange newContent s
  | None => s
  end.

(** The names of the quick-insert buttons. *)
Definition quick_insert : list jstring :=
  [js "Name"; js "Email"; js "Date"; js "CompanyName"; js "Phone"].

(** The list of detected placeholders is displayed. *)
Definition shows_detected (s : state) : bool := 0 <? length (detectedPlaceholders s).

(** The save button is disabled. *)
Definition save_disabled (s : state) : bool := blank (name s) || blank (content s).

(** The states the editor of [template] reaches. *)
Inductive reachable (template : option Template.t) : state → Prop :=
| reach_initial : reachable template (initial template)
| reach_name s value : reachable template s → reachable template (setName value s)
| reach_content s value :
    reachable template s → reachable template (handleContentChange value s)
| reach_insert s textarea placeholder :
    reachable template s → placeholder ∈ quick_insert →
    reachable template (insertPlaceholder textarea placeholder s).

(** The placeholders are those of the content, or the content is still the
    one the editor opened with. *)
Definition derived (template : option Template.t) (s : state) : Prop :=
  detectedPlaceholders s = extractPlaceholders (content s)
  ∨ content s = content (initial template).

(** ** The controls of the editor *)

(** What the editor calls on the page. *)
Inductive call : Type :=
| onSave (template : Template.t)
| onCancel.

(** What the user does: typing in the two fields, a click on a
    quick-insert button while the text area has the selection [textarea],
    and the two buttons at the bottom.  [uuid] and [now] are what
    [crypto.randomUUID()] and the clock return at the click. *)
Inductive action : Type :=
| Type_name (value : jstring)
| Type_content (value : jstring)
| Click_insert (placeholder : jstring) (textarea : option (nat * nat))
| Click_save (uuid now : jstring)
| Click_cancel.

Definition available (s : state) (a : action) : bool :=
  match a with
  | Click_insert placeholder _ => bool_decide (placeholder ∈ quick_insert)
  | Click_save _ _ => negb (save_disabled s)
  | _ => true
  end.

Definition act (template : option Template.t) (a : action) (s : state) : state * list call :=
  match a with
  | Type_name value => (setName value s, [])
  | Type_content value => (handleContentChange value s, [])
  | Click_insert placeholder textarea => (insertPlaceholder textarea placeholder s, [])
  | Click_save uuid now => (s, [onSave (handleSave uuid now template s)])
  | Click_cancel => (s, [onCancel])
  end.

End TemplateEditor.

(** * WordTemplateUploader *)

Module WordTemplateUploader.

Record state : Type := mk_state {
  templateName : jstring;
  file : option Store.File;
  placeholders : list jstring;
  isProcessing : bool;
  isDragging : bool
}.

Definition initial : state := mk_state [] None [] false false.

(** The pattern [/\.docx?$/i]. *)
Definition re_word : regex := regex_literal "\.docx?$".

Definition is_word_name (file_name : jstring) : bool :=
  bool_decide (is_Some (match_i re_word file_name)).

Definition setTemplateName (value : jstring) (s : state) : state :=
  mk_state value (file s) (placeholders s) (isProcessing s) (isDragging s).

Definition setIsDragging (b : bool) (s : state) : state :=
  mk_state (templateName s) (file s) (placeholders s) (isProcessing s) b.

Section handlers.
Context {E : Type}.
(** What [PizZip] and [docxtemplater] make of a file: its text, or the
    error thrown. *)
Context (fullText : Store.File → result E jstring).

(** [handleFile], from the guard to the [finally] block. *)
Definition handleFile (selectedFile : Store.File) (s : state) : state * toast :=
  if negb (is_word_name (Store.file_name selectedFile)) then
    (s, toast_error (js "Please upload a Word document (.docx)"))
  else
    let templateName' :=
      if bool_decide (templateName s = [])
      then remove_match_i re_word (Store.file_name selectedFile)
      else templateName s in
    match extractPlaceholdersFromWord (fullText selectedFile) with
    | Ok extractedPlaceholders =>
        (mk_state templateName' (Some selectedFile) extractedPlaceholders false
           (isDragging s),
         toast_success (js "Found " ++ string_of_nat (length extractedPlaceholders)
                          ++ js " placeholders in document"))
    | Err _ =>
        (mk_state templateName' (Some selectedFile) (placeholders s) false (isDragging s),
         toast_error
           (js "Error reading Word document. Make sure placeholders use {FieldName} format."))
    end.

(** [handleDrop]: [droppedFile] is [e.dataTransfer.files[0]]. *)
Definition handleDrop (droppedFile : option Store.File) (s : state) :
    state * option toast :=
  let s1 := setIsDragging false s in
  match droppedFile with
  | Some f => let '(s2, t) := handleFile f s1 in (s2, Some t)
  | None => (s1, None)
  end.

(** [handleFileInput]: [selectedFile] is [e.target.files?.[0]]. *)
Definition handleFileInput (selectedFile : option Store.File) (s : state) :
    state * option toast :=
  match selectedFile with
  | Some f => let '(s2, t) := handleFile f s in (s2, Some t)
  | None => (s, None)
  end.

End handlers.

(** [handleSave]: the template and the file handed to [onSave], if any, and
    the notification.  [onSave] is not awaited: the notification of success
    does not depend on what the save does. *)
Definition handleSave (uuid now : jstring) (s : state) :
    state * option (Template.t * Store.File) * toast :=
  match file s with
  | Some f =>
      if blank (templateName s) then
        (s, None, toast_error (js "Please provide a template name and upload a document"))
      else
        let template :=
          Template.mk uuid (trim (templateName s)) [] (placeholders s) now now
            (Some []) (Some true) in
        (mk_state (templateName s) (file s) (placeholders s) false (isDragging s),
         Some (template, f), toast_success (js "Word template saved successfully"))
  | None => (s, None, toast_error (js "Please provide a template name and upload a document"))
  end.

(** [clearFile]. *)
Definition clearFile (s : state) : state :=
  mk_state (templateName s) None [] (isProcessing s) (isDragging s).

(** The save button is disabled. *)
Definition save_disabled (s : state) : bool :=
  bool_decide (file s = None) || blank (templateName s) || isProcessing s.

(** The states the component reaches. *)
Inductive reachable {E} (fullText : Store.File → result E jstring) : state → Prop :=
| reach_initial : reachable fullText initial
| reach_name s value : reachable fullText s → reachable fullText (setTemplateName value s)
| reach_drag s b : reachable fullText s → reachable fullText (setIsDragging b s)
| reach_file s f : reachable fullText s → reachable fullText (handleFile fullText f s).1
| reach_save s uuid now : reachable fullText s → reachable fullText (handleSave uuid now s).1.1
| reach_clear s : reachable fullText s → reachable fullText (clearFile s).

(** The file held has the name of a Word document, and without a file
    there are no placeholders. *)
Definition file_inv (s : state) : Prop :=
  match file s with
  | Some f => is_word_name (Store.file_name f) = true
  | None => placeholders s = []
  end.

(** ** The controls of the uploader *)

Inductive call : Type :=
| onSave (template : Template.t) (file : Store.File)
| onCancel.

(** What the user does.  A drop and a choice in the file dialog come with
    the files of the event, and [text] is what the libraries make of the
    first of them.  The drop zone is displayed while no file is held, the
    button that clears while one is. *)
Inductive action : Type :=
| Type_name (value : jstring)
| Drag_over
| Drag_leave
| Drop (droppedFile : option Store.File) (text : result jstring jstring)
| Choose (selectedFile : option Store.File) (text : result jstring jstring)
| Click_clear
| Click_save (uuid now : jstring)
| Click_cancel.

Definition available (s : state) (a : action) : bool :=
  match a with
  | Drag_over | Drag_leave | Drop _ _ | Choose _ _ => bool_decide (file s = None)
  | Click_clear => negb (bool_decide (file s = None))
  | Click_save _ _ => negb (save_disabled s)
  | Type_name _ | Click_cancel => true
  end.

Definition act (a : action) (s : state) : state * list call :=
  match a with
  | Type_name value => (setTemplateName value s, [])
  | Drag_over => (setIsDragging true s, [])
  | Drag_leave => (setIsDragging false s, [])
  | Drop droppedFile text => ((handleDrop (λ _, text) droppedFile s).1, [])
  | Choose selectedFile text => ((handleFileInput (λ _, text) selectedFile s).1, [])
  | Click_clear => (clearFile s, [])
  | Click_save uuid now =>
      let '(s', saved, _) := handleSave uuid now s in
      (s', from_option (λ '(template, f), [onSave template f]) [] saved)
  | Click_cancel => (s, [onCancel])
  end.

(** The box of detected placeholders: whether it is displayed, its
    heading and the label of a placeholder in it. *)
Definition shows_placeholders (s : state) : bool :=
  negb (bool_decide (file s = None)) && (0 <? length (placeholders s)).

Definition detected_line (s : state) : jstring :=
  js "Detected " ++ string_of_nat (length (placeholders s)) ++ js " placeholders:".

Definition chip (placeholder : jstring) : jstring := js "{" ++ placeholder ++ js "}".

End WordTemplateUploader.

(** * DatasetUploader *)

Module DatasetUploader.

Record state : Type := mk_state {
  isDragging : bool;
  fileName : option jstring;
  previewData : list DataRow
}.

Definition initial : state := mk_state false None [].

(** The pattern [/\.(csv|xlsx|xls)$/i]. *)
Definition re_dataset : regex := regex_literal "\.(csv|xlsx|xls)$".

Definition is_dataset_name (file_name : jstring) : bool :=
  bool_decide (is_Some (match_i re_dataset file_name)).

(** What a handler hands to [onDataLoaded]. *)
Definition loaded : Type := (list DataRow * list jstring)%type.

Section handlers.
(** What [Papa.parse] makes of a file: the rows it passes to [complete], or
    the message it passes to [error]. *)
Context (parse : Store.File → result jstring (list DataRow)).
(** Whether the [FileReader] loads the file. *)
Context (loads : Store.File → bool).

(** [handleFile]. *)
Definition handleFile (file : Store.File) (s : state) :
    state * option loaded * option toast :=
  if negb (is_dataset_name (Store.file_name file)) then
    (s, None, Some (toast_error (js "Please upload a CSV or Excel file")))
  else
    let s1 := mk_state (isDragging s) (Some (Store.file_name file)) (previewData s) in
    if endsWith (Store.file_name file) (js ".csv") then
      match parse file with
      | Ok data =>
          let headers := row_keys (default [] (head data)) in
          if length data =? 0 then
            (s1, None, Some (toast_error (js "The CSV file appears to be empty")))
          else
            (mk_state (isDragging s1) (fileName s1) (take 5 data),
             Some (data, headers),
             Some (toast_success (js "Loaded " ++ string_of_nat (length data)
                                    ++ js " rows from " ++ Store.file_name file)))
      | Err message =>
          (s1, None, Some (toast_error (js "Error parsing CSV: " ++ message)))
      end
    else
      (s1, None,
       if loads file
       then Some (toast_loading (js "Excel support: Please convert to CSV for now"))
       else None).

(** [handleDrop] and [handleFileInput]. *)
Definition handleDrop (file : option Store.File) (s : state) :
    state * option loaded * option toast :=
  let s1 := mk_state false (fileName s) (previewData s) in
  match file with
  | Some f => handleFile f s1
  | None => (s1, None, None)
  end.

Definition handleFileInput (file : option Store.File) (s : state) :
    state * option loaded * option toast :=
  match file with
  | Some f => handleFile f s
  | None => (s, None, None)
  end.

End handlers.

(** [clearData]. *)
Definition clearData (s : state) : state * loaded :=
  (mk_state (isDragging s) None [], ([], [])).

(** ** The controls of the uploader *)

Inductive call : Type :=
| onDataLoaded (data : list DataRow) (headers : list jstring).

(** What the user does.  [parsed] is what [Papa.parse] makes of the first
    file of the event and [loads] whether the [FileReader] loads it. *)
Inductive action : Type :=
| Drag_over
| Drag_leave
| Drop (file : option Store.File) (parsed : result jstring (list DataRow)) (loads : bool)
| Choose (file : option Store.File) (parsed : result jstring (list DataRow)) (loads : bool)
| Click_clear.

(** [!fileName]: no name, or the empty name. *)
Definition no_file (s : state) : bool :=
  match fileName s with
  | Some name => bool_decide (name = [])
  | None => true
  end.

Definition available (s : state) (a : action) : bool :=
  match a with
  | Click_clear => negb (no_file s)
  | _ => no_file s
  end.

Definition calls (out : option loaded) : list call :=
  from_option (λ '(data, headers), [onDataLoaded data headers]) [] out.

Definition act (a : action) (s : state) : state * list call :=
  match a with
  | Drag_over => (mk_state true (fileName s) (previewData s), [])
  | Drag_leave => (mk_state false (fileName s) (previewData s), [])
  | Drop file parsed loads =>
      let '(s', out, _) := handleDrop (λ _, parsed) (λ _, loads) file s in (s', calls out)
  | Choose file parsed loads =>
      let '(s', out, _) := handleFileInput (λ _, parsed) (λ _, loads) file s in
      (s', calls out)
  | Click_clear => let '(s', out) := clearData s in (s', calls (Some out))
  end.

(** What every state of the uploader satisfies: the preview holds at
    most five rows, and none while the drop zone is displayed. *)
Definition preview_inv (s : state) : Prop :=
  length (previewData s) ≤ 5 ∧ (no_file s = true → previewData s = []).

(** ** The preview table *)

(** The line under the file name: [`${previewData.length} rows loaded`]. *)
Definition rows_line (s : state) : jstring :=
  string_of_nat (length (previewData s)) ++ js " rows loaded".

(** The table is displayed. *)
Definition shows_table (s : state) : bool := 0 <? length (previewData s).

(** The head of the table: [Object.keys(previewData[0])]. *)
Definition table_head (s : state) : list jstring :=
  row_keys (default [] (head (previewData s))).

(** The body: for each row, [Object.values(row).map(String)]. *)
Definition table_body (s : state) : list (list jstring) :=
  map (λ row, map (λ kv, String_of kv.2) row) (previewData s).

End DatasetUploader.

(** * ManualFormFiller *)

Module ManualFormFiller.

(** The item [docmerge_manual_form_data] of [localStorage]: absent (or the
    empty text), a text [JSON.parse] rejects, or the row a text stands
    for. *)
Inductive stored : Type :=
| NoItem
| Corrupt
| Saved (row : DataRow).

Record state : Type := mk_state {
  formData : DataRow;
  localStorage : stored
}.

(** [placeholders.reduce((acc, p) => { acc[p] = ""; return acc }, {})]. *)
Definition empty_form (placeholders : list jstring) : DataRow :=
  foldl (λ acc placeholder, row_set acc placeholder (VStr [])) [] placeholders.

(** The initialiser of [formData]. *)
Definition init_form (placeholders : list jstring) (saved : stored) : DataRow :=
  match saved with
  | Saved row => row
  | Corrupt => empty_form placeholders
  | NoItem => empty_form placeholders
  end.

(** The effect that follows a change of [formData]. *)
Definition persist (formData : DataRow) : state := mk_state formData (Saved formData).

(** The component after its first render and effect. *)
Definition initial (placeholders : list jstring) (saved : stored) : state :=
  persist (init_form placeholders saved).

(** [handleInputChange], with the effect that follows. *)
Definition handleInputChange (placeholder value : jstring) (s : state) : state :=
  persist (row_set (formData s) placeholder (VStr value)).

(** [placeholders.filter(p => !formData[p])]. *)
Definition emptyFields (placeholders : list jstring) (formData : DataRow) : list jstring :=
  List.filter (λ p, negb (truthy (row_get formData p))) placeholders.

(** [handleSubmit]: the row handed to [onComplete], or the notification. *)
Definition handleSubmit (placeholders : list jstring) (s : state) :
    state * (DataRow + toast) :=
  let emptyFields := emptyFields placeholders (formData s) in
  if 0 <? length emptyFields then
    (s, inr (toast_error (js "Please fill in all fields: " ++ join (js ", ") emptyFields)))
  else
    (mk_state (formData s) NoItem, inl (formData s)).

(** [isComplete]. *)
Definition isComplete (placeholders : list jstring) (s : state) : bool :=
  forallb (λ p, truthy (row_get (formData s) p)) placeholders.

(** The number of fields displayed as filled. *)
Definition filled (placeholders : list jstring) (s : state) : nat :=
  length (List.filter (λ p, truthy (row_get (formData s) p)) placeholders).

(** The states the form of [placeholders] reaches from the draft
    [saved]. *)
Inductive reachable (placeholders : list jstring) (saved : stored) : state → Prop :=
| reach_initial : reachable placeholders saved (initial placeholders saved)
| reach_input s placeholder value :
    reachable placeholders saved s → placeholder ∈ placeholders →
    reachable placeholders saved (handleInputChange placeholder value s)
| reach_submit s :
    reachable placeholders saved s →
    reachable placeholders saved (handleSubmit placeholders s).1.

(** ** The controls of the form *)

Inductive call : Type :=
| onComplete (data : DataRow)
| onBack.

(** What the user does: typing in the field of a placeholder, submitting
    the form, and the button that goes back. *)
Inductive action : Type :=
| Type_field (placeholder value : jstring)
| Submit
| Click_back.

(** The form has a field for each placeholder, and its button is
    disabled until [isComplete]. *)
Definition available (placeholders : list jstring) (s : state) (a : action) : bool :=
  match a with
  | Type_field placeholder _ => bool_decide (placeholder ∈ placeholders)
  | Submit => isComplete placeholders s
  | Click_back => true
  end.

Definition act (placeholders : list jstring) (a : action) (s : state) : state * list call :=
  match a with
  | Type_field placeholder value => (handleInputChange placeholder value s, [])
  | Submit =>
      let '(s', out) := handleSubmit placeholders s in
      (s', match out with inl data => [onComplete data] | inr _ => [] end)
  | Click_back => (s, [onBack])
  end.

(** What each field displays: its label, the value the input is given
    ([formData[placeholder]]; an input given [undefined] keeps what was
    typed into it), and whether the check mark stands beside the label. *)
Definition field_label (placeholder : jstring) : jstring :=
  js "{" ++ placeholder ++ js "}".

Definition field_value (s : state) (placeholder : jstring) : option value :=
  row_get (formData s) placeholder.

Definition field_checked (s : state) (placeholder : jstring) : bool :=
  truthy (row_get (formData s) placeholder).

End ManualFormFiller.
(** ** The editor *)

Section editor_facts.
Import TemplateEditor.

Lemma reachable_derived template s : reachable template s → derived template s.
Proof.
  induction 1 as [|s value _ IH|s value _ _|s [[start end_]|] placeholder _ IH _].
  - by right.
  - done.
  - by left.
  - by left.
  - done.
Qed.

Lemma initial_content_nil template :
  from_option Template.content [] template = [] → content (initial template) = [].
Proof. unfold initial. cbn. intros ->. done. Qed.

Lemma save_enabled_content s : save_disabled s = false → content s ≠ [].
Proof.
  unfold save_disabled. intros [_ H]%orb_false_iff. by apply blank_false_ne.
Qed.

(** C36. The editor of a new template, or of a template whose content is
    empty as every stored template's is, saves placeholders that are
    exactly those [extractPlaceholders] finds in the content saved, whatever
    was typed and inserted before. *)
Theorem saved_placeholders_derived template s uuid now :
  from_option Template.content [] template = [] →
  reachable template s → save_disabled s = false →
  Template.placeholders (handleSave uuid now template s) =
    extractPlaceholders (Template.content (handleSave uuid now template s)).
Proof.
  intros H0 Hr Hs. cbn.
  destruct (reachable_derived _ _ Hr) as [->|Hc]; [done|].
  rewrite (initial_content_nil _ H0) in Hc. by apply save_enabled_content in Hs.
Qed.

(** A quick-insert at a cursor between two segments of a well-formed
    content adds the hole there, and the placeholders detected afterwards
    are the trimmed holes of the new content. *)
Theorem insertPlaceholder_detected segs1 segs2 placeholder s :
  content s = render (js "{{") (js "}}") (segs1 ++ segs2) →
  wf_segments segs1 → wf_segments segs2 →
  placeholder ≠ [] → "}"%char ∉ placeholder →
  let cursor := length (render (js "{{") (js "}}") segs1) in
  detectedPlaceholders (insertPlaceholder (Some (cursor, cursor)) placeholder s) =
    Set_of_list (trim <$> hole_bodies (segs1 ++ Hole placeholder :: segs2)).
Proof.
  intros Hc H1 H2 Hne Hcl cursor. subst cursor.
  unfold insertPlaceholder, handleContentChange. cbn [detectedPlaceholders].
  rewrite Hc, render_app, take_app_length, drop_app_length.
  change (render (js "{{") (js "}}") segs1 ++ (js "{{" ++ placeholder ++ js "}}")
            ++ render (js "{{") (js "}}") segs2)
    with (render (js "{{") (js "}}") segs1
            ++ render (js "{{") (js "}}") (Hole placeholder :: segs2)).
  rewrite <- render_app. rewrite ?extractPlaceholders_scan.
  rewrite (holes_render (js "{") (js "}")); [done|].
  apply Forall_app. split; [done|]. by constructor.
Qed.

(** Editing a stored template opens the editor with an empty content,
    the stored placeholders and the save button disabled: the content of a
    template does not survive its save. *)
Theorem edit_opens_blank r :
  content (initial (Some (Store.template_of_row r))) = []
  ∧ save_disabled (initial (Some (Store.template_of_row r))) = true
  ∧ detectedPlaceholders (initial (Some (Store.template_of_row r))) = Store.placeholders r.
Proof.
  split_and!; [done| |done]. unfold save_disabled. apply orb_true_r.
Qed.

(** Saving an edited template keeps its identifier and its creation stamp; a
    new template takes the fresh identifier. *)
Theorem handleSave_identity template s uuid now :
  Template.id template ≠ [] → Template.createdAt template ≠ [] →
  Template.id (handleSave uuid now (Some template) s) = Template.id template
  ∧ Template.createdAt (handleSave uuid now (Some template) s) = Template.createdAt template
  ∧ Template.id (handleSave uuid now None s) = uuid.
Proof.
  intros H1 H2. cbn. unfold str_or. by rewrite !bool_decide_eq_false_2.
Qed.

Lemma editor_act_reachable template a s :
  reachable template s → available s a = true → reachable template (act template a s).1.
Proof.
  intros Hr Ha. destruct a; cbn in *; try done; try by constructor.
  apply reach_insert; [done|by apply bool_decide_eq_true in Ha].
Qed.

Lemma editor_act_one_call template a s : length (act template a s).2 ≤ 1.
Proof. destruct a; cbn; lia. Qed.

(** The button that saves, when enabled, hands to the page a template
    with the name and the content on display, neither of them blank, that
    is not marked as a Word template; no other control of the editor
    saves. *)
Theorem click_save_hands template a s t :
  available s a = true → onSave t ∈ (act template a s).2 →
  (∃ uuid now, a = Click_save uuid now ∧ t = handleSave uuid now template s)
  ∧ Template.name t = name s ∧ Template.content t = content s
  ∧ blank (name s) = false ∧ blank (content s) = false
  ∧ Template.isWordTemplate t = None.
Proof.
  destruct a as [| | |uuid now|]; cbn;
    try (by intros _ ?%elem_of_nil); [|by intros _ ?%list_elem_of_singleton].
  unfold save_disabled. intros [Hn Hc]%negb_true_iff%orb_false_iff [= ->]%list_elem_of_singleton.
  split_and!; try done. by exists uuid, now.
Qed.

End editor_facts.

Section word_facts.
Import WordTemplateUploader.
Context {E : Type} (fullText : Store.File → result E jstring).

Lemma handleFile_file_inv f s : file_inv s → file_inv (handleFile fullText f s).1.
Proof.
  unfold handleFile, file_inv. intros Hs.
  destruct (is_word_name (Store.file_name f)) eqn:Hn; cbn [negb]; [|done].
  by destruct (extractPlaceholdersFromWord (fullText f)).
Qed.

Lemma handleSave_file_inv uuid now s : file_inv s → file_inv (handleSave uuid now s).1.1.
Proof.
  unfold handleSave, file_inv. intros Hs.
  destruct (file s) as [f|] eqn:Hf; [destruct (blank (templateName s))|];
    cbn [fst file]; by rewrite ?Hf.
Qed.

Lemma reachable_file_inv s : reachable fullText s → file_inv s.
Proof.
  induction 1 as [| | | | |]; try done.
  - by apply handleFile_file_inv.
  - by apply handleSave_file_inv.
Qed.

Lemma handleSave_Some uuid now s t f :
  (handleSave uuid now s).1.2 = Some (t, f) →
  file s = Some f ∧ blank (templateName s) = false
  ∧ t = Template.mk uuid (trim (templateName s)) [] (placeholders s) now now
          (Some []) (Some true).
Proof.
  unfold handleSave. destruct (file s) as [f'|]; [|done].
  destruct (blank (templateName s)); [done|]. by intros [= <- <-].
Qed.

(** Whatever the uploader hands to [onSave] is a file with the name of a
    Word document and a template marked as a Word template, whose name is
    trimmed and not empty and whose placeholders are those displayed. *)
Theorem handleSave_hands_word_file uuid now s t f :
  reachable fullText s → (handleSave uuid now s).1.2 = Some (t, f) →
  is_word_name (Store.file_name f) = true
  ∧ Template.name t ≠ [] ∧ no_space_ends (Template.name t)
  ∧ Template.isWordTemplate t = Some true ∧ Template.placeholders t = placeholders s.
Proof.
  intros Hr (Hf & Hb & ->)%handleSave_Some. apply reachable_file_inv in Hr.
  unfold file_inv in Hr. rewrite Hf in Hr. cbn.
  split_and!; [done|by apply blank_false_trim|apply trim_no_space_ends|done|done].
Qed.

(** A file whose name does not end in [.doc] or [.docx] changes nothing and
    raises the error notification. *)
Theorem handleFile_rejects f s :
  is_word_name (Store.file_name f) = false →
  handleFile fullText f s = (s, toast_error (js "Please upload a Word document (.docx)")).
Proof. unfold handleFile. by intros ->. Qed.

(** C40. When the text of a second file cannot be read, the file is kept and
    the placeholders of the file before it stay: a save then stores the new
    file with the old placeholders. *)
Theorem handleFile_stale_placeholders f s e uuid now :
  is_word_name (Store.file_name f) = true → fullText f = Err e →
  blank (templateName s) = false →
  ∃ t, (handleSave uuid now (handleFile fullText f s).1).1.2 = Some (t, f)
       ∧ Template.placeholders t = placeholders s.
Proof.
  intros Hn He Hb. unfold handleFile. rewrite Hn, He. cbn.
  rewrite bool_decide_eq_false_2 by by apply blank_false_ne.
  unfold handleSave. cbn. rewrite Hb. by eexists.
Qed.

End word_facts.

Section word_controls.
Import WordTemplateUploader.

Lemma act_file_inv a s : file_inv s → file_inv (act a s).1.
Proof.
  intros Hs. destruct a as [| | |[f|] text|[f|] text| |uuid now|]; cbn; try done.
  - pose proof (handleFile_file_inv (λ _, text) f (setIsDragging false s) Hs) as H.
    by destruct (handleFile _ _ _).
  - pose proof (handleFile_file_inv (λ _, text) f s Hs) as H.
    by destruct (handleFile _ _ _).
  - pose proof (handleSave_file_inv uuid now s Hs) as H.
    by destruct (handleSave uuid now s) as [[s' [[? ?]|]] ?].
Qed.

Lemma act_word_one_call a s : length (act a s).2 ≤ 1.
Proof.
  destruct a as [| | |? ?|? ?| |uuid now|]; cbn; try lia.
  destruct (handleSave uuid now s) as [[s' [[? ?]|]] ?]; cbn; lia.
Qed.

Lemma act_word_calls a s template f :
  file_inv s → onSave template f ∈ (act a s).2 →
  is_word_name (Store.file_name f) = true ∧ Template.isWordTemplate template = Some true
  ∧ Template.name template ≠ [] ∧ Template.placeholders template = placeholders s.
Proof.
  intros Hs. destruct a as [| | |? ?|? ?| |uuid now|]; cbn;
    try (by intros ?%elem_of_nil); [|by intros ?%list_elem_of_singleton].
  destruct (handleSave uuid now s) as [[s' saved] ?] eqn:E.
  destruct saved as [[t' f']|]; cbn; [|by intros ?%elem_of_nil].
  intros [= <- <-]%list_elem_of_singleton.
  assert ((handleSave uuid now s).1.2 = Some (template, f)) as H by by rewrite E.
  apply handleSave_Some in H as (Hf & Hb & ->). unfold file_inv in Hs. rewrite Hf in Hs.
  cbn. split_and!; [done..|by apply blank_false_trim|done].
Qed.

(** The button that saves is enabled only where [handleSave] saves: a
    click on it hands a template and the file to the page, and the error
    notification of [handleSave] is never displayed. *)
Theorem click_save_saves uuid now s :
  available s (Click_save uuid now) = true →
  ∃ template f, file s = Some f ∧ (act (Click_save uuid now) s).2 = [onSave template f].
Proof.
  cbn. unfold save_disabled, handleSave.
  intros [[Hf%bool_decide_eq_false Hb]%orb_false_iff _]%negb_true_iff%orb_false_iff.
  destruct (file s) as [f|]; [|done]. rewrite Hb. cbn. by eexists _, f.
Qed.

End word_controls.

(** The template name defaults to the file name without its ending, whatever
    the case of the ending. *)
Example word_name_default :
  WordTemplateUploader.templateName
    (WordTemplateUploader.handleFile (λ _, Ok (E:=unit) (js "Dear {Name}"))
       (Store.mk_file (js "Contract.v2.DOCX") []) WordTemplateUploader.initial).1
  = js "Contract.v2".
Proof. by vm_compute. Qed.

Section dataset_facts.
Import DatasetUploader.
Context (parse : Store.File → result jstring (list DataRow)) (loads : Store.File → bool).

Lemma handleFile_loaded file s data headers :
  (handleFile parse loads file s).1.2 = Some (data, headers) →
  parse file = Ok data ∧ data ≠ [] ∧ headers = row_keys (default [] (head data))
  ∧ previewData (handleFile parse loads file s).1.1 = take 5 data.
Proof.
  unfold handleFile.
  destruct (is_dataset_name _); cbn [negb]; [|done].
  destruct (endsWith _ _); [|done].
  destruct (parse file) as [data'|e]; [|done].
  destruct data' as [|row data']; cbn [length Nat.eqb fst snd]; [done|].
  by intros [= <- <-].
Qed.

(** The rows handed to [onDataLoaded] by [handleFile] are the rows the
    parser returned, there is at least one, the headers are the keys of the
    first row and the preview holds the first five rows. *)
Theorem handleFile_loads_rows file s data headers :
  (handleFile parse loads file s).1.2 = Some (data, headers) →
  ∃ row, head data = Some row ∧ headers = row_keys row
         ∧ parse file = Ok data
         ∧ previewData (handleFile parse loads file s).1.1 = take 5 data.
Proof.
  intros (Hp & Hne & -> & Hv)%handleFile_loaded.
  destruct data as [|row data]; [done|]. by exists row.
Qed.

(** A file the guard accepts whose name does not end in [.csv] in lower
    case is never parsed: its name is displayed and no rows are loaded.  A
    file named [DATA.CSV] is such a file. *)
Theorem handleFile_not_lowercase_csv file s :
  is_dataset_name (Store.file_name file) = true →
  endsWith (Store.file_name file) (js ".csv") = false →
  (handleFile parse loads file s).1.2 = None
  ∧ fileName (handleFile parse loads file s).1.1 = Some (Store.file_name file).
Proof. unfold handleFile. by intros -> ->. Qed.

Lemma dataset_name_nonempty name : is_dataset_name name = true → name ≠ [].
Proof. by intros H ->. Qed.

Lemma no_file_named dragging name preview :
  name ≠ [] → no_file (mk_state dragging (Some name) preview) = true → False.
Proof. unfold no_file. cbn. intros Hne. by rewrite bool_decide_eq_false_2. Qed.

Lemma handleFile_preview_inv file s :
  preview_inv s → preview_inv (handleFile parse loads file s).1.1.
Proof.
  unfold handleFile, preview_inv. intros [Hlen Hno].
  destruct (is_dataset_name _) eqn:Hn; cbn [negb fst]; [|done].
  apply dataset_name_nonempty in Hn.
  repeat case_match; cbn [fst previewData isDragging fileName];
    (split; [rewrite ?length_take; lia|by intros ?%no_file_named]).
Qed.

(** After rows were loaded, the line under the file name counts the rows
    of the preview, five at most, not the rows loaded. *)
Theorem rows_line_counts_preview file s data headers :
  (handleFile parse loads file s).1.2 = Some (data, headers) →
  rows_line (handleFile parse loads file s).1.1 =
    string_of_nat (length data `min` 5) ++ js " rows loaded".
Proof.
  intros (_ & _ & _ & Hv)%handleFile_loaded. unfold rows_line.
  by rewrite Hv, length_take, Nat.min_comm.
Qed.

End dataset_facts.

Section dataset_controls.
Import DatasetUploader.

Lemma act_preview_inv a s : preview_inv s → preview_inv (act a s).1.
Proof.
  intros Hs.
  destruct a as [| |[f|] parsed loads|[f|] parsed loads|]; cbn; try done.
  - pose proof (handleFile_preview_inv (λ _, parsed) (λ _, loads) f
                  (mk_state false (fileName s) (previewData s)) Hs) as H.
    by destruct (handleFile _ _ _ _) as [[? ?] ?].
  - pose proof (handleFile_preview_inv (λ _, parsed) (λ _, loads) f s Hs) as H.
    by destruct (handleFile _ _ _ _) as [[? ?] ?].
  - unfold preview_inv. cbn. split; [lia|done].
Qed.

Lemma calls_one out : length (calls out) ≤ 1.
Proof. destruct out as [[? ?]|]; cbn; lia. Qed.

Lemma act_dataset_one_call a s : length (act a s).2 ≤ 1.
Proof.
  destruct a as [| |file parsed loads|file parsed loads|]; cbn; try lia.
  - destruct (handleDrop _ _ _ _) as [[? out] ?]. apply calls_one.
  - destruct (handleFileInput _ _ _ _) as [[? out] ?]. apply calls_one.
Qed.

(** What the uploader hands to the page: the rows of a file, at least
    one, with the keys of the first row as headers, or nothing at all when
    the file is cleared. *)
Lemma act_dataset_calls a s data headers :
  onDataLoaded data headers ∈ (act a s).2 →
  (a = Click_clear ∧ data = [] ∧ headers = [])
  ∨ (data ≠ [] ∧ headers = row_keys (default [] (head data))).
Proof.
  destruct a as [| |[f|] parsed loads|[f|] parsed loads|]; cbn;
    try (by intros ?%elem_of_nil).
  - destruct (handleFile _ _ _ _) as [[s' out] ?] eqn:E.
    destruct out as [[d h]|]; cbn; [|by intros ?%elem_of_nil].
    intros [= <- <-]%list_elem_of_singleton. right.
    assert ((handleFile (λ _, parsed) (λ _, loads) f
               (mk_state false (fileName s) (previewData s))).1.2 = Some (data, headers))
      as H by by rewrite E.
    by apply handleFile_loaded in H as (_ & ? & ? & _).
  - destruct (handleFile _ _ _ _) as [[s' out] ?] eqn:E.
    destruct out as [[d h]|]; cbn; [|by intros ?%elem_of_nil].
    intros [= <- <-]%list_elem_of_singleton. right.
    assert ((handleFile (λ _, parsed) (λ _, loads) f s).1.2 = Some (data, headers))
      as H by by rewrite E.
    by apply handleFile_loaded in H as (_ & ? & ? & _).
  - intros [= -> ->]%list_elem_of_singleton. by left.
Qed.

(** Choosing a file whose name ends in [.csv] and that parses to rows
    hands them to the page, headed by the keys of the first. *)
Lemma choose_loads file data s :
  is_dataset_name (Store.file_name file) = true →
  endsWith (Store.file_name file) (js ".csv") = true → data ≠ [] →
  (act (Choose (Some file) (Ok data) true) s).2 =
    [onDataLoaded data (row_keys (default [] (head data)))].
Proof.
  intros Hn Hc Hd. cbn. unfold handleFile. rewrite Hn, Hc. cbn.
  destruct data as [|row data]; [done|]. done.
Qed.

End dataset_controls.

Section manual_facts.
Import ManualFormFiller.
Implicit Types (placeholders : list jstring) (s : state).

Lemma foldl_empty_form_keys placeholders acc :
  row_keys (foldl (λ acc placeholder, row_set acc placeholder (VStr [])) acc placeholders) =
    foldl (λ set x, Set_add x set) (row_keys acc) placeholders.
Proof.
  revert acc. induction placeholders as [|p ps IH]; intros acc; [done|].
  cbn [foldl]. rewrite IH. f_equal. rewrite row_keys_set. unfold Set_add.
  by destruct (decide _).
Qed.

Lemma empty_form_keys placeholders : row_keys (empty_form placeholders) = Set_of_list placeholders.
Proof. apply foldl_empty_form_keys. Qed.

Lemma foldl_empty_form_get placeholders acc p :
  row_get (foldl (λ acc placeholder, row_set acc placeholder (VStr [])) acc placeholders) p =
    if decide (p ∈ placeholders) then Some (VStr []) else row_get acc p.
Proof.
  revert acc. induction placeholders as [|q ps IH]; intros acc; [done|].
  cbn [foldl]. rewrite IH. destruct (decide (p ∈ ps)) as [Hin|Hnin].
  - rewrite decide_True; [done|]. apply elem_of_cons. by right.
  - destruct (decide (q = p)) as [->|Hne].
    + rewrite row_get_set_eq, decide_True; [done|]. apply elem_of_cons. by left.
    + rewrite row_get_set_ne by done. rewrite decide_False; [done|].
      rewrite not_elem_of_cons. by split.
Qed.

Lemma emptyFields_nil placeholders formData :
  emptyFields placeholders formData = [] ↔
  Forall (λ p, truthy (row_get formData p) = true) placeholders.
Proof.
  unfold emptyFields. induction placeholders as [|p ps IH]; cbn; [by split|].
  rewrite Forall_cons. destruct (truthy (row_get formData p)); cbn; [|by split; [|intros []]].
  rewrite IH. by split; [|intros []].
Qed.

Lemma handleSubmit_inl placeholders s data :
  (handleSubmit placeholders s).2 = inl data ↔
  data = formData s ∧ emptyFields placeholders (formData s) = [].
Proof.
  unfold handleSubmit. destruct (emptyFields _ _) as [|p l]; cbn; [|by split; [|intros []]].
  split; [by intros [= <-]|by intros [-> _]].
Qed.

(** The row [handleSubmit] hands to [onComplete] is the form, and every
    placeholder has a value in it that is not empty. *)
Theorem handleSubmit_complete placeholders s data :
  (handleSubmit placeholders s).2 = inl data →
  data = formData s ∧ Forall (λ p, truthy (row_get data p) = true) placeholders.
Proof. intros [-> H]%handleSubmit_inl. by apply emptyFields_nil in H. Qed.

(** The submit button is enabled exactly when [handleSubmit] hands the
    form to [onComplete]. *)
Theorem isComplete_submits placeholders s :
  isComplete placeholders s = true ↔ (handleSubmit placeholders s).2 = inl (formData s).
Proof.
  rewrite handleSubmit_inl, emptyFields_nil. unfold isComplete.
  rewrite forallb_forall, Forall_forall. split.
  - intros H. split; [done|]. intros p Hp. by apply H, list_elem_of_In.
  - intros [_ H] p Hp. by apply H, list_elem_of_In.
Qed.

Lemma reachable_keys_inv placeholders s :
  reachable placeholders NoItem s → row_keys (formData s) = Set_of_list placeholders.
Proof.
  induction 1 as [|s p value _ IH Hp|s _ IH].
  - apply empty_form_keys.
  - cbn. rewrite row_keys_set, decide_True; [done|].
    rewrite IH. by apply elem_of_Set_of_list.
  - unfold handleSubmit. by destruct (0 <? _).
Qed.

(** Without a draft in [localStorage], the row submitted has exactly the
    placeholders as keys, in order of first appearance, each with a value
    that is not empty. *)
Theorem submitted_keys placeholders s data :
  reachable placeholders NoItem s → (handleSubmit placeholders s).2 = inl data →
  row_keys data = Set_of_list placeholders
  ∧ Forall (λ p, truthy (row_get data p) = true) placeholders.
Proof.
  intros Hr Hs. destruct (handleSubmit_complete _ _ _ Hs) as [-> Hall].
  split; [by apply reachable_keys_inv|done].
Qed.

(** After every step but a successful submit, mounting the component
    again from [localStorage] gives back the state it had. *)
Theorem draft_survives_remount placeholders saved s :
  reachable placeholders saved s →
  localStorage s = NoItem ∨ initial placeholders (localStorage s) = s.
Proof.
  induction 1 as [|s p value _ IH Hp|s _ IH].
  - by right.
  - by right.
  - unfold handleSubmit. destruct (0 <? _); [done|by left].
Qed.

Lemma act_manual_reachable placeholders saved a s :
  reachable placeholders saved s → available placeholders s a = true →
  reachable placeholders saved (act placeholders a s).1.
Proof.
  intros Hr Ha. destruct a as [p v| |]; cbn in *; [| |done].
  - apply reach_input; [done|by apply bool_decide_eq_true in Ha].
  - pose proof (reach_submit _ _ _ Hr) as H.
    by destruct (handleSubmit placeholders s) as [s' [?|?]].
Qed.

Lemma act_manual_one_call placeholders a s : length (act placeholders a s).2 ≤ 1.
Proof.
  destruct a as [p v| |]; cbn; try lia.
  destruct (handleSubmit placeholders s) as [s' [?|?]]; cbn; lia.
Qed.

(** The button that submits is enabled only where [handleSubmit] hands
    the form on: a click on it removes the draft and calls [onComplete]
    with the form, and the notification of [handleSubmit] is never
    displayed. *)
Theorem submit_hands_form placeholders s :
  available placeholders s Submit = true →
  act placeholders Submit s = (mk_state (formData s) NoItem, [onComplete (formData s)]).
Proof.
  cbn [available act]. intros [_ He]%isComplete_submits%handleSubmit_inl.
  unfold handleSubmit. by rewrite He.
Qed.

Lemma act_manual_calls placeholders a s data :
  onComplete data ∈ (act placeholders a s).2 →
  a = Submit ∧ data = formData s
  ∧ Forall (λ p, truthy (row_get data p) = true) placeholders.
Proof.
  destruct a as [p v| |]; cbn;
    [by intros ?%elem_of_nil| |by intros ?%list_elem_of_singleton].
  destruct (handleSubmit placeholders s) as [s' [d|?]] eqn:E; [|by intros ?%elem_of_nil].
  intros [= <-]%list_elem_of_singleton.
  assert ((handleSubmit placeholders s).2 = inl data) as H by by rewrite E.
  by apply handleSubmit_complete in H as [-> ?].
Qed.

End manual_facts.

(** The file [DATA.CSV] passes the guard, is treated as an Excel file and
    loads nothing. *)
Example uppercase_csv_not_parsed :
  DatasetUploader.handleFile (λ _, Ok [[(js "Name", VStr (js "A"))]]) (λ _, true)
    (Store.mk_file (js "DATA.CSV") (js "Name\nA")) DatasetUploader.initial =
  (DatasetUploader.mk_state false (Some (js "DATA.CSV")) [], None,
   Some (toast_loading (js "Excel support: Please convert to CSV for now"))).
Proof. by vm_compute. Qed.

(** A draft saved by the form of another template is taken as it is:
    the row submitted carries the keys of the other template. *)
Example draft_of_other_template :
  (ManualFormFiller.handleSubmit [js "Name"]
     (ManualFormFiller.handleInputChange (js "Name") (js "Ann")
        (ManualFormFiller.initial [js "Name"]
           (ManualFormFiller.Saved [(js "City", VStr (js "Rome"))])))).2 =
  inl [(js "City", VStr (js "Rome")); (js "Name", VStr (js "Ann"))].
Proof. by vm_compute. Qed.

(** ** The theorems at concrete inputs *)

Lemma saved_placeholders_derived_witness :
  Template.placeholders
    (TemplateEditor.handleSave (js "id-1") (js "2024") None
       (TemplateEditor.handleContentChange (js "Hi {{Name}}")
          (TemplateEditor.setName (js "Greeting") (TemplateEditor.initial None)))) =
  extractPlaceholders
    (Template.content
       (TemplateEditor.handleSave (js "id-1") (js "2024") None
          (TemplateEditor.handleContentChange (js "Hi {{Name}}")
             (TemplateEditor.setName (js "Greeting") (TemplateEditor.initial None))))).
Proof.
  apply saved_placeholders_derived; [done| |by vm_compute].
  apply TemplateEditor.reach_content, TemplateEditor.reach_name, TemplateEditor.reach_initial.
Defined.

Lemma insertPlaceholder_detected_witness :
  TemplateEditor.detectedPlaceholders
    (TemplateEditor.insertPlaceholder (Some (5, 5)) (js "Name")
       (TemplateEditor.mk_state (js "Greeting") (js "Dear , from {{City}}") [js "City"])) =
  Set_of_list (trim <$> hole_bodies
    ([Text (js "Dear ")] ++ Hole (js "Name") :: [Text (js ", from "); Hole (js "City")])).
Proof.
  apply (insertPlaceholder_detected [Text (js "Dear ")]
           [Text (js ", from "); Hole (js "City")] (js "Name")
           (TemplateEditor.mk_state (js "Greeting") (js "Dear , from {{City}}") [js "City"]));
    by apply (bool_decide_unpack _).
Defined.

Lemma handleSave_hands_word_file_witness :
  WordTemplateUploader.is_word_name (Store.file_name (Store.mk_file (js "a.docx") [])) = true
  ∧ Template.name
      (Template.mk (js "id-1") (js "Letter") [] [js "Name"] (js "2024") (js "2024")
         (Some []) (Some true)) ≠ []
  ∧ no_space_ends
      (Template.name
         (Template.mk (js "id-1") (js "Letter") [] [js "Name"] (js "2024") (js "2024")
            (Some []) (Some true)))
  ∧ Template.isWordTemplate
      (Template.mk (js "id-1") (js "Letter") [] [js "Name"] (js "2024") (js "2024")
         (Some []) (Some true)) = Some true
  ∧ Template.placeholders
      (Template.mk (js "id-1") (js "Letter") [] [js "Name"] (js "2024") (js "2024")
         (Some []) (Some true)) =
    WordTemplateUploader.placeholders
      (WordTemplateUploader.handleFile (λ _, Ok (E:=unit) (js "Dear {Name}"))
         (Store.mk_file (js "a.docx") [])
         (WordTemplateUploader.setTemplateName (js " Letter ")
            WordTemplateUploader.initial)).1.
Proof.
  apply (handleSave_hands_word_file (λ _, Ok (E:=unit) (js "Dear {Name}"))
           (js "id-1") (js "2024")); [|by vm_compute].
  apply (WordTemplateUploader.reach_file _ _ (Store.mk_file (js "a.docx") [])),
    WordTemplateUploader.reach_name, WordTemplateUploader.reach_initial.
Defined.

Lemma handleFile_stale_placeholders_witness :
  ∃ t,
    (WordTemplateUploader.handleSave (js "id-1") (js "2024")
       (WordTemplateUploader.handleFile (λ _, Err tt) (Store.mk_file (js "b.docx") [])
          (WordTemplateUploader.mk_state (js "Letter") (Some (Store.mk_file (js "a.docx") []))
             [js "Name"] false false)).1).1.2 = Some (t, Store.mk_file (js "b.docx") [])
    ∧ Template.placeholders t =
      WordTemplateUploader.placeholders
        (WordTemplateUploader.mk_state (js "Letter") (Some (Store.mk_file (js "a.docx") []))
           [js "Name"] false false).
Proof. by apply (handleFile_stale_placeholders _ _ _ tt). Defined.

Lemma handleFile_loads_rows_witness :
  ∃ row,
    head [[(js "Name", VStr (js "A"))]; [(js "Name", VStr (js "B"))]] = Some row
    ∧ [js "Name"] = row_keys row
    ∧ (λ _ : Store.File, Ok (E:=jstring) [[(js "Name", VStr (js "A"))]; [(js "Name", VStr (js "B"))]])
        (Store.mk_file (js "data.csv") []) =
      Ok [[(js "Name", VStr (js "A"))]; [(js "Name", VStr (js "B"))]]
    ∧ DatasetUploader.previewData
        (DatasetUploader.handleFile
           (λ _, Ok [[(js "Name", VStr (js "A"))]; [(js "Name", VStr (js "B"))]])
           (λ _, true) (Store.mk_file (js "data.csv") []) DatasetUploader.initial).1.1 =
      take 5 [[(js "Name", VStr (js "A"))]; [(js "Name", VStr (js "B"))]].
Proof.
  by apply (handleFile_loads_rows
              (λ _, Ok [[(js "Name", VStr (js "A"))]; [(js "Name", VStr (js "B"))]])
              (λ _, true) (Store.mk_file (js "data.csv") []) DatasetUploader.initial).
Defined.

Lemma handleFile_not_lowercase_csv_witness :
  (DatasetUploader.handleFile (λ _, Ok [[(js "Name", VStr (js "A"))]]) (λ _, true)
     (Store.mk_file (js "DATA.CSV") []) DatasetUploader.initial).1.2 = None
  ∧ DatasetUploader.fileName
      (DatasetUploader.handleFile (λ _, Ok [[(js "Name", VStr (js "A"))]]) (λ _, true)
         (Store.mk_file (js "DATA.CSV") []) DatasetUploader.initial).1.1 =
    Some (Store.file_name (Store.mk_file (js "DATA.CSV") [])).
Proof. by apply handleFile_not_lowercase_csv. Defined.

Lemma submitted_keys_witness :
  row_keys [(js "Name", VStr (js "Ann"))] = Set_of_list [js "Name"]
  ∧ Forall (λ p, truthy (row_get [(js "Name", VStr (js "Ann"))] p) = true) [js "Name"].
Proof.
  apply (submitted_keys [js "Name"]
           (ManualFormFiller.handleInputChange (js "Name") (js "Ann")
              (ManualFormFiller.initial [js "Name"] ManualFormFiller.NoItem)));
    [|done].
  apply ManualFormFiller.reach_input; [apply ManualFormFiller.reach_initial|].
  apply elem_of_cons. by left.
Defined.

Lemma draft_survives_remount_witness :
  ManualFormFiller.localStorage
    (ManualFormFiller.handleInputChange (js "Name") (js "Ann")
       (ManualFormFiller.initial [js "Name"] ManualFormFiller.NoItem)) = ManualFormFiller.NoItem
  ∨ ManualFormFiller.initial [js "Name"]
      (ManualFormFiller.localStorage
         (ManualFormFiller.handleInputChange (js "Name") (js "Ann")
            (ManualFormFiller.initial [js "Name"] ManualFormFiller.NoItem))) =
    ManualFormFiller.handleInputChange (js "Name") (js "Ann")
      (ManualFormFiller.initial [js "Name"] ManualFormFiller.NoItem).
Proof.
  apply (draft_survives_remount [js "Name"] ManualFormFiller.NoItem).
  apply ManualFormFiller.reach_input; [apply ManualFormFiller.reach_initial|].
  apply elem_of_cons. by left.
Defined.
