(* ===== verification/Catalog.v ===== *)
(** * Catalog: the list of templates with its children, and the page chrome

    [TemplateList] ([src/src/components/TemplateList.tsx]) with the
    components it renders, [TemplateHeader], [EmptyState], [TemplateCard],
    [RenameDialog] and [DeleteConfirmDialog]
    ([src/src/components/templates]), then [StepIndicator]
    ([src/src/components/StepIndicator.tsx]) and [Navbar]
    ([src/src/components/Navbar.tsx]).  Each component is a module of its
    name: its state as a record, its handlers as functions that return the
    state after and what they hand to their callbacks, and what it displays
    as a function of properties and state.

    The second half of the module [TemplateList] puts the list together
    with its children: an [action] is what the user does on the display,
    [available] says which actions the display allows, and [act] routes an
    action through the handlers of the child to those of the list and
    returns the calls the list makes on the page.  The two dialogs have
    their controls in their own modules as well, and the actions of the
    list on a dialog are proved to be those of the dialog, with its calls
    received by the list. *)

From Stdlib Require Import Ascii String ZArith.
From stdpp Require Import base numbers list.
From S2P Require Import Prelude JsString Types.
#[local] Set Warnings "-clear-no-such-hyp".

(** * TemplateHeader *)

Module TemplateHeader.

(** The property a button calls. *)
Inductive call : Type :=
| onUploadWord
| onCreateNew.

(** The two buttons with their labels, in the order of the source. *)
Definition buttons : list (jstring * call) :=
  [(js "Upload Word", onUploadWord); (js "New Template", onCreateNew)].

End TemplateHeader.

(** * EmptyState *)

Module EmptyState.

(** The property [type]. *)
Inductive type : Type :=
| no_templates
| no_search_results.

Inductive call : Type :=
| onCreateNew
| onClearSearch.

(** The two callbacks are optional: the record says which are passed. *)
Record props : Type := mk_props {
  type_ : type;
  has_onCreateNew : bool;
  has_onClearSearch : bool
}.

(** What the component displays: two lines and a button; [onClick] is what
    a click on the button calls, nothing when the property is
    [undefined]. *)
Record view : Type := mk_view {
  heading : jstring;
  hint : jstring;
  button : jstring;
  onClick : option call
}.

Definition render (p : props) : view :=
  match type_ p with
  | no_search_results =>
      mk_view (js "No templates found") (js "Try adjusting your search query")
        (js "Clear Search") (if has_onClearSearch p then Some onClearSearch else None)
  | no_templates =>
      mk_view (js "No templates yet") (js "Create your first template to get started")
        (js "Create Template") (if has_onCreateNew p then Some onCreateNew else None)
  end.

End EmptyState.

(** * TemplateCard *)

Module TemplateCard.

(** Where a click lands: on one of the buttons, or on the card outside
    them. *)
Inductive target : Type :=
| Card
| RenameButton
| EditButton
| DeleteButton.

#[global] Instance target_eq_dec : EqDecision target.
Proof. solve_decision. Defined.

(** The property called, with the template it receives. *)
Inductive call : Type :=
| onSelect (template : Template.t)
| onEdit (template : Template.t)
| onRename (template : Template.t)
| onDelete (template : Template.t).

(** What a click handler of a button does: the property it calls, and
    whether the event goes on to the card ([stopPropagation] not called). *)
Record handled : Type := mk_handled {
  called : call;
  propagates : bool
}.

(** [handleRenameClick], [handleEditClick] and [handleDeleteClick]. *)
Definition handleRenameClick (template : Template.t) : handled :=
  mk_handled (onRename template) false.

Definition handleEditClick (template : Template.t) : handled :=
  mk_handled (onEdit template) false.

Definition handleDeleteClick (template : Template.t) : handled :=
  mk_handled (onDelete template) false.

(** [!template.isWordTemplate]. *)
Definition editable (template : Template.t) : bool :=
  negb (bool_decide (Template.isWordTemplate template = Some true)).

(** The buttons of the card, in the order of the source: the button that
    edits is displayed for templates that are not Word templates. *)
Definition buttons (template : Template.t) : list target :=
  [RenameButton] ++ (if editable template then [EditButton] else []) ++ [DeleteButton].

(** Where a click can land. *)
Definition targets (template : Template.t) : list target := Card :: buttons template.

(** The handlers a click reaches, from the target outwards: the handler
    of the button, then the [onClick] of the card when the event goes on. *)
Definition bubble (template : Template.t) (h : handled) : list call :=
  called h :: (if propagates h then [onSelect template] else []).

Definition click (template : Template.t) (tg : target) : list call :=
  match tg with
  | Card => [onSelect template]
  | RenameButton => bubble template (handleRenameClick template)
  | EditButton => bubble template (handleEditClick template)
  | DeleteButton => bubble template (handleDeleteClick template)
  end.

(** The line below the name; [format] is the function of the date
    library applied with the pattern of the source. *)
Definition updated_line (format : jstring → jstring) (template : Template.t) : jstring :=
  js "Updated " ++ format (Template.updatedAt template).

End TemplateCard.

(** * RenameDialog *)

Module RenameDialog.

Record props : Type := mk_props {
  open : bool;
  template : option Template.t
}.

#[global] Instance props_eq_dec : EqDecision props.
Proof. solve_decision. Defined.

(** The state is the text of the field, [newName]. *)
Definition initial : jstring := [].

(** The effect on [template] and [open]. *)
Definition sync (p : props) (newName : jstring) : jstring :=
  match template p with
  | Some t => if open p then Template.name t else newName
  | None => newName
  end.

(** What a handler does besides changing [newName]: the arguments of
    [onConfirm], and the argument of [onOpenChange]. *)
Record effects : Type := mk_effects {
  confirmed : option (Template.t * jstring);
  open_change : option bool
}.

(** [handleConfirm]. *)
Definition handleConfirm (p : props) (newName : jstring) : jstring * effects :=
  match template p with
  | Some t =>
      if negb (blank newName)
      then ([], mk_effects (Some (t, trim newName)) (Some false))
      else (newName, mk_effects None None)
  | None => (newName, mk_effects None None)
  end.

(** [handleCancel]. *)
Definition handleCancel (newName : jstring) : jstring * effects :=
  ([], mk_effects None (Some false)).

(** [handleKeyDown]. *)
Definition handleKeyDown (key : jstring) (p : props) (newName : jstring) :
    jstring * effects :=
  if bool_decide (key = js "Enter") && bool_decide (is_Some (template p))
     && negb (blank newName)
  then handleConfirm p newName
  else (newName, mk_effects None None).

(** The component renders something. *)
Definition rendered (p : props) : bool := bool_decide (is_Some (template p)).

(** The confirm button is disabled. *)
Definition confirm_disabled (newName : jstring) : bool := blank newName.

(** What the user does on the dialog: typing in the field, a click on one
    of the two buttons, a key pressed in the field, and closing the dialog
    by the means of the UI kit, which calls [onOpenChange(false)]. *)
Inductive action : Type :=
| Type_name (value : jstring)
| Click_cancel
| Click_confirm
| Key_down (key : jstring)
| Dismiss.

(** The controls on display: those of a dialog that renders and is open,
    the confirm button only while it is enabled. *)
Definition available (p : props) (newName : jstring) (a : action) : bool :=
  rendered p && open p
  && match a with
     | Click_confirm => negb (confirm_disabled newName)
     | _ => true
     end.

(** The handler the markup wires to each control. *)
Definition act (p : props) (a : action) (newName : jstring) : jstring * effects :=
  match a with
  | Type_name value => (value, mk_effects None None)
  | Click_cancel => handleCancel newName
  | Click_confirm => handleConfirm p newName
  | Key_down key => handleKeyDown key p newName
  | Dismiss => (newName, mk_effects None (Some false))
  end.

End RenameDialog.

(** * DeleteConfirmDialog *)

Module DeleteConfirmDialog.

Record props : Type := mk_props {
  open : bool;
  template : option Template.t
}.

Definition rendered (p : props) : bool := bool_decide (is_Some (template p)).

(** [handleConfirm]: the argument of [onConfirm] and that of
    [onOpenChange]. *)
Definition handleConfirm (template : Template.t) : jstring * bool :=
  (Template.id template, false).

(** [handleCancel]: the argument of [onOpenChange]. *)
Definition handleCancel : bool := false.

(** The text of the dialog, with the name of the template in quotes. *)
Definition description (template : Template.t) : jstring :=
  js "This action cannot be undone. This template " ++ ["034"%char]
  ++ Template.name template ++ ["034"%char]
  ++ js " will be permanently deleted and cannot be recovered in the future.".

(** What the dialog calls: the argument of [onConfirm], and that of
    [onOpenChange]. *)
Record effects : Type := mk_effects {
  confirmed : option jstring;
  open_change : option bool
}.

(** What the user does on the dialog: a click on one of the two buttons,
    and closing it by the means of the UI kit. *)
Inductive action : Type :=
| Click_cancel
| Click_confirm
| Dismiss.

#[global] Instance action_eq_dec : EqDecision action.
Proof. solve_decision. Defined.

Definition available (p : props) (a : action) : bool := rendered p && open p.

(** The handler the markup wires to each control. *)
Definition act (p : props) (a : action) : effects :=
  match a, template p with
  | Click_confirm, Some t =>
      let '(id, open) := handleConfirm t in mk_effects (Some id) (Some open)
  | Click_confirm, None => mk_effects None None
  | Click_cancel, _ => mk_effects None (Some handleCancel)
  | Dismiss, _ => mk_effects None (Some false)
  end.

End DeleteConfirmDialog.

(** * TemplateList *)

Module TemplateList.

Record state : Type := mk_state {
  searchQuery : jstring;
  deleteDialogOpen : bool;
  renameDialogOpen : bool;
  selectedTemplate : option Template.t
}.

Definition initial : state := mk_state [] false false None.

(** The test of the filter: the name holds the query, case ignored. *)
Definition name_matches (searchQuery : jstring) (template : Template.t) : bool :=
  includes (toLowerCase (Template.name template)) (toLowerCase searchQuery).

(** [filteredTemplates]. *)
Definition filteredTemplates (templates : list Template.t) (s : state) : list Template.t :=
  if blank (searchQuery s) then templates
  else List.filter (name_matches (searchQuery s)) templates.

Definition setSearchQuery (value : jstring) (s : state) : state :=
  mk_state value (deleteDialogOpen s) (renameDialogOpen s) (selectedTemplate s).

Definition setDeleteDialogOpen (open : bool) (s : state) : state :=
  mk_state (searchQuery s) open (renameDialogOpen s) (selectedTemplate s).

Definition setRenameDialogOpen (open : bool) (s : state) : state :=
  mk_state (searchQuery s) (deleteDialogOpen s) open (selectedTemplate s).

Definition setSelectedTemplate (template : option Template.t) (s : state) : state :=
  mk_state (searchQuery s) (deleteDialogOpen s) (renameDialogOpen s) template.

(** [handleRename] and [handleDelete]: a card asks for a dialog. *)
Definition handleRename (template : Template.t) (s : state) : state :=
  setRenameDialogOpen true (setSelectedTemplate (Some template) s).

Definition handleDelete (template : Template.t) (s : state) : state :=
  setDeleteDialogOpen true (setSelectedTemplate (Some template) s).

(** [handleRenameConfirm] and [handleDeleteConfirm]: the state after, and
    what [onRename] and [onDelete] receive. *)
Definition handleRenameConfirm (template : Template.t) (newName : jstring) (s : state) :
    state * (Template.t * jstring) :=
  (setSelectedTemplate None s, (template, newName)).

Definition handleDeleteConfirm (id : jstring) (s : state) : state * jstring :=
  (setSelectedTemplate None s, id).

(** [clearSearch]. *)
Definition clearSearch (s : state) : state := setSearchQuery [] s.

(** The search field is displayed. *)
Definition search_shown (templates : list Template.t) : bool := 0 <? length templates.

(** What stands below the header: one of the two empty states, or the
    cards. *)
Inductive body : Type :=
| NoSearchResults
| NoTemplates
| Grid (cards : list Template.t).

Definition list_body (templates : list Template.t) (s : state) : body :=
  if (length (filteredTemplates templates s) =? 0) && (0 <? length templates)
  then NoSearchResults
  else if length templates =? 0 then NoTemplates
  else Grid (filteredTemplates templates s).

(** ** The list with its children *)

(** What the list calls on the page. *)
Inductive call : Type :=
| onSelect (template : Template.t)
| onEdit (template : Template.t)
| onDelete (id : jstring)
| onCreateNew
| onUploadWord
| onRename (template : Template.t) (newName : jstring).

(** The list as mounted: its own state and the text of the field of the
    rename dialog, which is state of the dialog. *)
Record mounted : Type := mk_mounted {
  list_state : state;
  newName : jstring
}.

Definition mount : mounted := mk_mounted initial RenameDialog.initial.

(** The properties the list hands to its two dialogs. *)
Definition delete_props (s : state) : DeleteConfirmDialog.props :=
  DeleteConfirmDialog.mk_props (deleteDialogOpen s) (selectedTemplate s).

Definition rename_props (s : state) : RenameDialog.props :=
  RenameDialog.mk_props (renameDialogOpen s) (selectedTemplate s).

(** The properties of the empty state the body displays. *)
Definition empty_props (b : body) : option EmptyState.props :=
  match b with
  | NoSearchResults => Some (EmptyState.mk_props EmptyState.no_search_results false true)
  | NoTemplates => Some (EmptyState.mk_props EmptyState.no_templates true false)
  | Grid _ => None
  end.

(** A dialog is on display: it renders and it is open. *)
Definition rename_shown (s : state) : bool :=
  RenameDialog.rendered (rename_props s) && RenameDialog.open (rename_props s).

Definition delete_shown (s : state) : bool :=
  DeleteConfirmDialog.rendered (delete_props s) && DeleteConfirmDialog.open (delete_props s).

(** What the user does on the list: typing in the search field, a click
    on a button of the header, on the button of the empty state or on a
    card, and the controls of the two dialogs.  [Rename_dismiss] and
    [Delete_dismiss] are the dialog closing itself through [onOpenChange]. *)
Inductive action : Type :=
| Type_query (value : jstring)
| Click_header (c : TemplateHeader.call)
| Click_empty
| Click_card (template : Template.t) (tg : TemplateCard.target)
| Rename_type (value : jstring)
| Rename_confirm
| Rename_cancel
| Rename_key (key : jstring)
| Rename_dismiss
| Delete_confirm
| Delete_cancel
| Delete_dismiss.

(** The actions the display allows.  The dialogs of the UI kit are modal:
    while one is on display the controls behind it receive no event. *)
Definition available (templates : list Template.t) (m : mounted) (a : action) : bool :=
  let s := list_state m in
  let behind := negb (rename_shown s || delete_shown s) in
  match a with
  | Type_query _ => behind && search_shown templates
  | Click_header _ => behind
  | Click_empty => behind && bool_decide (is_Some (empty_props (list_body templates s)))
  | Click_card template tg =>
      behind
      && match list_body templates s with
         | Grid cards => bool_decide (template ∈ cards)
         | _ => false
         end
      && bool_decide (tg ∈ TemplateCard.targets template)
  | Rename_type _ | Rename_cancel | Rename_key _ | Rename_dismiss => rename_shown s
  | Rename_confirm => rename_shown s && negb (RenameDialog.confirm_disabled (newName m))
  | Delete_confirm | Delete_cancel | Delete_dismiss => delete_shown s
  end.

(** The list receives a call of a card: [onSelect] and [onEdit] are the
    properties of the list itself, [onRename] and [onDelete] are
    [handleRename] and [handleDelete]. *)
Definition card_call (c : TemplateCard.call) (s : state) : state * list call :=
  match c with
  | TemplateCard.onSelect template => (s, [onSelect template])
  | TemplateCard.onEdit template => (s, [onEdit template])
  | TemplateCard.onRename template => (handleRename template s, [])
  | TemplateCard.onDelete template => (handleDelete template s, [])
  end.

Definition card_calls (cs : list TemplateCard.call) (s : state) : state * list call :=
  foldl (λ acc c, let '(s', out) := card_call c acc.1 in (s', acc.2 ++ out)) (s, []) cs.

(** The list receives the calls of the rename dialog: [onConfirm] is
    [handleRenameConfirm] and [onOpenChange] is [setRenameDialogOpen]. *)
Definition rename_effects (eff : RenameDialog.effects) (s : state) : state * list call :=
  let '(s1, out) :=
    match RenameDialog.confirmed eff with
    | Some (template, name) =>
        let '(s', (t, n)) := handleRenameConfirm template name s in (s', [onRename t n])
    | None => (s, [])
    end in
  (from_option (λ open, setRenameDialogOpen open s1) s1 (RenameDialog.open_change eff), out).

(** The same for the delete dialog. *)
Definition delete_effects (eff : option (jstring * bool)) (s : state) : state * list call :=
  match eff with
  | Some (id, open) =>
      let '(s', id') := handleDeleteConfirm id s in (setDeleteDialogOpen open s', [onDelete id'])
  | None => (s, [])
  end.

(** The effect of the rename dialog runs after a render in which its
    properties [template] or [open] changed. *)
Definition resync (before after : state) (newName : jstring) : jstring :=
  if decide (rename_props before = rename_props after) then newName
  else RenameDialog.sync (rename_props after) newName.

(** What an action does: the list after it, and the calls on the page. *)
Definition act (templates : list Template.t) (a : action) (m : mounted) :
    mounted * list call :=
  let s := list_state m in
  let '(s', name', out) :=
    match a with
    | Type_query value => (setSearchQuery value s, newName m, [])
    | Click_header TemplateHeader.onUploadWord => (s, newName m, [onUploadWord])
    | Click_header TemplateHeader.onCreateNew => (s, newName m, [onCreateNew])
    | Click_empty =>
        match empty_props (list_body templates s) ≫= (EmptyState.onClick ∘ EmptyState.render) with
        | Some EmptyState.onClearSearch => (clearSearch s, newName m, [])
        | Some EmptyState.onCreateNew => (s, newName m, [onCreateNew])
        | None => (s, newName m, [])
        end
    | Click_card template tg =>
        let '(s', out) := card_calls (TemplateCard.click template tg) s in (s', newName m, out)
    | Rename_type value => (s, value, [])
    | Rename_confirm =>
        let '(name', eff) := RenameDialog.handleConfirm (rename_props s) (newName m) in
        let '(s', out) := rename_effects eff s in (s', name', out)
    | Rename_cancel =>
        let '(name', eff) := RenameDialog.handleCancel (newName m) in
        let '(s', out) := rename_effects eff s in (s', name', out)
    | Rename_key key =>
        let '(name', eff) := RenameDialog.handleKeyDown key (rename_props s) (newName m) in
        let '(s', out) := rename_effects eff s in (s', name', out)
    | Rename_dismiss => (setRenameDialogOpen false s, newName m, [])
    | Delete_confirm =>
        let '(s', out) :=
          delete_effects (DeleteConfirmDialog.handleConfirm <$> selectedTemplate s) s in
        (s', newName m, out)
    | Delete_cancel => (setDeleteDialogOpen DeleteConfirmDialog.handleCancel s, newName m, [])
    | Delete_dismiss => (setDeleteDialogOpen false s, newName m, [])
    end in
  (mk_mounted s' (resync s s' name'), out).

(** The list receives the calls of the delete dialog as the dialog makes
    them: [onConfirm] is [handleDeleteConfirm] and [onOpenChange] is
    [setDeleteDialogOpen]. *)
Definition delete_dialog_effects (eff : DeleteConfirmDialog.effects) (s : state) :
    state * list call :=
  let '(s1, out) :=
    match DeleteConfirmDialog.confirmed eff with
    | Some id => let '(s', id') := handleDeleteConfirm id s in (s', [onDelete id'])
    | None => (s, [])
    end in
  (from_option (λ open, setDeleteDialogOpen open s1) s1 (DeleteConfirmDialog.open_change eff),
   out).

(** The actions on the list that are actions on one of its dialogs. *)
Definition as_rename (a : action) : option RenameDialog.action :=
  match a with
  | Rename_type value => Some (RenameDialog.Type_name value)
  | Rename_confirm => Some RenameDialog.Click_confirm
  | Rename_cancel => Some RenameDialog.Click_cancel
  | Rename_key key => Some (RenameDialog.Key_down key)
  | Rename_dismiss => Some RenameDialog.Dismiss
  | _ => None
  end.

Definition as_delete (a : action) : option DeleteConfirmDialog.action :=
  match a with
  | Delete_confirm => Some DeleteConfirmDialog.Click_confirm
  | Delete_cancel => Some DeleteConfirmDialog.Click_cancel
  | Delete_dismiss => Some DeleteConfirmDialog.Dismiss
  | _ => None
  end.

(** ** Reachable lists *)

(** The dialogs of a list: an open dialog has its template, and the two
    are not open together. *)
Definition dialogs_inv (s : state) : Prop :=
  (renameDialogOpen s = true → is_Some (selectedTemplate s))
  ∧ (deleteDialogOpen s = true → is_Some (selectedTemplate s))
  ∧ (renameDialogOpen s = true → deleteDialogOpen s = true → False).

(** The lists a mounted list reaches by available actions, whatever the
    templates the page hands it at each render. *)
Inductive reachable : mounted → Prop :=
| reach_mount : reachable mount
| reach_act templates a m :
    reachable m → available templates m a = true → reachable (act templates a m).1.

(** When the list may make a call on the page. *)
Definition call_justified (templates : list Template.t) (m : mounted) (c : call) : Prop :=
  let s := list_state m in
  match c with
  | onSelect t => t ∈ filteredTemplates templates s
  | onEdit t => t ∈ filteredTemplates templates s ∧ TemplateCard.editable t = true
  | onDelete id => delete_shown s = true ∧ Template.id <$> selectedTemplate s = Some id
  | onRename t n =>
      rename_shown s = true ∧ selectedTemplate s = Some t
      ∧ n = trim (newName m) ∧ n ≠ []
  | onCreateNew | onUploadWord => True
  end.

End TemplateList.

(** * StepIndicator *)

Module StepIndicator.

Record Step : Type := mk_step {
  number : nat;
  title : jstring;
  description : jstring
}.

(** The three looks of the circle of a step. *)
Inductive circle : Type :=
| Done
| Current
| Upcoming.

#[export] Instance circle_eq_dec : EqDecision circle.
Proof. solve_decision. Defined.

Definition circle_of (currentStep : nat) (step : Step) : circle :=
  if number step <? currentStep then Done
  else if currentStep =? number step then Current
  else Upcoming.

(** The circle holds the check mark instead of the number. *)
Definition shows_check (currentStep : nat) (step : Step) : bool :=
  number step <? currentStep.

(** The title is highlighted. *)
Definition title_active (currentStep : nat) (step : Step) : bool :=
  number step <=? currentStep.

(** The line to the next step: absent after the last step, filled when the
    step is done. *)
Definition connector (currentStep : nat) (steps : list Step) (index : nat) (step : Step) :
    option bool :=
  if index <? length steps - 1 then Some (number step <? currentStep) else None.

(** What the component displays for each step. *)
Definition circles (currentStep : nat) (steps : list Step) : list circle :=
  map (circle_of currentStep) steps.

Definition connectors (currentStep : nat) (steps : list Step) : list (option bool) :=
  imap (connector currentStep steps) steps.

(** Steps numbered from one in the order of the list, as [STEPS] is. *)
Definition numbered (steps : list Step) : Prop :=
  ∀ i step, steps !! i = Some step → number step = S i.

End StepIndicator.

(** * Navbar *)

Module Navbar.

Definition userName : jstring := js "Admin User".

(** [userName.split(" ").map((n) => n[0]).join("").toUpperCase()]. *)
Definition userInitials : jstring :=
  toUpperCase (join [] (map first_unit (split " " userName))).

(** [handleLogout]: the text written to the console; nothing else
    happens. *)
Definition handleLogout : jstring := js "Logout clicked".

End Navbar.

(** * Facts *)

Lemma starts_with_refl s : starts_with s s = true.
Proof. apply starts_with_prefix. done. Qed.

Lemma includes_refl s : includes s s = true.
Proof. destruct s; cbn; [done|]. rewrite decide_True by done. by rewrite starts_with_refl. Qed.

Section list_facts.
Import TemplateList.
Implicit Types (templates : list Template.t) (s : state).

Lemma filteredTemplates_sublist templates s : filteredTemplates templates s `sublist_of` templates.
Proof.
  unfold filteredTemplates. destruct (blank _); [done|].
  induction templates as [|t ts IH]; cbn; [done|].
  destruct (name_matches _ t); by constructor.
Qed.

Lemma filteredTemplates_elem templates s t :
  t ∈ filteredTemplates templates s → t ∈ templates.
Proof. intros H. exact (elem_of_sublist _ _ _ H (filteredTemplates_sublist _ _)). Qed.

Lemma length_zero_nil {A} (l : list A) : (length l =? 0) = bool_decide (l = []).
Proof. by destruct l. Qed.

(** The cards displayed are templates of the list, in the order of the
    list, and there is at least one; the state without templates is
    displayed exactly when the list is empty, and the state without search
    results exactly when the list is not empty and no name holds the
    query. *)
Theorem list_body_cases templates s :
  match list_body templates s with
  | Grid cards =>
      cards ≠ [] ∧ cards `sublist_of` templates ∧ cards = filteredTemplates templates s
  | NoTemplates => templates = []
  | NoSearchResults => templates ≠ [] ∧ filteredTemplates templates s = []
  end.
Proof.
  unfold list_body. rewrite !length_zero_nil.
  pose proof (filteredTemplates_sublist templates s) as Hsub.
  destruct (filteredTemplates templates s) as [|c cs] eqn:Hf;
    destruct templates as [|t ts]; cbn; done.
Qed.

(** A template of the list is displayed when the query is blank and
    when the query is its name. *)
Theorem filteredTemplates_finds templates s t :
  t ∈ templates →
  blank (searchQuery s) = true ∨ searchQuery s = Template.name t →
  t ∈ filteredTemplates templates s.
Proof.
  intros Hin Hq. unfold filteredTemplates.
  destruct (blank (searchQuery s)) eqn:Hb; [done|].
  destruct Hq as [|Hq]; [done|].
  apply list_elem_of_In, filter_In. split; [by apply list_elem_of_In|].
  unfold name_matches. rewrite Hq. apply includes_refl.
Qed.

(** Confirming a dialog forgets the template it was opened for. *)
Lemma confirm_clears_selection template newName id s :
  selectedTemplate (handleRenameConfirm template newName s).1 = None
  ∧ selectedTemplate (handleDeleteConfirm id s).1 = None.
Proof. done. Qed.

End list_facts.

Lemma filteredTemplates_finds_witness :
  Template.mk (js "1") (js "Invoice") [] [] [] [] None None ∈
    TemplateList.filteredTemplates
      [Template.mk (js "0") (js "Letter") [] [] [] [] None None;
       Template.mk (js "1") (js "Invoice") [] [] [] [] None None]
      (TemplateList.setSearchQuery (js "Invoice") TemplateList.initial).
Proof.
  apply filteredTemplates_finds; [|by right].
  apply elem_of_cons. right. apply elem_of_cons. by left.
Defined.

Section card_facts.
Import TemplateCard.

(** Every click on a card calls exactly one property: the buttons stop
    the event, so a click on a button does not select the template. *)
Lemma click_one_call template tg : length (click template tg) = 1.
Proof. by destruct tg. Qed.

(** A click calls [onEdit] only from the button that edits, and that
    button is displayed only for templates that are not Word templates. *)
Lemma click_onEdit template tg t :
  tg ∈ targets template → onEdit t ∈ click template tg →
  tg = EditButton ∧ t = template ∧ editable template = true.
Proof.
  intros Htg Hc. destruct tg; cbn in Hc; apply list_elem_of_singleton in Hc; try done.
  injection Hc as ->. split_and!; [done..|].
  unfold targets, buttons in Htg. destruct (editable template); [done|].
  cbn in Htg. rewrite !elem_of_cons, elem_of_nil in Htg. naive_solver.
Qed.

Lemma click_calls template tg c :
  c ∈ click template tg →
  match tg with
  | Card => c = onSelect template
  | RenameButton => c = onRename template
  | EditButton => c = onEdit template
  | DeleteButton => c = onDelete template
  end.
Proof. by destruct tg; cbn; intros ->%list_elem_of_singleton. Qed.

End card_facts.

Section view_facts.
Import TemplateList.
Implicit Types (templates : list Template.t) (s : state) (m : mounted) (a : action).

Lemma rename_shown_spec s :
  rename_shown s = true ↔ renameDialogOpen s = true ∧ is_Some (selectedTemplate s).
Proof.
  unfold rename_shown, RenameDialog.rendered. cbn.
  rewrite andb_true_iff, bool_decide_eq_true. naive_solver.
Qed.

Lemma delete_shown_spec s :
  delete_shown s = true ↔ deleteDialogOpen s = true ∧ is_Some (selectedTemplate s).
Proof.
  unfold delete_shown, DeleteConfirmDialog.rendered. cbn.
  rewrite andb_true_iff, bool_decide_eq_true. naive_solver.
Qed.

Lemma behind_spec s :
  dialogs_inv s → negb (rename_shown s || delete_shown s) = true →
  renameDialogOpen s = false ∧ deleteDialogOpen s = false.
Proof.
  intros (Hr & Hd & _) H. apply negb_true_iff, orb_false_iff in H as [H1 H2].
  split.
  - destruct (renameDialogOpen s) eqn:E; [|done].
    rewrite <-H1. symmetry. apply rename_shown_spec. auto.
  - destruct (deleteDialogOpen s) eqn:E; [|done].
    rewrite <-H2. symmetry. apply delete_shown_spec. auto.
Qed.

(** The calls of a card as the list receives them. *)
Lemma card_calls_click template tg s :
  card_calls (TemplateCard.click template tg) s =
  match tg with
  | TemplateCard.Card => (s, [onSelect template])
  | TemplateCard.RenameButton => (handleRename template s, [])
  | TemplateCard.EditButton => (s, [onEdit template])
  | TemplateCard.DeleteButton => (handleDelete template s, [])
  end.
Proof. by destruct tg. Qed.

Lemma resync_same s name : resync s s name = name.
Proof. unfold resync. by rewrite decide_True. Qed.

(** From what [available] says to facts about the state. *)
Ltac available_facts Hinv Hav :=
  cbn [available list_state newName] in Hav;
  rewrite ?andb_true_iff in Hav; destruct_and?;
  repeat match goal with
  | H : negb (_ || _) = true |- _ => apply (behind_spec _ Hinv) in H as [? ?]
  | H : rename_shown _ = true |- _ => apply rename_shown_spec in H as [? [? ?]]
  | H : delete_shown _ = true |- _ => apply delete_shown_spec in H as [? [? ?]]
  end.

Ltac dialogs_inv_auto :=
  unfold dialogs_inv in *; cbn in *; intuition (try congruence; eauto).

Lemma act_dialogs_inv templates a m :
  dialogs_inv (list_state m) → available templates m a = true →
  dialogs_inv (list_state (act templates a m).1).
Proof.
  destruct m as [s name]. cbn [list_state]. intros Hinv Hav.
  destruct a; available_facts Hinv Hav; unfold act; cbn [list_state newName].
  - done.
  - by destruct c.
  - by destruct (empty_props _ ≫= _) as [[]|].
  - rewrite card_calls_click. destruct tg; cbn [fst list_state]; by dialogs_inv_auto.
  - done.
  - unfold RenameDialog.handleConfirm. cbn [rename_props RenameDialog.template].
    destruct (selectedTemplate s); [|done]. destruct (negb (blank name)); by dialogs_inv_auto.
  - by dialogs_inv_auto.
  - unfold RenameDialog.handleKeyDown, RenameDialog.handleConfirm.
    cbn [rename_props RenameDialog.template]. destruct (selectedTemplate s); [|done].
    destruct (bool_decide (key = _) && _ && _); [destruct (negb (blank name))|];
      by dialogs_inv_auto.
  - by dialogs_inv_auto.
  - destruct (selectedTemplate s) eqn:E; by dialogs_inv_auto.
  - by dialogs_inv_auto.
  - by dialogs_inv_auto.
Qed.

Lemma Grid_cards templates s cards t :
  list_body templates s = Grid cards → bool_decide (t ∈ cards) = true →
  t ∈ filteredTemplates templates s.
Proof.
  intros Hb Hin%bool_decide_eq_true. pose proof (list_body_cases templates s) as H.
  rewrite Hb in H. by destruct H as (_ & _ & <-).
Qed.

Lemma target_editable template :
  bool_decide (TemplateCard.EditButton ∈ TemplateCard.targets template) = true →
  TemplateCard.editable template = true.
Proof.
  intros H%bool_decide_eq_true. unfold TemplateCard.targets, TemplateCard.buttons in H.
  destruct (TemplateCard.editable template); [done|].
  cbn in H. rewrite !elem_of_cons, elem_of_nil in H. naive_solver.
Qed.

(** The template a dialog is for is the one it was for before, or one
    of a card on display. *)
Lemma act_selected templates a m t :
  dialogs_inv (list_state m) → available templates m a = true →
  selectedTemplate (list_state (act templates a m).1) = Some t →
  selectedTemplate (list_state m) = Some t ∨ t ∈ templates.
Proof.
  destruct m as [s name]. cbn [list_state]. intros Hinv Hav.
  destruct a; available_facts Hinv Hav; unfold act; cbn [list_state newName].
  - by left.
  - destruct c; by left.
  - destruct (empty_props _ ≫= _) as [[]|]; by left.
  - rewrite card_calls_click.
    destruct (list_body templates s) as [| |cards] eqn:Hb; try done.
    destruct tg; cbn; try (by left); intros [= <-]; right;
      eapply filteredTemplates_elem, Grid_cards; eauto.
  - by left.
  - unfold RenameDialog.handleConfirm. cbn [rename_props RenameDialog.template].
    destruct (selectedTemplate s) eqn:E; [|by left; rewrite <-E].
    destruct (negb (blank name)); cbn; [done|by left; rewrite <-E].
  - cbn. by left.
  - unfold RenameDialog.handleKeyDown, RenameDialog.handleConfirm.
    cbn [rename_props RenameDialog.template].
    destruct (selectedTemplate s) eqn:E; [|by left; rewrite <-E].
    destruct (bool_decide (key = _) && _ && _); [destruct (negb (blank name))|]; cbn;
      first [done|by left; rewrite <-E].
  - cbn. by left.
  - destruct (selectedTemplate s) eqn:E; cbn; first [done|by left; rewrite <-E].
  - cbn. by left.
  - cbn. by left.
Qed.

(** The calls an available action makes on the page are justified by
    what the list displayed. *)
Lemma act_calls templates a m c :
  dialogs_inv (list_state m) → available templates m a = true →
  c ∈ (act templates a m).2 → call_justified templates m c.
Proof.
  destruct m as [s name]. cbn [list_state]. intros Hinv Hav.
  destruct a; available_facts Hinv Hav; unfold act; cbn [list_state newName].
  - by intros ?%elem_of_nil.
  - by destruct c0; intros ->%list_elem_of_singleton.
  - destruct (empty_props _ ≫= _) as [[]|]; cbn; intros Hc;
      first [by apply elem_of_nil in Hc|by apply list_elem_of_singleton in Hc as ->].
  - rewrite card_calls_click.
    destruct (list_body templates s) as [| |cards] eqn:Hb; try done.
    destruct tg; cbn [fst snd]; intros Hc;
      try (by apply elem_of_nil in Hc); apply list_elem_of_singleton in Hc as ->; cbn.
    + by eapply Grid_cards.
    + split; [by eapply Grid_cards|by apply target_editable].
  - by intros ?%elem_of_nil.
  - unfold RenameDialog.handleConfirm. cbn [rename_props RenameDialog.template].
    match goal with H : selectedTemplate s = Some _ |- _ => rewrite H end.
    destruct (blank name) eqn:Hb; cbn; intros Hc; [by apply elem_of_nil in Hc|].
    apply list_elem_of_singleton in Hc as ->. cbn.
    split_and!; [by apply rename_shown_spec|done|done|by apply blank_false_trim].
  - by intros ?%elem_of_nil.
  - unfold RenameDialog.handleKeyDown, RenameDialog.handleConfirm.
    cbn [rename_props RenameDialog.template].
    match goal with H : selectedTemplate s = Some _ |- _ => rewrite H end.
    destruct (bool_decide (key = _) && _ && _); [|by intros ?%elem_of_nil].
    destruct (blank name) eqn:Hb; cbn; intros Hc; [by apply elem_of_nil in Hc|].
    apply list_elem_of_singleton in Hc as ->. cbn.
    split_and!; [by apply rename_shown_spec|done|done|by apply blank_false_trim].
  - by intros ?%elem_of_nil.
  - match goal with H : selectedTemplate s = Some _ |- _ => rewrite H end. cbn.
    intros ->%list_elem_of_singleton. cbn.
    match goal with H : selectedTemplate s = Some _ |- _ => rewrite H end.
    split; [by apply delete_shown_spec|done].
  - by intros ?%elem_of_nil.
  - by intros ?%elem_of_nil.
Qed.

Lemma rename_effects_calls eff s c :
  c ∈ (rename_effects eff s).2 → ∃ template name, c = onRename template name.
Proof.
  unfold rename_effects. destruct (RenameDialog.confirmed eff) as [[t n]|]; cbn.
  - intros ->%list_elem_of_singleton. by eexists _, _.
  - by intros ?%elem_of_nil.
Qed.

(** The page is asked to delete or to rename only by the confirmation of a
    dialog. *)
Lemma act_confirms templates a m c :
  c ∈ (act templates a m).2 →
  match c with
  | onDelete _ => a = Delete_confirm
  | onRename _ _ => a = Rename_confirm ∨ ∃ key, a = Rename_key key
  | _ => True
  end.
Proof.
  destruct m as [s name]. unfold act. cbn [list_state newName].
  destruct a; try (by intros ?%elem_of_nil).
  - by destruct c0; intros ->%list_elem_of_singleton.
  - destruct (empty_props _ ≫= _) as [[]|]; cbn; intros Hc;
      first [by apply elem_of_nil in Hc|by apply list_elem_of_singleton in Hc as ->].
  - rewrite card_calls_click.
    destruct tg; cbn; intros Hc;
      first [by apply elem_of_nil in Hc|by apply list_elem_of_singleton in Hc as ->].
  - destruct (RenameDialog.handleConfirm _ _) as [name' eff].
    pose proof (rename_effects_calls eff s c) as H.
    destruct (rename_effects eff s) as [s' out]. cbn in *.
    intros (? & ? & ->)%H. by left.
  - destruct (RenameDialog.handleKeyDown _ _ _) as [name' eff].
    pose proof (rename_effects_calls eff s c) as H.
    destruct (rename_effects eff s) as [s' out]. cbn in *.
    intros (? & ? & ->)%H. right. by eexists.
  - destruct (selectedTemplate s); cbn;
      [by intros ->%list_elem_of_singleton|by intros ?%elem_of_nil].
Qed.

(** An action makes at most one call on the page. *)
Lemma act_one_call templates a m : length (act templates a m).2 ≤ 1.
Proof.
  destruct m as [s name]. unfold act. cbn [list_state newName].
  destruct a; try (cbn; lia).
  - destruct c; cbn; lia.
  - destruct (empty_props _ ≫= _) as [[]|]; cbn; lia.
  - rewrite card_calls_click. destruct tg; cbn; lia.
  - unfold RenameDialog.handleConfirm. cbn [rename_props RenameDialog.template].
    destruct (selectedTemplate s); [|cbn; lia]. destruct (negb (blank name)); cbn; lia.
  - unfold RenameDialog.handleKeyDown, RenameDialog.handleConfirm.
    cbn [rename_props RenameDialog.template].
    destruct (bool_decide (key = _) && _ && _); [|cbn; lia].
    destruct (selectedTemplate s); [|cbn; lia]. destruct (negb (blank name)); cbn; lia.
  - destruct (selectedTemplate s); cbn; lia.
Qed.

Lemma rename_effects_delete eff s :
  deleteDialogOpen (rename_effects eff s).1 = deleteDialogOpen s.
Proof. by destruct eff as [[[t n]|] [o|]]. Qed.

(** The delete dialog is on display after an action only when the action
    was a click on the delete button of a card on display. *)
Lemma delete_shown_after templates a m :
  dialogs_inv (list_state m) → available templates m a = true →
  delete_shown (list_state (act templates a m).1) = true →
  ∃ t, a = Click_card t TemplateCard.DeleteButton
       ∧ selectedTemplate (list_state (act templates a m).1) = Some t
       ∧ t ∈ filteredTemplates templates (list_state m).
Proof.
  destruct m as [s name]. cbn [list_state]. intros Hinv Hav.
  pose proof (λ eff, rename_effects_delete eff s) as Heff.
  destruct a; available_facts Hinv Hav; unfold act; cbn [list_state newName fst];
    rewrite delete_shown_spec.
  - cbn. intros [? ?]; first [done|congruence].
  - destruct c; cbn; intros [? ?]; first [done|congruence].
  - destruct (empty_props _ ≫= _) as [[]|]; cbn; intros [? ?]; first [done|congruence].
  - rewrite card_calls_click.
    destruct (list_body templates s) as [| |cards] eqn:Hb; try done.
    destruct tg; cbn; intros [? ?]; try (first [done|congruence]).
    exists template. split_and!; [done..|by eapply Grid_cards].
  - cbn. intros [? ?]. dialogs_inv_auto.
  - destruct (RenameDialog.handleConfirm _ _) as [name' eff]. specialize (Heff eff).
    destruct (rename_effects eff s) as [s' out]. cbn in *. intros [? ?].
    dialogs_inv_auto.
  - destruct (RenameDialog.handleCancel _) as [name' eff]. specialize (Heff eff).
    destruct (rename_effects eff s) as [s' out]. cbn in *. intros [? ?].
    dialogs_inv_auto.
  - destruct (RenameDialog.handleKeyDown _ _ _) as [name' eff]. specialize (Heff eff).
    destruct (rename_effects eff s) as [s' out]. cbn in *. intros [? ?].
    dialogs_inv_auto.
  - cbn. intros [? ?]. dialogs_inv_auto.
  - match goal with H : selectedTemplate s = Some _ |- _ => rewrite H end. cbn.
    intros [? ?]; first [done|congruence].
  - cbn. intros [? ?]; first [done|congruence].
  - cbn. intros [? ?]; first [done|congruence].
Qed.

Lemma reachable_dialogs_inv m : reachable m → dialogs_inv (list_state m).
Proof.
  induction 1 as [|templates a m _ IH Hav]; [|by apply (act_dialogs_inv templates)].
  unfold dialogs_inv. by cbn.
Qed.

(** A template is deleted only on confirmation, and the confirmation is
    for the card whose delete button was clicked just before: when
    confirming calls [onDelete], the action before was the click on the
    delete button of a card on display, and the identifier is that of its
    template. *)
Theorem delete_confirmed_for_clicked templates templates' a m id :
  reachable m → available templates m a = true →
  available templates' (act templates a m).1 Delete_confirm = true →
  onDelete id ∈ (act templates' Delete_confirm (act templates a m).1).2 →
  ∃ t, a = Click_card t TemplateCard.DeleteButton
       ∧ t ∈ filteredTemplates templates (list_state m) ∧ id = Template.id t.
Proof.
  intros Hinv%reachable_dialogs_inv Hav Hav' Hc.
  destruct (delete_shown_after templates a m Hinv Hav) as (t & -> & Hsel & Hin); [done|].
  exists t. split_and!; [done..|].
  apply (act_calls templates') in Hc; [|by apply act_dialogs_inv|done].
  destruct Hc as [_ Hid]. rewrite Hsel in Hid. by injection Hid.
Qed.

Lemma act_click_card templates t m : act templates (Click_card t TemplateCard.Card) m = (m, [onSelect t]).
Proof.
  destruct m as [s name]. unfold act. cbn [list_state newName].
  by rewrite card_calls_click, resync_same.
Qed.

Lemma act_click_rename templates t m :
  renameDialogOpen (list_state m) = false →
  act templates (Click_card t TemplateCard.RenameButton) m =
    (mk_mounted (handleRename t (list_state m)) (Template.name t), []).
Proof.
  destruct m as [s name]. cbn [list_state]. intros Hro. unfold act.
  cbn [list_state newName]. rewrite card_calls_click. do 2 f_equal.
  unfold resync, rename_props. rewrite decide_False; [done|]. cbn. by rewrite Hro.
Qed.

Lemma act_rename_type templates value m :
  act templates (Rename_type value) m = (mk_mounted (list_state m) value, []).
Proof. unfold act. by rewrite resync_same. Qed.

Lemma act_rename_confirm templates s name t :
  selectedTemplate s = Some t → renameDialogOpen s = true → blank name = false →
  act templates Rename_confirm (mk_mounted s name) =
    (mk_mounted (setRenameDialogOpen false (setSelectedTemplate None s)) [],
     [onRename t (trim name)]).
Proof.
  intros Ht Ho Hb. unfold act, RenameDialog.handleConfirm.
  cbn [list_state newName rename_props RenameDialog.template]. rewrite Ht, Hb. cbn.
  do 2 f_equal. unfold resync, rename_props. rewrite decide_False; [done|]. cbn.
  by rewrite Ho.
Qed.

(** The rename of a template from its card: a click on the rename button
    opens the dialog with the name of the template in its field; after
    typing a name that is not blank, confirming calls [onRename] once, with
    the template of the card and the name trimmed, closes the dialog and
    empties the field. *)
Theorem rename_from_card templates t value m :
  dialogs_inv (list_state m) →
  available templates m (Click_card t TemplateCard.RenameButton) = true →
  blank value = false →
  let m1 := (act templates (Click_card t TemplateCard.RenameButton) m).1 in
  let m2 := (act templates (Rename_type value) m1).1 in
  newName m1 = Template.name t
  ∧ available templates m1 (Rename_type value) = true
  ∧ available templates m2 Rename_confirm = true
  ∧ (act templates Rename_confirm m2).2 = [onRename t (trim value)]
  ∧ rename_shown (list_state (act templates Rename_confirm m2).1) = false
  ∧ newName (act templates Rename_confirm m2).1 = [].
Proof.
  intros Hinv Hav Hb. available_facts Hinv Hav.
  rewrite act_click_rename by done. cbn [fst]. rewrite act_rename_type. cbn [fst list_state].
  rewrite (act_rename_confirm _ _ _ t) by done.
  assert (rename_shown (handleRename t (list_state m)) = true) as Hs.
  { by apply rename_shown_spec. }
  cbn [available list_state newName fst snd]. rewrite Hs.
  unfold RenameDialog.confirm_disabled. by rewrite Hb.
Qed.

(** The button of an empty state the list displays is wired: with no
    template it creates one, with no search result it clears the query,
    after which every template is on display again. *)
Lemma empty_state_button templates m :
  dialogs_inv (list_state m) → available templates m Click_empty = true →
  match list_body templates (list_state m) with
  | NoTemplates => (act templates Click_empty m).2 = [onCreateNew]
  | NoSearchResults =>
      (act templates Click_empty m).2 = []
      ∧ filteredTemplates templates (list_state (act templates Click_empty m).1) = templates
  | Grid _ => False
  end.
Proof.
  destruct m as [s name]. cbn [list_state]. intros Hinv Hav. available_facts Hinv Hav.
  unfold act. cbn [list_state newName].
  by destruct (list_body templates s); cbn in *.
Qed.

(** The controls of the rename dialog are the controls of the list while
    the dialog is on display: the list offers them where the dialog does,
    and what they do is what the dialog does, with its calls received by
    the list. *)
Theorem list_rename_dialog templates a m ra :
  as_rename a = Some ra →
  available templates m a
    = RenameDialog.available (rename_props (list_state m)) (newName m) ra
  ∧ act templates a m =
      let '(name', eff) := RenameDialog.act (rename_props (list_state m)) ra (newName m) in
      let '(s', out) := rename_effects eff (list_state m) in
      (mk_mounted s' (resync (list_state m) s' name'), out).
Proof.
  destruct m as [s name]. unfold available, rename_shown, RenameDialog.available, act.
  destruct a; intros [= <-]; cbn [list_state newName RenameDialog.act];
    (split; [by rewrite ?andb_true_r|]); try done.
  all: by repeat case_match; simplify_eq/=.
Qed.

(** The same for the delete dialog. *)
Theorem list_delete_dialog templates a m da :
  as_delete a = Some da →
  available templates m a = DeleteConfirmDialog.available (delete_props (list_state m)) da
  ∧ act templates a m =
      let '(s', out) :=
        delete_dialog_effects (DeleteConfirmDialog.act (delete_props (list_state m)) da)
          (list_state m) in
      (mk_mounted s' (resync (list_state m) s' (newName m)), out).
Proof.
  destruct m as [s name]. unfold available, delete_shown, DeleteConfirmDialog.available, act.
  destruct a; intros [= <-]; cbn [list_state newName]; (split; [done|]).
  all: unfold DeleteConfirmDialog.act, delete_props; cbn; by destruct (selectedTemplate s).
Qed.

End view_facts.

(** The initials in the avatar. *)
Example userInitials_value : Navbar.userInitials = js "AU".
Proof. done. Qed.


Section dialog_facts.
Import RenameDialog.

Lemma handleConfirm_Some p newName t n :
  confirmed (handleConfirm p newName).2 = Some (t, n) →
  template p = Some t ∧ blank newName = false ∧ n = trim newName.
Proof.
  unfold handleConfirm. destruct (template p) as [t'|]; [|done].
  destruct (blank newName); [done|]. by intros [= <- <-].
Qed.

(** A rename that the dialog confirms, by its button or by the Enter
    key, is for the template the dialog was opened with, and the new name
    is trimmed and not empty; the dialog closes and its field is
    emptied. *)
Theorem rename_confirmed key p newName t n :
  confirmed (handleConfirm p newName).2 = Some (t, n)
  ∨ confirmed (handleKeyDown key p newName).2 = Some (t, n) →
  template p = Some t ∧ n ≠ [] ∧ no_space_ends n
  ∧ handleConfirm p newName = ([], mk_effects (Some (t, n)) (Some false)).
Proof.
  intros H.
  assert (confirmed (handleConfirm p newName).2 = Some (t, n)) as Hc.
  { destruct H as [|H]; [done|]. unfold handleKeyDown in H. by destruct (_ && _ && _). }
  destruct (handleConfirm_Some _ _ _ _ Hc) as (Ht & Hb & ->).
  split_and!; [done|by apply blank_false_trim|apply trim_no_space_ends|].
  unfold handleConfirm. by rewrite Ht, Hb.
Qed.

(** The confirm button is enabled exactly when [handleConfirm] on a dialog
    with a template confirms. *)
Lemma confirm_disabled_spec p newName t :
  template p = Some t →
  confirm_disabled newName = false ↔ is_Some (confirmed (handleConfirm p newName).2).
Proof.
  intros Ht. unfold confirm_disabled, handleConfirm. rewrite Ht.
  destruct (blank newName); cbn; [|by split].
  split; [done|]. by intros [? ?].
Qed.

(** A key other than Enter, and Enter while the name is blank, do
    nothing; Enter otherwise does what the click on the confirm button
    does. *)
Theorem key_down_is_confirm key p newName :
  RenameDialog.act p (RenameDialog.Key_down key) newName =
    if bool_decide (key = js "Enter")
       && RenameDialog.available (RenameDialog.mk_props true (RenameDialog.template p)) newName
            RenameDialog.Click_confirm
    then RenameDialog.act p RenameDialog.Click_confirm newName
    else (newName, RenameDialog.mk_effects None None).
Proof.
  cbn. unfold RenameDialog.handleKeyDown, RenameDialog.available, RenameDialog.rendered,
    RenameDialog.confirm_disabled. cbn. by rewrite andb_true_r, andb_assoc.
Qed.

(** Whatever the user does on the rename dialog, the dialog calls
    [onConfirm] only with the template it was given and the trimmed text
    of the field, which is then not empty, and it closes with the field
    cleared. *)
Theorem rename_dialog_confirms p a newName t n :
  RenameDialog.confirmed (RenameDialog.act p a newName).2 = Some (t, n) →
  RenameDialog.template p = Some t ∧ n = trim newName ∧ n ≠ []
  ∧ RenameDialog.act p a newName
    = ([], RenameDialog.mk_effects (Some (t, n)) (Some false)).
Proof.
  assert (∀ q, RenameDialog.confirmed (RenameDialog.handleConfirm p newName).2 = Some q →
    RenameDialog.template p = Some q.1 ∧ q.2 = trim newName ∧ q.2 ≠ []
    ∧ RenameDialog.handleConfirm p newName
      = ([], RenameDialog.mk_effects (Some q) (Some false))) as Hc.
  { unfold RenameDialog.handleConfirm. destruct (RenameDialog.template p) as [t'|]; [|done].
    destruct (blank newName) eqn:Hb; [done|]. cbn. intros q [= <-]. split_and!; try done.
    cbn. intros Hn. unfold blank in Hb. by rewrite Hn, bool_decide_eq_true_2 in Hb. }
  destruct a as [value| | |key|]; cbn; try done; [apply (Hc (t, n))|].
  unfold RenameDialog.handleKeyDown. destruct (_ && _); [apply (Hc (t, n))|done].
Qed.

(** The delete dialog calls [onConfirm] only on a click on its button
    that deletes, with the identifier of the template it was given, and it
    closes whatever the user does on it. *)
Theorem delete_dialog_confirms p a :
  DeleteConfirmDialog.available p a = true →
  DeleteConfirmDialog.open_change (DeleteConfirmDialog.act p a) = Some false
  ∧ DeleteConfirmDialog.confirmed (DeleteConfirmDialog.act p a) =
      if decide (a = DeleteConfirmDialog.Click_confirm)
      then Template.id <$> DeleteConfirmDialog.template p else None.
Proof.
  unfold DeleteConfirmDialog.available, DeleteConfirmDialog.rendered.
  intros [[t Ht]%bool_decide_eq_true _]%andb_true_iff.
  unfold DeleteConfirmDialog.act. rewrite Ht. by destruct a.
Qed.

End dialog_facts.

Lemma rename_confirmed_witness :
  RenameDialog.template
    (RenameDialog.mk_props true
       (Some (Template.mk (js "1") (js "Invoice") [] [] [] [] None None))) =
    Some (Template.mk (js "1") (js "Invoice") [] [] [] [] None None)
  ∧ js "Bill" ≠ [] ∧ no_space_ends (js "Bill")
  ∧ RenameDialog.handleConfirm
      (RenameDialog.mk_props true
         (Some (Template.mk (js "1") (js "Invoice") [] [] [] [] None None)))
      (js " Bill ") =
    ([], RenameDialog.mk_effects
           (Some (Template.mk (js "1") (js "Invoice") [] [] [] [] None None, js "Bill"))
           (Some false)).
Proof. apply (rename_confirmed (js "Enter")). by left. Defined.

Section step_facts.
Import StepIndicator.
Implicit Types (steps : list Step).

Lemma circle_of_numbered currentStep i step :
  number step = S i →
  circle_of currentStep step =
    if S i <? currentStep then Done else if currentStep =? S i then Current else Upcoming.
Proof. unfold circle_of. by intros ->. Qed.

(** For steps numbered from one, the indicator marks the steps before
    the current one as done, the current one as current and the later ones
    as upcoming; the check mark stands exactly in the circles that are
    done. *)
Theorem circles_spec currentStep steps i step :
  numbered steps → steps !! i = Some step →
  circles currentStep steps !! i =
    Some (if decide (S i < currentStep) then Done
          else if decide (S i = currentStep) then Current else Upcoming)
  ∧ (shows_check currentStep step = true ↔ circle_of currentStep step = Done).
Proof.
  intros Hn Hi. split.
  - unfold circles. rewrite list_lookup_fmap, Hi. cbn [fmap option_fmap option_map].
    rewrite (circle_of_numbered _ i) by by apply Hn.
    repeat case_decide; destruct (S i <? currentStep) eqn:E1;
      destruct (currentStep =? S i) eqn:E2;
      rewrite ?Nat.ltb_lt, ?Nat.ltb_ge, ?Nat.eqb_eq, ?Nat.eqb_neq in *; done || lia.
  - unfold shows_check, circle_of.
    by destruct (number step <? currentStep), (currentStep =? number step).
Qed.

(** Every step but the last has a line to the next. *)
Lemma connectors_spec currentStep steps i step :
  steps !! i = Some step →
  connectors currentStep steps !! i =
    Some (if decide (S i < length steps) then Some (number step <? currentStep) else None).
Proof.
  intros Hi. unfold connectors. rewrite list_lookup_imap, Hi.
  cbn [fmap option_fmap option_map]. unfold connector.
  apply lookup_lt_Some in Hi.
  case_decide; destruct (i <? length steps - 1) eqn:E;
    rewrite ?Nat.ltb_lt, ?Nat.ltb_ge in *; done || lia.
Qed.

End step_facts.
