(* ===== verification/Workflow.v ===== *)
(** * Workflow: the page that leads through the four steps

    The component [Index] of [src/src/pages/Index.tsx].  Its ten state
    variables are the record [state]; each handler is a function on that
    record, and the handlers that save, delete or load templates also take
    and return the remote side of [Store.v].  What the page displays is
    [view]: the list of the screens whose conditions hold, in the order of
    the source.

    The page is then a transition system: an [event] is a call one of the
    screens makes into a handler, [offered] says which events the screens on
    display can raise, and [reachable] are the states the page reaches from
    its first render.  The invariants are proved by induction on
    [reachable].

    A handler that awaits a remote call is modelled by its outcome: the
    state after its last [await].  A handler that throws keeps the state
    changes it made before; the error is part of its result. *)

From Stdlib Require Import Ascii String ZArith.
From stdpp Require Import base numbers list.
From S2P Require Import Prelude JsString Types Regex Pattern Segments Extract Merge Batch.
From S2P Require Import Mapping Store Export Catalog.

Module Index.

(** ** State *)

(** [STEPS]. *)
Definition STEPS : list StepIndicator.Step :=
  [StepIndicator.mk_step 1 (js "Template") (js "Create or select");
   StepIndicator.mk_step 2 (js "Data Source") (js "Choose input method");
   StepIndicator.mk_step 3 (js "Fill/Map") (js "Provide data");
   StepIndicator.mk_step 4 (js "Generate") (js "Preview & export")].

(** [type ViewMode]. *)
Inductive ViewMode : Type :=
| view_list
| view_edit
| view_create
| view_word_upload.

(** [type DataMode] without [null]; a [DataMode] is an [option] of it. *)
Inductive DataMode : Type :=
| mode_dataset
| mode_manual.

#[export] Instance ViewMode_eq_dec : EqDecision ViewMode.
Proof. solve_decision. Defined.

#[export] Instance DataMode_eq_dec : EqDecision DataMode.
Proof. solve_decision. Defined.

Record state : Type := mk_state {
  currentStep : nat;
  viewMode : ViewMode;
  dataMode : option DataMode;
  templates : list Template.t;
  selectedTemplate : option Template.t;
  editingTemplate : option Template.t;
  dataset : list DataRow;
  dataHeaders : list jstring;
  fieldMappings : list FieldMapping.t;
  mergedDocuments : list MergedDocument.t
}.

(** The ten [useState] calls. *)
Definition initial : state := mk_state 1 view_list None [] None None [] [] [] [].

Definition setCurrentStep (v : nat) (s : state) : state :=
  mk_state v (viewMode s) (dataMode s) (templates s) (selectedTemplate s)
    (editingTemplate s) (dataset s) (dataHeaders s) (fieldMappings s) (mergedDocuments s).

Definition setViewMode (v : ViewMode) (s : state) : state :=
  mk_state (currentStep s) v (dataMode s) (templates s) (selectedTemplate s)
    (editingTemplate s) (dataset s) (dataHeaders s) (fieldMappings s) (mergedDocuments s).

Definition setDataMode (v : option DataMode) (s : state) : state :=
  mk_state (currentStep s) (viewMode s) v (templates s) (selectedTemplate s)
    (editingTemplate s) (dataset s) (dataHeaders s) (fieldMappings s) (mergedDocuments s).

Definition setTemplates (v : list Template.t) (s : state) : state :=
  mk_state (currentStep s) (viewMode s) (dataMode s) v (selectedTemplate s)
    (editingTemplate s) (dataset s) (dataHeaders s) (fieldMappings s) (mergedDocuments s).

Definition setSelectedTemplate (v : option Template.t) (s : state) : state :=
  mk_state (currentStep s) (viewMode s) (dataMode s) (templates s) v
    (editingTemplate s) (dataset s) (dataHeaders s) (fieldMappings s) (mergedDocuments s).

Definition setEditingTemplate (v : option Template.t) (s : state) : state :=
  mk_state (currentStep s) (viewMode s) (dataMode s) (templates s) (selectedTemplate s)
    v (dataset s) (dataHeaders s) (fieldMappings s) (mergedDocuments s).

Definition setDataset (v : list DataRow) (s : state) : state :=
  mk_state (currentStep s) (viewMode s) (dataMode s) (templates s) (selectedTemplate s)
    (editingTemplate s) v (dataHeaders s) (fieldMappings s) (mergedDocuments s).

Definition setDataHeaders (v : list jstring) (s : state) : state :=
  mk_state (currentStep s) (viewMode s) (dataMode s) (templates s) (selectedTemplate s)
    (editingTemplate s) (dataset s) v (fieldMappings s) (mergedDocuments s).

Definition setFieldMappings (v : list FieldMapping.t) (s : state) : state :=
  mk_state (currentStep s) (viewMode s) (dataMode s) (templates s) (selectedTemplate s)
    (editingTemplate s) (dataset s) (dataHeaders s) v (mergedDocuments s).

Definition setMergedDocuments (v : list MergedDocument.t) (s : state) : state :=
  mk_state (currentStep s) (viewMode s) (dataMode s) (templates s) (selectedTemplate s)
    (editingTemplate s) (dataset s) (dataHeaders s) (fieldMappings s) v.

(** What a handler throws: the [TypeError] of a property read on [null],
    or the error of [new RegExp]. *)
Inductive thrown : Type :=
| TypeError
| RegExpError (e : regexp_error).

(** [selectedTemplate?.id === id]. *)
Definition selected_is (s : state) (id : jstring) : bool :=
  bool_decide (Template.id <$> selectedTemplate s = Some id).

(** ** Handlers *)

(** [loadTemplates]. *)
Definition loadTemplates (o : Store.outcome) (r : Store.remote) (s : state) : state :=
  let loaded := Store.getTemplates o r in
  setTemplates loaded s.

(** [handleTemplateSelect]. *)
Definition handleTemplateSelect (template : Template.t) (s : state) : state * toast :=
  (setCurrentStep 2 (setDataMode None (setViewMode view_list
     (setSelectedTemplate (Some template) s))),
   toast_success (js "Selected: " ++ Template.name template)).

(** [handleTemplateEdit]. *)
Definition handleTemplateEdit (template : Template.t) (s : state) : state :=
  setViewMode view_edit (setEditingTemplate (Some template) s).

(** [handleTemplateSave].  [o] decides the remote calls of the save, [o']
    those of the reload; [now] is the time of the save. *)
Definition handleTemplateSave (o o' : Store.outcome) (now : jstring)
    (template : Template.t) (file : option Store.File) (r : Store.remote) (s : state) :
    state * Store.remote * toast :=
  let '(saved, r') := Store.saveTemplate o now template file r in
  match saved with
  | Some _ =>
      (setEditingTemplate None (setViewMode view_list (loadTemplates o' r' s)), r',
       toast_success (js "Template saved successfully"))
  | None => (s, r', toast_error (js "Failed to save template"))
  end.

(** [handleTemplateDelete]. *)
Definition handleTemplateDelete (o o' : Store.outcome) (id : jstring)
    (r : Store.remote) (s : state) : state * Store.remote * toast :=
  let r' := Store.deleteTemplate o id r in
  let s1 := loadTemplates o' r' s in
  let s2 :=
    if selected_is s id
    then setCurrentStep 1 (setSelectedTemplate None s1)
    else s1 in
  (s2, r', toast_success (js "Template deleted")).

(** [handleCreateNew] and [handleUploadWord]. *)
Definition handleCreateNew (s : state) : state :=
  setViewMode view_create (setEditingTemplate None s).

Definition handleUploadWord (s : state) : state := setViewMode view_word_upload s.

(** The [onCancel] of the editor and of the uploader. *)
Definition handleCancel (s : state) : state := setViewMode view_list s.

(** [handleDataModeSelect]. *)
Definition handleDataModeSelect (mode : option DataMode) (s : state) : state :=
  setCurrentStep 3 (setDataMode mode s).

(** [handleDataLoaded]. *)
Definition handleDataLoaded (data : list DataRow) (headers : list jstring) (s : state) :
    state :=
  let s1 := setDataHeaders headers (setDataset data s) in
  if 0 <? length data then setCurrentStep 3 s1 else s1.

(** The mappings [handleManualDataFilled] makes: each placeholder is bound
    to the field of its own name. *)
Definition identity_mappings (placeholders : list jstring) : list FieldMapping.t :=
  map (λ p, FieldMapping.mk p p) placeholders.

(** [handleManualDataFilled]. *)
Definition handleManualDataFilled (data : DataRow) (s : state) :
    state * result thrown toast :=
  let s1 := setDataHeaders (row_keys data) (setDataset [data] s) in
  match selectedTemplate s with
  | None => (s1, Err TypeError)
  | Some template =>
      let autoMappings := identity_mappings (Template.placeholders template) in
      let s2 := setFieldMappings autoMappings s1 in
      match mergeAllDocuments template [data] autoMappings with
      | Ok merged =>
          (setCurrentStep 4 (setMergedDocuments merged s2),
           Ok (toast_success (js "Document generated successfully")))
      | Err e => (s2, Err (RegExpError e))
      end
  end.

(** [handleMappingComplete]. *)
Definition handleMappingComplete (mappings : list FieldMapping.t) (s : state) :
    state * result thrown (option toast) :=
  let s1 := setFieldMappings mappings s in
  match selectedTemplate s with
  | Some template =>
      if 0 <? length (dataset s) then
        match mergeAllDocuments template (dataset s) mappings with
        | Ok merged =>
            (setCurrentStep 4 (setMergedDocuments merged s1),
             Ok (Some (toast_success (js "Generated " ++ string_of_nat (length merged)
                                        ++ js " documents"))))
        | Err e => (s1, Err (RegExpError e))
        end
      else (s1, Ok None)
  | None => (s1, Ok None)
  end.

(** [handleBackToMapping]. *)
Definition handleBackToMapping (s : state) : state := setCurrentStep 3 s.

(** The [onBack] of the manual form. *)
Definition handleManualBack (s : state) : state := setCurrentStep 2 (setDataMode None s).

(** [handleBackToTemplates]. *)
Definition handleBackToTemplates (s : state) : state :=
  setCurrentStep 1 (setMergedDocuments [] (setFieldMappings [] (setDataHeaders []
    (setDataset [] (setDataMode None (setSelectedTemplate None s)))))).

(** The object [updatedTemplate] of [handleTemplateRename]. *)
Definition renamed (template : Template.t) (newName now : jstring) : Template.t :=
  Template.mk (Template.id template) newName (Template.content template)
    (Template.placeholders template) (Template.createdAt template) now
    (Template.wordDocumentData template) (Template.isWordTemplate template).

(** [handleTemplateRename]. *)
Definition handleTemplateRename (o o' : Store.outcome) (now : jstring)
    (template : Template.t) (newName : jstring) (r : Store.remote) (s : state) :
    state * Store.remote * toast :=
  let updatedTemplate := renamed template newName now in
  let '(saved, r') := Store.saveTemplate o now updatedTemplate None r in
  match saved with
  | Some _ =>
      let s1 := loadTemplates o' r' s in
      let s2 :=
        if selected_is s (Template.id template)
        then setSelectedTemplate (Some updatedTemplate) s1
        else s1 in
      (s2, r', toast_success (js "Template renamed successfully"))
  | None => (s, r', toast_error (js "Failed to rename template"))
  end.

(** ** What the page displays *)

(** The screens below the step indicator, each with the properties it
    receives. *)
Inductive screen : Type :=
| TemplateListScreen (templates : list Template.t)
| TemplateEditorScreen (template : option Template.t)
| WordTemplateUploaderScreen
| ChooseDataSource (template : Template.t)
| DatasetUploaderScreen (template : Template.t)
| ManualFormFillerScreen (placeholders : list jstring)
| FieldMapperScreen (placeholders dataFields : list jstring)
| DocumentPreviewScreen (p : DocumentPreview.props).

(** [{cond && <Screen />}]. *)
Definition show (cond : bool) (sc : screen) : list screen := if cond then [sc] else [].

(** [{cond && selectedTemplate && <Screen />}]. *)
Definition show_selected (cond : bool) (s : state) (sc : Template.t → screen) : list screen :=
  match selectedTemplate s with
  | Some template => show cond (sc template)
  | None => []
  end.

(** The body of [main], below the step indicator. *)
Definition view (s : state) : list screen :=
  (if currentStep s =? 1 then
     show (bool_decide (viewMode s = view_list)) (TemplateListScreen (templates s))
     ++ show (bool_decide (viewMode s = view_edit) || bool_decide (viewMode s = view_create))
          (TemplateEditorScreen (editingTemplate s))
     ++ show (bool_decide (viewMode s = view_word_upload)) WordTemplateUploaderScreen
   else [])
  ++ show_selected ((currentStep s =? 2) && bool_decide (dataMode s = None)) s
       ChooseDataSource
  ++ show_selected ((currentStep s =? 3) && bool_decide (dataMode s = Some mode_dataset)
                    && (length (dataset s) =? 0)) s
       DatasetUploaderScreen
  ++ show_selected ((currentStep s =? 3) && bool_decide (dataMode s = Some mode_manual)) s
       (λ template, ManualFormFillerScreen (Template.placeholders template))
  ++ show_selected ((currentStep s =? 3) && bool_decide (dataMode s = Some mode_dataset)
                    && (0 <? length (dataset s))) s
       (λ template, FieldMapperScreen (Template.placeholders template) (dataHeaders s))
  ++ show_selected ((currentStep s =? 4) && (0 <? length (mergedDocuments s))) s
       (λ template,
          DocumentPreviewScreen
            (DocumentPreview.mk_props (mergedDocuments s) template (dataset s)
               (fieldMappings s))).

(** ** The page as a transition system *)

(** The page together with the remote side. *)
Record world : Type := mk_world {
  page : state;
  remote : Store.remote
}.

(** A call of a screen into a handler, or the arrival of the templates the
    first render asked for. *)
Inductive event : Type :=
| TemplatesLoaded (o : Store.outcome)
| TemplateSelect (template : Template.t)
| TemplateEdit (template : Template.t)
| TemplateSave (o o' : Store.outcome) (now : jstring) (template : Template.t)
    (file : option Store.File)
| TemplateDelete (o o' : Store.outcome) (id : jstring)
| TemplateRename (o o' : Store.outcome) (now : jstring) (template : Template.t)
    (newName : jstring)
| CreateNew
| UploadWord
| Cancel
| DataModeSelect (mode : DataMode)
| DataLoaded (data : list DataRow) (headers : list jstring)
| ManualDataFilled (data : DataRow)
| ManualBack
| MappingComplete (mappings : list FieldMapping.t)
| BackToMapping
| BackToTemplates.

(** The world after the handler of an event has run. *)
Definition handle (e : event) (w : world) : world :=
  let s := page w in
  let r := remote w in
  match e with
  | TemplatesLoaded o => mk_world (loadTemplates o r s) r
  | TemplateSelect template => mk_world (handleTemplateSelect template s).1 r
  | TemplateEdit template => mk_world (handleTemplateEdit template s) r
  | TemplateSave o o' now template file =>
      let '(s', r', _) := handleTemplateSave o o' now template file r s in mk_world s' r'
  | TemplateDelete o o' id =>
      let '(s', r', _) := handleTemplateDelete o o' id r s in mk_world s' r'
  | TemplateRename o o' now template newName =>
      let '(s', r', _) := handleTemplateRename o o' now template newName r s in
      mk_world s' r'
  | CreateNew => mk_world (handleCreateNew s) r
  | UploadWord => mk_world (handleUploadWord s) r
  | Cancel => mk_world (handleCancel s) r
  | DataModeSelect mode => mk_world (handleDataModeSelect (Some mode) s) r
  | DataLoaded data headers => mk_world (handleDataLoaded data headers s) r
  | ManualDataFilled data => mk_world (handleManualDataFilled data s).1 r
  | ManualBack => mk_world (handleManualBack s) r
  | MappingComplete mappings => mk_world (handleMappingComplete mappings s).1 r
  | BackToMapping => mk_world (handleBackToMapping s) r
  | BackToTemplates => mk_world (handleBackToTemplates s) r
  end.

(** The events whose handlers write to the remote side: they call
    [saveTemplate] or [deleteTemplate]. *)
Definition writes (e : event) : bool :=
  match e with
  | TemplateSave _ _ _ _ _ | TemplateDelete _ _ _ | TemplateRename _ _ _ _ _ => true
  | _ => false
  end.

(** The screen on display is one [p] holds of. *)
Definition on_display (s : state) (p : screen → bool) : Prop :=
  Exists (λ sc, p sc = true) (view s).

Definition is_list (sc : screen) : bool :=
  match sc with TemplateListScreen _ => true | _ => false end.

Definition is_form (sc : screen) : bool :=
  match sc with
  | TemplateEditorScreen _ | WordTemplateUploaderScreen => true
  | _ => false
  end.

Definition is_choice (sc : screen) : bool :=
  match sc with ChooseDataSource _ => true | _ => false end.

Definition is_uploader (sc : screen) : bool :=
  match sc with DatasetUploaderScreen _ => true | _ => false end.

Definition is_manual (sc : screen) : bool :=
  match sc with ManualFormFillerScreen _ => true | _ => false end.

Definition is_mapper (sc : screen) : bool :=
  match sc with FieldMapperScreen _ _ => true | _ => false end.

Definition is_preview (sc : screen) : bool :=
  match sc with DocumentPreviewScreen _ => true | _ => false end.

(** A template as [getTemplates] returns it. *)
Definition stored (template : Template.t) : Prop :=
  Template.content template = [] ∧ Template.isWordTemplate template = Some true.

(** The events the screens on display can raise.  The list selects and
    edits templates it displays, and its cards offer to edit a template
    only when it is not a Word template; its dialogs rename and delete a
    template that was listed when the dialog was opened, which the list
    may have dropped since.  The editor and the uploader save; the three
    screens with the button "Back to Templates" go back. *)
Definition offered (s : state) (e : event) : Prop :=
  match e with
  | TemplatesLoaded _ => True
  | TemplateSelect template => on_display s is_list ∧ template ∈ templates s
  | TemplateEdit template =>
      on_display s is_list ∧ template ∈ templates s
      ∧ TemplateCard.editable template = true
  | TemplateRename _ _ _ template _ => on_display s is_list ∧ stored template
  | TemplateDelete _ _ id => on_display s is_list
  | CreateNew | UploadWord => on_display s is_list
  | TemplateSave _ _ _ _ _ | Cancel => on_display s is_form
  | DataModeSelect _ => on_display s is_choice
  | DataLoaded _ _ => on_display s is_uploader
  | ManualDataFilled _ | ManualBack => on_display s is_manual
  | MappingComplete _ => on_display s is_mapper
  | BackToMapping => on_display s is_preview
  | BackToTemplates =>
      on_display s (λ sc, is_choice sc || is_uploader sc || is_mapper sc)
  end.

#[export] Instance on_display_dec s p : Decision (on_display s p).
Proof. unfold on_display. apply _. Defined.

#[export] Instance offered_dec s e : Decision (offered s e).
Proof. destruct e; cbn [offered]; apply _. Defined.

(** The worlds the page reaches from its first render. *)
Inductive reachable : world → Prop :=
| reach_initial r : Store.table_wf r → reachable (mk_world initial r)
| reach_step w e : reachable w → offered (page w) e → reachable (handle e w).

(** A run of events from a world. *)
Definition run (es : list event) (w : world) : world := foldl (λ w e, handle e w) w es.

(** Each event of a run is offered when its turn comes. *)
Fixpoint run_offered (es : list event) (w : world) : Prop :=
  match es with
  | [] => True
  | e :: es' => offered (page w) e ∧ run_offered es' (handle e w)
  end.

#[export] Instance run_offered_dec es w : Decision (run_offered es w).
Proof. revert w. induction es as [|e es IH]; intros w; cbn [run_offered]; apply _. Defined.

(** ** A sample run *)

(** A table with one template, and a user who selects it, fills the form
    by hand, looks at the document, goes back twice and then chooses to
    upload a dataset. *)
Definition sample_row : Store.row :=
  Store.mk_row (js "a") (js "Letter") [js "Name"] [] (js "t0") (js "t0").

Definition sample_world : world := mk_world initial (Store.mk_remote [sample_row] []).

Definition sample_data : DataRow := [(js "Name", VStr (js "Ann"))].

Definition sample_events : list event :=
  [TemplatesLoaded Store.all_succeed; TemplateSelect (Store.template_of_row sample_row);
   DataModeSelect mode_manual; ManualDataFilled sample_data; BackToMapping; ManualBack;
   DataModeSelect mode_dataset].

(** ** Invariants *)

(** The step agrees with the rest of the state. *)
Definition step_inv (s : state) : Prop :=
  1 ≤ currentStep s ≤ 4
  ∧ (currentStep s = 1 ↔ selectedTemplate s = None)
  ∧ (currentStep s ≤ 2 ↔ dataMode s = None)
  ∧ (currentStep s = 4 → mergedDocuments s ≠ [])
  ∧ (currentStep s = 4 → dataset s ≠ [])
  ∧ (viewMode s ≠ view_list → currentStep s = 1).

(** The templates held come from the table. *)
Definition templates_inv (w : world) : Prop :=
  Store.table_wf (remote w)
  ∧ NoDup (Template.id <$> templates (page w))
  ∧ Forall stored (templates (page w))
  ∧ from_option stored True (selectedTemplate (page w))
  ∧ from_option stored True (editingTemplate (page w)).

(** The editor is never open on a template. *)
Definition no_edit_inv (s : state) : Prop :=
  viewMode s ≠ view_edit ∧ editingTemplate s = None.

(** The first step holds nothing of an earlier pass through the steps. *)
Definition clean_inv (s : state) : Prop :=
  currentStep s = 1 →
  dataset s = [] ∧ dataHeaders s = [] ∧ fieldMappings s = [] ∧ mergedDocuments s = [].

(** The list of templates with nothing selected and nothing held. *)
Definition at_list (s : state) : Prop :=
  view s = [TemplateListScreen (templates s)] ∧ selectedTemplate s = None
  ∧ dataMode s = None ∧ dataset s = [] ∧ mergedDocuments s = [].

(** ** Plans *)

(** The way back to the list of templates from wherever the page is. *)
Definition back_plan (s : state) : list event :=
  match currentStep s with
  | 1 => if bool_decide (viewMode s = view_list) then [] else [Cancel]
  | 2 => [BackToTemplates]
  | 3 => if bool_decide (dataMode s = Some mode_manual) then [ManualBack; BackToTemplates]
         else [BackToTemplates]
  | _ => if bool_decide (dataMode s = Some mode_manual)
         then [BackToMapping; ManualBack; BackToTemplates]
         else [BackToMapping; BackToTemplates]
  end.

(** The way from the list to a document typed by hand. *)
Definition manual_plan (template : Template.t) (data : DataRow) : list event :=
  [TemplateSelect template; DataModeSelect mode_manual; ManualDataFilled data].

#[local] Set Warnings "-clear-no-such-hyp".
#[local] Arguments Store.saveTemplate : simpl never.
#[local] Arguments Store.deleteTemplate : simpl never.
#[local] Arguments Store.getTemplates : simpl never.
#[local] Arguments mergeAllDocuments : simpl never.

(** ** What is on display *)

Lemma Exists_show cond sc (p : screen → bool) :
  Exists (λ x, p x = true) (show cond sc) ↔ cond = true ∧ p sc = true.
Proof.
  unfold show. destruct cond.
  - rewrite Exists_cons, Exists_nil. naive_solver.
  - rewrite Exists_nil. naive_solver.
Qed.

Lemma Exists_show_selected cond s f (p : screen → bool) :
  Exists (λ x, p x = true) (show_selected cond s f) ↔
  ∃ t, selectedTemplate s = Some t ∧ cond = true ∧ p (f t) = true.
Proof.
  unfold show_selected. destruct (selectedTemplate s) as [t|].
  - rewrite Exists_show. naive_solver.
  - rewrite Exists_nil. naive_solver.
Qed.

Ltac bool_to_prop :=
  repeat match goal with
  | H : _ && _ = true |- _ => apply andb_true_iff in H; destruct H
  | H : _ || _ = true |- _ => apply orb_true_iff in H; destruct H
  | H : (_ =? _) = true |- _ => apply Nat.eqb_eq in H
  | H : (_ <? _) = true |- _ => apply Nat.ltb_lt in H
  | H : bool_decide _ = true |- _ => apply bool_decide_eq_true in H
  end.

Ltac on_display_cases H :=
  unfold on_display, view in H;
  rewrite ?Exists_app, ?Exists_show_selected in H;
  destruct (currentStep _ =? 1) eqn:?;
  rewrite ?Exists_app, ?Exists_show, ?Exists_nil in H;
  destruct_or?; destruct_and?; try done;
  repeat match goal with H : ∃ _, _ |- _ => destruct H end;
  destruct_and?; try done; bool_to_prop.

Lemma on_display_list s : on_display s is_list → currentStep s = 1 ∧ viewMode s = view_list.
Proof. intros H. by on_display_cases H. Qed.

Lemma on_display_form s : on_display s is_form → currentStep s = 1.
Proof. intros H. by on_display_cases H. Qed.

Lemma on_display_choice s :
  on_display s is_choice → currentStep s = 2 ∧ dataMode s = None ∧ is_Some (selectedTemplate s).
Proof. intros H. on_display_cases H; naive_solver. Qed.

Lemma on_display_uploader s :
  on_display s is_uploader →
  currentStep s = 3 ∧ dataMode s = Some mode_dataset ∧ dataset s = []
  ∧ is_Some (selectedTemplate s).
Proof.
  intros H. on_display_cases H.
  all: split_and!; [done|done|by apply length_zero_iff_nil|done].
Qed.

Lemma on_display_manual s :
  on_display s is_manual →
  currentStep s = 3 ∧ dataMode s = Some mode_manual ∧ is_Some (selectedTemplate s).
Proof. intros H. on_display_cases H; naive_solver. Qed.

Lemma on_display_mapper s :
  on_display s is_mapper →
  currentStep s = 3 ∧ dataMode s = Some mode_dataset ∧ 0 < length (dataset s)
  ∧ is_Some (selectedTemplate s).
Proof. intros H. on_display_cases H; naive_solver. Qed.

Lemma on_display_preview s :
  on_display s is_preview →
  currentStep s = 4 ∧ 0 < length (mergedDocuments s) ∧ is_Some (selectedTemplate s).
Proof. intros H. on_display_cases H; naive_solver. Qed.

Lemma on_display_back s :
  on_display s (λ sc, is_choice sc || is_uploader sc || is_mapper sc) →
  2 ≤ currentStep s ≤ 3.
Proof. intros H. on_display_cases H; lia. Qed.

Lemma elem_of_show cond sc x : x ∈ show cond sc → cond = true ∧ x = sc.
Proof. unfold show. destruct cond; [by intros ->%list_elem_of_singleton|by intros ?%elem_of_nil]. Qed.

Lemma elem_of_show_selected cond s f x :
  x ∈ show_selected cond s f → ∃ t, selectedTemplate s = Some t ∧ cond = true ∧ x = f t.
Proof.
  unfold show_selected. destruct (selectedTemplate s) as [t|]; [|by intros ?%elem_of_nil].
  intros [? ?]%elem_of_show. by exists t.
Qed.

(** A screen on display has the properties the render gives it. *)
Lemma view_elem s sc :
  sc ∈ view s →
  match sc with
  | TemplateListScreen ts => ts = templates s
  | TemplateEditorScreen t => t = editingTemplate s
  | WordTemplateUploaderScreen => True
  | ChooseDataSource t | DatasetUploaderScreen t => selectedTemplate s = Some t
  | ManualFormFillerScreen placeholders =>
      ∃ t, selectedTemplate s = Some t ∧ placeholders = Template.placeholders t
  | FieldMapperScreen placeholders dataFields =>
      ∃ t, selectedTemplate s = Some t ∧ placeholders = Template.placeholders t
           ∧ dataFields = dataHeaders s
  | DocumentPreviewScreen p =>
      ∃ t, selectedTemplate s = Some t
           ∧ p = DocumentPreview.mk_props (mergedDocuments s) t (dataset s) (fieldMappings s)
  end.
Proof.
  unfold view. rewrite !elem_of_app. destruct (currentStep s =? 1);
    rewrite ?elem_of_app, ?elem_of_nil; intros H; destruct_or?; try done;
    first [apply elem_of_show in H as [_ ->]
          |apply elem_of_show_selected in H as (t & ? & _ & ->)]; eauto.
Qed.

(** Only the handlers that save, rename or delete change the remote
    side. *)
Lemma handle_remote e w : writes e = false → remote (handle e w) = remote w.
Proof. by destruct e. Qed.

Lemma run_remote es w : forallb (negb ∘ writes) es = true → remote (run es w) = remote w.
Proof.
  revert w. induction es as [|e es IH]; intros w; cbn; [done|].
  intros [He%negb_true_iff Hes]%andb_true_iff. unfold run in IH. by rewrite IH, handle_remote.
Qed.

(** ** The step invariant *)

Lemma merged_nonempty template data mappings merged :
  mergeAllDocuments template data mappings = Ok merged → 0 < length data → merged ≠ [].
Proof.
  intros H Hlen ->. apply mergeAllDocuments_lookup in H as [Hl _]. cbn in Hl. lia.
Qed.

Ltac step_inv_auto :=
  unfold step_inv in *; cbn in *; intuition (try done; try lia; try congruence).

Lemma handle_step_inv e w :
  step_inv (page w) → offered (page w) e → step_inv (page (handle e w)).
Proof.
  destruct w as [s r]. destruct e; cbn [page remote handle offered]; intros Hinv Hoff.
  - by step_inv_auto.
  - destruct Hoff as [[H1 H2]%on_display_list _]. by step_inv_auto.
  - destruct Hoff as [[H1 H2]%on_display_list _]. by step_inv_auto.
  - apply on_display_form in Hoff. unfold handleTemplateSave.
    destruct (Store.saveTemplate _ _ _ _ _) as [[?|] r']; by step_inv_auto.
  - apply on_display_list in Hoff as [H1 H2]. unfold handleTemplateDelete, selected_is.
    assert (selectedTemplate s = None) as Hs by (apply Hinv, H1).
    rewrite Hs. cbn. by step_inv_auto.
  - destruct Hoff as [[H1 H2]%on_display_list _]. unfold handleTemplateRename, selected_is.
    assert (selectedTemplate s = None) as Hs by (apply Hinv, H1).
    destruct (Store.saveTemplate _ _ _ _ _) as [[?|] r']; rewrite ?Hs; cbn; by step_inv_auto.
  - apply on_display_list in Hoff as [H1 H2]. by step_inv_auto.
  - apply on_display_list in Hoff as [H1 H2]. by step_inv_auto.
  - apply on_display_form in Hoff. by step_inv_auto.
  - apply on_display_choice in Hoff as (H1 & H2 & H3). by step_inv_auto.
  - apply on_display_uploader in Hoff as (H1 & H2 & H3 & H4). unfold handleDataLoaded.
    destruct (0 <? length data); by step_inv_auto.
  - apply on_display_manual in Hoff as (H1 & H2 & [t Ht]). unfold handleManualDataFilled.
    rewrite Ht. destruct (mergeAllDocuments _ _ _) as [merged|err] eqn:Hm;
      [|by step_inv_auto].
    apply merged_nonempty in Hm; [|cbn; lia]. by step_inv_auto.
  - apply on_display_manual in Hoff as (H1 & H2 & [t Ht]). by step_inv_auto.
  - apply on_display_mapper in Hoff as (H1 & H2 & H3 & [t Ht]).
    unfold handleMappingComplete. rewrite Ht.
    destruct (0 <? length (dataset s)) eqn:Hl; [|by step_inv_auto].
    destruct (mergeAllDocuments _ _ _) as [merged|err] eqn:Hm; [|by step_inv_auto].
    apply merged_nonempty in Hm; [|done]. step_inv_auto. by destruct (dataset s).
  - apply on_display_preview in Hoff as (H1 & H2 & H3). by step_inv_auto.
  - apply on_display_back in Hoff. by step_inv_auto.
Qed.

(** ** The templates held *)

Lemma getTemplates_stored o r : Forall stored (Store.getTemplates o r).
Proof. apply Forall_forall. by intros t (row & -> & _)%Store.getTemplates_row. Qed.

Lemma renamed_stored template newName now : stored template → stored (renamed template newName now).
Proof. done. Qed.

Ltac templates_inv_auto :=
  unfold templates_inv in *; cbn in *; destruct_and?;
  split_and!;
  eauto using Store.getTemplates_NoDup, getTemplates_stored, Store.saveTemplate_table_wf,
    Store.deleteTemplate_table_wf, renamed_stored.

Lemma saveTemplate_snd_wf o now template file r saved r' :
  Store.saveTemplate o now template file r = (saved, r') → Store.table_wf r → Store.table_wf r'.
Proof. intros H Hwf. by apply (Store.saveTemplate_table_wf o now template file) in Hwf; rewrite H in Hwf. Qed.

Lemma handle_templates_inv e w :
  templates_inv w → offered (page w) e → templates_inv (handle e w).
Proof.
  destruct w as [s r]. destruct e; cbn [page remote handle offered]; intros Hinv Hoff;
    try by templates_inv_auto.
  - destruct Hoff as [_ Hin]. templates_inv_auto.
    by eapply Forall_forall in Hin.
  - destruct Hoff as (_ & Hin & _). templates_inv_auto.
    by eapply Forall_forall in Hin.
  - unfold handleTemplateSave.
    destruct (Store.saveTemplate _ _ _ _ _) as [[?|] r'] eqn:Hs;
      templates_inv_auto; eauto using saveTemplate_snd_wf, Store.getTemplates_NoDup.
  - unfold handleTemplateDelete. destruct (selected_is s id); by templates_inv_auto.
  - destruct Hoff as [_ Hin]. unfold handleTemplateRename.
    destruct (Store.saveTemplate _ _ _ _ _) as [[?|] r'] eqn:Hs;
      [destruct (selected_is s _)|];
      templates_inv_auto; eauto using saveTemplate_snd_wf, Store.getTemplates_NoDup.
  - unfold handleDataLoaded. destruct (0 <? _); by templates_inv_auto.
  - unfold handleManualDataFilled. destruct (selectedTemplate s) eqn:E; [|by templates_inv_auto].
    destruct (mergeAllDocuments _ _ _); templates_inv_auto; by rewrite ?E.
  - unfold handleMappingComplete. destruct (selectedTemplate s) eqn:E; [|by templates_inv_auto].
    destruct (0 <? _); [|by templates_inv_auto; rewrite ?E].
    destruct (mergeAllDocuments _ _ _); templates_inv_auto; by rewrite ?E.
Qed.

Lemma reachable_invariants w : reachable w → step_inv (page w) ∧ templates_inv w.
Proof.
  induction 1 as [r Hr|w e _ [IH1 IH2] Hoff].
  - split; [by step_inv_auto|]. unfold templates_inv. cbn. split_and!; try done; constructor.
  - split; [by apply handle_step_inv|by apply handle_templates_inv].
Qed.

(** ** No template is ever edited *)

Lemma stored_not_editable template : stored template → TemplateCard.editable template = false.
Proof. intros [_ Hw]. unfold TemplateCard.editable. by rewrite Hw. Qed.

Lemma edit_not_offered w template :
  templates_inv w → ¬ offered (page w) (TemplateEdit template).
Proof.
  intros (_ & _ & Hst & _) (_ & Hin & Hed).
  rewrite Forall_forall in Hst. apply Hst, stored_not_editable in Hin. congruence.
Qed.

Lemma handle_no_edit e w :
  templates_inv w → no_edit_inv (page w) → offered (page w) e →
  no_edit_inv (page (handle e w)).
Proof.
  intros Ht Hinv Hoff. destruct e; try (by apply edit_not_offered in Hoff).
  all: destruct w as [s r]; cbn [page remote handle] in *.
  all: unfold handleTemplateSave, handleTemplateDelete, handleTemplateRename,
         handleDataLoaded, handleManualDataFilled, handleMappingComplete.
  all: repeat match goal with
       | |- context [Store.saveTemplate ?o ?n ?t ?f ?r] =>
           destruct (Store.saveTemplate o n t f r) as [[?|] ?]
       | |- context [selected_is ?s ?i] => destruct (selected_is s i)
       | |- context [selectedTemplate ?s] => destruct (selectedTemplate s)
       | |- context [0 <? ?n] => destruct (0 <? n)
       | |- context [mergeAllDocuments ?t ?d ?m] => destruct (mergeAllDocuments t d m)
       end.
  all: unfold no_edit_inv in *; cbn in *; by intuition.
Qed.

Lemma reachable_no_edit w : reachable w → no_edit_inv (page w).
Proof.
  induction 1 as [r Hr|w e Hw IH Hoff]; [done|].
  apply handle_no_edit; [by apply reachable_invariants|done..].
Qed.

(** ** One screen *)

Lemma step_inv_one_screen s : step_inv s → ∃ sc, view s = [sc].
Proof.
  destruct s as [step vm dm ts sel ed ds hs fm md]. unfold step_inv, view, show_selected.
  cbn [currentStep viewMode dataMode templates selectedTemplate editingTemplate dataset
       dataHeaders fieldMappings mergedDocuments].
  intros (Hr & Hsel & Hdm & Hmd & Hds & Hvm).
  destruct step as [|[|[|[|[|n]]]]]; try lia; cbn [Nat.eqb andb app show].
  - rewrite (proj1 Hsel) by done. destruct vm; cbn; by eexists.
  - rewrite (proj1 Hdm) by lia. destruct sel; [|exfalso; intuition lia]. cbn. by eexists.
  - destruct sel; [|exfalso; intuition lia].
    destruct dm as [[|]|]; [| |exfalso; intuition lia]; destruct ds; cbn; by eexists.
  - destruct sel; [|exfalso; intuition lia].
    destruct md; [by destruct Hmd|]. cbn. by eexists.
Qed.

(** ** The way back to the list *)

Lemma handle_clean_inv e w :
  step_inv (page w) → clean_inv (page w) → offered (page w) e →
  clean_inv (page (handle e w)).
Proof.
  intros Hs Hinv Hoff. destruct w as [s r]. destruct e; cbn [page remote handle offered] in *.
  all: try (apply on_display_choice in Hoff as (? & ? & ?)).
  all: try (apply on_display_uploader in Hoff as (? & ? & ? & ?)).
  all: try (apply on_display_manual in Hoff as (? & ? & [? ?])).
  all: try (apply on_display_mapper in Hoff as (? & ? & ? & [? ?])).
  all: try (apply on_display_preview in Hoff as (? & ? & ?)).
  all: try (destruct Hoff as [[? ?]%on_display_list _]).
  all: try (apply on_display_list in Hoff as [? ?]).
  all: unfold handleTemplateSave, handleTemplateDelete, handleTemplateRename,
         handleDataLoaded, handleManualDataFilled, handleMappingComplete, selected_is.
  all: try (assert (selectedTemplate s = None) as -> by (by apply Hs)).
  all: repeat match goal with
       | |- context [Store.saveTemplate ?o ?n ?t ?f ?r] =>
           destruct (Store.saveTemplate o n t f r) as [[?|] ?]
       | H : selectedTemplate ?s = Some _ |- context [selectedTemplate ?s] => rewrite H
       | |- context [0 <? ?n] => destruct (0 <? n) eqn:?
       | |- context [mergeAllDocuments ?t ?d ?m] => destruct (mergeAllDocuments t d m)
       end.
  all: unfold clean_inv in *; cbn in *; try done; try (intros; lia); try by intuition.
Qed.

Lemma reachable_clean w : reachable w → clean_inv (page w).
Proof.
  induction 1 as [r Hr|w e Hw IH Hoff]; [done|].
  apply handle_clean_inv; [by apply reachable_invariants|done..].
Qed.

Lemma back_plan_returns s r :
  step_inv s → clean_inv s →
  run_offered (back_plan s) (mk_world s r)
  ∧ at_list (page (run (back_plan s) (mk_world s r)))
  ∧ templates (page (run (back_plan s) (mk_world s r))) = templates s
  ∧ remote (run (back_plan s) (mk_world s r)) = r.
Proof.
  destruct s as [step vm dm ts sel ed ds hs fm md].
  unfold step_inv, clean_inv, back_plan, at_list.
  cbn [currentStep viewMode dataMode templates selectedTemplate editingTemplate dataset
       dataHeaders fieldMappings mergedDocuments].
  intros (Hr & Hsel & Hdm & Hmd & Hds & Hvm) Hclean.
  assert (step ≠ 1 → vm = view_list) as Hlist.
  { intros Hne. destruct (decide (vm = view_list)) as [|Hv]; [done|]. by apply Hvm in Hv. }
  destruct step as [|[|[|[|[|n]]]]]; try lia.
  - rewrite (proj1 Hsel), (proj1 Hdm) by (done || lia).
    destruct Hclean as (-> & -> & -> & ->); [done|].
    destruct vm; (rewrite bool_decide_eq_true_2 by done) || (rewrite bool_decide_eq_false_2 by done);
      cbn; split_and!; try done; apply (bool_decide_unpack _); by vm_compute.
  - rewrite Hlist, (proj1 Hdm) by lia. destruct sel as [t|]; [|exfalso; intuition lia].
    cbn. split_and!; try done. apply (bool_decide_unpack _). by vm_compute.
  - rewrite Hlist by lia. destruct sel as [t|]; [|exfalso; intuition lia].
    destruct dm as [[|]|]; [| |exfalso; intuition lia];
      (rewrite bool_decide_eq_true_2 by done) || (rewrite bool_decide_eq_false_2 by done);
      destruct ds; cbn; split_and!; try done; apply (bool_decide_unpack _); by vm_compute.
  - rewrite Hlist by lia. destruct sel as [t|]; [|exfalso; intuition lia].
    destruct md as [|d md]; [by destruct Hmd|]. destruct ds as [|row ds]; [by destruct Hds|].
    destruct dm as [[|]|]; [| |exfalso; intuition lia];
      (rewrite bool_decide_eq_true_2 by done) || (rewrite bool_decide_eq_false_2 by done);
      cbn; split_and!; try done; apply (bool_decide_unpack _); by vm_compute.
Qed.

(** ** Merging on the page *)

Lemma mapping_env_identity data placeholders p :
  mapping_env data (identity_mappings placeholders) p =
    if decide (p ∈ placeholders) then Some (String_of (cell data p)) else None.
Proof.
  induction placeholders as [|q ps IH]; [done|].
  cbn [identity_mappings map]. rewrite mapping_env_cons. cbn [FieldMapping.placeholder
    FieldMapping.dataField]. fold (identity_mappings ps). rewrite IH.
  destruct (decide (p = q)) as [->|Hne].
  - rewrite decide_True; [done|]. apply elem_of_cons. by left.
  - destruct (decide (p ∈ ps)) as [Hin|Hnin].
    + rewrite decide_True; [done|]. apply elem_of_cons. by right.
    + rewrite decide_False; [done|]. rewrite not_elem_of_cons. by split.
Qed.

Lemma mergeAllDocuments_stored template data mappings :
  stored template → Forall (λ row, Forall (good_mapping row) mappings) data →
  mergeAllDocuments template data mappings =
    Ok (imap (λ index row, MergedDocument.mk (doc_id index) [] row) data).
Proof.
  intros [Hc _] Hgood.
  by apply (mergeAllDocuments_render _ _ _ []); [|apply Forall_nil_2|].
Qed.

(** ** The theorems *)



(** In every state the page reaches, the templates it lists carry
    pairwise distinct identifiers, and every template it lists, has
    selected or is editing has an empty content and is marked as a Word
    template. *)
Theorem reachable_templates_inv w : reachable w → templates_inv w.
Proof. by intros [_ ?]%reachable_invariants. Qed.

(** C33. On the page, a merge with mappings within the bounds of the main
    theorem of [Merge.v] gives documents whose content is empty, whatever
    the template was saved with: the selected template always has an empty
    content. *)
Theorem reachable_merge_empty w template mappings :
  reachable w → selectedTemplate (page w) = Some template →
  Forall (λ row, Forall (good_mapping row) mappings) (dataset (page w)) →
  mergeAllDocuments template (dataset (page w)) mappings =
    Ok (imap (λ index row, MergedDocument.mk (doc_id index) [] row) (dataset (page w))).
Proof.
  intros [_ (_ & _ & _ & Hsel & _)]%reachable_invariants Ht Hgood.
  rewrite Ht in Hsel. by apply mergeAllDocuments_stored.
Qed.

(** While the list of templates is displayed no template is selected:
    the branches of [handleTemplateDelete] and [handleTemplateRename] that
    compare the selected template never run. *)
Theorem list_has_no_selection w id :
  reachable w → on_display (page w) is_list →
  selectedTemplate (page w) = None ∧ selected_is (page w) id = false.
Proof.
  intros [Hinv _]%reachable_invariants [H1 _]%on_display_list.
  assert (selectedTemplate (page w) = None) as Hs by (apply Hinv, H1).
  split; [done|]. unfold selected_is. by rewrite Hs.
Qed.

(** Filling the form by hand on a template of text and brace-free
    holes, with placeholders free of pattern syntax and values free of [$]
    and [{], leads to the fourth step with one document: the template with
    every hole named by a placeholder replaced by the value typed for it. *)
Theorem handleManualDataFilled_merges data s template segs :
  selectedTemplate s = Some template →
  Template.content template = render2 segs → plain_segments segs →
  Forall (good_mapping data) (identity_mappings (Template.placeholders template)) →
  (handleManualDataFilled data s).2 = Ok (toast_success (js "Document generated successfully"))
  ∧ currentStep (handleManualDataFilled data s).1 = 4
  ∧ dataset (handleManualDataFilled data s).1 = [data]
  ∧ mergedDocuments (handleManualDataFilled data s).1 =
      [MergedDocument.mk (doc_id 0)
         (render2 (instantiate
            (mapping_env data (identity_mappings (Template.placeholders template))) segs))
         data].
Proof.
  intros Ht Hc Hsegs Hgood. unfold handleManualDataFilled. rewrite Ht.
  rewrite (mergeAllDocuments_render _ _ _ segs Hc Hsegs) by by constructor.
  done.
Qed.


(** When every remote call succeeds, deleting a template from the list
    leaves a list with the identifiers of the other rows of the table and
    without the identifier deleted. *)
Theorem handleTemplateDelete_removes id r s :
  Template.id <$> templates (handleTemplateDelete Store.all_succeed Store.all_succeed id r s).1.1
    ≡ₚ filter (λ i, i ≠ id) (Store.id <$> Store.table r).
Proof.
  unfold handleTemplateDelete. cbn [fst snd].
  assert (∀ (b : bool) (x y : state), templates x = templates y →
          templates (if b then x else y) = templates y) as Hif by (by intros []).
  rewrite Hif by done. unfold loadTemplates. cbn [templates setTemplates].
  rewrite Store.getTemplates_ids_perm by done. unfold Store.deleteTemplate.
  cbn [Store.delete_ok Store.all_succeed Store.table]. by rewrite Store.delete_id_ids.
Qed.

(** When every remote call succeeds, saving a template returns to the
    list, and the list then holds a template with the identifier, the name
    and the placeholders saved, and with an empty content. *)
Theorem handleTemplateSave_lists now template file r s :
  (handleTemplateSave Store.all_succeed Store.all_succeed now template file r s).2 =
    toast_success (js "Template saved successfully")
  ∧ viewMode (handleTemplateSave Store.all_succeed Store.all_succeed now template file r s).1.1
    = view_list
  ∧ ∃ t, t ∈ templates
             (handleTemplateSave Store.all_succeed Store.all_succeed now template file r s).1.1
       ∧ Template.id t = Template.id template
       ∧ Template.name t = Template.name template
       ∧ Template.placeholders t = Template.placeholders template
       ∧ Template.content t = [].
Proof.
  unfold handleTemplateSave.
  destruct (Store.saveTemplate_all_succeed now template file r)
    as (t & Hget & [row Hsaved] & Hn & Hp & Hc & _).
  destruct (Store.saveTemplate _ _ _ _ _) as [saved r'] eqn:Hs. cbn [fst snd] in *.
  subst saved. split_and!; [done|done|].
  apply Store.getTemplate_listed in Hget as [Hin Hid]. by exists t.
Qed.

(** ** Runs *)

Lemma run_app es1 es2 w : run (es1 ++ es2) w = run es2 (run es1 w).
Proof. apply foldl_app. Qed.

Lemma run_offered_app es1 es2 w :
  run_offered (es1 ++ es2) w ↔ run_offered es1 w ∧ run_offered es2 (run es1 w).
Proof.
  revert w. induction es1 as [|e es1 IH]; intros w; cbn [app run_offered run foldl].
  - naive_solver.
  - rewrite IH. naive_solver.
Qed.

Lemma manual_plan_generates s r template data :
  step_inv s → on_display s is_list → template ∈ templates s → stored template →
  Forall (good_mapping data) (identity_mappings (Template.placeholders template)) →
  run_offered (manual_plan template data) (mk_world s r)
  ∧ view (page (run (manual_plan template data) (mk_world s r))) =
      [DocumentPreviewScreen
         (DocumentPreview.mk_props [MergedDocument.mk (doc_id 0) [] data] template [data]
            (identity_mappings (Template.placeholders template)))].
Proof.
  intros Hinv Hlist Hin Hst Hgood. pose proof Hlist as [H1 Hvm]%on_display_list.
  destruct s as [step vm dm ts sel ed ds hs fm md]. cbn in H1, Hvm, Hin. subst step vm.
  unfold manual_plan. cbn [run_offered run foldl handle page remote offered].
  unfold handleManualDataFilled. cbn -[on_display view].
  rewrite mergeAllDocuments_stored by (done || by constructor).
  split_and!; try done; apply (bool_decide_unpack _); by vm_compute.
Qed.

(** The screens on the way from the list to the form. *)
Lemma select_manual_views s template :
  view (handleTemplateSelect template s).1 = [ChooseDataSource template]
  ∧ view (handleDataModeSelect (Some mode_manual) (handleTemplateSelect template s).1) =
      [ManualFormFillerScreen (Template.placeholders template)].
Proof. destruct s as [step vm dm ts sel ed ds hs fm md]. split; cbn; by destruct ds. Qed.

(** The screens on the way from the list to the documents of a dataset. *)
Lemma select_dataset_views s template data headers mappings :
  dataset s = [] → data ≠ [] → stored template →
  Forall (λ row, Forall (good_mapping row) mappings) data →
  let s2 := handleDataModeSelect (Some mode_dataset) (handleTemplateSelect template s).1 in
  let s3 := handleDataLoaded data headers s2 in
  view s2 = [DatasetUploaderScreen template]
  ∧ view s3 = [FieldMapperScreen (Template.placeholders template) headers]
  ∧ view (handleMappingComplete mappings s3).1 =
      [DocumentPreviewScreen
         (DocumentPreview.mk_props
            (imap (λ index row, MergedDocument.mk (doc_id index) [] row) data)
            template data mappings)].
Proof.
  destruct s as [step vm dm ts sel ed ds hs fm md]. cbn [dataset]. intros -> Hne Hst Hgood.
  destruct data as [|row rows]; [done|]. split_and!; [done..|].
  unfold handleMappingComplete. cbn -[view mergeAllDocuments imap].
  rewrite mergeAllDocuments_stored by done. done.
Qed.

Lemma reachable_run es w : reachable w → run_offered es w → reachable (run es w).
Proof.
  revert w. induction es as [|e es IH]; intros w Hw; cbn [run_offered run foldl]; [done|].
  intros [He Hes]. apply IH; [by apply reach_step|done].
Qed.

Lemma sample_reachable : reachable (run sample_events sample_world).
Proof.
  apply reachable_run; [apply reach_initial|]; apply (bool_decide_unpack _); by vm_compute.
Qed.

(** A row typed by hand stays as the dataset when the user goes back
    and chooses to upload a dataset instead: the page skips the upload and
    displays the mapping of the columns of the typed row, and the document
    generated before is still held. *)
Example manual_data_skips_upload :
  view (page (run sample_events sample_world)) =
    [FieldMapperScreen [js "Name"] [js "Name"]]
  ∧ dataset (page (run sample_events sample_world)) = [sample_data]
  ∧ mergedDocuments (page (run sample_events sample_world)) =
      [MergedDocument.mk (js "doc-0") [] sample_data].
Proof. by vm_compute. Qed.


(** From the list, every template listed leads to a document: selecting
    it, choosing to fill it by hand and submitting a row are offered one
    after the other and end in the preview of one document, provided the
    placeholders are free of pattern syntax and the values free of [$] and
    [{].  The document is empty, as the content of a listed template is. *)
Theorem can_generate w template data :
  reachable w → on_display (page w) is_list → template ∈ templates (page w) →
  Forall (good_mapping data) (identity_mappings (Template.placeholders template)) →
  run_offered (manual_plan template data) w
  ∧ view (page (run (manual_plan template data) w)) =
      [DocumentPreviewScreen
         (DocumentPreview.mk_props [MergedDocument.mk (doc_id 0) [] data] template [data]
            (identity_mappings (Template.placeholders template)))].
Proof.
  intros [Hs (_ & _ & Hst & _)]%reachable_invariants Hl Hin Hgood. destruct w as [s r].
  apply manual_plan_generates; try done. rewrite Forall_forall in Hst. by apply Hst.
Qed.

(** C34. No state the page reaches offers to edit a template, and the editor
    never opens on one: every template listed is marked as a Word template,
    and the cards show the button that edits only for the others.  The
    editor opens only to create. *)
Theorem reachable_never_edits w template :
  reachable w →
  ¬ offered (page w) (TemplateEdit template)
  ∧ viewMode (page w) ≠ view_edit
  ∧ TemplateEditorScreen (Some template) ∉ view (page w).
Proof.
  intros H. pose proof (reachable_no_edit _ H) as [Hvm Hed].
  split_and!; [by apply edit_not_offered, reachable_invariants|done|].
  intros Hin.
  assert (on_display (page w)
            (λ sc, match sc with TemplateEditorScreen (Some _) => true | _ => false end))
    as Hd.
  { apply Exists_exists. by exists (TemplateEditorScreen (Some template)). }
  on_display_cases Hd; by rewrite Hed in *.
Qed.

(** ** The theorems at concrete inputs *)


Lemma can_generate_witness :
  run_offered (manual_plan (Store.template_of_row sample_row) sample_data)
    (run [TemplatesLoaded Store.all_succeed] sample_world)
  ∧ view (page (run (manual_plan (Store.template_of_row sample_row) sample_data)
                  (run [TemplatesLoaded Store.all_succeed] sample_world))) =
      [DocumentPreviewScreen
         (DocumentPreview.mk_props [MergedDocument.mk (doc_id 0) [] sample_data]
            (Store.template_of_row sample_row) [sample_data]
            (identity_mappings (Template.placeholders (Store.template_of_row sample_row))))].
Proof.
  apply can_generate.
  - apply reachable_run; [apply reach_initial|]; apply (bool_decide_unpack _); by vm_compute.
  - apply (bool_decide_unpack _). by vm_compute.
  - apply (bool_decide_unpack _). by vm_compute.
  - apply (bool_decide_unpack _). by vm_compute.
Defined.

Lemma reachable_never_edits_witness :
  ¬ offered (page (run sample_events sample_world))
      (TemplateEdit (Store.template_of_row sample_row))
  ∧ viewMode (page (run sample_events sample_world)) ≠ view_edit
  ∧ TemplateEditorScreen (Some (Store.template_of_row sample_row)) ∉
      view (page (run sample_events sample_world)).
Proof. apply reachable_never_edits, sample_reachable. Defined.



Lemma reachable_templates_inv_witness : templates_inv (run sample_events sample_world).
Proof. apply reachable_templates_inv, sample_reachable. Defined.

Lemma reachable_merge_empty_witness :
  mergeAllDocuments (Store.template_of_row sample_row)
    (dataset (page (run sample_events sample_world)))
    [FieldMapping.mk (js "Name") (js "Name")] =
  Ok (imap (λ index row, MergedDocument.mk (doc_id index) [] row)
        (dataset (page (run sample_events sample_world)))).
Proof.
  apply reachable_merge_empty; [apply sample_reachable|done|].
  apply (bool_decide_unpack _). by vm_compute.
Defined.

Lemma list_has_no_selection_witness :
  selectedTemplate (page (run [TemplatesLoaded Store.all_succeed] sample_world)) = None
  ∧ selected_is (page (run [TemplatesLoaded Store.all_succeed] sample_world)) (js "a") = false.
Proof.
  apply list_has_no_selection.
  - apply reachable_run; [apply reach_initial|]; apply (bool_decide_unpack _); by vm_compute.
  - apply (bool_decide_unpack _). by vm_compute.
Defined.


Lemma handleManualDataFilled_merges_witness :
  (handleManualDataFilled sample_data
     (setSelectedTemplate
        (Some (Template.mk (js "a") (js "Letter") (js "Hi {{Name}}") [js "Name"] [] []
                 None None)) initial)).2 =
    Ok (toast_success (js "Document generated successfully"))
  ∧ currentStep
      (handleManualDataFilled sample_data
         (setSelectedTemplate
            (Some (Template.mk (js "a") (js "Letter") (js "Hi {{Name}}") [js "Name"] [] []
                     None None)) initial)).1 = 4
  ∧ dataset
      (handleManualDataFilled sample_data
         (setSelectedTemplate
            (Some (Template.mk (js "a") (js "Letter") (js "Hi {{Name}}") [js "Name"] [] []
                     None None)) initial)).1 = [sample_data]
  ∧ mergedDocuments
      (handleManualDataFilled sample_data
         (setSelectedTemplate
            (Some (Template.mk (js "a") (js "Letter") (js "Hi {{Name}}") [js "Name"] [] []
                     None None)) initial)).1 =
    [MergedDocument.mk (doc_id 0)
       (render2 (instantiate
          (mapping_env sample_data
             (identity_mappings
                (Template.placeholders
                   (Template.mk (js "a") (js "Letter") (js "Hi {{Name}}") [js "Name"] [] []
                      None None))))
          [Text (js "Hi "); Hole (js "Name")]))
       sample_data].
Proof.
  apply (handleManualDataFilled_merges sample_data _
           (Template.mk (js "a") (js "Letter") (js "Hi {{Name}}") [js "Name"] [] [] None None)
           [Text (js "Hi "); Hole (js "Name")]); [done|done| |];
    apply (bool_decide_unpack _); by vm_compute.
Defined.

End Index.
