(* ===== verification/Async.v ===== *)
(** * Async: the awaiting handlers of the page, call by call

    [loadTemplates], [handleTemplateSave], [handleTemplateDelete] and
    [handleTemplateRename] of [src/src/pages/Index.tsx] await remote calls.
    [Workflow.v] runs each of them to its end in one step.  Here a handler
    stops at every [await]: it is kept in the configuration with the call
    it waits for ([handler]), the remote side serves the calls under way
    in any order, and the rest of the handler runs when the answer is
    delivered.  Between
    two such steps the user goes on clicking.

    What a handler has read from the state before an [await] is the value
    of the render it was created in: the continuation carries it
    ([selectedTemplate] in [handleTemplateDelete] and
    [handleTemplateRename]).  What it writes with a setter applies to the
    state at the time it resumes.

    Each function of [templateUtils.ts] is served in one step: the calls
    inside [saveTemplate] and [deleteTemplate] are not interleaved with
    those of another function. *)

From Stdlib Require Import Ascii String ZArith.
From stdpp Require Import base numbers list.
From S2P Require Import Prelude JsString Types Regex Pattern Segments Extract Merge Batch.
From S2P Require Import Mapping Store Export Catalog Workflow.
#[local] Set Warnings "-clear-no-such-hyp".

Module Async.
Import Index.

(** ** Calls, answers and continuations *)

(** A remote call a handler awaits. *)
Inductive call : Type :=
| GetTemplates
| SaveTemplate (template : Template.t) (file : option Store.File)
| DeleteTemplate (id : jstring).

(** What a call resolves to. *)
Inductive answer : Type :=
| Templates (loaded : list Template.t)
| Saved (saved : option Store.row)
| Deleted.

(** What remains of a handler after an [await], with the values it has
    read before: [selectedTemplate] is the one of the render the handler
    was created in.  [MountLoad] is [loadTemplates] called by the effect of
    the first render. *)
Inductive cont : Type :=
| MountLoad
| SaveThenLoad
| SaveLoaded
| DeleteThenLoad (id : jstring) (selectedTemplate : option Template.t)
| DeleteLoaded (id : jstring) (selectedTemplate : option Template.t)
| RenameThenLoad (template updatedTemplate : Template.t)
    (selectedTemplate : option Template.t)
| RenameLoaded (template updatedTemplate : Template.t)
    (selectedTemplate : option Template.t).

(** A handler stopped at an [await]: its call is under way, or the answer
    is there and the rest of the handler waits for its turn. *)
Inductive handler : Type :=
| Awaiting (c : call) (k : cont)
| Resolved (a : answer) (k : cont).

Record config : Type := mk_config {
  page : state;
  remote : Store.remote;
  waiting : list handler
}.

(** The first render: the effect has called [loadTemplates]. *)
Definition initial (r : Store.remote) : config :=
  mk_config Index.initial r [Awaiting GetTemplates MountLoad].

(** ** The steps *)

(** The remote side serves a call. *)
Definition serve (o : Store.outcome) (now : jstring) (c : call) (r : Store.remote) :
    answer * Store.remote :=
  match c with
  | GetTemplates => (Templates (Store.getTemplates o r), r)
  | SaveTemplate template file =>
      let '(saved, r') := Store.saveTemplate o now template file r in (Saved saved, r')
  | DeleteTemplate id => (Deleted, Store.deleteTemplate o id r)
  end.

(** A handler starts: the synchronous handlers run to their end, the
    others up to their first [await].  The arrival of templates is not
    something the user does. *)
Definition start (e : event) (r : Store.remote) (s : state) : option (state * list handler) :=
  match e with
  | TemplatesLoaded _ => None
  | TemplateSave _ _ _ template file =>
      Some (s, [Awaiting (SaveTemplate template file) SaveThenLoad])
  | TemplateDelete _ _ id =>
      Some (s, [Awaiting (DeleteTemplate id) (DeleteThenLoad id (selectedTemplate s))])
  | TemplateRename _ _ now template newName =>
      let updatedTemplate := renamed template newName now in
      Some (s, [Awaiting (SaveTemplate updatedTemplate None)
                  (RenameThenLoad template updatedTemplate (selectedTemplate s))])
  | _ => Some (Index.page (handle e (mk_world s r)), [])
  end.

(** [sel?.id === id] on a value read earlier. *)
Definition was_selected (sel : option Template.t) (id : jstring) : bool :=
  bool_decide (Template.id <$> sel = Some id).

(** A handler resumes with the answer to its call: the state after, the
    call it awaits next if any, and the toast it raises. *)
Definition resume (a : answer) (k : cont) (s : state) : state * list handler * option toast :=
  match k, a with
  | MountLoad, Templates loaded => (setTemplates loaded s, [], None)
  | SaveThenLoad, Saved (Some _) => (s, [Awaiting GetTemplates SaveLoaded], None)
  | SaveThenLoad, Saved None => (s, [], Some (toast_error (js "Failed to save template")))
  | SaveLoaded, Templates loaded =>
      (setEditingTemplate None (setViewMode view_list (setTemplates loaded s)), [],
       Some (toast_success (js "Template saved successfully")))
  | DeleteThenLoad id sel, Deleted => (s, [Awaiting GetTemplates (DeleteLoaded id sel)], None)
  | DeleteLoaded id sel, Templates loaded =>
      let s1 := setTemplates loaded s in
      (if was_selected sel id then setCurrentStep 1 (setSelectedTemplate None s1) else s1,
       [], Some (toast_success (js "Template deleted")))
  | RenameThenLoad template updatedTemplate sel, Saved (Some _) =>
      (s, [Awaiting GetTemplates (RenameLoaded template updatedTemplate sel)], None)
  | RenameThenLoad _ _ _, Saved None =>
      (s, [], Some (toast_error (js "Failed to rename template")))
  | RenameLoaded template updatedTemplate sel, Templates loaded =>
      let s1 := setTemplates loaded s in
      (if was_selected sel (Template.id template)
       then setSelectedTemplate (Some updatedTemplate) s1 else s1,
       [], Some (toast_success (js "Template renamed successfully")))
  | _, _ => (s, [], None)
  end.

(** What happens next: the user raises an event, the remote side serves
    the call of handler [i], or handler [i] resumes with its answer. *)
Inductive label : Type :=
| Do (e : event)
| Serve (i : nat) (o : Store.outcome) (now : jstring)
| Resume (i : nat).

(** The configuration after a step, [None] when the step cannot happen. *)
Definition fire (l : label) (c : config) : option config :=
  match l with
  | Do e =>
      if decide (offered (page c) e) then
        '(s', new) ← start e (remote c) (page c);
        Some (mk_config s' (remote c) (waiting c ++ new))
      else None
  | Serve i o now =>
      match waiting c !! i with
      | Some (Awaiting call k) =>
          let '(a, r') := serve o now call (remote c) in
          Some (mk_config (page c) r' (<[i := Resolved a k]> (waiting c)))
      | _ => None
      end
  | Resume i =>
      match waiting c !! i with
      | Some (Resolved a k) =>
          let '(s', new, _) := resume a k (page c) in
          Some (mk_config s' (remote c) (delete i (waiting c) ++ new))
      | _ => None
      end
  end.

(** A run of steps. *)
Fixpoint fire_all (ls : list label) (c : config) : option config :=
  match ls with
  | [] => Some c
  | l :: ls' => fire l c ≫= fire_all ls'
  end.

(** The configurations the page reaches. *)
Inductive reachable : config → Prop :=
| reach_initial r : Store.table_wf r → reachable (initial r)
| reach_fire l c c' : reachable c → fire l c = Some c' → reachable c'.

(** ** Schedules *)

(** A step of handler [n]. *)
Definition on_handler (n : nat) (l : label) : Prop :=
  match l with
  | Serve i _ _ | Resume i => i = n
  | Do _ => False
  end.

(** The steps of the handler of [e] when nothing interrupts it, after it
    has started as handler [n]: its calls are served with the outcomes the
    event names, and it resumes after each.  A save that fails ends the
    handler after its first call. *)
Definition uninterrupted (e : event) (r : Store.remote) (n : nat) : list label :=
  match e with
  | TemplateSave o o' now template file =>
      [Serve n o now; Resume n]
      ++ (if (Store.saveTemplate o now template file r).1 is Some _
          then [Serve n o' now; Resume n] else [])
  | TemplateRename o o' now template newName =>
      [Serve n o now; Resume n]
      ++ (if (Store.saveTemplate o now (renamed template newName now) None r).1 is Some _
          then [Serve n o' now; Resume n] else [])
  | TemplateDelete o o' _ => [Serve n o []; Resume n; Serve n o' []; Resume n]
  | _ => []
  end.

(** The steps left to a handler at most: one to serve its call, one to
    resume, and the same again when its continuation awaits a second call. *)
Definition cont_calls (k : cont) : nat :=
  match k with
  | SaveThenLoad | DeleteThenLoad _ _ | RenameThenLoad _ _ _ => 1
  | _ => 0
  end.

Definition weight (t : handler) : nat :=
  match t with
  | Awaiting _ k => 2 + 2 * cont_calls k
  | Resolved _ k => 1 + 2 * cont_calls k
  end.

Definition total (ts : list handler) : nat := sum_list (weight <$> ts).

(** The next step of the first handler, with a call that succeeds. *)
Definition next_step (c : config) : option label :=
  match waiting c with
  | [] => None
  | Awaiting _ _ :: _ => Some (Serve 0 Store.all_succeed [])
  | Resolved _ _ :: _ => Some (Resume 0)
  end.

(** The handlers under way run to their end, the first of them first. *)
Fixpoint drain (fuel : nat) (c : config) : config :=
  match fuel with
  | 0 => c
  | S fuel' =>
      match next_step c ≫= (λ l, fire l c) with
      | Some c' => drain fuel' c'
      | None => c
      end
  end.

(** ** Sample runs *)

(** A template with a file in the bucket. *)
Definition filed_row : Store.row :=
  Store.mk_row (js "a") (js "Letter") [js "Name"] (js "a.docx") (js "t0") (js "t0").

Definition filed_remote : Store.remote :=
  Store.mk_remote [filed_row] [(js "a.docx", js "bytes")].

Definition filed_template : Template.t := Store.template_of_row filed_row.

Definition new_template : Template.t :=
  Template.mk (js "n") (js "Note") (js "Dear {{Name}}") [js "Name"] (js "t1") (js "t1")
    None None.

(** The user creates a template while the templates of the first render
    are still on their way; the answer to the first load, made before the
    save, comes in last. *)
Definition late_first_load : list label :=
  [Do CreateNew;
   Do (TemplateSave Store.all_succeed Store.all_succeed [] new_template None);
   Serve 0 Store.all_succeed (js "t1"); Serve 1 Store.all_succeed (js "t1"); Resume 1;
   Serve 1 Store.all_succeed (js "t2"); Resume 1; Resume 0].

(** The user confirms the deletion of a template and selects the same
    template before the deletion has come back. *)
Definition select_while_deleting : list label :=
  [Serve 0 Store.all_succeed []; Resume 0;
   Do (TemplateDelete Store.all_succeed Store.all_succeed (js "a"));
   Do (TemplateSelect filed_template);
   Serve 0 Store.all_succeed []; Resume 0; Serve 0 Store.all_succeed []; Resume 0].

(** The user confirms the deletion of a template and renames the same
    template before the list has been loaded again. *)
Definition rename_while_deleting : list label :=
  [Serve 0 Store.all_succeed []; Resume 0;
   Do (TemplateDelete Store.all_succeed Store.all_succeed (js "a"));
   Do (TemplateRename Store.all_succeed Store.all_succeed (js "t3") filed_template
         (js "Memo"));
   Serve 0 Store.all_succeed []; Serve 1 Store.all_succeed (js "t3");
   Resume 0; Resume 0; Serve 0 Store.all_succeed []; Serve 1 Store.all_succeed [];
   Resume 0; Resume 0].

(** ** Invariants *)

(** The selection a continuation has read. *)
Definition cont_sel (k : cont) : option Template.t :=
  match k with
  | DeleteThenLoad _ sel | DeleteLoaded _ sel
  | RenameThenLoad _ _ sel | RenameLoaded _ _ sel => sel
  | _ => None
  end.

Definition handler_cont (t : handler) : cont :=
  match t with Awaiting _ k | Resolved _ k => k end.

(** Templates as an answer of [getTemplates] holds them. *)
Definition loaded_ok (loaded : list Template.t) : Prop :=
  NoDup (Template.id <$> loaded) ∧ Forall stored loaded.

(** A handler of a reachable configuration: it started while nothing
    was selected, and the templates of its answer are as
    [getTemplates] returns them. *)
Definition handler_ok (t : handler) : Prop :=
  cont_sel (handler_cont t) = None
  ∧ match t with Resolved (Templates loaded) _ => loaded_ok loaded | _ => True end.

Definition config_inv (c : config) : Prop :=
  step_inv (page c) ∧ templates_inv (mk_world (page c) (remote c))
  ∧ no_edit_inv (page c) ∧ Forall handler_ok (waiting c).

#[local] Arguments Store.saveTemplate : simpl never.
#[local] Arguments Store.deleteTemplate : simpl never.
#[local] Arguments Store.getTemplates : simpl never.
#[local] Arguments mergeAllDocuments : simpl never.

(** ** The invariant is kept *)

Lemma serve_table_wf o now c r :
  Store.table_wf r → Store.table_wf (serve o now c r).2.
Proof.
  intros Hwf. destruct c as [|template file|id]; cbn [serve]; [done| |].
  - pose proof (Store.saveTemplate_table_wf o now template file r Hwf) as H.
    by destruct (Store.saveTemplate _ _ _ _ _).
  - by apply Store.deleteTemplate_table_wf.
Qed.

Lemma serve_answer_ok o now c k r :
  Store.table_wf r → handler_ok (Awaiting c k) → handler_ok (Resolved (serve o now c r).1 k).
Proof.
  intros Hwf [Hk _]. split; [done|]. destruct c as [|template file|id]; cbn [serve fst].
  - split; [by apply Store.getTemplates_NoDup|apply getTemplates_stored].
  - by destruct (Store.saveTemplate _ _ _ _ _).
  - done.
Qed.

Lemma start_sync e r s s' new :
  start e r s = Some (s', new) → new = [] →
  handle e (mk_world s r) = mk_world s' r.
Proof. destruct e; cbn; intros [= <- <-] Hn; by try discriminate Hn. Qed.

Lemma fire_do_inv e c c' :
  config_inv c → fire (Do e) c = Some c' → config_inv c'.
Proof.
  destruct c as [s r ts]. intros (Hs & Ht & He & Hts). cbn [fire page remote waiting].
  case_decide as Hoff; [|done].
  destruct (start e r s) as [[s' new]|] eqn:Hst; [|done]. cbn. intros [= <-].
  unfold config_inv. cbn [page remote waiting].
  destruct new as [|t0 new0].
  - pose proof (start_sync _ _ _ _ _ Hst eq_refl) as Hh. rewrite app_nil_r.
    pose proof (handle_step_inv e (mk_world s r) Hs Hoff) as H1.
    pose proof (handle_templates_inv e (mk_world s r) Ht Hoff) as H2.
    pose proof (handle_no_edit e (mk_world s r) Ht He Hoff) as H3.
    rewrite Hh in H1, H2, H3. by split_and!.
  - assert (s' = s ∧ ∃ c k, t0 :: new0 = [Awaiting c k]
            ∧ (cont_sel k = None ∨ cont_sel k = selectedTemplate s ∧ on_display s is_list))
      as (-> & c & k & [= -> ->] & Hk).
    { destruct e; cbn in Hst; simplify_eq; split; try done; eexists _, _;
        (split; [done|]); cbn; first [by left|right; split; [done|]; first [done|by destruct Hoff]]. }
    split_and!; try done. apply Forall_app. split; [done|]. constructor; [|done].
    split; [|done]. cbn [handler_cont]. destruct Hk as [|[-> [H1 _]%on_display_list]]; [done|].
    by apply Hs.
Qed.

Lemma fire_serve_inv i o now c c' :
  config_inv c → fire (Serve i o now) c = Some c' → config_inv c'.
Proof.
  destruct c as [s r ts]. intros (Hs & Ht & He & Hts). cbn [fire page remote waiting].
  destruct (ts !! i) as [[call k|]|] eqn:Hi; try done.
  pose proof (serve_table_wf o now call r) as Hwf.
  pose proof (serve_answer_ok o now call k r) as Hok.
  destruct (serve o now call r) as [a r']. intros [= <-].
  destruct Ht as (Hr & ? & ? & ? & ?). unfold config_inv, templates_inv. cbn in *.
  split_and!; try done; try (by apply Hwf).
  apply Forall_insert; [done|]. apply Hok; [done|].
  exact (Forall_lookup_1 _ _ _ _ Hts Hi).
Qed.

Lemma resume_inv a k s r s' new toast :
  step_inv s → templates_inv (mk_world s r) → no_edit_inv s → handler_ok (Resolved a k) →
  resume a k s = (s', new, toast) →
  step_inv s' ∧ templates_inv (mk_world s' r) ∧ no_edit_inv s' ∧ Forall handler_ok new.
Proof.
  intros Hs Ht He [Hk Ha] Hres.
  destruct k, a as [loaded|[row|]|]; cbn in Hres, Hk; simplify_eq;
    unfold was_selected; cbn [fmap option_fmap option_map];
    rewrite ?bool_decide_eq_false_2 by done.
  all: try match goal with H : loaded_ok _ |- _ => destruct H end.
  all: unfold step_inv, templates_inv, no_edit_inv in *; cbn in *; destruct_and?.
  all: split_and!; try done; repeat constructor.
Qed.

Lemma fire_resume_inv i c c' : config_inv c → fire (Resume i) c = Some c' → config_inv c'.
Proof.
  destruct c as [s r ts]. intros (Hs & Ht & He & Hts). cbn [fire page remote waiting].
  destruct (ts !! i) as [[|a k]|] eqn:Hi; try done.
  destruct (resume a k s) as [[s' new] toast] eqn:Hres. intros [= <-].
  pose proof (Forall_lookup_1 _ _ _ _ Hts Hi) as Hok.
  destruct (resume_inv _ _ _ r _ _ _ Hs Ht He Hok Hres) as (? & ? & ? & ?).
  split_and!; try done. cbn. apply Forall_app. split; [by apply Forall_delete|done].
Qed.

Lemma fire_inv l c c' : config_inv c → fire l c = Some c' → config_inv c'.
Proof.
  destruct l; eauto using fire_do_inv, fire_serve_inv, fire_resume_inv.
Qed.

Lemma reachable_config_inv c : reachable c → config_inv c.
Proof.
  induction 1 as [r Hr|l c c' _ IH Hf]; [|by eapply fire_inv].
  unfold config_inv, step_inv, templates_inv, no_edit_inv. cbn.
  split_and!; try done; try lia; repeat constructor.
Qed.

(** ** The handlers of [Workflow.v] are the uninterrupted schedules *)

Lemma lookup_last {A} (l : list A) x : (l ++ [x]) !! length l = Some x.
Proof. by apply list_lookup_middle. Qed.

Lemma insert_last {A} (l : list A) x y : <[length l := y]> (l ++ [x]) = l ++ [y].
Proof. by rewrite insert_app_r_alt, Nat.sub_diag by lia. Qed.

Lemma delete_last {A} (l : list A) x : delete (length l) (l ++ [x]) = l.
Proof. rewrite (delete_middle l [] x). apply app_nil_r. Qed.

Lemma fire_serve_last o now s r ts call k :
  fire (Serve (length ts) o now) (mk_config s r (ts ++ [Awaiting call k])) =
  Some (mk_config s (serve o now call r).2 (ts ++ [Resolved (serve o now call r).1 k])).
Proof.
  cbn [fire waiting page remote]. rewrite lookup_last.
  destruct (serve o now call r). by rewrite insert_last.
Qed.

Lemma fire_resume_last s r ts a k :
  fire (Resume (length ts)) (mk_config s r (ts ++ [Resolved a k])) =
  Some (mk_config (resume a k s).1.1 r (ts ++ (resume a k s).1.2)).
Proof.
  cbn [fire waiting page remote]. rewrite lookup_last.
  destruct (resume a k s) as [[? ?] ?]. by rewrite delete_last.
Qed.

Lemma fire_do e c :
  offered (page c) e →
  fire (Do e) c =
  (λ '(s', new), mk_config s' (remote c) (waiting c ++ new)) <$> start e (remote c) (page c).
Proof.
  intros Hoff. cbn [fire]. rewrite decide_True by done.
  by destruct (start e (remote c) (page c)) as [[? ?]|].
Qed.

Ltac last_handler_steps :=
  repeat first
    [ rewrite fire_serve_last; cbn [mbind option_bind serve fst snd]
    | rewrite fire_resume_last; cbn [mbind option_bind resume fst snd] ].

Lemma uninterrupted_handle e c :
  offered (page c) e → (∀ o, e ≠ TemplatesLoaded o) →
  fire_all (Do e :: uninterrupted e (remote c) (length (waiting c))) c =
  Some (mk_config (Index.page (handle e (mk_world (page c) (remote c))))
          (Index.remote (handle e (mk_world (page c) (remote c)))) (waiting c)).
Proof.
  destruct c as [s r ts]. cbn [page remote waiting]. intros Hoff Hne.
  cbn [fire_all]. rewrite fire_do by done. cbn [page remote waiting].
  destruct e; try (by cbn; rewrite app_nil_r); try (by destruct (Hne o)).
  - cbn [start fmap option_fmap option_map mbind option_bind uninterrupted handle
         Index.page Index.remote]. unfold handleTemplateSave.
    destruct (Store.saveTemplate o now template file r) as [[row|] r'] eqn:Hsave;
      cbn [fst app fire_all mbind option_bind];
      rewrite fire_serve_last; cbn [mbind option_bind serve]; rewrite Hsave;
      last_handler_steps; by rewrite app_nil_r.
  - cbn [start fmap option_fmap option_map mbind option_bind uninterrupted handle
         Index.page Index.remote fire_all]. unfold handleTemplateDelete.
    last_handler_steps. by rewrite app_nil_r.
  - cbn [start fmap option_fmap option_map mbind option_bind uninterrupted handle
         Index.page Index.remote]. unfold handleTemplateRename.
    destruct (Store.saveTemplate o now _ None r) as [[row|] r'] eqn:Hsave;
      cbn [fst app fire_all mbind option_bind];
      rewrite fire_serve_last; cbn [mbind option_bind serve]; rewrite Hsave;
      last_handler_steps; by rewrite app_nil_r.
Qed.

Lemma delete_insert_same {A} (l : list A) i x : delete i (<[i:=x]> l) = delete i l.
Proof. revert i. induction l as [|y l IH]; intros [|i]; cbn; by rewrite ?IH. Qed.

(** The load of the first render as [Workflow.v] has it. *)
Lemma mount_load_handle i o now c :
  waiting c !! i = Some (Awaiting GetTemplates MountLoad) →
  fire_all [Serve i o now; Resume i] c =
  Some (mk_config (loadTemplates o (remote c) (page c)) (remote c) (delete i (waiting c))).
Proof.
  destruct c as [s r ts]. cbn [page remote waiting fire_all fire]. intros Hi.
  rewrite Hi. cbn [serve mbind option_bind fire waiting page remote].
  rewrite list_lookup_insert_eq by by eapply lookup_lt_Some.
  cbn [resume]. by rewrite delete_insert_same, app_nil_r.
Qed.

(** ** Every handler comes to its end *)

Lemma total_app ts1 ts2 : total (ts1 ++ ts2) = total ts1 + total ts2.
Proof. unfold total. induction ts1 as [|t ts1 IH]; cbn in *; lia. Qed.

Lemma resume_weight a k s : total (resume a k s).1.2 ≤ 2 * cont_calls k.
Proof. destruct k, a as [loaded|[row|]|]; cbn; lia. Qed.

Lemma next_step_fires c :
  waiting c ≠ [] →
  ∃ l c', next_step c = Some l ∧ fire l c = Some c' ∧ S (total (waiting c')) ≤ total (waiting c).
Proof.
  destruct c as [s r [|[call k|a k] ts]]; [done|..]; intros _; unfold next_step;
    cbn [waiting]; eexists _; cbn [fire waiting page remote lookup list_lookup].
  - destruct (serve Store.all_succeed [] call r) as [a r'] eqn:Hs.
    eexists. split; [done|]. cbn [fire waiting page remote lookup list_lookup]. rewrite Hs.
    split; [done|]. cbn. lia.
  - pose proof (resume_weight a k s) as Hw.
    destruct (resume a k s) as [[s' new] toast] eqn:Hr.
    eexists. split; [done|]. cbn [fire waiting page remote lookup list_lookup]. rewrite Hr.
    split; [done|]. cbn [waiting snd fst] in *. rewrite total_app. unfold total in *. cbn in *. lia.
Qed.

Lemma drain_empties fuel c : total (waiting c) ≤ fuel → waiting (drain fuel c) = [].
Proof.
  revert c. induction fuel as [|fuel IH]; intros c Hw.
  - destruct (waiting c) as [|[]] eqn:E; [done|cbn in Hw; lia..].
  - cbn [drain]. destruct (decide (waiting c = [])) as [E|E].
    + unfold next_step. by rewrite E.
    + destruct (next_step_fires c E) as (l & c' & -> & Hf & Hlt). cbn. rewrite Hf.
      apply IH. lia.
Qed.

Lemma drain_reachable fuel c : reachable c → reachable (drain fuel c).
Proof.
  revert c. induction fuel as [|fuel IH]; intros c Hc; [done|]. cbn [drain].
  destruct (next_step c) as [l|]; [|done]. cbn.
  destruct (fire l c) as [c'|] eqn:Hf; [|done]. apply IH. by eapply reach_fire.
Qed.

(** ** Runs *)

Lemma reachable_fire_all ls c c' : reachable c → fire_all ls c = Some c' → reachable c'.
Proof.
  revert c. induction ls as [|l ls IH]; intros c Hc; cbn [fire_all]; [by intros [= <-]|].
  destruct (fire l c) as [c1|] eqn:Hf; [|done]. cbn. apply IH. by eapply reach_fire.
Qed.

(** ** The theorems *)

(** With the handlers stopped at every [await] and the calls served and
    answered in any order, the page still keeps its step in agreement with
    the rest of its state and displays exactly one screen, and the editor
    never opens on a template. *)
Theorem async_one_screen c :
  reachable c →
  step_inv (page c) ∧ (∃ sc, view (page c) = [sc]) ∧ no_edit_inv (page c).
Proof.
  intros (Hs & _ & He & _)%reachable_config_inv.
  split_and!; [done|by apply step_inv_one_screen|done].
Qed.

(** The lists the page holds and the answers on their way carry pairwise
    distinct identifiers and templates as [getTemplates] returns them,
    whatever the order of the steps; and no handler under way has read a
    selected template, so the branches of [handleTemplateDelete] and
    [handleTemplateRename] on the selected template never run. *)
Theorem async_templates c :
  reachable c →
  templates_inv (mk_world (page c) (remote c)) ∧ Forall handler_ok (waiting c).
Proof. by intros (_ & ? & _ & ?)%reachable_config_inv. Qed.



(** An answer that comes in late overwrites a later one: after a save
    and the reload that follows it, the answer to the load of the first
    render, made before the save, empties the list, although the table
    holds the template and nothing is under way any more. *)
Example late_answer_empties_list :
  ∃ c, fire_all late_first_load (initial (Store.mk_remote [] [])) = Some c
       ∧ waiting c = [] ∧ templates (page c) = []
       ∧ Store.id <$> Store.table (remote c) = [js "n"]
       ∧ view (page c) = [TemplateListScreen []].
Proof. eexists. split; [by vm_compute|]. by vm_compute. Qed.

(** A template deleted while the user selects it stays selected: the
    handler compares the selection it has read when it started. *)
Example deleted_stays_selected :
  ∃ c, fire_all select_while_deleting (initial filed_remote) = Some c
       ∧ waiting c = [] ∧ selectedTemplate (page c) = Some filed_template
       ∧ templates (page c) = [] ∧ remote c = Store.mk_remote [] []
       ∧ view (page c) = [ChooseDataSource filed_template].
Proof. eexists. split; [by vm_compute|]. by vm_compute. Qed.

(** A rename that is served after the deletion of its template brings
    the template back: [saveTemplate] finds no row and inserts one, whose
    path names the file the deletion has removed. *)
Example rename_brings_back_deleted :
  ∃ c, fire_all rename_while_deleting (initial filed_remote) = Some c
       ∧ waiting c = []
       ∧ Store.table (remote c) =
           [Store.mk_row (js "a") (js "Memo") [js "Name"] (js "a.docx") (js "t3") (js "t3")]
       ∧ Store.files (remote c) = []
       ∧ Template.name <$> templates (page c) = [js "Memo"].
Proof. eexists. split; [by vm_compute|]. by vm_compute. Qed.

(** ** The theorems at concrete inputs *)

Lemma async_one_screen_witness :
  step_inv (page (drain 8 (initial filed_remote)))
  ∧ (∃ sc, view (page (drain 8 (initial filed_remote))) = [sc])
  ∧ no_edit_inv (page (drain 8 (initial filed_remote))).
Proof.
  apply async_one_screen, drain_reachable, reach_initial.
  apply (bool_decide_unpack _). by vm_compute.
Defined.

Lemma async_templates_witness :
  templates_inv (mk_world (page (drain 8 (initial filed_remote)))
                   (remote (drain 8 (initial filed_remote))))
  ∧ Forall handler_ok (waiting (drain 8 (initial filed_remote))).
Proof.
  apply async_templates, drain_reachable, reach_initial.
  apply (bool_decide_unpack _). by vm_compute.
Defined.



End Async.
