(* ===== verification/Screen.v ===== *)
(** * Screen: what a component promises the page that mounts it

    A component of [src/src/components] is, for the page that renders it, a
    state that starts when the component is mounted, a set of controls the
    user can operate in each state, and the calls the component makes on
    the properties it was given.  The class [Screen] is that view of a
    component: [P] the properties, [S] the state, [A] the actions of the
    user and [C] the calls on the page.

    The page renders a component under a condition on its own state
    ([{cond && <Component ... />}] in [src/src/pages/Index.tsx]).  React
    keeps the state of a component for as long as the condition holds from
    one render to the next, runs the effects whose dependencies changed when
    the properties change, and starts the component afresh when the
    condition holds again after it failed; [reconcile] is that rule for one
    such place of the page.

    [ScreenLaws] is what the proofs about the page need from a component:
    an invariant of its state that mounting establishes and that rendering
    and acting preserve, and a condition every call satisfies.  The page is
    verified against the class in [App.v]; the components discharge it
    there from the lemmas of their own files. *)

From stdpp Require Import base option list.
From S2P Require Import Prelude.

Class Screen (P S A C : Type) : Type := {
  (** The state after the first render and its effects. *)
  screen_mount : P → S;
  (** The state after a render with new properties and the effects that
      depend on them. *)
  screen_rerender : P → P → S → S;
  (** The controls the render displays and enables. *)
  screen_available : P → S → A → bool;
  (** What an action does: the state after, and the calls on the page. *)
  screen_act : P → A → S → S * list C
}.

Section screen.
Context {P S A C : Type} `{!Screen P S A C}.

(** One place of the page from one render to the next: [before] and
    [after] are the properties the page renders the component with, [None]
    where its condition fails. *)
Definition reconcile (before after : option P) (slot : option S) : option S :=
  match after with
  | Some p' =>
      Some match before, slot with
           | Some p, Some s => screen_rerender p p' s
           | _, _ => screen_mount p'
           end
  | None => None
  end.

(** The controls of a place: those of the component mounted there. *)
Definition slot_available (p : option P) (slot : option S) (a : A) : bool :=
  match p, slot with
  | Some p, Some s => screen_available p s a
  | _, _ => false
  end.

Definition slot_act (p : option P) (a : A) (slot : option S) : option S * list C :=
  match p, slot with
  | Some p, Some s => let '(s', calls) := screen_act p a s in (Some s', calls)
  | _, _ => (slot, [])
  end.

(** The states of a component the page keeps mounted, with properties
    that satisfy [ok] at each render. *)
Inductive reaches (ok : P → Prop) : P → S → Prop :=
| reaches_mount p : ok p → reaches ok p (screen_mount p)
| reaches_render p p' s : reaches ok p s → ok p' → reaches ok p' (screen_rerender p p' s)
| reaches_act p a s :
    reaches ok p s → screen_available p s a = true → reaches ok p (screen_act p a s).1.

End screen.

(** What a component guarantees: for properties that satisfy [ok], [inv]
    holds of the state from the mount on, a call is made only where [just]
    holds, and an action makes at most one call. *)
Class ScreenLaws {P S A C : Type} `{!Screen P S A C}
    (ok : P → Prop) (inv : P → S → Prop) (just : P → S → C → Prop) : Prop := {
  mount_inv p : ok p → inv p (screen_mount p);
  rerender_inv p p' s : ok p' → inv p s → inv p' (screen_rerender p p' s);
  act_inv p a s :
    ok p → inv p s → screen_available p s a = true → inv p (screen_act p a s).1;
  act_just p a s c :
    ok p → inv p s → screen_available p s a = true →
    c ∈ (screen_act p a s).2 → just p s c;
  act_one p a s : length (screen_act p a s).2 ≤ 1
}.

Section laws.
Context {P S A C : Type} `{!Screen P S A C}.
Context {ok : P → Prop} {inv : P → S → Prop} {just : P → S → C → Prop}.
Context `{!ScreenLaws ok inv just}.

(** A place is consistent: a component is mounted exactly where the page
    renders one, and its invariant holds. *)
Definition slot_inv (p : option P) (slot : option S) : Prop :=
  match p, slot with
  | Some p, Some s => ok p ∧ inv p s
  | None, None => True
  | _, _ => False
  end.

Lemma reaches_inv p s : reaches ok p s → ok p ∧ inv p s.
Proof.
  induction 1 as [p Hp|p p' s _ [_ IH] Hp'|p a s _ [Hp IH] Ha].
  - split; [done|by apply mount_inv].
  - split; [done|by apply rerender_inv].
  - split; [done|by apply act_inv].
Qed.

Lemma reconcile_slot_inv before after slot :
  from_option ok True after → slot_inv before slot → slot_inv after (reconcile before after slot).
Proof.
  destruct after as [p'|]; [|done]. cbn. intros Hp' Hs. split; [done|].
  destruct before as [p|], slot as [s|]; try done; [|by apply mount_inv..].
  apply rerender_inv; [done|apply Hs].
Qed.

Lemma slot_act_inv p a slot :
  slot_inv p slot → slot_available p slot a = true → slot_inv p (slot_act p a slot).1.
Proof.
  destruct p as [p|], slot as [s|]; try done. cbn. intros [Hp Hs] Ha.
  pose proof (act_inv p a s Hp Hs Ha). by destruct (screen_act p a s).
Qed.

Lemma slot_act_just p a slot c :
  slot_inv p slot → slot_available p slot a = true → c ∈ (slot_act p a slot).2 →
  ∃ p0 s0, p = Some p0 ∧ slot = Some s0 ∧ ok p0 ∧ inv p0 s0 ∧ just p0 s0 c.
Proof.
  destruct p as [p|], slot as [s|]; try done. cbn. intros [Hp Hs] Ha Hc.
  exists p, s. split_and!; try done. apply (act_just p a s); try done.
  by destruct (screen_act p a s).
Qed.

Lemma slot_act_calls p a slot :
  (slot_act p a slot).2 = [] ∨ ∃ c, (slot_act p a slot).2 = [c].
Proof.
  destruct p as [p|], slot as [s|]; cbn; try by left.
  pose proof (act_one p a s) as Hone.
  destruct (screen_act p a s) as [s' [|c [|c' cs]]]; cbn in *; [by left|right; by exists c|lia].
Qed.

End laws.
