(* ===== verification/App.v ===== *)
(** * App: the page with the components it mounts

    [src/src/pages/Index.tsx] renders its components under conditions on
    its state and hands them its handlers as properties.  [Workflow.v]
    models the page alone, as a transition system over the calls the
    components make; this file puts the components of [Forms.v],
    [Mapping.v], [Export.v] and [Catalog.v] in their places and lets the
    user act on their controls.

    A state of the application, [app], is the page with the remote side,
    the item of [localStorage] the manual form keeps its draft in, and for
    each place of the page the state of the component mounted there, if
    any.  An [action] is what the user does on a control of the component
    on display, or on one of the buttons the page renders itself, or the
    arrival of the templates the first render asked for.  [step] lets the
    component act, hands its calls to the handlers of the page as the JSX
    wires them, and renders: each place keeps, starts or drops its
    component as [reconcile] says.

    The theorems show that the application refines the page of
    [Workflow.v]: whatever the user does on the controls on display, the
    page sees only events that [Index.offered] allows, so that every
    theorem about the reachable states of the page holds of the
    application; that a component is mounted exactly where the page
    renders it, with the invariant of its own file; and what follows for
    the user: that the controls alone lead from a card to the documents,
    by the form and by a dataset, and which document the preview
    downloads. *)

From Stdlib Require Import Ascii String ZArith.
From stdpp Require Import base numbers option list.
From S2P Require Import Prelude JsString Types Merge Batch Store Mapping Export Forms.
From S2P Require Import Catalog Workflow Screen.
#[local] Set Warnings "-clear-no-such-hyp".

Module App.

(** ** The components as screens *)

#[global] Instance list_screen :
  Screen (list Template.t) TemplateList.mounted TemplateList.action TemplateList.call := {|
  screen_mount _ := TemplateList.mount;
  screen_rerender _ _ m := m;
  screen_available := TemplateList.available;
  screen_act := TemplateList.act
|}.

#[global] Instance editor_screen :
  Screen (option Template.t) TemplateEditor.state TemplateEditor.action
    TemplateEditor.call := {|
  screen_mount := TemplateEditor.initial;
  screen_rerender _ _ s := s;
  screen_available _ := TemplateEditor.available;
  screen_act := TemplateEditor.act
|}.

#[global] Instance word_screen :
  Screen unit WordTemplateUploader.state WordTemplateUploader.action
    WordTemplateUploader.call := {|
  screen_mount _ := WordTemplateUploader.initial;
  screen_rerender _ _ s := s;
  screen_available _ := WordTemplateUploader.available;
  screen_act _ := WordTemplateUploader.act
|}.

#[global] Instance uploader_screen :
  Screen unit DatasetUploader.state DatasetUploader.action DatasetUploader.call := {|
  screen_mount _ := DatasetUploader.initial;
  screen_rerender _ _ s := s;
  screen_available _ := DatasetUploader.available;
  screen_act _ := DatasetUploader.act
|}.

(** The manual form reads its draft from [localStorage] when it is
    mounted: the item is part of what it is mounted with. *)
#[global] Instance manual_screen :
  Screen (list jstring * ManualFormFiller.stored) ManualFormFiller.state
    ManualFormFiller.action ManualFormFiller.call := {|
  screen_mount p := ManualFormFiller.initial p.1 p.2;
  screen_rerender _ _ s := s;
  screen_available p := ManualFormFiller.available p.1;
  screen_act p := ManualFormFiller.act p.1
|}.

(** The effect of the mapper depends on both its properties: it maps
    afresh when one of them changes. *)
#[global] Instance mapper_screen :
  Screen (list jstring * list jstring) (list FieldMapping.t) FieldMapper.action
    FieldMapper.call := {|
  screen_mount p := FieldMapper.autoMappings p.1 p.2;
  screen_rerender p p' mappings :=
    if decide (p = p') then mappings else FieldMapper.autoMappings p'.1 p'.2;
  screen_available p := FieldMapper.available p.1 p.2;
  screen_act p := FieldMapper.act p.1
|}.

(** What the preview downloads depends on the file store and on the
    document engine ([DocumentPreview.click]); its state and its calls do
    not. *)
#[global] Instance preview_screen :
  Screen DocumentPreview.props DocumentPreview.state DocumentPreview.action
    DocumentPreview.call := {|
  screen_mount _ := DocumentPreview.initial;
  screen_rerender _ _ s := s;
  screen_available _ := DocumentPreview.available;
  screen_act := DocumentPreview.act
|}.

(** ** What the page renders each component with *)

(** The properties of the first screen on display that [sel] selects. *)
Definition shown {P} (sel : Index.screen → option P) (s : Index.state) : option P :=
  head (omap sel (Index.view s)).

Definition as_list (sc : Index.screen) : option (list Template.t) :=
  match sc with Index.TemplateListScreen templates => Some templates | _ => None end.

Definition as_editor (sc : Index.screen) : option (option Template.t) :=
  match sc with Index.TemplateEditorScreen template => Some template | _ => None end.

Definition as_word (sc : Index.screen) : option unit :=
  match sc with Index.WordTemplateUploaderScreen => Some () | _ => None end.

Definition as_uploader (sc : Index.screen) : option unit :=
  match sc with Index.DatasetUploaderScreen _ => Some () | _ => None end.

Definition as_manual (sc : Index.screen) : option (list jstring) :=
  match sc with Index.ManualFormFillerScreen placeholders => Some placeholders | _ => None end.

Definition as_mapper (sc : Index.screen) : option (list jstring * list jstring) :=
  match sc with
  | Index.FieldMapperScreen placeholders dataFields => Some (placeholders, dataFields)
  | _ => None
  end.

Definition as_preview (sc : Index.screen) : option DocumentPreview.props :=
  match sc with Index.DocumentPreviewScreen p => Some p | _ => None end.

(** ** The wiring of the calls *)

(** What the outside answers while a handler of the page runs: which of
    the remote calls of the first and of the second function awaited
    succeed, and the time. *)
Record answers : Type := mk_answers {
  first_answer : Store.outcome;
  second_answer : Store.outcome;
  clock : jstring
}.

(** The handler of the page behind each property of a component. *)
Definition list_event (n : answers) (c : TemplateList.call) : Index.event :=
  match c with
  | TemplateList.onSelect template => Index.TemplateSelect template
  | TemplateList.onEdit template => Index.TemplateEdit template
  | TemplateList.onDelete id => Index.TemplateDelete (first_answer n) (second_answer n) id
  | TemplateList.onCreateNew => Index.CreateNew
  | TemplateList.onUploadWord => Index.UploadWord
  | TemplateList.onRename template newName =>
      Index.TemplateRename (first_answer n) (second_answer n) (clock n) template newName
  end.

Definition editor_event (n : answers) (c : TemplateEditor.call) : Index.event :=
  match c with
  | TemplateEditor.onSave template =>
      Index.TemplateSave (first_answer n) (second_answer n) (clock n) template None
  | TemplateEditor.onCancel => Index.Cancel
  end.

Definition word_event (n : answers) (c : WordTemplateUploader.call) : Index.event :=
  match c with
  | WordTemplateUploader.onSave template file =>
      Index.TemplateSave (first_answer n) (second_answer n) (clock n) template (Some file)
  | WordTemplateUploader.onCancel => Index.Cancel
  end.

Definition uploader_event (c : DatasetUploader.call) : Index.event :=
  match c with
  | DatasetUploader.onDataLoaded data headers => Index.DataLoaded data headers
  end.

Definition manual_event (c : ManualFormFiller.call) : Index.event :=
  match c with
  | ManualFormFiller.onComplete data => Index.ManualDataFilled data
  | ManualFormFiller.onBack => Index.ManualBack
  end.

Definition mapper_event (c : FieldMapper.call) : Index.event :=
  match c with
  | FieldMapper.onMappingComplete mappings => Index.MappingComplete mappings
  end.

Definition preview_event (c : DocumentPreview.call) : Index.event :=
  match c with
  | DocumentPreview.onBack => Index.BackToMapping
  end.

(** ** The application *)

(** The component mounted at each place of the page. *)
Record children : Type := mk_children {
  list_slot : option TemplateList.mounted;
  editor_slot : option TemplateEditor.state;
  word_slot : option WordTemplateUploader.state;
  uploader_slot : option DatasetUploader.state;
  manual_slot : option ManualFormFiller.state;
  mapper_slot : option (list FieldMapping.t);
  preview_slot : option DocumentPreview.state
}.

Definition unmounted : children := mk_children None None None None None None None.

Record app : Type := mk_app {
  index : Index.world;
  (** The templates the first render asked for have not arrived. *)
  loading : bool;
  (** The item [docmerge_manual_form_data] of [localStorage]. *)
  storage : ManualFormFiller.stored;
  screens : children
}.

(** What the user does. *)
Inductive action : Type :=
| Arrive (o : Store.outcome)
| OnList (a : TemplateList.action)
| OnEditor (a : TemplateEditor.action)
| OnWord (a : WordTemplateUploader.action)
| Click_mode (mode : Index.DataMode)
| Click_back_to_templates
| OnUploader (a : DatasetUploader.action)
| OnManual (a : ManualFormFiller.action)
| OnMapper (a : FieldMapper.action)
| OnPreview (a : DocumentPreview.action).

(** The item of [localStorage] once the component has acted: the manual
    form writes it, nothing else does. *)
Definition storage_after (c : children) (st : ManualFormFiller.stored) :
    ManualFormFiller.stored :=
  from_option ManualFormFiller.localStorage st (manual_slot c).

(** ** What the components guarantee *)

(** No condition on the properties. *)
Definition any {P : Type} (_ : P) : Prop := True.

(** The list is given templates of the table; the template its dialogs
    are for is one of them, and it calls the page for templates it
    displays. *)
Definition list_ok (templates : list Template.t) : Prop := Forall Index.stored templates.

Definition list_inv (_ : list Template.t) (m : TemplateList.mounted) : Prop :=
  TemplateList.dialogs_inv (TemplateList.list_state m)
  ∧ from_option Index.stored True (TemplateList.selectedTemplate (TemplateList.list_state m)).

Definition list_just (templates : list Template.t) (m : TemplateList.mounted)
    (c : TemplateList.call) : Prop :=
  match c with
  | TemplateList.onSelect template => template ∈ templates
  | TemplateList.onEdit template =>
      template ∈ templates ∧ TemplateCard.editable template = true
  | TemplateList.onRename template newName =>
      Index.stored template ∧ newName ≠ [] ∧ newName = trim (TemplateList.newName m)
  | TemplateList.onDelete id =>
      Template.id <$> TemplateList.selectedTemplate (TemplateList.list_state m) = Some id
  | TemplateList.onCreateNew | TemplateList.onUploadWord => True
  end.

Definition editor_inv (_ : option Template.t) (_ : TemplateEditor.state) : Prop := True.

(** The editor saves a template with a name and a content, not marked as
    a Word template. *)
Definition editor_just (_ : option Template.t) (s : TemplateEditor.state)
    (c : TemplateEditor.call) : Prop :=
  match c with
  | TemplateEditor.onSave template =>
      blank (Template.name template) = false ∧ blank (Template.content template) = false
      ∧ Template.isWordTemplate template = None
  | TemplateEditor.onCancel => True
  end.

Definition word_inv (_ : unit) (s : WordTemplateUploader.state) : Prop :=
  WordTemplateUploader.file_inv s.

(** The uploader saves a file with the name of a Word document and a
    template marked as a Word template, with the placeholders on
    display. *)
Definition word_just (_ : unit) (s : WordTemplateUploader.state)
    (c : WordTemplateUploader.call) : Prop :=
  match c with
  | WordTemplateUploader.onSave template file =>
      WordTemplateUploader.is_word_name (Store.file_name file) = true
      ∧ Template.isWordTemplate template = Some true
      ∧ Template.name template ≠ []
      ∧ Template.placeholders template = WordTemplateUploader.placeholders s
  | WordTemplateUploader.onCancel => True
  end.

Definition uploader_inv (_ : unit) (s : DatasetUploader.state) : Prop :=
  DatasetUploader.preview_inv s.

(** The rows handed on are those of a file, headed by the keys of the
    first, or none when the file is cleared. *)
Definition uploader_just (_ : unit) (s : DatasetUploader.state)
    (c : DatasetUploader.call) : Prop :=
  match c with
  | DatasetUploader.onDataLoaded data headers =>
      (data = [] ∧ headers = [])
      ∨ (data ≠ [] ∧ headers = row_keys (default [] (head data)))
  end.

Definition manual_inv (_ : list jstring * ManualFormFiller.stored)
    (_ : ManualFormFiller.state) : Prop := True.

(** The row handed on is the form, with a value for every placeholder. *)
Definition manual_just (p : list jstring * ManualFormFiller.stored)
    (s : ManualFormFiller.state) (c : ManualFormFiller.call) : Prop :=
  match c with
  | ManualFormFiller.onComplete data =>
      data = ManualFormFiller.formData s
      ∧ Forall (λ placeholder, truthy (row_get data placeholder) = true) p.1
  | ManualFormFiller.onBack => True
  end.

Definition mapper_inv (p : list jstring * list jstring) (mappings : list FieldMapping.t) :
    Prop :=
  NoDup p.1 → FieldMapper.mapping_inv p.1 p.2 mappings.

(** The mappings handed on are those on display, and complete. *)
Definition mapper_just (p : list jstring * list jstring) (mappings : list FieldMapping.t)
    (c : FieldMapper.call) : Prop :=
  c = FieldMapper.onMappingComplete mappings
  ∧ FieldMapper.isComplete p.1 mappings = true.

(** The preview stays in its first state. *)
Definition preview_inv (_ : DocumentPreview.props) (s : DocumentPreview.state) : Prop :=
  s = DocumentPreview.initial.

Definition preview_just (_ : DocumentPreview.props) (_ : DocumentPreview.state)
    (_ : DocumentPreview.call) : Prop := True.

(** Each place of the page holds the component the page renders there,
    in a state its invariant holds of. *)
Definition slots_inv (s : Index.state) (st : ManualFormFiller.stored) (c : children) : Prop :=
  slot_inv (ok:=list_ok) (inv:=list_inv) (shown as_list s) (list_slot c)
  ∧ slot_inv (ok:=any) (inv:=editor_inv) (shown as_editor s) (editor_slot c)
  ∧ slot_inv (ok:=any) (inv:=word_inv) (shown as_word s) (word_slot c)
  ∧ slot_inv (ok:=any) (inv:=uploader_inv) (shown as_uploader s) (uploader_slot c)
  ∧ slot_inv (ok:=any) (inv:=manual_inv) ((., st) <$> shown as_manual s) (manual_slot c)
  ∧ slot_inv (ok:=any) (inv:=mapper_inv) (shown as_mapper s) (mapper_slot c)
  ∧ slot_inv (ok:=any) (inv:=preview_inv) (shown as_preview s) (preview_slot c).

(** The render that follows a change of the page from [before] to
    [after]. *)
Definition render (before after : Index.state) (st : ManualFormFiller.stored)
    (c : children) : children :=
  mk_children
    (reconcile (shown as_list before) (shown as_list after) (list_slot c))
    (reconcile (shown as_editor before) (shown as_editor after) (editor_slot c))
    (reconcile (shown as_word before) (shown as_word after) (word_slot c))
    (reconcile (shown as_uploader before) (shown as_uploader after) (uploader_slot c))
    (reconcile ((., st) <$> shown as_manual before) ((., st) <$> shown as_manual after)
       (manual_slot c))
    (reconcile (shown as_mapper before) (shown as_mapper after) (mapper_slot c))
    (reconcile (shown as_preview before) (shown as_preview after) (preview_slot c)).

(** The first render. *)
Definition initial (r : Store.remote) (st : ManualFormFiller.stored) : app :=
  let c := render Index.initial Index.initial st unmounted in
  mk_app (Index.mk_world Index.initial r) true (storage_after c st) c.

(** The controls on display. *)
Definition available (w : app) (a : action) : bool :=
  let s := Index.page (index w) in
  let c := screens w in
  match a with
  | Arrive _ => loading w
  | OnList a => slot_available (shown as_list s) (list_slot c) a
  | OnEditor a => slot_available (shown as_editor s) (editor_slot c) a
  | OnWord a => slot_available (shown as_word s) (word_slot c) a
  | Click_mode _ => bool_decide (Index.on_display s Index.is_choice)
  | Click_back_to_templates =>
      bool_decide
        (Index.on_display s
           (λ sc, Index.is_choice sc || Index.is_uploader sc || Index.is_mapper sc))
  | OnUploader a => slot_available (shown as_uploader s) (uploader_slot c) a
  | OnManual a =>
      slot_available ((., storage w) <$> shown as_manual s) (manual_slot c) a
  | OnMapper a => slot_available (shown as_mapper s) (mapper_slot c) a
  | OnPreview a => slot_available (shown as_preview s) (preview_slot c) a
  end.

(** The component acts: the components after, and the events the page
    receives. *)
Definition raise (n : answers) (a : action) (w : app) : children * list Index.event :=
  let s := Index.page (index w) in
  let c := screens w in
  match a with
  | Arrive o => (c, [Index.TemplatesLoaded o])
  | OnList a =>
      let '(slot, calls) := slot_act (shown as_list s) a (list_slot c) in
      (mk_children slot (editor_slot c) (word_slot c) (uploader_slot c) (manual_slot c)
         (mapper_slot c) (preview_slot c), list_event n <$> calls)
  | OnEditor a =>
      let '(slot, calls) := slot_act (shown as_editor s) a (editor_slot c) in
      (mk_children (list_slot c) slot (word_slot c) (uploader_slot c) (manual_slot c)
         (mapper_slot c) (preview_slot c), editor_event n <$> calls)
  | OnWord a =>
      let '(slot, calls) := slot_act (shown as_word s) a (word_slot c) in
      (mk_children (list_slot c) (editor_slot c) slot (uploader_slot c) (manual_slot c)
         (mapper_slot c) (preview_slot c), word_event n <$> calls)
  | Click_mode mode => (c, [Index.DataModeSelect mode])
  | Click_back_to_templates => (c, [Index.BackToTemplates])
  | OnUploader a =>
      let '(slot, calls) := slot_act (shown as_uploader s) a (uploader_slot c) in
      (mk_children (list_slot c) (editor_slot c) (word_slot c) slot (manual_slot c)
         (mapper_slot c) (preview_slot c), uploader_event <$> calls)
  | OnManual a =>
      let '(slot, calls) :=
        slot_act ((., storage w) <$> shown as_manual s) a (manual_slot c) in
      (mk_children (list_slot c) (editor_slot c) (word_slot c) (uploader_slot c) slot
         (mapper_slot c) (preview_slot c), manual_event <$> calls)
  | OnMapper a =>
      let '(slot, calls) := slot_act (shown as_mapper s) a (mapper_slot c) in
      (mk_children (list_slot c) (editor_slot c) (word_slot c) (uploader_slot c)
         (manual_slot c) slot (preview_slot c), mapper_event <$> calls)
  | OnPreview a =>
      let '(slot, calls) := slot_act (shown as_preview s) a (preview_slot c) in
      (mk_children (list_slot c) (editor_slot c) (word_slot c) (uploader_slot c)
         (manual_slot c) (mapper_slot c) slot, preview_event <$> calls)
  end.

(** One action: the component acts, the handlers of the page run, the
    page renders, and a form that is mounted writes its draft. *)
Definition step (n : answers) (a : action) (w : app) : app :=
  let '(c, events) := raise n a w in
  let index' := Index.run events (index w) in
  let st := storage_after c (storage w) in
  let c' := render (Index.page (index w)) (Index.page index') st c in
  mk_app index' (match a with Arrive _ => false | _ => loading w end)
    (storage_after c' st) c'.

(** The applications reached from the first render. *)
Inductive reachable : app → Prop :=
| reach_initial r st : Store.table_wf r → reachable (initial r st)
| reach_step n a w : reachable w → available w a = true → reachable (step n a w).

(** A run of actions, and that each is available when its turn comes. *)
Definition run (l : list (answers * action)) (w : app) : app :=
  foldl (λ w na, step na.1 na.2 w) w l.

Fixpoint run_available (l : list (answers * action)) (w : app) : bool :=
  match l with
  | [] => true
  | na :: l' => available w na.2 && run_available l' (step na.1 na.2 w)
  end.

(** ** A sample session *)

(** A table with one template; a user who waits for the templates, clicks
    the card, chooses to fill the form by hand, types a name, submits and
    downloads the document. *)
Definition sample_remote : Store.remote := Store.mk_remote [Index.sample_row] [].

Definition sample_answers : answers :=
  mk_answers Store.all_succeed Store.all_succeed (js "t1").

Definition sample_template : Template.t := Store.template_of_row Index.sample_row.

Definition sample_arrival : list (answers * action) :=
  [(sample_answers, Arrive Store.all_succeed)].

Definition sample_session : list (answers * action) :=
  sample_arrival
  ++ [(sample_answers, OnList (TemplateList.Click_card sample_template TemplateCard.Card));
      (sample_answers, Click_mode Index.mode_manual);
      (sample_answers, OnManual (ManualFormFiller.Type_field (js "Name") (js "Ann")));
      (sample_answers, OnManual ManualFormFiller.Submit);
      (sample_answers, OnPreview DocumentPreview.Click_download_this)].

(** The application from its first render, without a draft. *)
Definition sample_run (l : list (answers * action)) : app :=
  run l (initial sample_remote ManualFormFiller.NoItem).

(** The actions that confirm a change of the stored templates: the
    confirmation of a dialog of the list, and the button that saves of the
    editor and of the uploader. *)
Definition confirms (a : action) : bool :=
  match a with
  | OnList TemplateList.Delete_confirm | OnList TemplateList.Rename_confirm
  | OnList (TemplateList.Rename_key _) => true
  | OnEditor (TemplateEditor.Click_save _ _) => true
  | OnWord (WordTemplateUploader.Click_save _ _) => true
  | _ => false
  end.

(** What the components guarantee of the events the page receives. *)
Definition event_just (s : Index.state) (e : Index.event) : Prop :=
  match e with
  | Index.TemplateSelect template | Index.TemplateEdit template =>
      template ∈ Index.templates s
  | Index.TemplateSave _ _ _ template (Some file) =>
      WordTemplateUploader.is_word_name (Store.file_name file) = true
      ∧ Template.isWordTemplate template = Some true ∧ Template.name template ≠ []
  | Index.TemplateSave _ _ _ template None =>
      blank (Template.name template) = false ∧ blank (Template.content template) = false
      ∧ Template.isWordTemplate template = None
  | Index.TemplateRename _ _ _ template newName =>
      Index.stored template ∧ newName ≠ [] ∧ no_space_ends newName
  | Index.DataLoaded data headers =>
      (data = [] ∧ headers = [])
      ∨ (data ≠ [] ∧ headers = row_keys (default [] (head data)))
  | Index.ManualDataFilled data =>
      ∃ template, Index.selectedTemplate s = Some template
        ∧ Forall (λ placeholder, truthy (row_get data placeholder) = true)
            (Template.placeholders template)
  | Index.MappingComplete mappings =>
      ∃ template, Index.selectedTemplate s = Some template
        ∧ FieldMapper.isComplete (Template.placeholders template) mappings = true
        ∧ (NoDup (Template.placeholders template) →
           FieldMapper.mapping_inv (Template.placeholders template) (Index.dataHeaders s)
             mappings)
  | _ => True
  end.

(** ** A user who fills the form by hand *)

(** The form after a value was typed into the field of each of [ps]. *)
Definition typed (values : jstring → jstring) (ps : list jstring)
    (s : ManualFormFiller.state) : ManualFormFiller.state :=
  foldl (λ s p, ManualFormFiller.handleInputChange p (values p) s) s ps.

Definition typing (n : answers) (values : jstring → jstring) (ps : list jstring) :
    list (answers * action) :=
  (λ p, (n, OnManual (ManualFormFiller.Type_field p (values p)))) <$> ps.

(** The user clicks the card of a template, chooses to fill it by hand,
    types a value into each field and submits. *)
Definition manual_actions (n : answers) (template : Template.t)
    (values : jstring → jstring) : list (answers * action) :=
  [(n, OnList (TemplateList.Click_card template TemplateCard.Card));
   (n, Click_mode Index.mode_manual)]
  ++ typing n values (Template.placeholders template)
  ++ [(n, OnManual ManualFormFiller.Submit)].

(** The row the form then holds, from the draft [st]. *)
Definition typed_row (values : jstring → jstring) (template : Template.t)
    (st : ManualFormFiller.stored) : DataRow :=
  ManualFormFiller.formData
    (typed values (Template.placeholders template)
       (ManualFormFiller.initial (Template.placeholders template) st)).

(** ** A user who uploads a dataset *)

(** The bindings after a field was chosen in the row of each of
    [selections]. *)
Definition selected (selections : list (jstring * jstring))
    (mappings : list FieldMapping.t) : list FieldMapping.t :=
  foldl (λ m pf, FieldMapper.handleMappingChange pf.1 pf.2 m) mappings selections.

Definition selecting (n : answers) (selections : list (jstring * jstring)) :
    list (answers * action) :=
  (λ pf, (n, OnMapper (FieldMapper.Select_field pf.1 pf.2))) <$> selections.

(** The user clicks the card of a template, chooses to upload a dataset,
    chooses a file that parses to [data], chooses fields in the mapper and
    continues. *)
Definition dataset_actions (n : answers) (template : Template.t) (file : Store.File)
    (data : list DataRow) (selections : list (jstring * jstring)) :
    list (answers * action) :=
  [(n, OnList (TemplateList.Click_card template TemplateCard.Card));
   (n, Click_mode Index.mode_dataset);
   (n, OnUploader (DatasetUploader.Choose (Some file) (Ok data) true))]
  ++ selecting n selections
  ++ [(n, OnMapper FieldMapper.Click_continue)].

(** The application with the bindings of the mapper replaced. *)
Definition with_mapper (mappings : list FieldMapping.t) (w : app) : app :=
  let c := screens w in
  mk_app (index w) (loading w) (storage w)
    (mk_children (list_slot c) (editor_slot c) (word_slot c) (uploader_slot c)
       (manual_slot c) (Some mappings) (preview_slot c)).

(** The application with the form replaced. *)
Definition with_manual (s : ManualFormFiller.state) (w : app) : app :=
  let c := screens w in
  mk_app (index w) (loading w) (ManualFormFiller.localStorage s)
    (mk_children (list_slot c) (editor_slot c) (word_slot c) (uploader_slot c) (Some s)
       (mapper_slot c) (preview_slot c)).

(** What holds of every application reached: the page is a reachable
    page, the places hold the components rendered, and the item of
    [localStorage] is what the form mounted wrote. *)
Definition app_inv (w : app) : Prop :=
  Index.reachable (index w)
  ∧ slots_inv (Index.page (index w)) (storage w) (screens w)
  ∧ storage_after (screens w) (storage w) = storage w.

(** ** The components keep their promises *)

#[global] Instance list_laws : ScreenLaws list_ok list_inv list_just.
Proof.
  split.
  - intros templates _. split; [|done]. unfold TemplateList.dialogs_inv. by cbn.
  - done.
  - intros templates a m Hok [Hd Hsel] Ha. cbn [screen_act screen_available list_screen] in *.
    split; [by apply act_dialogs_inv|].
    destruct (TemplateList.selectedTemplate (TemplateList.list_state (TemplateList.act _ _ _).1))
      as [t|] eqn:E; [cbn|done].
    apply (act_selected templates a m t Hd Ha) in E as [E|E]; [by rewrite E in Hsel|].
    by eapply (proj1 (Forall_forall _ _) Hok).
  - intros templates a m c Hok [Hd Hsel] Ha Hc.
    cbn [screen_act screen_available list_screen] in *.
    pose proof (act_calls templates a m c Hd Ha Hc) as Hj.
    destruct c; cbn in *; try done.
    + by eapply filteredTemplates_elem.
    + destruct Hj. split; [by eapply filteredTemplates_elem|done].
    + by destruct Hj.
    + destruct Hj as (_ & E & -> & ?). by rewrite E in Hsel.
  - intros. apply act_one_call.
Qed.

#[global] Instance editor_laws : ScreenLaws any editor_inv editor_just.
Proof.
  split; try done.
  - intros template a s [t|] _ _ Ha Hc; [|done].
    apply (click_save_hands template a s t Ha) in Hc as (_ & Hn & Hc & ? & ? & ?).
    cbn. by rewrite Hn, Hc.
  - intros. apply editor_act_one_call.
Qed.

#[global] Instance word_laws : ScreenLaws any word_inv word_just.
Proof.
  split; try done.
  - intros ? a s _ Hs _. by apply act_file_inv.
  - intros ? a s [t f|] _ Hs _ Hc; [|done]. by apply (act_word_calls a s).
  - intros. apply act_word_one_call.
Qed.

#[global] Instance uploader_laws : ScreenLaws any uploader_inv uploader_just.
Proof.
  split; try done.
  - intros ? _. unfold uploader_inv, DatasetUploader.preview_inv. cbn. split; [lia|done].
  - intros ? a s _ Hs _. by apply act_preview_inv.
  - intros ? a s [data headers] _ _ _ Hc.
    apply act_dataset_calls in Hc as [(_ & ? & ?)|?]; [by left|by right].
  - intros. apply act_dataset_one_call.
Qed.

#[global] Instance manual_laws : ScreenLaws any manual_inv manual_just.
Proof.
  split; try done.
  - intros p a s [data|] _ _ _ Hc; [|done]. by apply act_manual_calls in Hc as (_ & ? & ?).
  - intros. apply act_manual_one_call.
Qed.

#[global] Instance mapper_laws : ScreenLaws any mapper_inv mapper_just.
Proof.
  split.
  - intros p _ Hnd. by apply FieldMapper.autoMappings_inv.
  - intros p p' m _ Hm. cbn. try case_decide; simplify_eq; try done.
    intros Hnd. by apply FieldMapper.autoMappings_inv.
  - intros p a m _ Hm Ha Hnd. apply FieldMapper.act_mapping_inv; [by apply Hm|done].
  - intros p a m c _ _ _ Hc. by apply FieldMapper.mapper_act_calls in Hc as (_ & ? & ?).
  - intros. apply FieldMapper.mapper_act_one_call.
Qed.

#[global] Instance preview_laws : ScreenLaws any preview_inv preview_just.
Proof.
  split; try done.
  - intros p a s _ Hs Ha. by apply DocumentPreview.preview_click_state.
  - intros. apply DocumentPreview.preview_click_one_call.
Qed.

(** ** What is shown *)

Lemma shown_elem {P} (sel : Index.screen → option P) s p :
  shown sel s = Some p → ∃ sc, sc ∈ Index.view s ∧ sel sc = Some p.
Proof. unfold shown. by intros H%head_Some_elem_of%list_elem_of_omap. Qed.

Lemma shown_on_display {P} (sel : Index.screen → option P) (q : Index.screen → bool) s p :
  (∀ sc p, sel sc = Some p → q sc = true) → shown sel s = Some p → Index.on_display s q.
Proof.
  intros Hq (sc & Hin & Hsc)%shown_elem. apply Exists_exists. exists sc. eauto.
Qed.

Lemma shown_list s templates :
  shown as_list s = Some templates →
  templates = Index.templates s ∧ Index.on_display s Index.is_list.
Proof.
  intros H. split; [|by apply (shown_on_display as_list Index.is_list) in H; [|intros []]].
  apply shown_elem in H as ([] & Hin%Index.view_elem & [= <-]). done.
Qed.

(** ** The events of a component are offered *)

Lemma slot_events_offered {P S A C : Type} `{!Screen P S A C}
    {ok : P → Prop} {inv : P → S → Prop} {just : P → S → C → Prop}
    `{!ScreenLaws ok inv just} (f : C → Index.event) p slot a (i : Index.world) :
  slot_inv (ok:=ok) (inv:=inv) p slot → slot_available p slot a = true →
  (∀ p0 s0 c, p = Some p0 → ok p0 → inv p0 s0 → just p0 s0 c →
              Index.offered (Index.page i) (f c)) →
  Index.run_offered (f <$> (slot_act p a slot).2) i.
Proof.
  intros Hs Ha Hoff. pose proof (slot_act_just p a slot) as Hj.
  destruct (slot_act_calls p a slot) as [->|[c Hc]]; [done|]. rewrite Hc in *.
  cbn. split; [|done].
  destruct (Hj c Hs Ha) as (p0 & s0 & -> & -> & ? & ? & ?); [by left|]. by eapply Hoff.
Qed.

Ltac slot_events H Ha :=
  match goal with
  | |- context [slot_act ?p ?a ?slot] =>
      let E := fresh in
      destruct (slot_act p a slot) as [? ?] eqn:E; cbn [snd];
      match goal with
      | |- Index.run_offered (?f <$> ?calls) ?i =>
          replace calls with (slot_act p a slot).2 by (by rewrite E);
          clear E; apply (slot_events_offered f p slot a i H Ha)
      end
  end.

Ltac on_display_by q :=
  match goal with
  | Hp : shown _ _ = Some _ |- _ =>
      apply (shown_on_display _ q) in Hp; [|by intros []]
  end.

(** Whatever the user does on a control on display, the page receives
    only events it offers. *)
Lemma raise_offered n a w :
  app_inv w → available w a = true → Index.run_offered (raise n a w).2 (index w).
Proof.
  intros (Hr & (H1 & H2 & H3 & H4 & H5 & H6 & H7) & _) Ha.
  destruct a; cbn [raise available] in *.
  - done.
  - slot_events H1 Ha. intros ts m c [-> Hd]%shown_list _ _ Hj.
    destruct c; cbn in *; try done. by destruct Hj.
  - slot_events H2 Ha. intros p0 s0 c Hp _ _ _. on_display_by Index.is_form. by destruct c.
  - slot_events H3 Ha. intros p0 s0 c Hp _ _ _. on_display_by Index.is_form. by destruct c.
  - cbn. split; [by apply bool_decide_eq_true in Ha|done].
  - cbn. split; [by apply bool_decide_eq_true in Ha|done].
  - slot_events H4 Ha. intros p0 s0 c Hp _ _ _. on_display_by Index.is_uploader.
    by destruct c.
  - slot_events H5 Ha. intros p0 s0 c (pl & Hp & _)%fmap_Some _ _ _.
    on_display_by Index.is_manual. by destruct c.
  - slot_events H6 Ha. intros p0 s0 c Hp _ _ _. on_display_by Index.is_mapper. by destruct c.
  - slot_events H7 Ha. intros p0 s0 c Hp _ _ _. on_display_by Index.is_preview. by destruct c.
Qed.

(** ** What the page receives *)

Lemma slot_events_just {P S A C : Type} `{!Screen P S A C}
    {ok : P → Prop} {inv : P → S → Prop} {just : P → S → C → Prop}
    `{!ScreenLaws ok inv just} (f : C → Index.event) p slot a (Q : Index.event → Prop) :
  slot_inv (ok:=ok) (inv:=inv) p slot → slot_available p slot a = true →
  (∀ p0 s0 c, p = Some p0 → slot = Some s0 → ok p0 → inv p0 s0 → just p0 s0 c → Q (f c)) →
  Forall Q (f <$> (slot_act p a slot).2).
Proof.
  intros Hs Ha HQ. apply Forall_fmap, Forall_forall. intros c Hc.
  destruct (slot_act_just p a slot c Hs Ha Hc) as (p0 & s0 & -> & -> & ? & ? & ?).
  by eapply HQ.
Qed.

Ltac slot_just H Ha :=
  match goal with
  | |- context [slot_act ?p ?a ?slot] =>
      let E := fresh in
      destruct (slot_act p a slot) as [? ?] eqn:E; cbn [snd];
      match goal with
      | |- Forall ?Q (?f <$> ?calls) =>
          replace calls with (slot_act p a slot).2 by (by rewrite E);
          clear E; apply (slot_events_just f p slot a Q H Ha)
      end
  end.

Ltac view_of Hp :=
  apply shown_elem in Hp as ([] & Hp%Index.view_elem & [= <-]).

Lemma raise_just n a w :
  app_inv w → available w a = true →
  Forall (event_just (Index.page (index w))) (raise n a w).2.
Proof.
  intros (Hr & (H1 & H2 & H3 & H4 & H5 & H6 & H7) & _) Ha.
  destruct a; cbn [raise available] in *; try by repeat constructor.
  - slot_just H1 Ha. intros ts m c [-> _]%shown_list _ _ [_ Hsel] Hj.
    destruct c; cbn in *; try done; [by destruct Hj|].
    destruct Hj as (? & ? & ->). split_and!; [done..|apply trim_no_space_ends].
  - slot_just H2 Ha. intros p0 s0 c _ _ _ _ Hj. by destruct c.
  - slot_just H3 Ha. intros p0 s0 c _ _ _ _ Hj. destruct c; [|done]. cbn in *. tauto.
  - slot_just H4 Ha. intros p0 s0 c _ _ _ _ Hj. by destruct c.
  - slot_just H5 Ha. intros [pl st] s0 c (pl' & Hp & [= <- _])%fmap_Some _ _ _ Hj.
    destruct c; [|done]. view_of Hp. destruct Hp as (t & ? & ->). destruct Hj. by exists t.
  - slot_just H6 Ha. intros [pl df] s0 c Hp _ _ Hinv [-> Hj]. view_of Hp.
    destruct Hp as (t & ? & ? & ?). simplify_eq. exists t. split_and!; [done..|exact Hinv].
  - slot_just H7 Ha. intros p0 s0 c _ _ _ _ Hj. by destruct c.
Qed.

(** ** Writing to the remote side *)

Lemma raise_writes n a w :
  confirms a = false → forallb (negb ∘ Index.writes) (raise n a w).2 = true.
Proof.
  intros Hc. apply forallb_forall. intros e He%list_elem_of_In. revert He.
  destruct a as [o|a|a|a|mode| |a|a|a|a]; cbn [raise];
    try (intros ->%list_elem_of_singleton; done);
    unfold slot_act; repeat case_match; simplify_eq; cbn [snd];
    try (by intros ?%elem_of_nil);
    intros (c & -> & Hin)%list_elem_of_fmap;
    try (by destruct c).
  - match goal with H : screen_act _ _ _ = _ |- _ => cbn in H end.
    match goal with H : TemplateList.act ?ts ?a ?m = (_, ?calls) |- _ =>
      pose proof (act_confirms ts a m c) as Hcf; rewrite H in Hcf; specialize (Hcf Hin)
    end.
    destruct c; try done; cbn in *; [by subst|by destruct Hcf as [->|[? ->]]].
  - match goal with H : screen_act _ _ _ = _ |- _ => cbn in H end.
    destruct c; [|done]. destruct a; cbn in *; simplify_eq; try done;
      first [by apply elem_of_nil in Hin|by apply list_elem_of_singleton in Hin].
  - match goal with H : screen_act _ _ _ = _ |- _ => cbn in H end.
    destruct c; [|done]. destruct a; cbn in *; simplify_eq; try done;
      first [by apply elem_of_nil in Hin|by apply list_elem_of_singleton in Hin].
Qed.

(** ** The places stay consistent *)

Lemma manual_slot_storage pl st st' slot :
  slot_inv (ok:=any) (inv:=manual_inv) ((., st) <$> pl) slot →
  slot_inv (ok:=any) (inv:=manual_inv) ((., st') <$> pl) slot.
Proof. by destruct pl, slot. Qed.

Lemma render_slots_inv before after st st' c :
  slots_inv before st c → list_ok (Index.templates after) →
  slots_inv after st' (render before after st' c).
Proof.
  intros (H1 & H2 & H3 & H4 & H5 & H6 & H7) Hok. unfold slots_inv, render. cbn.
  split_and!; try (apply reconcile_slot_inv; [by destruct (shown _ after)|done]).
  - apply reconcile_slot_inv; [|done].
    destruct (shown as_list after) eqn:E; [|done]. by apply shown_list in E as [-> _].
  - apply reconcile_slot_inv; [by destruct (shown _ after)|].
    by apply (manual_slot_storage _ st).
Qed.

Lemma raise_slots_inv n a w :
  app_inv w → available w a = true →
  slots_inv (Index.page (index w)) (storage w) (raise n a w).1.
Proof.
  intros (Hr & (H1 & H2 & H3 & H4 & H5 & H6 & H7) & _) Ha.
  destruct a; cbn [raise available] in *; try done;
    match goal with
    | |- context [slot_act ?p ?a ?slot] =>
        let H := fresh in
        pose proof (λ Hs, slot_act_inv p a slot Hs Ha) as H;
        destruct (slot_act p a slot) as [? ?]
    end; unfold slots_inv; cbn in *; split_and!; auto.
Qed.

Lemma storage_after_idemp c st : storage_after c (storage_after c st) = storage_after c st.
Proof. unfold storage_after. by destruct (manual_slot c). Qed.

Lemma slots_inv_storage s st st' c : slots_inv s st c → slots_inv s st' c.
Proof.
  intros (H1 & H2 & H3 & H4 & H5 & H6 & H7). split_and!; try done.
  by apply (manual_slot_storage _ st).
Qed.

Lemma initial_app_inv r st : Store.table_wf r → app_inv (initial r st).
Proof.
  intros Hr. split_and!.
  - by constructor.
  - unfold slots_inv. cbn. split_and!; try done. split; [constructor|].
    split; [|done]. unfold TemplateList.dialogs_inv. by cbn.
  - apply storage_after_idemp.
Qed.

Lemma step_app_inv n a w : app_inv w → available w a = true → app_inv (step n a w).
Proof.
  intros Hw Ha. pose proof (raise_offered n a w Hw Ha) as Hoff.
  pose proof (raise_slots_inv n a w Hw Ha) as Hslots.
  unfold step. destruct (raise n a w) as [c events]. cbn [fst snd] in *.
  assert (Index.reachable (Index.run events (index w))) as Hr
    by (apply Index.reachable_run; [apply Hw|done]).
  split_and!; cbn [index storage screens].
  - done.
  - apply slots_inv_storage with (st:=storage_after c (storage w)).
    apply render_slots_inv with (st:=storage w);
      [done|apply (Index.reachable_invariants _ Hr)].
  - apply storage_after_idemp.
Qed.

Lemma reachable_app_inv w : reachable w → app_inv w.
Proof. induction 1; [by apply initial_app_inv|by apply step_app_inv]. Qed.

(** ** Actions the page does not hear of *)

Lemma reconcile_same {P S A C : Type} `{!Screen P S A C}
    {ok : P → Prop} {inv : P → S → Prop} (p : option P) (slot : option S) :
  (∀ p s, screen_rerender p p s = s) → slot_inv (ok:=ok) (inv:=inv) p slot →
  reconcile p p slot = slot.
Proof. intros Hre. destruct p, slot; cbn; try done. by rewrite Hre. Qed.

Lemma render_same s st c : slots_inv s st c → render s s st c = c.
Proof.
  intros (H1 & H2 & H3 & H4 & H5 & H6 & H7). destruct c. unfold render. cbn in *.
  f_equal; try (by eapply reconcile_same).
  eapply reconcile_same; [|done]. intros p m. cbn. by rewrite decide_True.
Qed.

(** An action that raises no event changes the component acted on and
    nothing else. *)
Lemma step_quiet n a w :
  app_inv w → available w a = true → (raise n a w).2 = [] →
  step n a w =
    mk_app (index w) (loading w) (storage_after (raise n a w).1 (storage w)) (raise n a w).1.
Proof.
  intros Hw Ha He. pose proof (raise_slots_inv n a w Hw Ha) as Hs. unfold step.
  assert (match a with Arrive _ => false | _ => loading w end = loading w) as ->
    by by destruct a.
  destruct (raise n a w) as [c events]. cbn [fst snd] in *. subst events. cbn [Index.run foldl].
  rewrite (render_same _ _ _ (slots_inv_storage _ _ (storage_after c (storage w)) _ Hs)).
  by rewrite storage_after_idemp.
Qed.

(** ** Filling the form *)

Lemma step_type n w pl s p v :
  app_inv w → shown as_manual (Index.page (index w)) = Some pl →
  manual_slot (screens w) = Some s → p ∈ pl →
  available w (OnManual (ManualFormFiller.Type_field p v)) = true
  ∧ step n (OnManual (ManualFormFiller.Type_field p v)) w =
      with_manual (ManualFormFiller.handleInputChange p v s) w.
Proof.
  intros Hw Hpl Hs Hp.
  assert (available w (OnManual (ManualFormFiller.Type_field p v)) = true) as Ha.
  { cbn. rewrite Hpl, Hs. cbn. by apply bool_decide_eq_true. }
  split; [done|]. rewrite step_quiet; try done; cbn; by rewrite Hpl, Hs.
Qed.

Lemma with_manual_inv s w :
  app_inv w → is_Some (manual_slot (screens w)) → app_inv (with_manual s w).
Proof.
  intros (Hr & (H1 & H2 & H3 & H4 & H5 & H6 & H7) & _) [s0 Hs]. split_and!; [done| |done].
  unfold slots_inv. cbn. split_and!; try done. rewrite Hs in H5.
  by destruct (shown as_manual _).
Qed.

Lemma run_typing n values pl ps w s :
  app_inv w → shown as_manual (Index.page (index w)) = Some pl →
  manual_slot (screens w) = Some s → Forall (.∈ pl) ps →
  run_available (typing n values ps) w = true
  ∧ run (typing n values ps) w = with_manual (typed values ps s) w.
Proof.
  intros Hw Hpl Hs Hps. revert w s Hw Hpl Hs.
  induction Hps as [|p ps Hp _ IH]; intros w s Hw Hpl Hs.
  - split; [done|]. destruct Hw as (_ & _ & Hst). unfold storage_after in Hst.
    rewrite Hs in Hst. cbn in Hst. destruct w as [i ld st []]. cbn in *. by subst.
  - cbn [typing fmap list_fmap run_available run foldl fst snd typed].
    destruct (step_type n w pl s p (values p) Hw Hpl Hs Hp) as [Ha ->]. rewrite Ha.
    destruct (IH (with_manual (ManualFormFiller.handleInputChange p (values p) s) w)
                (ManualFormFiller.handleInputChange p (values p) s)) as [Hav Hrun];
      [by apply with_manual_inv; rewrite ?Hs|done..|].
    split; [done|]. unfold run, typing in Hrun. by rewrite Hrun.
Qed.

Lemma typed_get values ps s q :
  row_get (ManualFormFiller.formData (typed values ps s)) q =
    if decide (q ∈ ps) then Some (VStr (values q))
    else row_get (ManualFormFiller.formData s) q.
Proof.
  revert s. induction ps as [|p ps IH]; intros s; [done|].
  cbn [typed foldl]. fold (typed values ps (ManualFormFiller.handleInputChange p (values p) s)).
  rewrite IH. destruct (decide (q ∈ ps)) as [Hin|Hnin].
  - rewrite decide_True; [done|by right].
  - cbn. destruct (decide (p = q)) as [->|Hne].
    + rewrite row_get_set_eq, decide_True; [done|by left].
    + rewrite row_get_set_ne by done. rewrite decide_False; [done|].
      rewrite not_elem_of_cons. by split.
Qed.

Lemma typed_complete values pl s :
  (∀ p, p ∈ pl → values p ≠ []) →
  ManualFormFiller.isComplete pl (typed values pl s) = true.
Proof.
  intros Hv. apply forallb_forall. intros p Hp%list_elem_of_In.
  rewrite typed_get, decide_True by done. cbn. by rewrite bool_decide_eq_false_2 by auto.
Qed.

(** ** From the card to the document *)

Lemma app_run_app l1 l2 w : run (l1 ++ l2) w = run l2 (run l1 w).
Proof. apply foldl_app. Qed.

Lemma run_available_app l1 l2 w :
  run_available (l1 ++ l2) w = run_available l1 w && run_available l2 (run l1 w).
Proof.
  revert w. induction l1 as [|na l1 IH]; intros w; [done|].
  cbn [Datatypes.app run_available run foldl]. by rewrite IH, andb_assoc.
Qed.

Lemma shown_view {P} (sel : Index.screen → option P) s sc :
  Index.view s = [sc] → shown sel s = sel sc.
Proof. unfold shown. intros ->. cbn. by destruct (sel sc). Qed.

Lemma index_step n a w : index (step n a w) = Index.run (raise n a w).2 (index w).
Proof. unfold step. by destruct (raise n a w). Qed.

Lemma manual_slot_step n a w :
  manual_slot (screens (step n a w)) =
    reconcile ((., storage_after (raise n a w).1 (storage w))
                 <$> shown as_manual (Index.page (index w)))
      ((., storage_after (raise n a w).1 (storage w))
         <$> shown as_manual (Index.page (index (step n a w))))
      (manual_slot (raise n a w).1).
Proof. unfold step. by destruct (raise n a w). Qed.

Lemma storage_step n a w :
  storage (step n a w) =
    storage_after (screens (step n a w)) (storage_after (raise n a w).1 (storage w)).
Proof. unfold step. by destruct (raise n a w). Qed.

(** A click on the card of a template selects it. *)
Lemma step_select n w template :
  app_inv w →
  available w (OnList (TemplateList.Click_card template TemplateCard.Card)) = true →
  let w1 := step n (OnList (TemplateList.Click_card template TemplateCard.Card)) w in
  index w1 = Index.handle (Index.TemplateSelect template) (index w)
  ∧ manual_slot (screens w1) = None ∧ storage w1 = storage w
  ∧ template ∈ Index.templates (Index.page (index w))
  ∧ Index.on_display (Index.page (index w)) Index.is_list.
Proof.
  intros Hw Ha w1. pose proof (raise_just n _ w Hw Ha) as Hj.
  destruct Hw as (Hr & (H1 & _ & _ & _ & H5 & _) & Hst).
  cbn [available] in Ha. unfold slot_available in Ha.
  destruct (shown as_list _) as [ts|] eqn:Hts; [|done].
  destruct (list_slot _) as [m|] eqn:Hm; [|done].
  pose proof Hts as [-> Hd]%shown_list.
  assert (raise n (OnList (TemplateList.Click_card template TemplateCard.Card)) w =
            (screens w, [Index.TemplateSelect template])) as Hraise.
  { cbn [raise]. rewrite Hts, Hm. cbn [slot_act screen_act list_screen].
    rewrite act_click_card. cbn. rewrite <-Hm. by destruct (screens w). }
  rewrite Hraise in Hj. apply Forall_inv in Hj. cbn in Hj.
  destruct (Index.step_inv_one_screen _ (proj1 (Index.reachable_invariants _ Hr))) as [sc Hv].
  rewrite (shown_view _ _ _ Hv) in Hts. destruct sc; try done.
  rewrite (shown_view _ _ _ Hv) in H5. cbn in H5.
  destruct (manual_slot (screens w)) eqn:Hms; [done|].
  assert (manual_slot (screens w1) = None) as Hm1.
  { subst w1. rewrite manual_slot_step, index_step, Hraise. cbn [snd Index.run foldl].
    destruct (index w) as [s r]. cbn [Index.handle Index.page].
    by rewrite (shown_view _ _ _ (proj1 (Index.select_manual_views s template))). }
  split_and!; try done.
  - subst w1. by rewrite index_step, Hraise.
  - subst w1. rewrite storage_step. unfold storage_after at 1. rewrite Hm1, Hraise.
    cbn. unfold storage_after. by rewrite Hms.
Qed.

(** The choice to fill by hand mounts the form on the draft. *)
Lemma step_mode n w1 template :
  Index.view (Index.page (index w1)) = [Index.ChooseDataSource template] →
  manual_slot (screens w1) = None →
  Index.view (Index.page (Index.handle (Index.DataModeSelect Index.mode_manual) (index w1))) =
    [Index.ManualFormFillerScreen (Template.placeholders template)] →
  let w2 := step n (Click_mode Index.mode_manual) w1 in
  available w1 (Click_mode Index.mode_manual) = true
  ∧ index w2 = Index.handle (Index.DataModeSelect Index.mode_manual) (index w1)
  ∧ manual_slot (screens w2) =
      Some (ManualFormFiller.initial (Template.placeholders template) (storage w1)).
Proof.
  intros Hv Hm Hv2 w2. split_and!.
  - cbn. apply bool_decide_eq_true. unfold Index.on_display. rewrite Hv. by repeat constructor.
  - subst w2. by rewrite index_step.
  - subst w2. rewrite manual_slot_step, index_step. cbn [raise snd fst Index.run foldl].
    rewrite (shown_view _ _ _ Hv), (shown_view _ _ _ Hv2). cbn. unfold storage_after.
    by rewrite Hm.
Qed.

(** Submitting a complete form hands it to the page. *)
Lemma step_submit n w pl s :
  shown as_manual (Index.page (index w)) = Some pl → manual_slot (screens w) = Some s →
  ManualFormFiller.isComplete pl s = true →
  available w (OnManual ManualFormFiller.Submit) = true
  ∧ index (step n (OnManual ManualFormFiller.Submit) w) =
      Index.handle (Index.ManualDataFilled (ManualFormFiller.formData s)) (index w).
Proof.
  intros Hpl Hs Hc. split; [by cbn; rewrite Hpl, Hs|].
  rewrite index_step. cbn [raise]. rewrite Hpl, Hs. cbn [fmap option_fmap option_map slot_act].
  cbn [screen_act manual_screen fst]. by rewrite submit_hands_form.
Qed.

(** ** From the card to the documents of a dataset *)

Lemma screens_step n a w :
  screens (step n a w) =
    render (Index.page (index w)) (Index.page (index (step n a w)))
      (storage_after (raise n a w).1 (storage w)) (raise n a w).1.
Proof. unfold step. by destruct (raise n a w). Qed.

Lemma step_select_field n w pl df m p f :
  app_inv w → shown as_mapper (Index.page (index w)) = Some (pl, df) →
  mapper_slot (screens w) = Some m → p ∈ pl → f ∈ df →
  available w (OnMapper (FieldMapper.Select_field p f)) = true
  ∧ step n (OnMapper (FieldMapper.Select_field p f)) w =
      with_mapper (FieldMapper.handleMappingChange p f m) w.
Proof.
  intros Hw Hpl Hm Hp Hf.
  assert (available w (OnMapper (FieldMapper.Select_field p f)) = true) as Ha.
  { cbn. rewrite Hpl, Hm. cbn. by rewrite !bool_decide_eq_true_2. }
  split; [done|]. rewrite step_quiet; try done; cbn; rewrite Hpl, Hm; [|done].
  cbn. unfold with_mapper. f_equal. apply Hw.
Qed.

Lemma run_selecting n pl df selections w m :
  app_inv w → shown as_mapper (Index.page (index w)) = Some (pl, df) →
  mapper_slot (screens w) = Some m →
  Forall (λ pf, pf.1 ∈ pl ∧ pf.2 ∈ df) selections →
  run_available (selecting n selections) w = true
  ∧ run (selecting n selections) w = with_mapper (selected selections m) w.
Proof.
  intros Hw Hpl Hm Hsel. revert w m Hw Hpl Hm.
  induction Hsel as [|[p f] sels [Hp Hf] _ IH]; intros w m Hw Hpl Hm.
  - split; [done|]. destruct w as [i ld st []]. cbn in *. by subst.
  - cbn [selecting fmap list_fmap run_available run foldl fst snd selected].
    destruct (step_select_field n w pl df m p f Hw Hpl Hm Hp Hf) as [Ha Hstep].
    pose proof (step_app_inv n _ w Hw Ha) as Hw'. rewrite Hstep in *. rewrite Ha.
    destruct (IH _ (FieldMapper.handleMappingChange p f m) Hw' Hpl eq_refl) as [Hav Hrun].
    split; [done|]. unfold run, selecting in Hrun. by rewrite Hrun.
Qed.

(** Continuing with complete bindings hands them to the page. *)
Lemma step_continue n w pl df m :
  shown as_mapper (Index.page (index w)) = Some (pl, df) → mapper_slot (screens w) = Some m →
  FieldMapper.isComplete pl m = true →
  available w (OnMapper FieldMapper.Click_continue) = true
  ∧ index (step n (OnMapper FieldMapper.Click_continue) w) =
      Index.handle (Index.MappingComplete m) (index w).
Proof.
  intros Hpl Hm Hc. split; [by cbn; rewrite Hpl, Hm|].
  rewrite index_step. cbn [raise]. rewrite Hpl, Hm. cbn [slot_act].
  cbn [screen_act mapper_screen fst]. by rewrite (FieldMapper.continue_hands_mappings pl df).
Qed.

(** Choosing a file that parses hands its rows to the page and mounts
    the mapper on the automatic mapping. *)
Lemma step_choose n w template file data s :
  let headers := row_keys (default [] (head data)) in
  let a := OnUploader (DatasetUploader.Choose (Some file) (Ok data) true) in
  Index.view (Index.page (index w)) = [Index.DatasetUploaderScreen template] →
  uploader_slot (screens w) = Some s →
  DatasetUploader.no_file s = true →
  DatasetUploader.is_dataset_name (Store.file_name file) = true →
  endsWith (Store.file_name file) (js ".csv") = true → data ≠ [] →
  Index.view (Index.page (Index.handle (Index.DataLoaded data headers) (index w))) =
    [Index.FieldMapperScreen (Template.placeholders template) headers] →
  available w a = true
  ∧ index (step n a w) = Index.handle (Index.DataLoaded data headers) (index w)
  ∧ mapper_slot (screens (step n a w)) =
      Some (FieldMapper.autoMappings (Template.placeholders template) headers).
Proof.
  intros headers a Hv Hs Hno Hn Hc Hd Hv'.
  assert (index (step n a w) = Index.handle (Index.DataLoaded data headers) (index w)) as Hi.
  { rewrite index_step. subst a. cbn [raise]. rewrite (shown_view _ _ _ Hv), Hs.
    cbn [as_uploader slot_act screen_act uploader_screen].
    pose proof (choose_loads file data s Hn Hc Hd) as Hcalls.
    destruct (DatasetUploader.act _ s) as [s' calls]. cbn in Hcalls. by subst calls. }
  split_and!; [|done|].
  - subst a. cbn. by rewrite (shown_view _ _ _ Hv), Hs.
  - rewrite screens_step, Hi. cbn [render mapper_slot].
    by rewrite (shown_view _ _ _ Hv), (shown_view _ _ _ Hv').
Qed.

(** The choice to upload a dataset mounts the uploader. *)
Lemma step_mode_dataset n w1 template :
  Index.view (Index.page (index w1)) = [Index.ChooseDataSource template] →
  Index.view (Index.page (Index.handle (Index.DataModeSelect Index.mode_dataset) (index w1))) =
    [Index.DatasetUploaderScreen template] →
  let w2 := step n (Click_mode Index.mode_dataset) w1 in
  available w1 (Click_mode Index.mode_dataset) = true
  ∧ index w2 = Index.handle (Index.DataModeSelect Index.mode_dataset) (index w1)
  ∧ uploader_slot (screens w2) = Some DatasetUploader.initial.
Proof.
  intros Hv Hv2 w2. split_and!.
  - cbn. apply bool_decide_eq_true. unfold Index.on_display. rewrite Hv. by repeat constructor.
  - subst w2. by rewrite index_step.
  - subst w2. rewrite screens_step, index_step. cbn [raise snd fst Index.run foldl].
    cbn [render uploader_slot]. by rewrite (shown_view _ _ _ Hv), (shown_view _ _ _ Hv2).
Qed.

Lemma app_reachable_run l w : reachable w → run_available l w = true → reachable (run l w).
Proof.
  revert w. induction l as [|[n a] l IH]; intros w Hw; cbn [run_available run foldl]; [done|].
  intros [Ha Hl]%andb_true_iff. apply IH; [by apply reach_step|done].
Qed.

(** ** The theorems *)


(** Every action available raises at most one event, and the page offers
    it. *)
Theorem action_is_offered n a w :
  reachable w → available w a = true →
  Index.run_offered (raise n a w).2 (index w) ∧ length (raise n a w).2 ≤ 1.
Proof.
  intros Hw%reachable_app_inv Ha. split; [by apply raise_offered|].
  destruct a; cbn [raise]; try (cbn; lia);
    match goal with
    | |- context [slot_act ?p ?a ?slot] =>
        destruct (slot_act_calls p a slot) as [E|[c E]];
        destruct (slot_act p a slot) as [? ?]; cbn in *; subst; cbn; lia
    end.
Qed.

(** C32. The events the page receives carry what the components checked: a
    file saved has the name of a Word document, a template saved by the
    editor has a name and a content, a row typed by hand has a value for
    every placeholder of the template selected, and the mappings handed on
    are complete for it. *)
Theorem events_justified n a w e :
  reachable w → available w a = true → e ∈ (raise n a w).2 →
  event_just (Index.page (index w)) e.
Proof.
  intros Hw%reachable_app_inv Ha He.
  by apply (proj1 (Forall_forall _ _) (raise_just n a w Hw Ha)).
Qed.

(** C20. The stored templates change only when the user confirms: an action
    that is not the confirmation of a dialog of the list nor a click on a
    button that saves leaves the remote table and the file store as they
    are. *)
Theorem table_changes_on_confirmation n a w :
  confirms a = false → Index.remote (index (step n a w)) = Index.remote (index w).
Proof.
  intros Hc. pose proof (raise_writes n a w Hc) as Hw. unfold step.
  destruct (raise n a w) as [c events]. cbn [index]. by apply Index.run_remote.
Qed.

(** C12. A user can always get a document out of a card on display: the click
    on the card, the choice to fill by hand, a value that is not empty typed
    into each field and the click on the button that submits are available
    one after the other, and they end on the preview of the one document
    merged from the row typed, provided the placeholders are free of pattern
    syntax and the values free of [$] and [{]. *)
Theorem user_can_generate n w template values :
  reachable w →
  available w (OnList (TemplateList.Click_card template TemplateCard.Card)) = true →
  (∀ p, p ∈ Template.placeholders template → values p ≠ []) →
  Forall (good_mapping (typed_row values template (storage w)))
    (Index.identity_mappings (Template.placeholders template)) →
  run_available (manual_actions n template values) w = true
  ∧ Index.view (Index.page (index (run (manual_actions n template values) w))) =
      [Index.DocumentPreviewScreen
         (DocumentPreview.mk_props
            [MergedDocument.mk (doc_id 0) [] (typed_row values template (storage w))]
            template [typed_row values template (storage w)]
            (Index.identity_mappings (Template.placeholders template)))].
Proof.
  intros Hw%reachable_app_inv Ha Hv Hgood. set (pl := Template.placeholders template) in *.
  destruct (step_select n w template Hw Ha) as (Hi1 & Hm1 & Hst1 & Hin & Hd).
  set (w1 := step n (OnList (TemplateList.Click_card template TemplateCard.Card)) w) in *.
  pose proof (step_app_inv n _ w Hw Ha) as Hw1. fold w1 in Hw1.
  destruct (Index.select_manual_views (Index.page (index w)) template) as [Hv1 Hv2].
  assert (Index.view (Index.page (index w1)) = [Index.ChooseDataSource template]) as Hview1
    by (rewrite Hi1; by destruct (index w)).
  destruct (step_mode n w1 template Hview1 Hm1) as (Ha2 & Hi2 & Hm2);
    [rewrite Hi1; by destruct (index w)|].
  set (w2 := step n (Click_mode Index.mode_manual) w1) in *.
  pose proof (step_app_inv n _ w1 Hw1 Ha2) as Hw2. fold w2 in Hw2.
  assert (shown as_manual (Index.page (index w2)) = Some pl) as Hpl.
  { rewrite Hi2, Hi1. destruct (index w) as [s r]. cbn [Index.handle Index.page].
    by rewrite (shown_view _ _ _ Hv2). }
  destruct (run_typing n values pl pl w2 _ Hw2 Hpl Hm2) as [Ha3 Hrun3];
    [by apply Forall_forall|].
  rewrite Hst1 in *. fold (typed_row values template (storage w)) in *.
  set (s3 := typed values pl (ManualFormFiller.initial pl (storage w))) in *.
  destruct (step_submit n (with_manual s3 w2) pl s3 Hpl eq_refl (typed_complete _ _ _ Hv))
    as [Ha4 Hi4].
  unfold manual_actions. subst s3 pl.
  rewrite !run_available_app, !app_run_app.
  change (run [(n, OnList (TemplateList.Click_card template TemplateCard.Card));
               (n, Click_mode Index.mode_manual)] w) with w2.
  rewrite Ha3, Hrun3. cbn [run foldl run_available fst snd]. fold w1.
  rewrite Ha, Ha2, Ha4. split; [done|].
  rewrite Hi4. cbn [with_manual index]. rewrite Hi2, Hi1.
  destruct (index w) as [s r] eqn:E. cbn [Index.page] in *.
  destruct Hw as (Hr & _). rewrite E in Hr.
  destruct (Index.reachable_invariants _ Hr) as [Hs (_ & _ & Hstored & _)].
  apply (Index.manual_plan_generates s r template); try done.
  by apply (proj1 (Forall_forall _ _) Hstored).
Qed.

(** C13. A user can always get the documents of a dataset out of a card on
    display: the click on the card, the choice to upload, the choice of a
    file named [.csv] that parses to rows, the choice of fields that makes
    the bindings complete and the click on the button that continues are
    available one after the other, and they end on the preview of one
    document for each row, in order, merged with the bindings on display,
    provided the placeholders bound are free of pattern syntax and the
    values free of [$] and [{]. *)
Theorem user_can_merge n w template file data selections :
  let headers := row_keys (default [] (head data)) in
  let mappings :=
    selected selections (FieldMapper.autoMappings (Template.placeholders template) headers) in
  reachable w →
  available w (OnList (TemplateList.Click_card template TemplateCard.Card)) = true →
  DatasetUploader.is_dataset_name (Store.file_name file) = true →
  endsWith (Store.file_name file) (js ".csv") = true → data ≠ [] →
  Forall (λ pf, pf.1 ∈ Template.placeholders template ∧ pf.2 ∈ headers) selections →
  FieldMapper.isComplete (Template.placeholders template) mappings = true →
  Forall (λ row, Forall (good_mapping row) mappings) data →
  run_available (dataset_actions n template file data selections) w = true
  ∧ Index.view (Index.page (index (run (dataset_actions n template file data selections) w))) =
      [Index.DocumentPreviewScreen
         (DocumentPreview.mk_props
            (imap (λ index row, MergedDocument.mk (doc_id index) [] row) data)
            template data mappings)].
Proof.
  intros headers mappings Hw%reachable_app_inv Ha Hn Hcsv Hd Hsel Hc Hgood.
  destruct (step_select n w template Hw Ha) as (Hi1 & _ & _ & Hin & Hl).
  set (w1 := step n (OnList (TemplateList.Click_card template TemplateCard.Card)) w) in *.
  pose proof (step_app_inv n _ w Hw Ha) as Hw1. fold w1 in Hw1.
  destruct Hw as (Hr & _).
  destruct (Index.reachable_invariants _ Hr) as [_ (_ & _ & Hstored & _)].
  assert (Index.stored template) as Hst by by apply (proj1 (Forall_forall _ _) Hstored).
  destruct (Index.select_dataset_views (Index.page (index w)) template data headers mappings)
    as (Hv2 & Hv3 & Hv4); try done.
  { by apply (Index.reachable_clean _ Hr), Index.on_display_list. }
  assert (Index.view (Index.page (index w1)) = [Index.ChooseDataSource template]) as Hv1.
  { rewrite Hi1. destruct (index w). apply Index.select_manual_views. }
  destruct (step_mode_dataset n w1 template Hv1) as (Ha2 & Hi2 & Hu2);
    [rewrite Hi1; by destruct (index w)|].
  set (w2 := step n (Click_mode Index.mode_dataset) w1) in *.
  pose proof (step_app_inv n _ w1 Hw1 Ha2) as Hw2. fold w2 in Hw2.
  destruct (step_choose n w2 template file data DatasetUploader.initial) as (Ha3 & Hi3 & Hm3);
    try done; try (rewrite Hi2, Hi1; by destruct (index w)).
  set (w3 := step n (OnUploader (DatasetUploader.Choose (Some file) (Ok data) true)) w2) in *.
  pose proof (step_app_inv n _ w2 Hw2 Ha3) as Hw3. fold w3 in Hw3.
  assert (shown as_mapper (Index.page (index w3)) =
            Some (Template.placeholders template, headers)) as Hpl.
  { rewrite Hi3, Hi2, Hi1. destruct (index w) as [s r]. cbn [Index.handle Index.page] in *.
    by rewrite (shown_view _ _ _ Hv3). }
  destruct (run_selecting n _ _ selections w3 _ Hw3 Hpl Hm3 Hsel) as [Ha4 Hrun4].
  destruct (step_continue n (with_mapper mappings w3) _ _ mappings Hpl eq_refl Hc) as [Ha5 Hi5].
  unfold dataset_actions. subst mappings headers. rewrite !run_available_app, !app_run_app.
  change (run [(n, OnList (TemplateList.Click_card template TemplateCard.Card));
               (n, Click_mode Index.mode_dataset);
               (n, OnUploader (DatasetUploader.Choose (Some file) (Ok data) true))] w) with w3.
  rewrite Ha4, Hrun4. cbn [run foldl run_available fst snd]. fold w1. fold w2.
  rewrite Ha, Ha2, Ha3, Ha5. split; [done|].
  rewrite Hi5. cbn [with_mapper index]. rewrite Hi3, Hi2, Hi1.
  destruct (index w) as [s r]. exact Hv4.
Qed.


(** C35. The preview of the application is always at the first document: the
    button "Download This" is enabled and offers the file of the first
    document, or reports an error, whatever the number of documents
    generated and whatever the file store and the engine answer. *)
Theorem preview_downloads_first fetch engine w p s :
  reachable w → shown as_preview (Index.page (index w)) = Some p →
  preview_slot (screens w) = Some s →
  available w (OnPreview DocumentPreview.Click_download_this) = true
  ∧ (DocumentPreview.click fetch engine p DocumentPreview.Click_download_this s).2 =
      match DocumentPreview.single_file fetch engine p 0 with
      | Some f =>
          [DocumentPreview.File f;
           DocumentPreview.Toast
             (toast_success (if DocumentPreview.isWordTemplate p
                             then js "Word document downloaded"
                             else js "Document downloaded"))]
      | None => [DocumentPreview.Toast (toast_error (js "Error generating document"))]
      end.
Proof.
  intros (_ & (_ & _ & _ & _ & _ & _ & H7) & _)%reachable_app_inv Hp Hs.
  cbn [available]. rewrite Hs, Hp in *. destruct H7 as [_ ->]. split; [done|].
  cbn. unfold DocumentPreview.downloadSingleDocument.
  by destruct (DocumentPreview.single_file _ _ _ _).
Qed.

(** ** The theorems at a sample session *)

Lemma sample_app_reachable l :
  run_available l (initial sample_remote ManualFormFiller.NoItem) = true →
  reachable (sample_run l).
Proof.
  intros Hl. apply app_reachable_run; [|done]. constructor. apply (bool_decide_unpack _).
  by vm_compute.
Qed.


Lemma action_is_offered_witness :
  Index.run_offered
    (raise sample_answers (OnList (TemplateList.Click_card sample_template TemplateCard.Card))
       (sample_run sample_arrival)).2
    (index (sample_run sample_arrival))
  ∧ length (raise sample_answers
              (OnList (TemplateList.Click_card sample_template TemplateCard.Card))
              (sample_run sample_arrival)).2 ≤ 1.
Proof. apply action_is_offered; [apply sample_app_reachable|]; by vm_compute. Defined.

Lemma events_justified_witness :
  event_just (Index.page (index (sample_run sample_arrival)))
    (Index.TemplateSelect sample_template).
Proof.
  apply (events_justified sample_answers
           (OnList (TemplateList.Click_card sample_template TemplateCard.Card)));
    [apply sample_app_reachable; by vm_compute|by vm_compute|].
  vm_compute. by left.
Defined.

Lemma table_changes_on_confirmation_witness :
  Index.remote
    (index (step sample_answers
              (OnList (TemplateList.Click_card sample_template TemplateCard.DeleteButton))
              (sample_run sample_arrival))) =
  Index.remote (index (sample_run sample_arrival)).
Proof. by apply table_changes_on_confirmation. Defined.


Lemma preview_downloads_first_witness :
  available (sample_run sample_session)
    (OnPreview DocumentPreview.Click_download_this) = true
  ∧ (DocumentPreview.click (λ _, None) (λ _ _, None)
       (DocumentPreview.mk_props
          [MergedDocument.mk (doc_id 0) [] [(js "Name", VStr (js "Ann"))]] sample_template
          [[(js "Name", VStr (js "Ann"))]] [FieldMapping.mk (js "Name") (js "Name")])
       DocumentPreview.Click_download_this DocumentPreview.initial).2 =
    [DocumentPreview.Toast (toast_error (js "Error generating document"))].
Proof.
  apply (preview_downloads_first (λ _, None) (λ _ _, None) (sample_run sample_session));
    [apply sample_app_reachable|..]; by vm_compute.
Defined.

Lemma user_can_generate_witness :
  run_available (manual_actions sample_answers sample_template (λ _, js "Ann"))
    (sample_run sample_arrival) = true
  ∧ Index.view
      (Index.page
         (index (run (manual_actions sample_answers sample_template (λ _, js "Ann"))
                   (sample_run sample_arrival)))) =
      [Index.DocumentPreviewScreen
         (DocumentPreview.mk_props
            [MergedDocument.mk (doc_id 0) []
               (typed_row (λ _, js "Ann") sample_template
                  (storage (sample_run sample_arrival)))]
            sample_template
            [typed_row (λ _, js "Ann") sample_template (storage (sample_run sample_arrival))]
            (Index.identity_mappings (Template.placeholders sample_template)))].
Proof.
  apply user_can_generate.
  - apply sample_app_reachable. by vm_compute.
  - by vm_compute.
  - done.
  - apply (bool_decide_unpack _). by vm_compute.
Defined.

Lemma user_can_merge_witness :
  run_available
    (dataset_actions sample_answers sample_template (Store.mk_file (js "people.csv") [])
       [[(js "name", VStr (js "Ann"))]; [(js "name", VStr (js "Bob"))]] [])
    (sample_run sample_arrival) = true
  ∧ Index.view
      (Index.page
         (index (run (dataset_actions sample_answers sample_template
                        (Store.mk_file (js "people.csv") [])
                        [[(js "name", VStr (js "Ann"))]; [(js "name", VStr (js "Bob"))]] [])
                   (sample_run sample_arrival)))) =
      [Index.DocumentPreviewScreen
         (DocumentPreview.mk_props
            (imap (λ index row, MergedDocument.mk (doc_id index) [] row)
               [[(js "name", VStr (js "Ann"))]; [(js "name", VStr (js "Bob"))]])
            sample_template
            [[(js "name", VStr (js "Ann"))]; [(js "name", VStr (js "Bob"))]]
            (selected []
               (FieldMapper.autoMappings (Template.placeholders sample_template)
                  (row_keys (default [] (head [[(js "name", VStr (js "Ann"))];
                                              [(js "name", VStr (js "Bob"))]]))))))].
Proof.
  apply (user_can_merge sample_answers (sample_run sample_arrival)).
  - apply sample_app_reachable. by vm_compute.
  - by vm_compute.
  - by vm_compute.
  - by vm_compute.
  - done.
  - constructor.
  - by vm_compute.
  - apply (bool_decide_unpack _). by vm_compute.
Defined.

End App.
