(* ===== verification/Settling.v ===== *)
(** * Settling: the Word batch when the rows settle in any order

    [mergeAllWordDocuments] of [src/src/lib/wordDocumentUtils.ts] starts
    [mergeWordDocument] for every row and hands the promises to
    [Promise.all].  Each call stops at its one [await], the read of the
    bytes of the template, and runs to its end without another one once the
    read settles; the reads settle in an order the code does not control.

    [PromiseAll] is the record [Promise.all] keeps (the array of values,
    the count of promises not yet fulfilled, the outcome once there is one)
    with what the settling of one promise does to it.
    [mergeAllWordDocuments_settling order] is the batch when the rows settle
    in the order [order]; [Batch.mergeAllWordDocuments] is the batch as a
    function.

    The theorems say that the values sit at the index of their row whatever
    the order, that the batch is pending until the last row settles or the
    first one fails, that it then has the outcome of the function (up to
    which error is reported when several rows fail, which is the error of
    the row that settles first), that the rows still to settle after a
    failure are rendered all the same, and that the archive
    [DocumentPreview] builds of the outputs ([Export.v]) is the same in
    every order. *)

From Stdlib Require Import Ascii String ZArith.
From stdpp Require Import base numbers list.
From S2P Require Import Prelude JsString Types Batch Export.

Module PromiseAll.

Section promise_all.
Context {E B : Type}.

(** The record of one call of [Promise.all]: [values] with [None] at the
    places not written yet, [remaining] the promises not yet fulfilled,
    [settled] the outcome of the promise returned, [None] while it is
    pending.  The array the promise is fulfilled with is [values]. *)
Record t : Type := mk {
  values : list (option B);
  remaining : nat;
  settled : option (result E (list (option B)))
}.

(** A promise settles once: a later outcome is dropped. *)
Definition once (outcome : result E (list (option B))) (st : t) :
    option (result E (list (option B))) :=
  match settled st with
  | Some first => Some first
  | None => Some outcome
  end.

(** After the promises are taken in: no value yet, and an empty array
    fulfils at once. *)
Definition start (n : nat) : t :=
  mk (replicate n None) n (if decide (n = 0) then Some (Ok []) else None).

(** The promise at [index] is fulfilled with [b]. *)
Definition fulfil (index : nat) (b : B) (st : t) : t :=
  let values' := <[index := Some b]> (values st) in
  let remaining' := pred (remaining st) in
  mk values' remaining'
    (if decide (remaining' = 0) then once (Ok values') st else settled st).

(** A promise is rejected with [e]. *)
Definition reject (e : E) (st : t) : t :=
  mk (values st) (remaining st) (once (Err e) st).

Definition settle (index : nat) (r : result E B) (st : t) : t :=
  match r with
  | Ok b => fulfil index b st
  | Err e => reject e st
  end.

(** [Promise.all(promises)] after the promises at the indices [order] have
    settled, in that order, each with the result [promises] gives it. *)
Definition all (promises : list (result E B)) (order : list nat) : t :=
  foldl (λ st index,
           match promises !! index with
           | Some r => settle index r st
           | None => st
           end)
    (start (length promises)) order.

(** What a promise leaves in the array. *)
Definition value_of (r : result E B) : option B :=
  match r with
  | Ok b => Some b
  | Err _ => None
  end.

(** The promise at [index] is fulfilled when it settles. *)
Definition fulfils (promises : list (result E B)) (index : nat) : Prop :=
  ∃ b, promises !! index = Some (Ok b).

End promise_all.

Arguments t : clear implicits.

End PromiseAll.

(** The orders in which [n] promises can settle: each index once. *)
Definition schedule (n : nat) (order : list nat) : Prop := order ≡ₚ seq 0 n.

(** [mergeAllWordDocuments(templateBlob, dataset, mappings)] when the rows
    settle in the order [order]. *)
Definition mergeAllWordDocuments_settling {E B} (order : list nat)
    (engine : DataRow → result E B) (dataset : list DataRow)
    (mappings : list FieldMapping.t) : PromiseAll.t E B :=
  PromiseAll.all ((λ row, mergeWordDocument engine row mappings) <$> dataset) order.

(** The row at [index] renders: its promise is fulfilled. *)
Definition renders {E B} (engine : DataRow → result E B) (dataset : list DataRow)
    (mappings : list FieldMapping.t) (index : nat) : Prop :=
  ∃ row out, dataset !! index = Some row ∧ engine (word_data row mappings) = Ok out.

(** The engine of [Export.v], which fails without an error to tell, as
    an engine of the batch. *)
Definition thrown_engine (engine : DataRow → option jstring) (data : DataRow) :
    result unit jstring :=
  from_option Ok (Err ()) (engine data).

(** The entries [downloadAllAsZip] of [DocumentPreview] puts in the archive
    of a Word template once [mergeAllWordDocuments] has settled: one for each
    value of the array, and none when the batch was rejected. *)
Definition settled_entries (st : PromiseAll.t unit jstring) :
    option (list (jstring * jstring)) :=
  match PromiseAll.settled st with
  | Some (Ok allDocuments) =>
      Some (imap (λ index arrayBuffer,
                    (DocumentPreview.document_name index (js "docx"), arrayBuffer))
              (omap id allDocuments))
  | _ => None
  end.

(** An engine that fails on a table without a name and reports the table,
    two rows it fails on and one it renders. *)
Definition sample_engine (data : DataRow) : result DataRow jstring :=
  match row_get data (js "Name") with
  | Some (VStr (c :: name)) => Ok (c :: name)
  | _ => Err data
  end.

Definition sample_mappings : list FieldMapping.t :=
  [FieldMapping.mk (js "Name") (js "name"); FieldMapping.mk (js "Year") (js "year")].

Definition sample_rows : list DataRow :=
  [ [(js "year", VNum 1901%Z)]; [(js "name", VStr (js "Ada")); (js "year", VNum 1815%Z)];
    [(js "year", VNum 1902%Z)] ].

Definition sample_named : list DataRow :=
  [ [(js "name", VStr (js "Ada")); (js "year", VNum 1815%Z)];
    [(js "name", VStr (js "Alan")); (js "year", VNum 1912%Z)] ].

(** ** [Promise.all] *)

Section promise_all_facts.
Context {E B : Type}.
Implicit Types (promises : list (result E B)) (order : list nat) (st : PromiseAll.t E B).
Import PromiseAll.

Lemma all_snoc promises order index :
  all promises (order ++ [index]) =
    match promises !! index with
    | Some r => settle index r (all promises order)
    | None => all promises order
    end.
Proof. unfold all. by rewrite foldl_snoc. Qed.

Lemma all_app promises order more :
  all promises (order ++ more) =
    foldl (λ st index, match promises !! index with
                       | Some r => settle index r st
                       | None => st
                       end) (all promises order) more.
Proof. unfold all. by rewrite foldl_app. Qed.

(** Indices below [n] without repetition are at most [n]. *)
Lemma part_length n order :
  NoDup order → Forall (λ i, i < n) order → length order ≤ n.
Proof.
  intros Hnd Hlt. trans (length (seq 0 n)); [|by rewrite length_seq].
  apply submseteq_length, NoDup_submseteq; [done|].
  intros i Hi. apply elem_of_seq. rewrite Forall_forall in Hlt. specialize (Hlt i Hi). lia.
Qed.

Lemma schedule_part n order :
  schedule n order → NoDup order ∧ Forall (λ i, i < n) order ∧ length order = n.
Proof.
  intros Hp. split_and!.
  - rewrite Hp. apply NoDup_seq.
  - rewrite Hp. apply Forall_seq. lia.
  - by rewrite Hp, length_seq.
Qed.

Lemma fulfils_lt promises index : fulfils promises index → index < length promises.
Proof. intros [b Hb]. by apply lookup_lt_Some in Hb. Qed.

(** Every place of the array holds the value of its own promise once that
    promise has settled, whatever the order. *)
Lemma values_lookup promises order j :
  values (all promises order) !! j =
    (λ r, if decide (j ∈ order) then value_of r else None) <$> promises !! j.
Proof.
  induction order as [|index order IH] using rev_ind.
  - cbn. destruct (promises !! j) as [r|] eqn:Hj; cbn.
    + apply lookup_replicate_2. by apply lookup_lt_Some in Hj.
    + apply lookup_ge_None. rewrite length_replicate. by apply lookup_ge_None.
  - rewrite all_snoc.
    assert (length (values (all promises order)) = length promises) as Hlen.
    { clear -order. induction order as [|i o IH] using rev_ind; [apply length_replicate|].
      rewrite all_snoc. destruct (promises !! i) as [[b|e]|]; cbn; [|done..].
      by rewrite length_insert. }
    destruct (promises !! index) as [[b|e]|] eqn:Hi; cbn.
    + destruct (decide (index = j)) as [->|Hne].
      * rewrite list_lookup_insert_eq, Hi by (rewrite Hlen; by apply lookup_lt_Some in Hi).
        cbn. rewrite decide_True; [done|]. apply elem_of_app. right. by apply list_elem_of_singleton.
      * rewrite list_lookup_insert_ne, IH by done. destruct (promises !! j); [cbn|done].
        f_equal. apply decide_ext. rewrite elem_of_app, list_elem_of_singleton. naive_solver.
    + rewrite IH. destruct (promises !! j) as [r|] eqn:Hj; [cbn|done]. f_equal.
      destruct (decide (j = index)) as [->|Hne].
      * simplify_eq. cbn. by destruct (decide _), (decide _).
      * apply decide_ext. rewrite elem_of_app, list_elem_of_singleton. naive_solver.
    + rewrite IH. destruct (promises !! j) as [r|] eqn:Hj; [cbn|done]. f_equal.
      apply decide_ext. rewrite elem_of_app, list_elem_of_singleton.
      split; [by left|]. intros [?| ->]; [done|congruence].
Qed.

Lemma values_all promises order :
  values (all promises order) =
    imap (λ j r, if decide (j ∈ order) then value_of r else None) promises.
Proof. apply list_eq. intros j. by rewrite values_lookup, list_lookup_imap. Qed.

(** An outcome is final. *)
Lemma settle_settled index r st o :
  settled st = Some o → settled (settle index r st) = Some o.
Proof.
  intros Hs. destruct r as [b|e]; cbn; unfold once; rewrite Hs; [|done].
  by destruct (decide _).
Qed.

Lemma all_settled promises order more o :
  settled (all promises order) = Some o → settled (all promises (order ++ more)) = Some o.
Proof.
  intros Hs. induction more as [|index more IH] using rev_ind; [by rewrite app_nil_r|].
  rewrite app_assoc, all_snoc. destruct (promises !! index); [|done].
  by apply settle_settled.
Qed.

(** While every promise that settled was fulfilled, the count is that of
    the promises still to settle, and the outcome is there exactly when
    none is left. *)
Lemma all_fulfilled promises order :
  NoDup order → Forall (fulfils promises) order →
  remaining (all promises order) = length promises - length order
  ∧ settled (all promises order) =
      if decide (length order = length promises)
      then Some (Ok (values (all promises order))) else None.
Proof.
  induction order as [|index order IH] using rev_ind; intros Hnd Hok.
  - cbn. split; [lia|]. destruct promises; [done|]. by rewrite decide_False.
  - pose proof (part_length (length promises) _ Hnd
      (Forall_impl _ _ _ Hok (fulfils_lt promises))) as Hlen.
    rewrite length_app in Hlen |- *. cbn in Hlen |- *.
    apply NoDup_app in Hnd as (Hnd & _ & _). apply Forall_app in Hok as [Hok Hi].
    destruct (IH Hnd Hok) as [Hrem Hset]. apply Forall_singleton in Hi as [b Hb].
    rewrite all_snoc, Hb. cbn. unfold once. rewrite Hrem, Hset.
    split; [lia|]. repeat case_decide; first [done|exfalso; lia].
Qed.

(** An order that holds a promise that is rejected has a first one. *)
Lemma first_rejected promises order :
  Forall (λ i, i < length promises) order → ¬ Forall (fulfils promises) order →
  ∃ before index after e, order = before ++ index :: after
    ∧ Forall (fulfils promises) before ∧ promises !! index = Some (Err e).
Proof.
  induction order as [|i order IH]; intros Hlt Hnot; [by destruct Hnot|].
  apply Forall_cons in Hlt as [Hi Hlt]. apply lookup_lt_is_Some in Hi as [[b|e] Hr].
  - destruct IH as (before & index & after & e & -> & Hb & He); [done|..].
    { intros Hall. apply Hnot. constructor; [by exists b|done]. }
    exists (i :: before), index, after, e. split_and!; [done| |done].
    constructor; [by exists b|done].
  - by exists [], i, order, e.
Qed.

End promise_all_facts.

(** ** The batch *)

Section batch.
Context {E B : Type} (engine : DataRow → result E B).
Implicit Types (dataset : list DataRow) (mappings : list FieldMapping.t) (order : list nat).
Import PromiseAll.

(** The promises of the batch, as [dataset.map] makes them. *)
Lemma mergeAllWordDocuments_all_ok dataset mappings :
  mergeAllWordDocuments engine dataset mappings =
    all_ok ((λ row, mergeWordDocument engine row mappings) <$> dataset).
Proof. done. Qed.

(** A failure among the rows that settled rejects the batch with the error
    of the first of them to settle, and nothing after it changes that. *)
Lemma all_rejected (promises : list (result E B)) before index after e :
  NoDup (before ++ [index]) → Forall (fulfils promises) before →
  promises !! index = Some (Err e) →
  settled (all promises (before ++ index :: after)) = Some (Err e).
Proof.
  intros Hnd Hok He. rewrite (cons_middle index), app_assoc. apply all_settled.
  assert (length (before ++ [index]) ≤ length promises) as Hlen.
  { apply part_length; [done|]. apply Forall_app. split.
    - by apply (Forall_impl _ _ _ Hok), fulfils_lt.
    - apply Forall_singleton. by apply lookup_lt_Some in He. }
  rewrite length_app in Hlen. cbn in Hlen. apply NoDup_app in Hnd as (Hnd & _ & _).
  destruct (all_fulfilled promises before Hnd Hok) as [_ Hset].
  rewrite all_snoc, He. cbn. unfold once. by rewrite Hset, decide_False by lia.
Qed.

Lemma all_ok_values (outs : list B) order :
  schedule (length outs) order →
  values (all (Ok (E:=E) <$> outs) order) = Some <$> outs.
Proof.
  intros Hp. rewrite values_all. apply list_eq. intros j.
  rewrite list_lookup_imap, !list_lookup_fmap.
  destruct (outs !! j) as [b|] eqn:Hj; [cbn|done].
  rewrite decide_True; [done|]. rewrite Hp. apply elem_of_seq.
  apply lookup_lt_Some in Hj. lia.
Qed.

(** When every promise is fulfilled the outcome is the array of the
    values, each at the index of its promise. *)
Lemma all_schedule_Ok (promises : list (result E B)) order outs :
  schedule (length promises) order → all_ok promises = Ok outs →
  all promises order = mk (Some <$> outs) 0 (Some (Ok (Some <$> outs))).
Proof.
  intros Hp ->%all_ok_Ok. rewrite length_fmap in Hp.
  destruct (schedule_part _ _ Hp) as (Hnd & Hlt & Hlen).
  destruct (all_fulfilled (Ok (E:=E) <$> outs) order Hnd) as [Hrem Hset].
  { apply (Forall_impl _ _ _ Hlt). intros i [b Hb]%lookup_lt_is_Some.
    exists b. by rewrite list_lookup_fmap, Hb. }
  rewrite length_fmap, Hlen in Hrem, Hset. rewrite decide_True in Hset by done.
  rewrite all_ok_values in Hset by done.
  destruct (all _ order) as [vs n o] eqn:Hall. cbn in *.
  f_equal; [|lia|done]. by rewrite <-(all_ok_values outs order Hp), Hall.
Qed.

Lemma renders_fulfils dataset mappings index :
  renders engine dataset mappings index ↔
  fulfils ((λ row, mergeWordDocument engine row mappings) <$> dataset) index.
Proof.
  unfold renders, fulfils, mergeWordDocument. rewrite list_lookup_fmap. split.
  - intros (row & out & -> & Hout). exists out. cbn. by rewrite Hout.
  - intros [out Hout]. destruct (dataset !! index) as [row|]; [|done].
    exists row, out. by simplify_eq/=.
Qed.

Lemma Forall_renders_fulfils dataset mappings order :
  Forall (renders engine dataset mappings) order ↔
  Forall (fulfils ((λ row, mergeWordDocument engine row mappings) <$> dataset)) order.
Proof. apply Forall_proper; [|done]. intros i. apply renders_fulfils. Qed.

(** C19. Whatever the order in which the rows settle, a batch in which every
    row renders is fulfilled when the last row settles, with the outputs
    [mergeAllWordDocuments] returns, each at the index of its row. *)
Theorem mergeAllWordDocuments_any_order order dataset mappings outs :
  schedule (length dataset) order →
  mergeAllWordDocuments engine dataset mappings = Ok outs →
  mergeAllWordDocuments_settling order engine dataset mappings =
    mk (Some <$> outs) 0 (Some (Ok (Some <$> outs))).
Proof.
  intros Hp Hok. apply all_schedule_Ok; [by rewrite length_fmap|done].
Qed.

(** The batch is rejected with the error of the first row to settle that
    fails, and what settles after it does not change the outcome. *)
Theorem mergeAllWordDocuments_first_settled before index after dataset mappings row e :
  NoDup (before ++ [index]) → Forall (renders engine dataset mappings) before →
  dataset !! index = Some row → engine (word_data row mappings) = Err e →
  settled (mergeAllWordDocuments_settling (before ++ index :: after) engine dataset mappings)
    = Some (Err e).
Proof.
  intros Hnd Hok Hrow He. apply all_rejected; [done|by apply Forall_renders_fulfils|].
  rewrite list_lookup_fmap, Hrow. cbn. unfold mergeWordDocument. by rewrite He.
Qed.

(** While the rows that settled all rendered and a row is still to settle,
    the batch is pending. *)
Theorem mergeAllWordDocuments_pending order dataset mappings :
  NoDup order → Forall (renders engine dataset mappings) order →
  length order < length dataset →
  settled (mergeAllWordDocuments_settling order engine dataset mappings) = None.
Proof.
  intros Hnd Hok Hlen. apply Forall_renders_fulfils in Hok.
  unfold mergeAllWordDocuments_settling. destruct (all_fulfilled _ order Hnd Hok) as [_ ->].
  rewrite length_fmap, decide_False; [done|lia].
Qed.

(** Once every row has settled the batch has an outcome, and it is a
    failure exactly when [mergeAllWordDocuments] fails. *)
Theorem mergeAllWordDocuments_settles order dataset mappings :
  schedule (length dataset) order →
  ∃ outcome,
    settled (mergeAllWordDocuments_settling order engine dataset mappings) = Some outcome
    ∧ is_ok outcome = is_ok (mergeAllWordDocuments engine dataset mappings).
Proof.
  intros Hp. destruct (mergeAllWordDocuments engine dataset mappings) as [outs|e] eqn:Hall.
  { rewrite (mergeAllWordDocuments_any_order order dataset mappings outs Hp Hall). by eexists. }
  destruct (schedule_part _ _ Hp) as (Hnd & Hlt & _).
  destruct (first_rejected ((λ row, mergeWordDocument engine row mappings) <$> dataset) order)
    as (before & index & after & e' & -> & Hok & He).
  - by rewrite length_fmap.
  - intros Hok. apply all_ok_Err in Hall as (i & Hi & _).
    pose proof (lookup_lt_Some _ _ _ Hi) as Hlen. rewrite length_fmap in Hlen.
    assert (i ∈ order) as Hin by (rewrite Hp; apply elem_of_seq; lia).
    rewrite Forall_forall in Hok. destruct (Hok i Hin) as [b Hb].
    by pose proof (eq_trans (eq_sym Hi) Hb).
  - exists (Err e'). split; [|done]. apply all_rejected; [|done..].
    rewrite (cons_middle index), app_assoc in Hnd. by apply NoDup_app in Hnd as (? & _ & _).
Qed.

(** When the rows settle in the order of the dataset the outcome is the
    result of [mergeAllWordDocuments], error included. *)
Theorem mergeAllWordDocuments_in_order dataset mappings :
  settled (mergeAllWordDocuments_settling (seq 0 (length dataset)) engine dataset mappings)
    = Some (fmap (M:=result E) (fmap (M:=list) Some)
             (mergeAllWordDocuments engine dataset mappings)).
Proof.
  destruct (mergeAllWordDocuments engine dataset mappings) as [outs|e] eqn:Hall.
  { by rewrite (mergeAllWordDocuments_any_order _ dataset mappings outs (reflexivity _) Hall). }
  apply mergeAllWordDocuments_Err in Hall as (i & row & Hi & He & Hok).
  pose proof (lookup_lt_Some _ _ _ Hi) as Hlen.
  replace (length dataset) with (i + S (length dataset - S i)) by lia.
  rewrite seq_app. cbn [seq]. rewrite Nat.add_0_l.
  apply (mergeAllWordDocuments_first_settled _ _ _ _ _ row); [|..|done|done].
  - replace (seq 0 i ++ [i]) with (seq 0 (S i)) by (by rewrite seq_S). apply NoDup_seq.
  - apply Forall_seq. intros j Hj. rewrite Forall_forall in Hok.
    destruct (lookup_lt_is_Some_2 dataset j) as [row' Hrow']; [lia|].
    exists row'. destruct (engine (word_data row' mappings)) as [out|e'] eqn:Hout; [by eexists|].
    assert (row' ∈ take i dataset) as Hin.
    { apply list_elem_of_lookup. exists j. rewrite lookup_take_lt by lia. done. }
    specialize (Hok row' Hin). by rewrite Hout in Hok.
Qed.

(** A row that renders leaves its output at its index once it has
    settled, whether the batch has been rejected before or not: a failure
    stops none of the rows still to settle. *)
Theorem rendered_after_rejection order dataset mappings index row out :
  index ∈ order → dataset !! index = Some row → engine (word_data row mappings) = Ok out →
  values (mergeAllWordDocuments_settling order engine dataset mappings) !! index
    = Some (Some out).
Proof.
  intros Hin Hrow Hout. unfold mergeAllWordDocuments_settling.
  rewrite values_lookup, list_lookup_fmap, Hrow. cbn.
  unfold mergeWordDocument. by rewrite decide_True, Hout.
Qed.

End batch.

(** ** The archive *)

Lemma mapM_all_ok {A} (f : A → option jstring) (l : list A) :
  mapM f l = match all_ok ((λ x, from_option Ok (Err ()) (f x)) <$> l) with
             | Ok outs => Some outs
             | Err _ => None
             end.
Proof.
  induction l as [|x l IH]; [done|]. cbn [mapM fmap list_fmap all_ok].
  rewrite IH. destruct (f x) as [b|]; [cbn|done]. by destruct (all_ok _).
Qed.

Lemma omap_id_Some {A} (l : list A) : omap id (Some <$> l) = l.
Proof. induction l as [|x l IH]; [done|]. cbn. by rewrite IH. Qed.

(** The archive of a Word template holds the same entries in whatever
    order the rows settle: what [DocumentPreview.zip_files] computes as a
    function is what the batch leaves once every row has settled, names
    and contents at the index of their row, and there is no archive
    exactly when some row fails. *)
Theorem archive_any_order fetch engine p order blob :
  schedule (length (DocumentPreview.dataset p)) order →
  DocumentPreview.isWordTemplate p = true →
  DocumentPreview.template_blob fetch p = Some blob →
  DocumentPreview.zip_files fetch engine p =
    settled_entries
      (mergeAllWordDocuments_settling order (thrown_engine (engine blob))
         (DocumentPreview.dataset p) (DocumentPreview.mappings p)).
Proof.
  intros Hp Hw Hblob. unfold DocumentPreview.zip_files, settled_entries.
  rewrite Hw, Hblob. cbn [mbind option_bind].
  rewrite (mapM_all_ok (λ row, engine blob (word_data row (DocumentPreview.mappings p)))).
  change (all_ok _) with (mergeAllWordDocuments (thrown_engine (engine blob))
    (DocumentPreview.dataset p) (DocumentPreview.mappings p)).
  destruct (mergeAllWordDocuments _ _ _) as [outs|e] eqn:Hall.
  - rewrite (mergeAllWordDocuments_any_order _ order _ _ outs Hp Hall). cbn.
    by rewrite omap_id_Some.
  - destruct (mergeAllWordDocuments_settles (thrown_engine (engine blob)) order
      (DocumentPreview.dataset p) (DocumentPreview.mappings p) Hp) as (o & -> & Ho).
    rewrite Hall in Ho. by destruct o.
Qed.

(** With two rows that fail, the error of the batch is that of the row
    that settles first: the failure of the last row when the rows settle
    from the last to the first, where [mergeAllWordDocuments] has the
    failure of the first row. *)
Example rejection_follows_settling :
  PromiseAll.settled
      (mergeAllWordDocuments_settling [2; 1; 0] sample_engine sample_rows sample_mappings)
    = Some (Err [(js "Name", VStr []); (js "Year", VNum 1902%Z)])
  ∧ mergeAllWordDocuments sample_engine sample_rows sample_mappings
    = Err [(js "Name", VStr []); (js "Year", VNum 1901%Z)].
Proof. by vm_compute. Qed.

Lemma mergeAllWordDocuments_any_order_witness :
  mergeAllWordDocuments_settling [1; 0] sample_engine sample_named sample_mappings =
    PromiseAll.mk [Some (js "Ada"); Some (js "Alan")] 0
      (Some (Ok [Some (js "Ada"); Some (js "Alan")])).
Proof.
  apply (mergeAllWordDocuments_any_order sample_engine [1; 0] sample_named sample_mappings
           [js "Ada"; js "Alan"]); [apply perm_swap|reflexivity].
Defined.

Lemma mergeAllWordDocuments_first_settled_witness :
  PromiseAll.settled
      (mergeAllWordDocuments_settling ([1] ++ 2 :: [0]) sample_engine sample_rows
         sample_mappings)
    = Some (Err [(js "Name", VStr []); (js "Year", VNum 1902%Z)]).
Proof.
  apply (mergeAllWordDocuments_first_settled sample_engine [1] 2 [0] sample_rows
           sample_mappings [(js "year", VNum 1902%Z)]).
  - by apply (bool_decide_unpack _).
  - apply Forall_singleton. by eexists _, _.
  - reflexivity.
  - reflexivity.
Defined.

Lemma rendered_after_rejection_witness :
  PromiseAll.values
      (mergeAllWordDocuments_settling [0; 1] sample_engine sample_rows sample_mappings) !! 1
    = Some (Some (js "Ada")).
Proof.
  apply (rendered_after_rejection sample_engine [0; 1] sample_rows sample_mappings 1
           [(js "name", VStr (js "Ada")); (js "year", VNum 1815%Z)]).
  - by apply (bool_decide_unpack _).
  - reflexivity.
  - reflexivity.
Defined.

Lemma archive_any_order_witness :
  DocumentPreview.zip_files (λ _, Some (js "blob"))
      (λ _ data, String_of <$> row_get data (js "Name"))
      (DocumentPreview.mk_props []
         (Template.mk [] [] [] [js "Name"] [] [] (Some (js "t.docx")) (Some true))
         sample_named sample_mappings)
  = settled_entries
      (mergeAllWordDocuments_settling [1; 0]
         (thrown_engine (λ data, String_of <$> row_get data (js "Name")))
         sample_named sample_mappings).
Proof.
  apply (archive_any_order (λ _, Some (js "blob"))
           (λ _ data, String_of <$> row_get data (js "Name"))
           (DocumentPreview.mk_props []
              (Template.mk [] [] [] [js "Name"] [] [] (Some (js "t.docx")) (Some true))
              sample_named sample_mappings) [1; 0] (js "blob"));
    [apply perm_swap|reflexivity|reflexivity].
Defined.
